(* ===== verification/_CoqProject ===== *)
-Q . S2P
Prelude.v
Utf8.v
Regex.v
Domain.v
Validate.v
Store.v
GoStd.v
GoDuration.v
Duration.v
Config.v
ConfigSpec.v
Json.v
ChatUsecase.v
MessageUsecase.v
UserUsecase.v
Http.v
Handlers.v
Middleware.v
RateLimit.v
Router.v
Routing.v
Schema.v
World.v
Sql.v
SqlWf.v
SqlRules.v
SqlReads.v
SqlWrites.v
Postgres.v
PostgresSpec.v
Mysql.v
MysqlSpec.v
Storage.v
ChatContract.v
ChatRefinement.v
ChatPolicy.v
MessageRefinement.v
MessagePolicy.v
Pagination.v
UserRefinement.v
Jwt.v
System.v
Writes.v
Requests.v
Rely.v
Concurrent.v
Permanence.v
Interleaving.v
HttpRefinement.v
Shapes.v
Logging.v
Ws.v
WsInvariant.v
UserPolicy.v
App.v
OnPostgres.v
Reliable.v
Cache.v
Redis.v
Cached.v
Coherence.v
CachedContract.v
CachedApp.v
CachedRequests.v
CachedInterleaving.v
HttpApp.v
Lifecycle.v
Example.v
ChatClaims.v
MessageClaims.v
UserClaims.v
SystemClaims.v
ConcurrencyClaims.v
MysqlClaims.v
CodecClaims.v
CacheClaims.v
HttpClaims.v
ConfigClaims.v
LifecycleClaims.v
WsClaims.v
