(* ===== verification/Prelude.v ===== *)
(** * VibeChat, a verified model

    VibeChat is a chat server: accounts, direct chats and groups with owners and
    administrators, messages with replies, reactions and read receipts, over HTTP
    and WebSocket, on PostgreSQL or MySQL, with an optional cache.  This library
    models it from the configuration file to the SQL statements, and proves what
    makes it correct.

    ** How the program is modelled

    - A Go function that returns [(T, error)] is a function into [res T]
      ([Domain.v]); errors are values with their wrapping, so [errors.Is] and
      [errors.As] are computed.  A panic is a value of its own in [Handlers.v].
    - The services ([ChatUsecase.v], [MessageUsecase.v], [UserUsecase.v]: the files
      of [internal/usecase]) are written once, generic in the monad and in the
      repository interfaces of [internal/domain], which are type classes.
    - The world ([World.v]) holds the tables, the cache and a tick.  [Env] supplies,
      at each tick, the clocks, the next UUID, the choices SQL leaves open and the
      fault of the infrastructure: none, a statement lost, or a statement executed
      whose answer is lost.  Every theorem is for all environments unless it says
      otherwise.
    - A statement is a function on the tables ([Schema.v], the migrations) that
      answers or violates a constraint.  [Sql.v] holds the clauses both storages
      share; a [Dialect] is what differs between the servers.
    - [Store.v] is the abstract state, a [store] of accounts, chats, roles,
      messages, receipts and reactions, and the contracts [ChatRepositorySpec],
      [UserRepositorySpec] and [MessageRepositorySpec] the services are verified
      against: each method has its effect, or none, or the infrastructure failed.
      [Latitude] is what a server may do differently; a [Strict] one uses none.

    ** The files

    - [Prelude], [Utf8], [Regex], [GoStd], [GoDuration], [Json]: results, monads and
      automation; Go strings as UTF-8, a derivative matcher for the regular
      expressions, the pieces of the standard library in use, the printer and the
      parser of [time.Duration] with their 64-bit and floating-point arithmetic,
      and [encoding/json] on the types the program writes and reads.
    - [Domain], [Validate]: [internal/domain], [utils/validate].
    - [Config], [ConfigSpec]: every [Config] with [SetDefaults] and [Validate],
      [utils/config/errors.go], [internal/config], the target of [cmd/migrate];
      [Duration]: [utils/config/duration.go].
    - [Postgres], [Mysql]: the methods of [storage/postgres] and [storage/mysql],
      one definition per statement ([q_...]) and one per method; [PostgresSpec],
      [MysqlSpec] prove the contracts with the lemmas of [SqlWf] (the tables
      satisfy their constraints), [SqlRules], [SqlReads] and [SqlWrites];
      [Storage] is [infrastructure/storage].
    - [ChatContract], [ChatRefinement], [ChatPolicy]: the membership protocol as a
      step relation, that every call of the chat service is a path of authorised
      steps, and, on a strict storage, exactly when it succeeds.  Likewise
      [MessageRefinement], [MessagePolicy], [Pagination], [UserRefinement],
      [UserPolicy]; [Jwt] is [utils/jwt] and [utils/hasher]; [System] is a server
      as a sequence of calls.
    - [Writes], [Requests], [Rely], [Concurrent], [Permanence], [Interleaving]:
      requests side by side.  A request is the tree of the operations its service
      asks of the repositories, the clock and the token library, and the server
      runs any number of them, one operation of one of them at a time; a
      rely-guarantee argument ([Rely], for any operations) gives every request what
      it needs of the others.  [CachedRequests] expands the operations into what
      the cached repositories do, [CachedInterleaving] extends the argument to the
      entries of the cache.
    - [Cache], [Redis], [Cached]: [infrastructure/cache] and [storage/cached];
      [Coherence] says what it means for an entry to tell the truth,
      [CachedContract] that the cached repositories honour the same contracts.
    - [Http], [Handlers], [Middleware], [RateLimit], [Router], [Routing]: requests,
      answers and status codes, the handlers, the middleware, the rate limiter's
      table, the patterns of [ServeMux]; [HttpRefinement] proves that the server
      with all of it implements a specification in terms of service calls.
      [Shapes] is a type system for the documents it answers with; [Logging] is
      [utils/logger] and the log of the middleware.
    - [Ws], [WsInvariant]: the hub, the clients with their buffers, connections as
      events interleaved with requests.
    - [App], [CachedApp], [HttpApp]: the wiring of [cmd/app/main.go], up to
      [newApplication] from a configuration; [Lifecycle] is the rest of
      [cmd/app/main.go] and [cmd/migrate/main.go]: the file, the log, and the
      goroutines of the process as a step relation, each [Shutdown] and each close
      a step of its own; [OnPostgres] fixes the storage for the theorems on exact
      behaviour, [Reliable] has the statements on messages as equations while
      nothing fails; [Example] is a concrete deployment.
    - [...Claims]: the theorems, each with a witness that runs on the deployment.

    ** What the theorems show

    - Safety ([HttpClaims], [SystemClaims], [CacheClaims]): however the application
      was configured, on either storage and without a cache, whatever requests it
      gets and whatever fails, it moves by authorised changes only; groups have
      owners, direct chats are pairs and unique, replies stay in their chat,
      accounts are unique; requests refused with 4xx changed nothing; every path
      but the four public ones needs a token; messages and accounts persist.  With
      the in-memory cache the same holds as long as executed statements are
      acknowledged, and [unacknowledged_removal_keeps_access] shows that the
      condition is needed.  Redis is not covered.
    - Requests side by side ([ConcurrencyClaims]): the invariants that hold however
      the operations of requests interleave, with the cache or without and whatever
      is lost, what then persists, and what checks without transactions and a
      cache filled after the read do not protect.  That the model of interleaved
      requests includes the sequential server is [in_turn_serves] of [Concurrent]
      and [cached_request_agrees] of [CachedRequests].
    - Exact behaviour ([ChatClaims], [MessageClaims], [UserClaims]), on PostgreSQL:
      an operation that succeeds satisfied its policy and had exactly its effect;
      one that fails did not satisfy it, and changed nothing, or met a failure of
      the infrastructure, which includes a statement PostgreSQL refuses.  For
      messages, while nothing fails, success is decided: the policy, and a text that
      PostgreSQL can store.  Following the cursors then reads the whole history once
      and ends.  A registered account can log in unless the login form refuses its
      password; tokens name their account and expire.  [MysqlClaims] shows where
      MySQL differs.
    - Bounds, ordering and languages ([HttpClaims], [WsClaims], [CodecClaims]): the
      rate limiter, the limits of a history request, the buffers and the order of
      frames, who hears a frame, unambiguous routing, the languages of addresses,
      JSON round trips, and the type of every answer.
    - Configuration and processes ([ConfigClaims], [LifecycleClaims]): [Validate]
      decides soundness; durations are read back from their texts; a process
      starts exactly as far as its file allows, and shuts down in order, the
      storage closing under the requests that outlast the shutdown; which lines the
      log gets.
    - What does not hold: [leaving_is_not_atomic], [blank_password_locks_out],
      [multibyte_password_fails], [websocket_never_opens],
      [removed_member_still_listens], [closing_one_of_two_shows_offline],
      [same_role_is_refused], [emojis_collide], [unused_section_is_not_checked],
      [window_alone_is_dropped], [checks_are_not_transactions],
      [cached_rights_survive_removal], [unacknowledged_removal_keeps_access],
      [requests_leave_no_log], [failed_server_waits], [profiler_may_outlive_stop],
      [late_requests_lose_the_storage], [null_is_refused], [nul_is_an_internal_error],
      [empty_lists_are_null], [star_is_no_wildcard_for_sockets].

    ** Bounds and fuel

    [walk], the client that follows the cursors, has fuel, and running out of it is
    an error: more than the number of live messages of the chat suffices, and the
    theorem proves the walk answered and complete with it.  [ParseDuration] recurses with the length of its text as fuel, and
    each term consumes a character.  A request side by side is a finite tree, and
    [budget] bounds its operations without the cache: eleven, or for a new group
    three and one for each member.  UTF-8 decoding recurses on the text itself.  [Atoi] and
    durations keep the range of 64-bit integers; limits and instants are integers of
    unbounded width, nanoseconds since the epoch, rounded as the column does.  The
    buffer of a client holds 256 frames, as in the code.

    ** What is a parameter

    [golang-jwt], [bcrypt], the UUID text form and parser, the WebSocket upgrader,
    the collation of text columns and of [LIKE], the drivers' opening of a data
    source name, the Redis client, the quoting of [%q], the YAML and JSON decoders
    of whole documents, [zerolog], [golang-migrate] and the calls to the operating
    system.  Laws ([GoJWTLaws], [BcryptLaws], [UUIDTextLaws], [UnicodeCILaws],
    [UpgraderLaws], [ZerologLaws], [LoweringLaws]) state what the code relies on,
    and [Example] or the file of the theorem has instances that satisfy them.  Of
    [golang-jwt] they say what it does with the key that signed a token, and nothing
    of other keys.  Whether closing a storage waits for the queries in progress is a
    parameter of the process, and that a data source name is taken is a hypothesis
    on the one the configuration at hand makes.

    ** What is not modelled, and why

    Requests side by side interleave at the operations of the storage (one statement
    or one transaction each) and of the cache; the HTTP server and the WebSocket hub
    of the other theorems serve one request after the other, though each may fail
    anywhere.  A Redis cache is modelled as calls of its client, but that Redis
    answers like a cache is not assumed, so the safety theorems cover no cache and
    the one in memory.
    The latency of the access log, the debug lines of the services, flags, sockets,
    TLS, ping and pong deadlines, the ticker that sweeps the in-memory cache,
    what closing a pool does beyond refusing queries, the [Allow] header of a 405, and the servers' limits on the
    size of a statement are input and output of libraries. *)
From Stdlib Require Export Ascii.
From stdpp Require Export base tactics list gmap strings fin_maps sorting.

(** ** Go results

    A Go function that returns [(T, error)] is a function into [result error T]:
    [Ok v] is [(v, nil)], [Err e] is [(zero, e)].  The error type is a parameter
    here; [Domain.error] instantiates it. *)
Inductive result (E A : Type) : Type :=
| Ok (a : A)
| Err (e : E).
Arguments Ok {E A} a.
Arguments Err {E A} e.

#[export] Instance result_eq_dec {E A} `{EqDecision E, EqDecision A} :
  EqDecision (result E A).
Proof. solve_decision. Defined.

Definition is_ok {E A} (r : result E A) : bool :=
  match r with Ok _ => true | Err _ => false end.

(** ** Monadic notation

    The services are written once, for any monad [M], and run in [ST]. *)
Definition try {M : Type -> Type} `{MRet M, MBind M} {E A B : Type}
    (m : M (result E A)) (k : A -> M (result E B)) : M (result E B) :=
  m ≫= fun r => match r with Ok a => k a | Err e => mret (Err e) end.

Declare Scope go_scope.
Delimit Scope go_scope with go.
Open Scope go_scope.

(** [let* x := m in k] runs [m] and binds its value, error included;
    [let? x := m in k] is [x, err := m; if err != nil { return err }; k]. *)
Notation "'let*' x := m 'in' k" := (mbind (fun x => k) m)
  (at level 10, x binder, m at level 200, k at level 200) : go_scope.
Notation "'let?' x := m 'in' k" := (try m (fun x => k))
  (at level 10, x binder, m at level 200, k at level 200) : go_scope.

(** A check computed without effects: [if err := in.Validate(); err != nil { return err }]. *)
Definition check_err {M : Type -> Type} `{MRet M} {E : Type} (o : option E) : M (result E unit) :=
  mret (match o with None => Ok tt | Some e => Err e end).

(** ** The state monad of the sequential semantics *)
Definition ST (W A : Type) : Type := W -> A * W.

#[export] Instance ST_ret {W} : MRet (ST W) := fun A a w => (a, w).
#[export] Instance ST_bind {W} : MBind (ST W) :=
  fun A B k m w => let p := m w in k p.1 p.2.

Lemma run_bind {W A B} (m : ST W A) (k : A -> ST W B) w a w' : m w = (a, w') -> mbind k m w = k a w'.
Proof. intros E. unfold mbind, ST_bind. by rewrite E. Qed.

(** Weakest precondition of a run: [Q] holds of the value and the final state. *)
Definition wp {W A} (m : ST W A) (Q : A -> W -> Prop) (w : W) : Prop :=
  Q (m w).1 (m w).2.

Section wp_rules.
Context {W E : Type}.

Lemma wp_ret {A} (a : A) (Q : A -> W -> Prop) w : Q a w -> wp (mret a) Q w.
Proof. done. Qed.

Lemma wp_bind {A B} (m : ST W A) (k : A -> ST W B) (Q : B -> W -> Prop) w :
  wp m (fun a w' => wp (k a) Q w') w -> wp (mbind k m) Q w.
Proof. done. Qed.

Lemma wp_mono {A} (m : ST W A) (P Q : A -> W -> Prop) w :
  wp m P w -> (forall a w', P a w' -> Q a w') -> wp m Q w.
Proof. unfold wp. eauto. Qed.

Lemma wp_and {A} (m : ST W A) (P Q : A -> W -> Prop) w :
  wp m P w -> wp m Q w -> wp m (fun a w' => P a w' /\ Q a w') w.
Proof. unfold wp. eauto. Qed.

(** The [if err != nil { return err }] rule. *)
Lemma wp_try {A B} (m : ST W (result E A)) (k : A -> ST W (result E B)) Q w :
  wp m (fun r w' => match r with
                    | Ok a => wp (k a) Q w'
                    | Err e => Q (Err e) w' end) w ->
  wp (try m k) Q w.
Proof. unfold wp, try, mbind, ST_bind. by destruct (m w) as [[a|e] w']. Qed.

(** A run is its own strongest postcondition: back from [wp] to equations. *)
Lemma wp_run {A} (m : ST W A) (Q : A -> W -> Prop) w a w' :
  wp m Q w -> m w = (a, w') -> Q a w'.
Proof. unfold wp. intros H E'. by rewrite E' in H. Qed.

Lemma wp_intro {A} (m : ST W A) (Q : A -> W -> Prop) w :
  (forall a w', m w = (a, w') -> Q a w') -> wp m Q w.
Proof. unfold wp. destruct (m w) as [a w'] eqn:E'. eauto. Qed.
End wp_rules.

(** A loop that stops at the first error: [for _, x := range l { if err ... }]. *)
Fixpoint for_each {M : Type -> Type} `{MRet M, MBind M} {E A : Type}
    (l : list A) (body : A -> M (result E unit)) : M (result E unit) :=
  match l with
  | [] => mret (Ok tt)
  | x :: l' => let? _ := body x in for_each l' body
  end.

Lemma wp_for_each {W E A} (l : list A) (body : A -> ST W (result E unit))
    (I : list A -> W -> Prop) (Q : result E unit -> W -> Prop) w :
  I [] w ->
  (forall pre x post w, l = pre ++ x :: post -> I pre w ->
     wp (body x) (fun r w' => match r with
                              | Ok _ => I (pre ++ [x]) w'
                              | Err e => Q (Err e) w' end) w) ->
  (forall w, I l w -> Q (Ok tt) w) ->
  wp (for_each l body) Q w.
Proof.
  intros HI Hstep HQ.
  cut (forall post pre w, l = pre ++ post -> I pre w -> wp (for_each post body) Q w).
  { intros H. by apply (H l []). }
  induction post as [|x post IH]; intros pre w' Hl Hd; cbn [for_each].
  - apply wp_ret, HQ. by rewrite Hl, app_nil_r.
  - apply wp_try. eapply wp_mono; [by apply (Hstep pre x post)|].
    intros [[]|e] w2; [|done]. intros Hd2. apply (IH (pre ++ [x])); [|done].
    by rewrite Hl, <- app_assoc.
Qed.

(** ** Lists *)
Lemma StronglySorted_filter {A} (R : A -> A -> Prop) (P : A -> Prop) `{forall x, Decision (P x)} l :
  StronglySorted R l -> StronglySorted R (filter P l).
Proof.
  induction 1 as [|x l Hl IH HR]; [constructor|]. rewrite filter_cons. case_decide; [|done].
  constructor; [done|]. apply Forall_forall. intros y [_ Hy]%list_elem_of_filter.
  rewrite Forall_forall in HR. auto.
Qed.

Lemma filter_none {A} (keep : A -> Prop) `{forall a, Decision (keep a)} xs :
  Forall (fun a => ~ keep a) xs -> filter keep xs = [].
Proof. induction 1 as [|x l Hx _ IH]; [done|]. by rewrite filter_cons, decide_False by done. Qed.
Lemma filter_every {A} (keep : A -> Prop) `{forall a, Decision (keep a)} xs :
  Forall keep xs -> filter keep xs = xs.
Proof. induction 1 as [|x l Hx _ IH]; [done|]. rewrite filter_cons, decide_True by done. by f_equal. Qed.

(** ** Automation *)
Create HintDb vibe.

(** Split the test of the conditional or match at the head of a [wp] goal. *)
Ltac wp_case :=
  match goal with
  | |- wp (if ?b then _ else _) _ _ => let H := fresh "C" in destruct b eqn:H
  | |- wp (match ?x with _ => _ end) _ _ => let H := fresh "C" in destruct x eqn:H
  end.

(** Turn boolean facts about [bool_decide], [&&], [||], [negb] into propositions. *)
Ltac bool_prop :=
  repeat match goal with
  | H : bool_decide _ = true |- _ => apply bool_decide_eq_true_1 in H
  | H : bool_decide _ = false |- _ => apply bool_decide_eq_false_1 in H
  | H : (_ && _) = true |- _ => apply andb_true_iff in H; destruct H
  | H : (_ && _) = false |- _ => apply andb_false_iff in H
  | H : (_ || _) = false |- _ => apply orb_false_iff in H; destruct H
  | H : (_ || _) = true |- _ => apply orb_true_iff in H
  | H : negb _ = true |- _ => apply negb_true_iff in H
  | H : negb _ = false |- _ => apply negb_false_iff in H
  end.

(** The head of an application. *)
Ltac head_of t := lazymatch t with ?f _ => head_of f | _ => t end.
