(* ===== verification/Utf8.v ===== *)
(** * Go strings as UTF-8

    A Go [string] is a byte sequence; here a [string] of 8-bit [ascii]s.  This
    file models what the program uses of [unicode/utf8] and [strings]: decoding
    into runes (an invalid byte is [RuneError], width one), [RuneCountInString],
    [TrimSpace], and the replacement of invalid bytes that [encoding/json] performs. *)
From S2P Require Import Prelude.
Open Scope Z_scope.

Definition byte_of (a : ascii) : Z := Z.of_N (N_of_ascii a).

Definition in_range (lo hi b : Z) : bool := (lo <=? b) && (b <=? hi).

Definition RuneError : Z := 65533.

(** Second-byte range of a lead byte and the number of continuation bytes:
    the [first]/[acceptRanges] tables of package utf8. *)
Definition lead (b : Z) : option (nat * Z * Z) :=
  if in_range 194 223 b then Some (1%nat, 128, 191)
  else if b =? 224 then Some (2%nat, 160, 191)
  else if in_range 225 236 b || in_range 238 239 b then Some (2%nat, 128, 191)
  else if b =? 237 then Some (2%nat, 128, 159)
  else if b =? 240 then Some (3%nat, 144, 191)
  else if in_range 241 243 b then Some (3%nat, 128, 191)
  else if b =? 244 then Some (3%nat, 128, 143)
  else None.

Definition cont (b : Z) : bool := in_range 128 191 b.

(** A chunk is a decoded rune with the bytes it was read from; [None] marks an
    invalid byte. *)
Definition chunk : Type := option Z * string.

Fixpoint chunks (s : string) : list chunk :=
  match s with
  | "" => []
  | String a s1 =>
    let b0 := byte_of a in
    let bad (_ : unit) := (None, String a "") :: chunks s1 in
    if b0 <? 128 then (Some b0, String a "") :: chunks s1 else
    match lead b0, s1 with
    | Some (n, lo, hi), String b s2 =>
      let b1 := byte_of b in
      if negb (in_range lo hi b1) then bad tt else
      match n, s2 with
      | 1%nat, _ =>
        (Some ((b0 - 192) * 64 + (b1 - 128)), String a (String b "")) :: chunks s2
      | 2%nat, String c s3 =>
        let b2 := byte_of c in
        if cont b2 then
          (Some ((b0 - 224) * 4096 + (b1 - 128) * 64 + (b2 - 128)),
           String a (String b (String c ""))) :: chunks s3
        else bad tt
      | _, String c (String d s4) =>
        let b2 := byte_of c in let b3 := byte_of d in
        if cont b2 && cont b3 then
          (Some ((b0 - 240) * 262144 + (b1 - 128) * 4096 + (b2 - 128) * 64 + (b3 - 128)),
           String a (String b (String c (String d "")))) :: chunks s4
        else bad tt
      | _, _ => bad tt
      end
    | _, _ => bad tt
    end
  end.

Definition rune_of (c : chunk) : Z := default RuneError c.1.

Definition runes (s : string) : list Z := rune_of <$> chunks s.

(** [utf8.RuneCountInString]. *)
Definition RuneCountInString (s : string) : Z := Z.of_nat (length (chunks s)).

(** [utf8.ValidString]. *)
Definition ValidString (s : string) : bool :=
  forallb (fun c : chunk => bool_decide (is_Some c.1)) (chunks s).

(** [unicode.IsSpace]. *)
Definition IsSpace (r : Z) : bool :=
  in_range 9 13 r || (r =? 32) || (r =? 133) || (r =? 160) || (r =? 5760) ||
  in_range 8192 8202 r || (r =? 8232) || (r =? 8233) || (r =? 8239) ||
  (r =? 8287) || (r =? 12288).

Definition flatten (l : list chunk) : string := foldr (fun c s => (c.2 +:+ s)) "" l.

Fixpoint drop_spaces (l : list chunk) : list chunk :=
  match l with
  | c :: l' => if IsSpace (rune_of c) then drop_spaces l' else l
  | [] => []
  end.

(** [strings.TrimSpace]. *)
Definition TrimSpace (s : string) : string :=
  flatten (rev (drop_spaces (rev (drop_spaces (chunks s))))).

(** Replacement of invalid bytes by U+FFFD, as [encoding/json] writes strings. *)
Definition replacement : string :=
  String (ascii_of_N 239) (String (ascii_of_N 191) (String (ascii_of_N 189) "")).

Definition valid_bytes (c : chunk) : string :=
  match c.1 with Some _ => c.2 | None => replacement end.

Definition ToValidUTF8 (s : string) : string :=
  foldr (fun c r => (valid_bytes c +:+ r)) "" (chunks s).

(** ** Lemmas *)

(** Induction on strings by length, for the variable-width decoder. *)
Lemma string_len_ind (P : string -> Prop) :
  (forall s, (forall t, (String.length t < String.length s)%nat -> P t) -> P s) ->
  forall s, P s.
Proof.
  intros H s. remember (String.length s) as n eqn:Hn. revert s Hn.
  induction (lt_wf n) as [n _ IH]. intros s ->. apply H. intros t Ht. by eapply IH.
Qed.

(** One decoding step: a non-empty string yields one chunk, whose bytes are a
    non-empty prefix, and decoding continues on the rest. *)
Lemma chunks_step a s1 :
  exists o p rest, chunks (String a s1) = (o, p) :: chunks rest /\
    (p +:+ rest) = String a s1 /\ p <> "".
Proof.
  cbn [chunks]. cbv zeta.
  repeat (case_match || (eexists _, _, _; split; [reflexivity|]; split; [reflexivity|done])).
Qed.

Lemma string_app_length s t :
  String.length (s +:+ t) = (String.length s + String.length t)%nat.
Proof. induction s as [|a s IH]; [done|]. simpl. by f_equal. Qed.

Lemma chunks_step_shorter a s1 :
  exists o p rest, chunks (String a s1) = (o, p) :: chunks rest /\
    (p +:+ rest) = String a s1 /\
    (String.length rest < String.length (String a s1))%nat.
Proof.
  destruct (chunks_step a s1) as (o & p & rest & E & Hp & Hne).
  exists o, p, rest. repeat split; [done..|].
  rewrite <- Hp, string_app_length. destruct p; [done|]. cbn. lia.
Qed.

Lemma chunks_flatten s : flatten (chunks s) = s.
Proof.
  induction s as [[|a s1] IH] using string_len_ind; [done|].
  destruct (chunks_step_shorter a s1) as (o & p & rest & E & Hp & Hlt).
  rewrite E. cbn. fold (flatten (chunks rest)). by rewrite IH.
Qed.

Lemma ToValidUTF8_id s : ValidString s = true -> ToValidUTF8 s = s.
Proof.
  intros H. transitivity (flatten (chunks s)); [|apply chunks_flatten]. revert H.
  unfold ValidString, ToValidUTF8, flatten.
  induction (chunks s) as [|[o p] l IH]; [done|]. simpl. intros H.
  apply andb_true_iff in H as [Ho Hl]. apply bool_decide_eq_true_1 in Ho as [r Hr].
  rewrite IH by done. unfold valid_bytes. simpl in *. by rewrite Hr.
Qed.

Lemma RuneCountInString_runes s : RuneCountInString s = Z.of_nat (length (runes s)).
Proof. unfold RuneCountInString, runes. by rewrite length_fmap. Qed.

Lemma RuneCount_zero s : RuneCountInString s = 0 <-> s = "".
Proof.
  split; [|by intros ->]. destruct s as [|a s1]; [done|].
  destruct (chunks_step a s1) as (o & p & rest & E & _).
  unfold RuneCountInString. rewrite E. cbn [length]. lia.
Qed.

Lemma drop_spaces_nil l : drop_spaces l = [] <-> forallb IsSpace (rune_of <$> l) = true.
Proof.
  induction l as [|c l IH]; cbn; [done|]. destruct (IsSpace (rune_of c)); cbn; [done|].
  by split.
Qed.

Lemma drop_spaces_head l c l' : drop_spaces l = c :: l' -> IsSpace (rune_of c) = false.
Proof.
  induction l as [|d l IH]; cbn; [done|]. destruct (IsSpace (rune_of d)) eqn:E; [done|].
  intros H. by injection H as -> ->.
Qed.

(** Every chunk of a string carries at least one byte. *)
Lemma chunks_nonempty s : Forall (fun c : chunk => c.2 <> "") (chunks s).
Proof.
  induction s as [[|a s1] IH] using string_len_ind; [constructor|].
  destruct (chunks_step a s1) as (o & p & rest & E & Hp & Hne). rewrite E.
  constructor; [done|]. apply IH.
  rewrite <- Hp, string_app_length. destruct p; [done|]. cbn. lia.
Qed.

Lemma drop_spaces_suffix l : drop_spaces l `suffix_of` l.
Proof.
  induction l as [|c l IH]; cbn; [done|]. case_match; [by apply suffix_cons_r|done].
Qed.

Lemma drop_spaces_app l c r :
  IsSpace (rune_of c) = false -> drop_spaces (l ++ c :: r) <> [].
Proof.
  intros Hc. induction l as [|d l IH]; cbn; [by rewrite Hc|]. by case_match.
Qed.

Lemma flatten_nil l :
  Forall (fun c : chunk => c.2 <> "") l -> flatten l = "" -> l = [].
Proof.
  destruct l as [|[o p] l]; [done|]. intros H. inversion_clear H as [|? ? Hc ?]. cbn.
  by destruct p.
Qed.

(** [TrimSpace(s) != ""] exactly when some rune of [s] is not a space. *)
Lemma TrimSpace_empty s : TrimSpace s = "" <-> forallb IsSpace (runes s) = true.
Proof.
  unfold TrimSpace, runes. rewrite <- drop_spaces_nil.
  pose proof (chunks_nonempty s) as Hne.
  pose proof (drop_spaces_suffix (chunks s)) as [pre Hpre].
  destruct (drop_spaces (chunks s)) as [|c l] eqn:E; [done|].
  split; [|done]. intros H. exfalso.
  apply drop_spaces_head in E.
  assert (drop_spaces (rev (c :: l)) <> []) as Hd.
  { cbn. by apply (drop_spaces_app (rev l) c []). }
  apply flatten_nil in H.
  - apply Hd. by rewrite <- (rev_involutive (drop_spaces _)), H.
  - apply Forall_rev. rewrite Hpre in Hne. apply Forall_app in Hne as [_ Hne].
    apply Forall_rev in Hne.
    destruct (drop_spaces_suffix (rev (c :: l))) as [q Hq].
    rewrite Hq in Hne. by apply Forall_app in Hne as [_ ?].
Qed.
