(* ===== verification/Regex.v ===== *)
(** * Anchored regular expressions over runes

    The validators use three fully anchored RE2 expressions ([^...$] without
    flag [m]), so [MatchString] is membership of the whole rune sequence in a
    regular language.  Expressions are matched by derivatives; [matches] is the
    language, and [matchb_spec] says the matcher decides it. *)
From S2P Require Import Prelude Utf8.
Open Scope Z_scope.

Inductive re : Type :=
| Void
| Eps
| Class (p : Z -> bool)
| Cat (r1 r2 : re)
| Alt (r1 r2 : re)
| Star (r : re).

Definition Plus (r : re) : re := Cat r (Star r).

(** [r{n,}] *)
Fixpoint AtLeast (n : nat) (r : re) : re :=
  match n with O => Star r | S n' => Cat r (AtLeast n' r) end.

Definition Chr (c : Z) : re := Class (Z.eqb c).

Fixpoint Lit (l : list Z) : re :=
  match l with [] => Eps | c :: l' => Cat (Chr c) (Lit l') end.

Definition Opt (r : re) : re := Alt Eps r.

Inductive matches : re -> list Z -> Prop :=
| m_eps : matches Eps []
| m_class p c : p c = true -> matches (Class p) [c]
| m_cat r1 r2 l1 l2 : matches r1 l1 -> matches r2 l2 -> matches (Cat r1 r2) (l1 ++ l2)
| m_alt_l r1 r2 l : matches r1 l -> matches (Alt r1 r2) l
| m_alt_r r1 r2 l : matches r2 l -> matches (Alt r1 r2) l
| m_star_nil r : matches (Star r) []
| m_star_cons r l1 l2 :
    l1 <> [] -> matches r l1 -> matches (Star r) l2 -> matches (Star r) (l1 ++ l2).
#[export] Hint Constructors matches : vibe.

Fixpoint nullable (r : re) : bool :=
  match r with
  | Void | Class _ => false
  | Eps | Star _ => true
  | Cat r1 r2 => nullable r1 && nullable r2
  | Alt r1 r2 => nullable r1 || nullable r2
  end.

(** Smart constructors keep derivatives small. *)
Definition cat (r1 r2 : re) : re :=
  match r1 with Void => Void | Eps => r2 | _ => Cat r1 r2 end.

Definition alt (r1 r2 : re) : re :=
  match r1, r2 with Void, _ => r2 | _, Void => r1 | _, _ => Alt r1 r2 end.

Fixpoint deriv (c : Z) (r : re) : re :=
  match r with
  | Void | Eps => Void
  | Class p => if p c then Eps else Void
  | Cat r1 r2 =>
    let d := cat (deriv c r1) r2 in
    if nullable r1 then alt d (deriv c r2) else d
  | Alt r1 r2 => alt (deriv c r1) (deriv c r2)
  | Star r1 => cat (deriv c r1) (Star r1)
  end.

Fixpoint matchb (r : re) (l : list Z) : bool :=
  match l with
  | [] => nullable r
  | c :: l' => matchb (deriv c r) l'
  end.

(** ** The matcher decides the language *)

Lemma matches_void l : ~ matches Void l.
Proof. intros H. inversion H. Qed.

Lemma matches_eps l : matches Eps l <-> l = [].
Proof. split; [by inversion 1|intros ->; constructor]. Qed.

Lemma matches_class p l : matches (Class p) l <-> exists c, l = [c] /\ p c = true.
Proof. split; [inversion 1; eauto|intros (c & -> & Hc); by constructor]. Qed.

Lemma matches_cat r1 r2 l :
  matches (Cat r1 r2) l <-> exists l1 l2, l = l1 ++ l2 /\ matches r1 l1 /\ matches r2 l2.
Proof. split; [inversion 1; naive_solver|intros (? & ? & -> & ? & ?); by constructor]. Qed.

Lemma matches_alt r1 r2 l : matches (Alt r1 r2) l <-> matches r1 l \/ matches r2 l.
Proof. split; [inversion 1; auto|intros [H|H]; auto with vibe]. Qed.

Lemma cat_spec r1 r2 l : matches (cat r1 r2) l <-> matches (Cat r1 r2) l.
Proof.
  rewrite matches_cat.
  destruct r1; cbn; try by rewrite matches_cat.
  - split; [by intros []%matches_void|by intros (? & ? & _ & []%matches_void & _)].
  - setoid_rewrite matches_eps. split; [intros H; by exists [], l|].
    by intros (? & ? & -> & -> & ?).
Qed.

Lemma alt_spec r1 r2 l : matches (alt r1 r2) l <-> matches (Alt r1 r2) l.
Proof.
  pose proof (matches_void l).
  destruct r1, r2; cbn; rewrite ?matches_alt; tauto.
Qed.

Lemma nullable_spec r : nullable r = true <-> matches r [].
Proof.
  induction r; cbn; rewrite ?matches_eps, ?matches_class, ?matches_cat, ?matches_alt.
  - split; [done|by intros []%matches_void].
  - done.
  - split; [done|]. by intros (c & ? & _).
  - rewrite andb_true_iff, IHr1, IHr2. split.
    + intros [? ?]. by exists [], [].
    + intros (l1 & l2 & E & ? & ?). by destruct l1, l2.
  - rewrite orb_true_iff, IHr1, IHr2. done.
  - split; [constructor|done].
Qed.

Lemma matches_star_inv r c l :
  matches (Star r) (c :: l) <->
  exists l1 l2, l = l1 ++ l2 /\ matches r (c :: l1) /\ matches (Star r) l2.
Proof.
  split.
  - inversion 1 as [| | | | | |r' l1 l2 Hne H1 H2 Hr E]; subst.
    destruct l1 as [|d l1]; [done|]. cbn in E. simplify_eq. eauto.
  - intros (l1 & l2 & -> & H1 & H2). by apply (m_star_cons r (c :: l1) l2).
Qed.

Lemma matches_cat_cons r1 r2 c l :
  matches (Cat r1 r2) (c :: l) <->
  (exists l1 l2, l = l1 ++ l2 /\ matches r1 (c :: l1) /\ matches r2 l2) \/
  (matches r1 [] /\ matches r2 (c :: l)).
Proof.
  rewrite matches_cat. split.
  - intros ([|d l1] & l2 & E & H1 & H2); cbn in E; simplify_eq; [by right|left; eauto].
  - intros [(l1 & l2 & -> & ? & ?)|[? ?]]; [by exists (c :: l1), l2|by exists [], (c :: l)].
Qed.

Lemma deriv_spec c r l : matches (deriv c r) l <-> matches r (c :: l).
Proof.
  revert l. induction r as [| |p|r1 IH1 r2 IH2|r1 IH1 r2 IH2|r1 IH1]; intros l; cbn.
  - split; by intros []%matches_void.
  - rewrite matches_eps. split; [by intros []%matches_void|done].
  - rewrite matches_class. destruct (p c) eqn:E.
    + rewrite matches_eps. split; [intros ->; eauto|]. by intros (d & ? & ?); simplify_eq.
    + split; [by intros []%matches_void|]. intros (d & ? & ?). simplify_eq. congruence.
  - rewrite matches_cat_cons, <- nullable_spec.
    setoid_rewrite <- IH1. rewrite <- IH2, <- (matches_cat (deriv c r1) r2 l).
    destruct (nullable r1); rewrite ?alt_spec, ?matches_alt, ?cat_spec, matches_cat; intuition congruence.
  - by rewrite alt_spec, !matches_alt, IH1, IH2.
  - rewrite cat_spec, matches_cat, matches_star_inv. by setoid_rewrite IH1.
Qed.

Lemma matchb_spec r l : matchb r l = true <-> matches r l.
Proof.
  revert r. induction l as [|c l IH]; intros r; cbn.
  - apply nullable_spec.
  - by rewrite IH, deriv_spec.
Qed.

(** ** Languages of the derived forms *)

Lemma matches_star_class p l : matches (Star (Class p)) l <-> Forall (fun c => p c = true) l.
Proof.
  split.
  - remember (Star (Class p)) as r eqn:E. intros H.
    induction H as [| | | | | |r l1 l2 Hne H1 _ _ IH2]; try done.
    simplify_eq. apply matches_class in H1 as (c & -> & Hc). constructor; auto.
  - induction 1 as [|c l Hc _ IH]; [constructor|].
    apply (m_star_cons _ [c] l); [done|by constructor|done].
Qed.

Lemma matches_atleast_class n p l :
  matches (AtLeast n (Class p)) l <-> (n <= length l)%nat /\ Forall (fun c => p c = true) l.
Proof.
  revert l. induction n as [|n IH]; intros l; cbn.
  - rewrite matches_star_class. intuition lia.
  - rewrite matches_cat. setoid_rewrite matches_class. setoid_rewrite IH. split.
    + intros (? & l2 & -> & (c & -> & Hc) & Hn & Hl). cbn. split; [lia|by constructor].
    + intros [Hn Hl]. destruct Hl as [|c l Hc Hl]; cbn in Hn; [lia|].
      exists [c], l. repeat split; eauto with lia.
Qed.

Lemma matches_plus_class p l :
  matches (Plus (Class p)) l <-> l <> [] /\ Forall (fun c => p c = true) l.
Proof.
  rewrite (matches_atleast_class 1 p l).
  destruct l; cbn; split; intros [? ?]; repeat split; auto; try lia; done.
Qed.

Lemma matches_lit w l : matches (Lit w) l <-> l = w.
Proof.
  revert l. induction w as [|c w IH]; intros l; cbn.
  - apply matches_eps.
  - rewrite matches_cat. setoid_rewrite IH. unfold Chr. setoid_rewrite matches_class. split.
    + intros (? & ? & -> & (d & -> & Hd) & ->). apply Z.eqb_eq in Hd as ->. done.
    + intros ->. exists [c], w. repeat split. exists c. by rewrite Z.eqb_refl.
Qed.
