(* ===== verification/Domain.v ===== *)
(** * Package domain

    Entities, sentinel errors and repository interfaces
    ([internal/domain/*.go]).  An interface is a class over a monad [M]: the
    services are written against it, the storage packages implement it. *)
From S2P Require Import Prelude.
Open Scope Z_scope.

(** ** Identifiers and instants

    [uuid.UUID] is a 16-byte array compared as a whole; it is represented by the
    number its bytes spell (big endian), [Nil] being zero.  An instant
    ([time.Time] in UTC) is its count of nanoseconds since the epoch, a
    [time.Duration] a count of nanoseconds. *)
Definition uuid : Type := N.
#[export] Instance uuid_eq_dec : EqDecision uuid := N.eq_dec.
#[export] Instance uuid_countable : Countable uuid := N_countable.
Definition Nil : uuid := 0%N.
Definition Time : Type := Z.
Definition Duration : Type := Z.

(** ** errors.go *)
Inductive sentinel : Set :=
| ErrUserNotFound | ErrEmailTaken | ErrUsernameTaken | ErrInvalidCredentials
| ErrChatNotFound | ErrNotChatMember | ErrAlreadyChatMember
| ErrInsufficientRights | ErrCannotRemoveOwner
| ErrMessageNotFound | ErrNotMessageAuthor | ErrMessageDeleted
| ErrInvalidToken | ErrExpiredToken
| ErrInternal | ErrForbidden | ErrValidation.

#[export] Instance sentinel_eq_dec : EqDecision sentinel.
Proof. solve_decision. Defined.

Definition sentinel_text (s : sentinel) : string :=
  match s with
  | ErrUserNotFound => "user not found"
  | ErrEmailTaken => "email already taken"
  | ErrUsernameTaken => "username already taken"
  | ErrInvalidCredentials => "invalid credentials"
  | ErrChatNotFound => "chat not found"
  | ErrNotChatMember => "not a chat member"
  | ErrAlreadyChatMember => "already a chat member"
  | ErrInsufficientRights => "insufficient rights"
  | ErrCannotRemoveOwner => "cannot remove chat owner"
  | ErrMessageNotFound => "message not found"
  | ErrNotMessageAuthor => "not message author"
  | ErrMessageDeleted => "message is deleted"
  | ErrInvalidToken => "invalid token"
  | ErrExpiredToken => "token expired"
  | ErrInternal => "internal error"
  | ErrForbidden => "forbidden"
  | ErrValidation => "validation error"
  end.

(** A Go [error]: a domain sentinel, an error wrapped by [fmt.Errorf] with
    [%w], or an error value of a driver.  A driver error carries the text its
    [Error] method returns.  A run-time panic unwinds every frame up to the
    recovery middleware: it travels like an error no frame inspects. *)
Inductive error : Type :=
| Sentinel (s : sentinel)
| Wrap (pre : string) (e : error) (post : string)
| ErrNoRows
| PgError (Code ConstraintName text : string)
| MySQLError (Number : Z) (Message text : string)
| Other (text : string)
| GoPanic (text : string).

#[export] Instance error_eq_dec : EqDecision error.
Proof. solve_decision. Defined.

Fixpoint error_text (e : error) : string :=
  match e with
  | Sentinel s => sentinel_text s
  | Wrap pre e' post => pre +:+ error_text e' +:+ post
  | ErrNoRows => "no rows in result set"
  | PgError _ _ t => t
  | MySQLError _ _ t => t
  | Other t => t
  | GoPanic t => t
  end.

(** [errors.Is(err, domain.ErrX)]. *)
Fixpoint errors_Is (e : error) (s : sentinel) : bool :=
  match e with
  | Sentinel s' => bool_decide (s' = s)
  | Wrap _ e' _ => errors_Is e' s
  | _ => false
  end.

(** [errors.Is(err, sql.ErrNoRows)]. *)
Fixpoint is_NoRows (e : error) : bool :=
  match e with
  | ErrNoRows => true
  | Wrap _ e' _ => is_NoRows e'
  | _ => false
  end.

(** An error that is no domain error: the storage or the network failed. *)
Definition infra (e : error) : Prop := forall s, errors_Is e s = false.

(** An error the caller is not to blame for. *)
Definition server_fault (e : error) : Prop := infra e \/ errors_Is e ErrInternal = true.

Abbreviation res := (result error).
Abbreviation Fail s := (Err (Sentinel s)).

(** ** user.go *)
Definition UserStatus : Type := string.
Definition UserStatusOnline : UserStatus := "online".
Definition UserStatusOffline : UserStatus := "offline".
Definition UserStatusAway : UserStatus := "away".

Record User : Type := mkUser {
  user_ID : uuid;
  user_Username : string;
  user_Email : string;
  user_PasswordHash : string;
  user_AvatarURL : string;
  user_Bio : string;
  user_Status : UserStatus;
  user_LastSeen : Time;
  user_CreatedAt : Time;
  user_UpdatedAt : Time }.

#[export] Instance user_eq_dec : EqDecision User.
Proof. solve_decision. Defined.

(** ** chat.go *)
Definition ChatType : Type := string.
Definition ChatTypeDirect : ChatType := "direct".
Definition ChatTypeGroup : ChatType := "group".

Definition MemberRole : Type := string.
Definition MemberRoleOwner : MemberRole := "owner".
Definition MemberRoleAdmin : MemberRole := "admin".
Definition MemberRoleMember : MemberRole := "member".

Record Chat : Type := mkChat {
  chat_ID : uuid;
  chat_Type : ChatType;
  chat_Name : string;
  chat_AvatarURL : string;
  chat_Description : string;
  chat_CreatedBy : uuid;
  chat_CreatedAt : Time;
  chat_UpdatedAt : Time }.

#[export] Instance chat_eq_dec : EqDecision Chat.
Proof. solve_decision. Defined.

Record ChatMember : Type := mkChatMember {
  cm_ChatID : uuid;
  cm_UserID : uuid;
  cm_Role : MemberRole;
  cm_JoinedAt : Time;
  cm_User : option User }.

#[export] Instance chatmember_eq_dec : EqDecision ChatMember.
Proof. solve_decision. Defined.

Definition IsDirect (c : Chat) : bool := bool_decide (chat_Type c = ChatTypeDirect).

Definition CanManageMembers (r : MemberRole) : bool :=
  bool_decide (r = MemberRoleOwner) || bool_decide (r = MemberRoleAdmin).

(** ** message.go *)
Definition MessageType : Type := string.
Definition MessageTypeText : MessageType := "text".
Definition MessageTypeImage : MessageType := "image".
Definition MessageTypeFile : MessageType := "file".

Record Reaction : Type := mkReaction {
  rx_MessageID : uuid;
  rx_UserID : uuid;
  rx_Emoji : string;
  rx_CreatedAt : Time;
  rx_User : option User }.

#[warnings="-register-all"]
Inductive Message : Type := mkMessage {
  msg_ID : uuid;
  msg_ChatID : uuid;
  msg_SenderID : uuid;
  msg_Content : string;
  msg_Type : MessageType;
  msg_ReplyToID : option uuid;
  msg_EditedAt : option Time;
  msg_DeletedAt : option Time;
  msg_CreatedAt : Time;
  msg_UpdatedAt : Time;
  msg_Sender : option User;
  msg_Reactions : list Reaction;
  msg_ReplyTo : option Message }.

Definition IsDeleted (m : Message) : bool := bool_decide (is_Some (msg_DeletedAt m)).

Definition IsAuthoredBy (m : Message) (userID : uuid) : bool :=
  bool_decide (msg_SenderID m = userID).

Record MessageCursor : Type := mkMessageCursor {
  cur_CreatedAt : Time;
  cur_ID : uuid }.

#[export] Instance cursor_eq_dec : EqDecision MessageCursor.
Proof. solve_decision. Defined.

Record ChatPreview : Type := mkChatPreview {
  pv_Chat : Chat;
  pv_Members : list ChatMember;
  pv_LastMessage : option Message;
  pv_UnreadCount : Z }.

(** ** Interfaces *)
Class UserRepository (M : Type -> Type) : Type := {
  users_Create : User -> M (res unit);
  users_GetByID : uuid -> M (res User);
  users_GetByEmail : string -> M (res User);
  users_GetByUsername : string -> M (res User);
  users_Update : User -> M (res unit);
  users_UpdateStatus : uuid -> UserStatus -> Time -> M (res unit);
  users_Search : string -> Z -> Z -> M (res (list User));
  users_Delete : uuid -> M (res unit) }.

Class ChatRepository (M : Type -> Type) : Type := {
  chats_CreateWithMembers : Chat -> list ChatMember -> M (res unit);
  chats_GetByID : uuid -> M (res Chat);
  chats_Update : Chat -> M (res unit);
  chats_Delete : uuid -> M (res unit);
  chats_AddMember : ChatMember -> M (res unit);
  chats_RemoveMember : uuid -> uuid -> M (res unit);
  chats_GetMember : uuid -> uuid -> M (res ChatMember);
  chats_GetMembers : uuid -> M (res (list ChatMember));
  chats_UpdateMemberRole : uuid -> uuid -> MemberRole -> M (res unit);
  chats_GetUserChats : uuid -> M (res (list ChatPreview));
  chats_GetDirectChat : uuid -> uuid -> M (res Chat);
  chats_IsMember : uuid -> uuid -> M (res bool) }.

Class MessageRepository (M : Type -> Type) : Type := {
  messages_Create : Message -> M (res unit);
  messages_GetByID : uuid -> M (res Message);
  messages_GetChatMessages : uuid -> option MessageCursor -> Z -> M (res (list Message));
  messages_Update : Message -> M (res unit);
  messages_Delete : uuid -> M (res unit);
  messages_MarkRead : uuid -> uuid -> M (res unit);
  messages_GetUnreadCount : uuid -> uuid -> M (res Z);
  messages_AddReaction : Reaction -> M (res unit);
  messages_RemoveReaction : uuid -> uuid -> string -> M (res unit);
  messages_GetReactions : uuid -> M (res (list Reaction));
  messages_GetReactionsBatch : list uuid -> M (res (gmap uuid (list Reaction))) }.

(** The ambient effects of a request: the wall clock ([time.Now().UTC()]) and
    the random generator behind [uuid.New()]. *)
Class Clock (M : Type -> Type) : Type := time_Now : M Time.
Class UUIDSource (M : Type -> Type) : Type := uuid_New : M uuid.

(** [uuid.UUID.String] of the uuid package: distinct identifiers have distinct
    texts, of hexadecimal digits and dashes. *)
Class UUIDText : Type := uuid_String : uuid -> string.
Class UUIDTextLaws (UT : UUIDText) : Prop := {
  uuid_String_inj u v : uuid_String u = uuid_String v -> u = v;
  uuid_String_no_colon u : forallb (fun a => negb (Ascii.eqb a ":")) (String.list_ascii_of_string (uuid_String u)) = true }.

(** ** Lemmas *)

(** An error is (or wraps) at most one sentinel. *)
Lemma errors_Is_inj e s1 s2 : errors_Is e s1 = true -> errors_Is e s2 = true -> s1 = s2.
Proof.
  induction e; cbn; try done.
  intros H1%bool_decide_eq_true_1 H2%bool_decide_eq_true_1. congruence.
Qed.

Lemma infra_other t : infra (Other t).
Proof. by intros s. Qed.

Lemma infra_pg c n t : infra (PgError c n t).
Proof. by intros s. Qed.

Lemma infra_mysql n m t : infra (MySQLError n m t).
Proof. by intros s. Qed.
#[export] Hint Resolve infra_other infra_pg infra_mysql : vibe.
