(* ===== verification/Validate.v ===== *)
(** * Package validate

    [utils/validate/validate.go]: the error-accumulating builder [V] and the
    field predicates, with the languages of the three regular expressions. *)
From S2P Require Import Prelude Utf8 Regex Domain.
Open Scope Z_scope.

(** ** The builder *)
Record V : Type := mkV { v_err : option error }.

Definition New : V := mkV None.

Definition Check (v : V) (cond : bool) (msg : string) : V :=
  if bool_decide (v_err v = None) && negb cond
  then mkV (Some (Wrap "" (Sentinel ErrValidation) (": " +:+ msg)))
  else v.

Definition Err_ (v : V) : option error := v_err v.

Notation "v .Check ( c , m )" := (Check v c m)
  (at level 1, left associativity, format "v .Check ( c ,  m )") : go_scope.

(** ** Field predicates *)
Definition NonEmpty (s : string) : bool := negb (bool_decide (TrimSpace s = "")).
Definition MinLen (s : string) (n : Z) : bool := n <=? RuneCountInString s.
Definition MaxLen (s : string) (n : Z) : bool := RuneCountInString s <=? n.

Definition is_lower (c : Z) : bool := in_range 97 122 c.
Definition is_upper (c : Z) : bool := in_range 65 90 c.
Definition is_digit (c : Z) : bool := in_range 48 57 c.

(** [[a-z]] under [(?i)]: simple case folding also relates [s] to U+017F and
    [k] to U+212A. *)
Definition alpha_fold (c : Z) : bool :=
  is_lower c || is_upper c || (c =? 383) || (c =? 8490).

Definition email_local (c : Z) : bool :=
  alpha_fold c || is_digit c || (c =? 46) || (c =? 95) || (c =? 37) || (c =? 43) || (c =? 45).
Definition email_domain (c : Z) : bool :=
  alpha_fold c || is_digit c || (c =? 46) || (c =? 45).

Definition emailRe : re :=
  Cat (Plus (Class email_local))
    (Cat (Chr 64)
      (Cat (Plus (Class email_domain))
        (Cat (Chr 46) (AtLeast 2 (Class alpha_fold))))).

(** [\S] in RE2 is the complement of [[\t\n\f\r ]]. *)
Definition not_space (c : Z) : bool :=
  negb ((c =? 9) || (c =? 10) || (c =? 12) || (c =? 13) || (c =? 32)).

Definition urlRe : re :=
  Cat (Lit (runes "http")) (Cat (Opt (Chr 115)) (Cat (Lit (runes "://")) (Plus (Class not_space)))).

Definition alphanum (c : Z) : bool := is_lower c || is_upper c || is_digit c.
Definition alphanumRe : re := Plus (Class alphanum).

Definition IsAlphanumeric (s : string) : bool :=
  negb (bool_decide (s = "")) && matchb alphanumRe (runes s).
Definition IsEmail (s : string) : bool := matchb emailRe (runes s).
Definition IsURL (s : string) : bool := matchb urlRe (runes s).

(** [slices.Contains(allowed, s)]. *)
Definition OneOf (s : string) (allowed : list string) : bool :=
  existsb (fun a => bool_decide (a = s)) allowed.

Definition InRange (v min max : Z) : bool := (min <=? v) && (v <=? max).

(** ** Lemmas *)

(** A chain of checks as one list. *)
Definition checks (l : list (bool * string)) (v : V) : V :=
  foldl (fun v c => Check v c.1 c.2) v l.

Definition validation_error (msg : string) : error :=
  Wrap "" (Sentinel ErrValidation) (": " +:+ msg).

(** The reference meaning of a chain: the message of the first failing check. *)
Fixpoint first_failure (l : list (bool * string)) : option error :=
  match l with
  | [] => None
  | (true, _) :: l' => first_failure l'
  | (false, m) :: _ => Some (validation_error m)
  end.

Lemma checks_failed l e : checks l (mkV (Some e)) = mkV (Some e).
Proof. induction l as [|[b m] l IH]; [done|]. apply IH. Qed.

Lemma checks_first_failure l : Err_ (checks l New) = first_failure l.
Proof.
  induction l as [|[[] m] l IH]; [done|apply IH|].
  exact (f_equal v_err (checks_failed l (validation_error m))).
Qed.

Lemma first_failure_None l :
  first_failure l = None <-> Forall (fun c => c.1 = true) l.
Proof.
  induction l as [|[[] m] l IH]; cbn.
  - done.
  - rewrite IH, Forall_cons. tauto.
  - split; [done|]. by inversion_clear 1.
Qed.

Lemma first_failure_validation l e :
  first_failure l = Some e -> errors_Is e ErrValidation = true.
Proof. induction l as [|[[] m] l IH]; cbn; [done|done|]. by intros [= <-]. Qed.

Lemma OneOf_spec s allowed : OneOf s allowed = true <-> s ∈ allowed.
Proof.
  unfold OneOf. rewrite existsb_exists. split.
  - intros (x & Hx & <-%bool_decide_eq_true_1). by apply list_elem_of_In.
  - intros H. exists s. split; [by apply list_elem_of_In|]. by apply bool_decide_eq_true_2.
Qed.

Lemma NonEmpty_spec s :
  NonEmpty s = true <-> exists r, r ∈ runes s /\ IsSpace r = false.
Proof.
  unfold NonEmpty. rewrite negb_true_iff, bool_decide_eq_false, TrimSpace_empty.
  rewrite not_true_iff_false. split.
  - intros H. induction (runes s) as [|r l IH]; [done|]. cbn in H.
    destruct (IsSpace r) eqn:E.
    + destruct (IH H) as (r' & ? & ?). exists r'. split; [by right|done].
    + exists r. split; [by left|done].
  - intros (r & Hr & Hs). apply not_true_iff_false. rewrite forallb_forall.
    intros H. apply list_elem_of_In in Hr. rewrite (H r Hr) in Hs. done.
Qed.

Lemma IsAlphanumeric_spec s :
  IsAlphanumeric s = true <->
  s <> "" /\ Forall (fun c => alphanum c = true) (runes s).
Proof.
  unfold IsAlphanumeric. rewrite andb_true_iff, negb_true_iff, bool_decide_eq_false.
  rewrite matchb_spec. unfold alphanumRe. rewrite matches_plus_class.
  split; [by intros [? [? ?]]|]. intros [Hne Hf]. repeat split; [done| |done].
  intros H. apply Hne, RuneCount_zero. by rewrite RuneCountInString_runes, H.
Qed.

Lemma matches_chr c l : matches (Chr c) l <-> l = [c].
Proof.
  unfold Chr. rewrite matches_class. split.
  - intros (d & -> & Hd). apply Z.eqb_eq in Hd. by rewrite Hd.
  - intros ->. exists c. by rewrite Z.eqb_refl.
Qed.

#[local] Opaque Plus AtLeast Lit Chr.

(** [IsEmail]: a local part, an at sign, a domain, a dot and an alphabetic
    suffix of two letters or more. *)
Lemma IsEmail_lang s :
  IsEmail s = true <->
  exists local dom tld, runes s = local ++ [64] ++ dom ++ [46] ++ tld /\
    local <> [] /\ Forall (fun c => email_local c = true) local /\
    dom <> [] /\ Forall (fun c => email_domain c = true) dom /\
    (2 <= length tld)%nat /\ Forall (fun c => alpha_fold c = true) tld.
Proof.
  unfold IsEmail, emailRe. rewrite matchb_spec, matches_cat.
  repeat setoid_rewrite matches_cat.
  repeat setoid_rewrite matches_plus_class. repeat setoid_rewrite matches_chr.
  setoid_rewrite matches_atleast_class. split.
  - intros (l & ? & E & [? ?] & ? & ? & -> & -> & d & ? & -> & [? ?] & ? & t & -> & -> & [? ?]).
    exists l, d, t. done.
  - intros (l & d & t & E & ? & ? & ? & ? & ? & ?). exists l. eexists.
    split; [exact E|]. split; [done|]. exists [64], (d ++ [46] ++ t). repeat split.
    exists d, ([46] ++ t). repeat split; [done..|]. by exists [46], t.
Qed.

Lemma IsURL_lang s :
  IsURL s = true <->
  exists rest, (runes s = runes "http://" ++ rest \/ runes s = runes "https://" ++ rest) /\
    rest <> [] /\ Forall (fun c => not_space c = true) rest.
Proof.
  unfold IsURL, urlRe, Opt. rewrite matchb_spec, matches_cat.
  repeat setoid_rewrite matches_cat.
  setoid_rewrite matches_alt. setoid_rewrite matches_eps.
  repeat setoid_rewrite matches_chr. repeat setoid_rewrite matches_lit.
  setoid_rewrite matches_plus_class. split.
  - intros (? & ? & E & -> & o & ? & -> & Ho & ? & rest & -> & -> & ? & ?).
    exists rest. destruct Ho as [-> | ->]; auto.
  - intros (rest & [E|E] & ? & ?).
    + exists (runes "http"), (runes "://" ++ rest). split; [exact E|]. split; [done|].
      exists [], (runes "://" ++ rest). repeat split; [by left|]. by eexists _, rest.
    + exists (runes "http"), ([115] ++ runes "://" ++ rest). split; [exact E|]. split; [done|].
      exists [115], (runes "://" ++ rest). repeat split; [by right|]. by eexists _, rest.
Qed.
