(* ===== verification/Store.v ===== *)
(** * The abstract store and the repository contracts

    What [domain.UserRepository], [domain.ChatRepository] and
    [domain.MessageRepository] promise to the services, stated over an abstract
    store: live users and chats (soft-deleted rows are gone), memberships,
    messages, read receipts and reactions.  A storage package discharges the
    contract for its own state through a [view] onto the store. *)
From S2P Require Import Prelude Domain.
Open Scope Z_scope.

(** ** The store *)
Record store : Type := mkStore {
  st_users : gmap uuid User;
  st_chats : gmap uuid Chat;
  st_members : gmap (uuid * uuid) (MemberRole * Time);
  st_messages : gmap uuid Message;
  st_receipts : gmap (uuid * uuid) Time;
  st_reactions : gmap (uuid * uuid * string) Time }.

Definition with_users f (d : store) : store :=
  mkStore (f (st_users d)) (st_chats d) (st_members d) (st_messages d)
    (st_receipts d) (st_reactions d).
Definition with_chats f (d : store) : store :=
  mkStore (st_users d) (f (st_chats d)) (st_members d) (st_messages d)
    (st_receipts d) (st_reactions d).
Definition with_members f (d : store) : store :=
  mkStore (st_users d) (st_chats d) (f (st_members d)) (st_messages d)
    (st_receipts d) (st_reactions d).
Definition with_messages f (d : store) : store :=
  mkStore (st_users d) (st_chats d) (st_members d) (f (st_messages d))
    (st_receipts d) (st_reactions d).
Definition with_receipts f (d : store) : store :=
  mkStore (st_users d) (st_chats d) (st_members d) (st_messages d)
    (f (st_receipts d)) (st_reactions d).
Definition with_reactions f (d : store) : store :=
  mkStore (st_users d) (st_chats d) (st_members d) (st_messages d)
    (st_receipts d) (f (st_reactions d)).

Definition empty_store : store := mkStore ∅ ∅ ∅ ∅ ∅ ∅.

(** The precision of a timestamp column: what an instant becomes when it is
    stored. *)
Class Precision : Type := stamp : Time -> Time.

Definition stamp_chat `{Precision} (c : Chat) : Chat :=
  mkChat (chat_ID c) (chat_Type c) (chat_Name c) (chat_AvatarURL c) (chat_Description c)
    (chat_CreatedBy c) (stamp (chat_CreatedAt c)) (stamp (chat_UpdatedAt c)).
Definition stamp_member `{Precision} (m : ChatMember) : ChatMember :=
  mkChatMember (cm_ChatID m) (cm_UserID m) (cm_Role m) (stamp (cm_JoinedAt m)) (cm_User m).

(** The role a user holds in a chat. *)
Definition role_of (d : store) (c u : uuid) : option MemberRole := fst <$> st_members d !! (c, u).
Definition is_member (d : store) (c u : uuid) : Prop := is_Some (st_members d !! (c, u)).
#[export] Instance is_member_dec d c u : Decision (is_member d c u).
Proof. unfold is_member. apply _. Defined.

(** No trace of a chat identifier. *)
Definition fresh_chat (d : store) (id : uuid) : Prop :=
  st_chats d !! id = None /\ forall u, st_members d !! (id, u) = None.

Definition member_row (m : ChatMember) : (uuid * uuid) * (MemberRole * Time) :=
  ((cm_ChatID m, cm_UserID m), (cm_Role m, cm_JoinedAt m)).

Definition insert_members (ms : list ChatMember)
    (t : gmap (uuid * uuid) (MemberRole * Time)) : gmap (uuid * uuid) (MemberRole * Time) :=
  foldl (fun t m => <[(member_row m).1 := (member_row m).2]> t) t ms.

Definition create_chat (c : Chat) (ms : list ChatMember) (d : store) : store :=
  with_members (insert_members ms) (with_chats <[chat_ID c := c]> d).

(** What [UPDATE chats] may change: the name, the avatar, the description and
    the modification time. *)
Definition patch_chat (new old : Chat) : Chat :=
  mkChat (chat_ID old) (chat_Type old) (chat_Name new) (chat_AvatarURL new)
    (chat_Description new) (chat_CreatedBy old) (chat_CreatedAt old) (chat_UpdatedAt new).

Definition set_role (c u : uuid) (r : MemberRole) (d : store) : store :=
  with_members (alter (fun m => (r, m.2)) (c, u)) d.

Definition remove_member (c u : uuid) (d : store) : store :=
  with_members (delete (c, u)) d.

Definition add_member (m : ChatMember) (d : store) : store :=
  with_members <[(member_row m).1 := (member_row m).2]> d.

(** A member value tells the truth about the membership table. *)
Definition member_says (d : store) (c u : uuid) (m : ChatMember) : Prop :=
  cm_ChatID m = c /\ cm_UserID m = u /\
  st_members d !! (c, u) = Some (cm_Role m, cm_JoinedAt m).

(** What the services ask of a single member value: whose it is, and the role. *)
Definition member_role_says (d : store) (c u : uuid) (m : ChatMember) : Prop :=
  cm_ChatID m = c /\ cm_UserID m = u /\ role_of d c u = Some (cm_Role m).

(** The order of [ORDER BY cm.joined_at, cm.user_id]. *)
Definition member_le (a b : ChatMember) : Prop :=
  cm_JoinedAt a < cm_JoinedAt b \/
  (cm_JoinedAt a = cm_JoinedAt b /\ (cm_UserID a <= cm_UserID b)%N).
#[export] Instance member_le_dec a b : Decision (member_le a b).
Proof. unfold member_le. apply _. Defined.

(** The members of a chat whose account is live, oldest first. *)
Definition members_listing (d : store) (c : uuid) (ms : list ChatMember) : Prop :=
  NoDup (cm_UserID <$> ms) /\ StronglySorted member_le ms /\
  Forall (fun m => member_says d c (cm_UserID m) m) ms /\
  (forall u, is_member d c u -> is_Some (st_users d !! u) -> u ∈ cm_UserID <$> ms).

(** ** Contracts

    [honours inv view m post fail]: from a state satisfying [inv], a call of [m]
    re-establishes [inv] and either succeeds, relating the store before, the
    value and the store after by [post]; or returns a domain error as [fail]
    allows, leaving the store alone; or fails in the infrastructure, with the
    statement not executed, or executed where [Loss] says an acknowledgement may
    get lost. *)
Class Loss : Type := may_lose : Prop.

Section contract.
Context {W : Type} (inv : W -> Prop) (view : W -> store) `{LO : Loss}.

Definition answer {A} (post : store -> A -> store -> Prop) (fail : store -> error -> Prop)
    (d : store) (r : res A) (d' : store) : Prop :=
  match r with
  | Ok a => post d a d'
  | Err e => (fail d e /\ d' = d) \/ (infra e /\ (d' = d \/ (may_lose /\ exists a, post d a d')))
  end.

Definition honours {A} (m : ST W (res A)) (post : store -> A -> store -> Prop)
    (fail : store -> error -> Prop) : Prop :=
  forall w, inv w -> wp m (fun r w' => inv w' /\ answer post fail (view w) r (view w')) w.

(** A query: the store does not change. *)
Definition reads {A} (m : ST W (res A)) (Q : store -> A -> Prop) (fail : store -> error -> Prop) :=
  honours m (fun d a d' => d' = d /\ Q d a) fail.

Lemma honours_weaken {A} (m : ST W (res A)) (post post' : store -> A -> store -> Prop) fail :
  honours m post fail -> (forall d a d', post d a d' -> post' d a d') -> honours m post' fail.
Proof.
  intros Hm Hp w Hw. eapply wp_mono; [by apply Hm|]. intros r w' [Hi Ha]. split; [done|].
  destruct r as [a|e]; cbn in *; [auto|]. destruct Ha as [?|[? [?|(? & a & Ha)]]]; eauto 8.
Qed.

Lemma wp_honours {A} (m : ST W (res A)) post fail (Q : res A -> W -> Prop) w :
  honours m post fail -> inv w ->
  (forall r w', inv w' -> answer post fail (view w) r (view w') -> Q r w') ->
  wp m Q w.
Proof. intros Hm Hw HQ. eapply wp_mono; [by apply Hm|]. intros r w' [? ?]. auto. Qed.

(** The rule for [x, err := query(); if err != nil { return err }], the store
    being [d] throughout. *)
Lemma wp_reads {A B} (m : ST W (res A)) (k : A -> ST W (res B)) P fail Q w d :
  reads m P fail -> inv w -> view w = d ->
  (forall a w', inv w' -> view w' = d -> P d a -> wp (k a) Q w') ->
  (forall e w', inv w' -> view w' = d -> fail d e \/ infra e -> Q (Err e) w') ->
  wp (try m k) Q w.
Proof.
  intros Hm Hw <- HOk HErr. apply wp_try. eapply wp_honours; [done..|].
  intros [a|e] w' Hi; cbn.
  - intros [E HP]. auto.
  - intros [[? E]|[? [E|(_ & a & E & HP)]]]; auto.
Qed.

(** The same for a query whose error is inspected or returned as it is. *)
Lemma wp_reads_raw {A} (m : ST W (res A)) P fail Q w d :
  reads m P fail -> inv w -> view w = d ->
  (forall a w', inv w' -> view w' = d -> P d a -> Q (Ok a) w') ->
  (forall e w', inv w' -> view w' = d -> fail d e \/ infra e -> Q (Err e) w') ->
  wp m Q w.
Proof.
  intros Hm Hw <- HOk HErr. eapply wp_honours; [done..|].
  intros [a|e] w' Hi; cbn.
  - intros [E HP]. auto.
  - intros [[? E]|[? [E|(_ & a & E & HP)]]]; auto.
Qed.

(** The rule for [if err := statement(); err != nil { return err }]. *)
Lemma wp_exec {A B} (m : ST W (res A)) (k : A -> ST W (res B)) post fail Q w d :
  honours m post fail -> inv w -> view w = d ->
  (forall a w', inv w' -> post d a (view w') -> wp (k a) Q w') ->
  (forall e w', inv w' -> view w' = d -> fail d e \/ infra e -> Q (Err e) w') ->
  (forall e a w', inv w' -> post d a (view w') -> infra e -> Q (Err e) w') ->
  wp (try m k) Q w.
Proof.
  intros Hm Hw <- HOk HErr HLost. apply wp_try. eapply wp_honours; [done..|].
  intros [a|e] w' Hi; cbn; [auto|].
  intros [[? E]|[? [E|(_ & a & HP)]]]; eauto.
Qed.
End contract.

Definition never (d : store) (e : error) : Prop := False.

(** Clock and UUID source do not touch the store. *)
Class EnvSpec {W} (inv : W -> Prop) (view : W -> store)
    `{Clock (ST W), UUIDSource (ST W)} : Prop := {
  spec_now : forall w, inv w ->
    wp time_Now (fun _ w' => inv w' /\ view w' = view w) w;
  spec_uuid : forall w, inv w ->
    wp uuid_New (fun _ w' => inv w' /\ view w' = view w) w }.

Section env_rules.
Context {W : Type} (inv : W -> Prop) (view : W -> store).
Context `{EnvSpec W inv view}.

Lemma wp_now {B} (k : Time -> ST W B) Q w d :
  inv w -> view w = d ->
  (forall t w', inv w' -> view w' = d -> wp (k t) Q w') -> wp (mbind k time_Now) Q w.
Proof using All.
  intros Hi <- Hk. apply wp_bind. eapply wp_mono; [by apply spec_now|].
  intros t w' [? ?]. auto.
Qed.

Lemma wp_uuid {B} (k : uuid -> ST W B) Q w d :
  inv w -> view w = d ->
  (forall id w', inv w' -> view w' = d -> wp (k id) Q w') -> wp (mbind k uuid_New) Q w.
Proof using All.
  intros Hi <- Hk. apply wp_bind. eapply wp_mono; [by apply spec_uuid|].
  intros t w' [? ?]. auto.
Qed.
End env_rules.

Lemma wp_check {W A} (o : option error) (k : unit -> ST W (res A)) Q w :
  (o = None -> wp (k tt) Q w) -> (forall e, o = Some e -> Q (Err e) w) ->
  wp (try (check_err o) k) Q w.
Proof. intros HN HS. apply wp_try, wp_ret. destruct o; auto. Qed.

(** What a storage may fall short of.  [lenient]: a write that finds its values
    stored already, or refers to rows that are gone, may be answered as if its row
    were missing or there already.  [kept_emoji]: what is stored of the text of a
    reaction, [None] when the reaction is dropped. *)
Class Latitude : Type := { lenient : Prop; kept_emoji : string -> option string }.

(** A storage that is never lenient. *)
Class Strict `{Latitude} : Prop := not_lenient : ~ lenient.

Lemma strictly `{Strict} (P Q : Prop) : P \/ (lenient /\ Q) -> P.
Proof. by intros [?|[[]%not_lenient _]]. Qed.

Definition known_role (r : MemberRole) : Prop := r ∈ [MemberRoleOwner; MemberRoleAdmin; MemberRoleMember].

Lemma member_role_known : known_role MemberRoleMember.
Proof. unfold known_role. set_solver. Qed.

(** The effects and the refusals of the writes. *)
Definition update_chat `{Precision} (c : Chat) (d : store) : store :=
  with_chats (alter (patch_chat (stamp_chat c)) (chat_ID c)) d.
Definition chat_missing `{Precision, Latitude} (c : Chat) (d : store) (e : error) : Prop :=
  e = Sentinel ErrChatNotFound /\
  (st_chats d !! chat_ID c = None \/ (lenient /\ update_chat c d = d)).
Definition already_member `{Latitude} (m : ChatMember) (d : store) (e : error) : Prop :=
  e = Sentinel ErrAlreadyChatMember /\
  (is_member d (cm_ChatID m) (cm_UserID m) \/
   (lenient /\ (st_chats d !! cm_ChatID m = None \/ st_users d !! cm_UserID m = None))).
Definition role_unset `{Latitude} (c u : uuid) (r : MemberRole) (d : store) (e : error) : Prop :=
  e = Sentinel ErrNotChatMember /\ (~ is_member d c u \/ (lenient /\ set_role c u r d = d)).

Class ChatRepositorySpec `{Precision, Latitude, Loss} {W} (inv : W -> Prop) (view : W -> store)
    (CR : ChatRepository (ST W)) : Prop := {
  spec_CreateWithMembers c ms :
    Forall (fun m => cm_ChatID m = chat_ID c) ms -> NoDup (cm_UserID <$> ms) ->
    honours inv view (chats_CreateWithMembers c ms)
      (fun d _ d' => fresh_chat d (chat_ID c) /\
         d' = create_chat (stamp_chat c) (stamp_member <$> ms) d) never;
  spec_GetByID id :
    reads inv view (chats_GetByID id) (fun d c => st_chats d !! id = Some c /\ chat_ID c = id)
      (fun d e => e = Sentinel ErrChatNotFound /\ st_chats d !! id = None);
  spec_Update c :
    honours inv view (chats_Update c)
      (fun d _ d' => is_Some (st_chats d !! chat_ID c) /\
         d' = update_chat c d)
      (chat_missing c);
  spec_Delete id :
    honours inv view (chats_Delete id) (fun d _ d' => d' = with_chats (delete id) d) never;
  spec_AddMember m :
    known_role (cm_Role m) ->
    honours inv view (chats_AddMember m)
      (fun d _ d' => ~ is_member d (cm_ChatID m) (cm_UserID m) /\
         d' = add_member (stamp_member m) d)
      (already_member m);
  spec_RemoveMember c u :
    honours inv view (chats_RemoveMember c u)
      (fun d _ d' => is_member d c u /\ d' = remove_member c u d)
      (fun d e => e = Sentinel ErrNotChatMember /\ ~ is_member d c u);
  spec_GetMember c u :
    reads inv view (chats_GetMember c u) (fun d m => member_role_says d c u m)
      (fun d e => e = Sentinel ErrNotChatMember /\
         (~ is_member d c u \/ st_users d !! u = None));
  spec_GetMembers c :
    reads inv view (chats_GetMembers c) (fun d ms => members_listing d c ms) never;
  spec_UpdateMemberRole c u r :
    honours inv view (chats_UpdateMemberRole c u r)
      (fun d _ d' => is_member d c u /\ d' = set_role c u r d)
      (role_unset c u r);
  spec_GetUserChats u :
    reads inv view (chats_GetUserChats u)
      (fun d ps => Forall (fun p => is_member d (chat_ID (pv_Chat p)) u /\
                     st_chats d !! chat_ID (pv_Chat p) = Some (pv_Chat p)) ps /\
         (forall c, is_member d c u -> is_Some (st_chats d !! c) ->
                    c ∈ (fun p => chat_ID (pv_Chat p)) <$> ps))
      never;
  spec_GetDirectChat a b :
    reads inv view (chats_GetDirectChat a b)
      (fun d c => st_chats d !! chat_ID c = Some c /\ chat_Type c = ChatTypeDirect /\
         is_member d (chat_ID c) a /\ is_member d (chat_ID c) b)
      (fun d e => e = Sentinel ErrChatNotFound /\
         forall id c, st_chats d !! id = Some c -> chat_Type c = ChatTypeDirect ->
           ~ (is_member d id a /\ is_member d id b));
  spec_IsMember c u :
    reads inv view (chats_IsMember c u) (fun d b => b = bool_decide (is_member d c u)) never }.

(** The equality of the columns [email] and [username]. *)
Class TextEq : Type := same_text : string -> string -> bool.

(** No live account other than [self] has the address, or the name. *)
Definition email_free `{TextEq} (d : store) (self : uuid) (e : string) : Prop :=
  forall k u, st_users d !! k = Some u -> k <> self -> same_text (user_Email u) e = false.
Definition username_free `{TextEq} (d : store) (self : uuid) (n : string) : Prop :=
  forall k u, st_users d !! k = Some u -> k <> self -> same_text (user_Username u) n = false.

Definition stamp_user `{Precision} (u : User) : User :=
  mkUser (user_ID u) (user_Username u) (user_Email u) (user_PasswordHash u) (user_AvatarURL u)
    (user_Bio u) (user_Status u) (stamp (user_LastSeen u)) (stamp (user_CreatedAt u))
    (stamp (user_UpdatedAt u)).

(** What [UPDATE users] of a profile may change. *)
Definition patch_user (new old : User) : User :=
  mkUser (user_ID old) (user_Username new) (user_Email new) (user_PasswordHash old)
    (user_AvatarURL new) (user_Bio new) (user_Status old) (user_LastSeen old) (user_CreatedAt old)
    (user_UpdatedAt new).

Definition set_status (s : UserStatus) (seen now : Time) (u : User) : User :=
  mkUser (user_ID u) (user_Username u) (user_Email u) (user_PasswordHash u) (user_AvatarURL u)
    (user_Bio u) s seen (user_CreatedAt u) now.

(** Everything but the password hash. *)
Definition public (u : User) : User :=
  mkUser (user_ID u) (user_Username u) (user_Email u) "" (user_AvatarURL u) (user_Bio u)
    (user_Status u) (user_LastSeen u) (user_CreatedAt u) (user_UpdatedAt u).

(** The user [id] without regard to the hash: the entity may come from the cache. *)
Definition user_says (d : store) (id : uuid) (u : User) : Prop :=
  user_ID u = id /\ exists u', st_users d !! id = Some u' /\ public u' = public u.

Definition update_user `{Precision} (u : User) (d : store) : store :=
  with_users (alter (patch_user (stamp_user u)) (user_ID u)) d.
Definition name_taken `{TextEq, Latitude} (u : User) (d : store) (e : error) : Prop :=
  (e = Sentinel ErrEmailTaken /\ (~ email_free d (user_ID u) (user_Email u) \/
     (lenient /\ ~ username_free d (user_ID u) (user_Username u)))) \/
  (e = Sentinel ErrUsernameTaken /\ ~ username_free d (user_ID u) (user_Username u)).
Definition user_missing `{Precision, Latitude} (u : User) (d : store) (e : error) : Prop :=
  e = Sentinel ErrUserNotFound /\
  (st_users d !! user_ID u = None \/ (lenient /\ update_user u d = d)).

Class UserRepositorySpec `{Precision, TextEq, Latitude, Loss} {W} (inv : W -> Prop) (view : W -> store)
    (UR : UserRepository (ST W)) : Prop := {
  spec_UserCreate u :
    honours inv view (users_Create u)
      (fun d _ d' => st_users d !! user_ID u = None /\ email_free d (user_ID u) (user_Email u) /\
         username_free d (user_ID u) (user_Username u) /\
         d' = with_users <[user_ID u := stamp_user u]> d)
      (name_taken u);
  spec_UserGetByID id :
    reads inv view (users_GetByID id) (fun d u => user_says d id u)
      (fun d e => e = Sentinel ErrUserNotFound /\ st_users d !! id = None);
  spec_UserGetByEmail email :
    reads inv view (users_GetByEmail email)
      (fun d u => st_users d !! user_ID u = Some u /\ same_text (user_Email u) email = true)
      (fun d e => e = Sentinel ErrUserNotFound /\
         forall k u, st_users d !! k = Some u -> same_text (user_Email u) email = false);
  spec_UserGetByUsername name :
    reads inv view (users_GetByUsername name)
      (fun d u => st_users d !! user_ID u = Some u /\ same_text (user_Username u) name = true)
      (fun d e => e = Sentinel ErrUserNotFound /\
         forall k u, st_users d !! k = Some u -> same_text (user_Username u) name = false);
  spec_UserUpdate u :
    honours inv view (users_Update u)
      (fun d _ d' => is_Some (st_users d !! user_ID u) /\ email_free d (user_ID u) (user_Email u) /\
         username_free d (user_ID u) (user_Username u) /\
         d' = update_user u d)
      (fun d e => user_missing u d e \/ name_taken u d e);
  spec_UserUpdateStatus id s t :
    honours inv view (users_UpdateStatus id s t)
      (fun d _ d' => exists now, d' = with_users (alter (set_status s (stamp t) now) id) d) never;
  spec_UserSearch q limit offset :
    reads inv view (users_Search q limit offset)
      (fun d us => Z.of_nat (length us) <= Z.max 0 limit /\ NoDup (user_ID <$> us) /\
         Forall (fun u => exists u', st_users d !! user_ID u = Some u' /\ u = public u') us) never;
  spec_UserDelete id :
    honours inv view (users_Delete id) (fun d _ d' => d' = with_users (delete id) d) never }.

(** All that the chat service asks of the user repository. *)
Class UserLookupSpec `{Loss} {W} (inv : W -> Prop) (view : W -> store)
    (UR : UserRepository (ST W)) : Prop := {
  spec_FindUser id :
    reads inv view (users_GetByID id) (fun d u => user_says d id u)
      (fun d e => e = Sentinel ErrUserNotFound /\ st_users d !! id = None) }.

#[export] Instance user_repository_lookup `{PR : Precision, TE : TextEq, LA : Latitude, LO : Loss} {W} (inv : W -> Prop)
    (view : W -> store) (UR : UserRepository (ST W)) :
  UserRepositorySpec inv view UR -> UserLookupSpec inv view UR.
Proof. intros H. split. apply spec_UserGetByID. Qed.

(** ** Messages *)

Definition stored_message `{Precision} (m : Message) : Message :=
  mkMessage (msg_ID m) (msg_ChatID m) (msg_SenderID m) (msg_Content m) (msg_Type m) (msg_ReplyToID m)
    None None (stamp (msg_CreatedAt m)) (stamp (msg_UpdatedAt m)) None [] None.

(** What [UPDATE messages] may change: the text and the two instants. *)
Definition patch_message `{Precision} (new old : Message) : Message :=
  mkMessage (msg_ID old) (msg_ChatID old) (msg_SenderID old) (msg_Content new) (msg_Type old)
    (msg_ReplyToID old) (stamp <$> msg_EditedAt new) (msg_DeletedAt old) (msg_CreatedAt old)
    (stamp (msg_UpdatedAt new)) None [] None.

Definition mark_deleted (now : Time) (m : Message) : Message :=
  mkMessage (msg_ID m) (msg_ChatID m) (msg_SenderID m) (msg_Content m) (msg_Type m) (msg_ReplyToID m)
    (msg_EditedAt m) (Some now) (msg_CreatedAt m) now None [] None.

Definition live_message (d : store) (id : uuid) (m : Message) : Prop :=
  st_messages d !! id = Some m /\ IsDeleted m = false.

(** Newest first: [ORDER BY m.created_at DESC, m.id DESC]. *)
Definition newer_message (a b : Message) : Prop :=
  msg_CreatedAt b < msg_CreatedAt a \/
  (msg_CreatedAt b = msg_CreatedAt a /\ (msg_ID b <= msg_ID a)%N).
#[export] Instance newer_message_dec : RelDecision newer_message :=
  fun a b => _ : Decision (_ \/ _).

#[export] Instance newer_message_total : Total newer_message.
Proof. intros a b. unfold newer_message. lia. Qed.
#[export] Instance newer_message_trans : Transitive newer_message.
Proof. intros a b c. unfold newer_message. lia. Qed.

(** The history of a chat: its live messages, newest first. *)
Definition history (d : store) (c : uuid) : list Message :=
  merge_sort newer_message
    (filter (fun m => msg_ChatID m = c /\ IsDeleted m = false) (map_to_list (st_messages d)).*2).

Definition older_than `{Precision} (cursor : option MessageCursor) (m : Message) : Prop :=
  match cursor with
  | None => True
  | Some cur => msg_CreatedAt m < stamp (cur_CreatedAt cur) \/
      (msg_CreatedAt m = stamp (cur_CreatedAt cur) /\ (msg_ID m < cur_ID cur)%N)
  end.
#[export] Instance older_than_dec `{Precision} cursor m : Decision (older_than cursor m).
Proof. unfold older_than. destruct cursor; apply _. Defined.

(** A page of the history. *)
Definition history_page `{Precision} (d : store) (c : uuid) (cursor : option MessageCursor)
    (limit : nat) : list Message :=
  take limit (filter (older_than cursor) (history d c)).

(** A message without what the joins add to it. *)
Definition bare (m : Message) : Message :=
  mkMessage (msg_ID m) (msg_ChatID m) (msg_SenderID m) (msg_Content m) (msg_Type m) (msg_ReplyToID m)
    (msg_EditedAt m) (msg_DeletedAt m) (msg_CreatedAt m) (msg_UpdatedAt m) None [] None.

(** The reactions to a message by live accounts, each once. *)
Definition reactions_listing (d : store) (m : uuid) (rs : list Reaction) : Prop :=
  NoDup ((fun r => (rx_UserID r, rx_Emoji r)) <$> rs) /\
  Forall (fun r => rx_MessageID r = m /\
    st_reactions d !! (m, rx_UserID r, rx_Emoji r) = Some (rx_CreatedAt r)) rs /\
  (forall u e, is_Some (st_reactions d !! (m, u, e)) -> is_Some (st_users d !! u) ->
     (u, e) ∈ (fun r => (rx_UserID r, rx_Emoji r)) <$> rs).

Definition unread_count (d : store) (c u : uuid) : nat :=
  length (filter (fun m => msg_ChatID m = c /\ msg_SenderID m <> u /\ IsDeleted m = false /\
                           default 0 (st_receipts d !! (c, u)) < msg_CreatedAt m)
            (map_to_list (st_messages d)).*2).

Definition update_message `{Precision} (m : Message) (d : store) : store :=
  with_messages (alter (patch_message m) (msg_ID m)) d.
Definition message_missing `{Precision, Latitude} (m : Message) (d : store) (e : error) : Prop :=
  e = Sentinel ErrMessageNotFound /\
  ((forall old, ~ live_message d (msg_ID m) old) \/ (lenient /\ update_message m d = d)).

(** The user reacted to the message with an emoji that passes for [e]. *)
Definition reacted `{TextEq} (d : store) (m u : uuid) (e : string) : Prop :=
  exists e', is_Some (st_reactions d !! (m, u, e')) /\ same_text e' e = true.

(** A reaction is recorded once. *)
Definition add_reaction `{TextEq, Latitude} (m u : uuid) (emoji : string) (now : Time) (d d' : store) : Prop :=
  match kept_emoji emoji with
  | None => d' = d
  | Some e =>
    (reacted d m u e /\ d' = d) \/
    (~ reacted d m u e /\ d' = with_reactions <[(m, u, e) := now]> d) \/
    (lenient /\ (st_messages d !! m = None \/ st_users d !! u = None) /\ d' = d)
  end.

Definition remove_reaction `{TextEq} (m u : uuid) (e : string) (d : store) : store :=
  with_reactions (filter (fun kt => ~ (kt.1.1 = (m, u) /\ same_text kt.1.2 e = true))) d.

Class MessageRepositorySpec `{Precision, TextEq, Latitude, Loss} {W} (inv : W -> Prop) (view : W -> store)
    (MR : MessageRepository (ST W)) : Prop := {
  spec_MessageCreate m :
    honours inv view (messages_Create m)
      (fun d _ d' => st_messages d !! msg_ID m = None /\
         d' = with_messages <[msg_ID m := stored_message m]> d) never;
  spec_MessageGetByID id :
    reads inv view (messages_GetByID id)
      (fun d m => st_messages d !! id = Some m /\ msg_ID m = id)
      (fun d e => e = Sentinel ErrMessageNotFound /\ st_messages d !! id = None);
  spec_GetChatMessages c cursor limit :
    reads inv view (messages_GetChatMessages c cursor limit)
      (fun d ms => 0 <= limit /\ bare <$> ms = history_page d c cursor (Z.to_nat limit)) never;
  spec_MessageUpdate m :
    honours inv view (messages_Update m)
      (fun d _ d' => (exists old, live_message d (msg_ID m) old) /\
         d' = update_message m d)
      (message_missing m);
  spec_MessageDelete id :
    honours inv view (messages_Delete id)
      (fun d _ d' => (exists old, live_message d id old) /\
         exists now, d' = with_messages (alter (mark_deleted now) id) d)
      (fun d e => e = Sentinel ErrMessageNotFound /\ forall old, ~ live_message d id old);
  spec_MarkRead c u :
    honours inv view (messages_MarkRead c u)
      (fun d _ d' => exists now, d' = with_receipts <[(c, u) := now]> d) never;
  spec_GetUnreadCount c u :
    reads inv view (messages_GetUnreadCount c u) (fun d n => n = Z.of_nat (unread_count d c u)) never;
  spec_AddReaction r :
    honours inv view (messages_AddReaction r)
      (fun d _ d' => add_reaction (rx_MessageID r) (rx_UserID r) (rx_Emoji r) (stamp (rx_CreatedAt r)) d d')
      never;
  spec_RemoveReaction m u e :
    honours inv view (messages_RemoveReaction m u e)
      (fun d _ d' => d' = remove_reaction m u e d) never;
  spec_GetReactions m :
    reads inv view (messages_GetReactions m) (fun d rs => reactions_listing d m rs) never;
  spec_GetReactionsBatch ids :
    reads inv view (messages_GetReactionsBatch ids)
      (fun d t => forall m, m ∈ ids -> reactions_listing d m (default [] (t !! m))) never }.
