(* ===== verification/GoStd.v ===== *)
(** * Pieces of the Go standard library the delivery layer leans on

    [strings.SplitN] and [LastIndex] on one-byte separators, [strings.EqualFold],
    [strings.Join], [url.QueryEscape], [strconv.Atoi], and [time.Parse] of the [RFC3339Nano] layout, with the
    leniencies of the real parser: one-digit hours, a comma for the decimal
    point, any number of decimals, offsets up to 24:60. *)
From stdpp Require Import pretty.
From S2P Require Import Prelude Utf8 Domain.
Open Scope Z_scope.

(** ** strings *)

(** [strings.SplitN(s, sep, 2)]: the text before and after the first [sep]. *)
Fixpoint cut (sep : ascii) (s : string) : option (string * string) :=
  match s with
  | EmptyString => None
  | String a rest =>
    if Ascii.eqb a sep then Some ("", rest)
    else match cut sep rest with Some (x, y) => Some (String a x, y) | None => None end
  end.

(** [s[:strings.LastIndex(s, sep)]], or [s] when [sep] does not occur. *)
Fixpoint before_last (sep : ascii) (s : string) : option string :=
  match s with
  | EmptyString => None
  | String a rest =>
    match before_last sep rest with
    | Some x => Some (String a x)
    | None => if Ascii.eqb a sep then Some "" else None
    end
  end.

(** Simple case folding, as far as an ASCII text can meet it: the ASCII letters,
    and the two letters outside ASCII that fold to one (long s, Kelvin sign). *)
Definition fold_rune (r : Z) : Z :=
  if in_range 65 90 r then r + 32
  else if r =? 383 then 115
  else if r =? 8490 then 107
  else r.

(** [strings.EqualFold] when one of the texts is ASCII. *)
Definition EqualFold (s t : string) : bool :=
  bool_decide (fold_rune <$> runes s = fold_rune <$> runes t).

(** Lower-casing of a rune, as far as an ASCII word can come of it: the ASCII
    letters, dotted capital I and the Kelvin sign. *)
Definition lower_rune (r : Z) : Z :=
  if in_range 65 90 r then r + 32
  else if r =? 304 then 105
  else if r =? 8490 then 107
  else r.

(** [strings.ToLower(s) == word] for an ASCII word in small letters. *)
Definition lowers_to (s word : string) : bool :=
  bool_decide (lower_rune <$> runes s = runes word).

(** [strings.Join]. *)
Fixpoint Join (l : list string) (sep : string) : string :=
  match l with
  | [] => ""
  | [s] => s
  | s :: rest => s +:+ sep +:+ Join rest sep
  end.

(** [fmt.Sprintf("%-20s", s)]. *)
Definition pad_right (width : Z) (s : string) : string :=
  s +:+ String.concat "" (repeat " " (Z.to_nat (width - RuneCountInString s))).

(** [fmt.Sprintf("%d", n)]. *)
Definition decimal (n : Z) : string := pretty n.

(** ** net/url *)
Definition hex_digit (n : Z) : ascii := ascii_of_N (Z.to_N (if n <? 10 then 48 + n else 55 + n)).

Definition unreserved (b : Z) : bool :=
  in_range 65 90 b || in_range 97 122 b || in_range 48 57 b ||
  bool_decide (b ∈ [45; 95; 46; 126]).

(** [url.QueryEscape]. *)
Fixpoint QueryEscape (s : string) : string :=
  match s with
  | "" => ""
  | String a rest =>
    let b := byte_of a in
    (if unreserved b then String a ""
     else if b =? 32 then "+"
     else String "%" (String (hex_digit (b / 16)) (String (hex_digit (b mod 16)) ""))) +:+ QueryEscape rest
  end.

Definition key_le (a b : string * string) : Prop := String.leb a.1 b.1 = true.
#[export] Instance key_le_dec : RelDecision key_le := fun a b => _ : Decision (_ = true).

(** [url.Values.Encode] of single values: sorted by key. *)
Definition Encode (l : list (string * string)) : string :=
  Join ((fun kv => QueryEscape kv.1 +:+ "=" +:+ QueryEscape kv.2) <$> merge_sort key_le l) "&".

(** ** strconv *)
Definition digit (a : ascii) : option Z :=
  let b := byte_of a in if in_range 48 57 b then Some (b - 48) else None.

Fixpoint digits_from (acc : Z) (s : string) : option Z :=
  match s with
  | EmptyString => Some acc
  | String a rest => match digit a with Some d => digits_from (10 * acc + d) rest | None => None end
  end.
Definition digits (s : string) : option Z :=
  match s with EmptyString => None | _ => digits_from 0 s end.

Definition max_int : Z := 2 ^ 63 - 1.
Definition min_int : Z := - 2 ^ 63.
Definition max_uint : Z := 2 ^ 64 - 1.

(** The sign a number may start with: whether it is a minus, and what follows. *)
Definition signed (s : string) : bool * string :=
  match s with
  | String a rest => if Ascii.eqb a "+" then (false, rest) else if Ascii.eqb a "-" then (true, rest) else (false, s)
  | EmptyString => (false, s)
  end.

(** An optional sign, decimal digits, a value of 64 bits; [None] for an error. *)
Definition Atoi (s : string) : option Z :=
  let '(neg, s') := signed s in
  match digits s' with
  | Some v => let v := if neg then - v else v in if in_range min_int max_int v then Some v else None
  | None => None
  end.

(** The digits of [strconv.ParseUint], which stops at the largest value as soon as the
    number passes it, whatever follows. *)
Fixpoint uint_from (n : Z) (s : string) : option Z :=
  match s with
  | EmptyString => Some n
  | String a rest =>
    match digit a with
    | None => None
    | Some d => if max_uint <? 10 * n + d then Some max_uint else uint_from (10 * n + d) rest
    end
  end.
Definition uint (s : string) : option Z :=
  match s with EmptyString => None | _ => uint_from 0 s end.

(** The number [strconv.Atoi] returns whether or not it returns an error beside it:
    zero for a text that is no number, the nearest 64-bit integer for one out of range. *)
Definition atoi_number (s : string) : Z :=
  let '(neg, s') := signed s in
  match uint s' with
  | None => 0
  | Some u => if neg then (if - min_int <? u then min_int else - u) else (if max_int <? u then max_int else u)
  end.

(** ** time *)
Definition is_leap (y : Z) : bool :=
  ((y mod 4 =? 0) && negb (y mod 100 =? 0)) || (y mod 400 =? 0).

Definition days_in (m y : Z) : Z :=
  if m =? 2 then (if is_leap y then 29 else 28)
  else if (m =? 4) || (m =? 6) || (m =? 9) || (m =? 11) then 30 else 31.

(** Days from 1970-01-01 to a date of the proleptic Gregorian calendar, counted
    from the March that opens its year. *)
Definition days_of_date (y m d : Z) : Z :=
  let y' := if m <=? 2 then y - 1 else y in
  let m' := if m <=? 2 then m + 9 else m - 3 in
  365 * y' + y' / 4 - y' / 100 + y' / 400 + (153 * m' + 2) / 5 + (d - 1) - 719468.

Definition parser (A : Type) : Type := string -> option (A * string).
#[local] Instance parser_ret : MRet parser := fun A a s => Some (a, s).
#[local] Instance parser_bind : MBind parser :=
  fun A B k p s => match p s with Some (a, rest) => k a rest | None => None end.

Definition p_guard (b : bool) : parser unit := fun s => if b then Some (tt, s) else None.
Definition p_char (c : ascii) : parser unit := fun s =>
  match s with String a rest => if Ascii.eqb a c then Some (tt, rest) else None | _ => None end.
Definition p_digit : parser Z := fun s =>
  match s with String a rest => match digit a with Some d => Some (d, rest) | None => None end | _ => None end.

(** [getnum(value, true)] and [getnum(value, false)]. *)
Definition p_two : parser Z := let* a := p_digit in let* b := p_digit in mret (10 * a + b).
Definition p_one_or_two : parser Z := fun s =>
  match p_two s with Some r => Some r | None => p_digit s end.

(** The leading digits of a text. *)
Fixpoint span_digits (s : string) : list Z * string :=
  match s with
  | String a rest =>
    match digit a with
    | Some d => let '(ds, r) := span_digits rest in (d :: ds, r)
    | None => ([], s)
    end
  | EmptyString => ([], s)
  end.

(** Nanoseconds of a fraction: the first nine decimals. *)
Definition nanos (ds : list Z) : Z :=
  foldl (fun acc d => 10 * acc + d) 0 (take 9 (ds ++ replicate 9 0)).

Definition p_fraction : parser Z := fun s =>
  match s with
  | String a rest =>
    if Ascii.eqb a "." || Ascii.eqb a "," then
      match span_digits rest with
      | ([], _) => Some (0, s)
      | (ds, rest') => Some (nanos ds, rest')
      end
    else Some (0, s)
  | EmptyString => Some (0, s)
  end.

(** [Z07:00]: the offset in seconds. *)
Definition p_zone : parser Z := fun s =>
  match s with
  | String a rest =>
    if Ascii.eqb a "Z" then Some (0, rest) else
    if Ascii.eqb a "+" || Ascii.eqb a "-" then
      (let* h := p_two in let* _ := p_char ":" in let* m := p_two in
       let* _ := p_guard ((h <=? 24) && (m <=? 60)) in
       mret ((if Ascii.eqb a "-" then -1 else 1) * (h * 60 + m) * 60)) rest
    else None
  | EmptyString => None
  end.

Definition p_rfc3339 : parser Time :=
  let* c1 := p_digit in let* c2 := p_digit in let* c3 := p_digit in let* c4 := p_digit in
  let y := ((c1 * 10 + c2) * 10 + c3) * 10 + c4 in
  let* _ := p_char "-" in let* mo := p_two in let* _ := p_guard (in_range 1 12 mo) in
  let* _ := p_char "-" in let* d := p_two in
  let* _ := p_char "T" in let* h := p_one_or_two in let* _ := p_guard (h <? 24) in
  let* _ := p_char ":" in let* mi := p_two in let* _ := p_guard (mi <? 60) in
  let* _ := p_char ":" in let* s := p_two in let* _ := p_guard (s <? 60) in
  let* ns := p_fraction in
  let* off := p_zone in
  let* _ := p_guard (in_range 1 (days_in mo y) d) in
  mret ((days_of_date y mo d * 86400 + h * 3600 + mi * 60 + s - off) * 1000000000 + ns).

(** [time.Parse(time.RFC3339Nano, s)]: nothing may follow. *)
Definition time_Parse (s : string) : option Time :=
  match p_rfc3339 s with Some (t, EmptyString) => Some t | _ => None end.

(** ** Lemmas *)
Lemma Atoi_range s v : Atoi s = Some v -> min_int <= v <= max_int.
Proof.
  unfold Atoi. destruct (signed s) as [neg s']. destruct (digits s') as [v'|]; [|done]. cbv zeta.
  destruct (in_range min_int max_int _) eqn:R; [|done]. intros [= <-].
  unfold in_range in R. bool_prop. rewrite ?Z.leb_le in *. lia.
Qed.

(** Where [strconv.Atoi] returns no error, the number is the one read. *)
Lemma digit_range a d : digit a = Some d -> 0 <= d.
Proof.
  unfold digit. destruct (in_range 48 57 _) eqn:R; [|done]. intros [= <-].
  unfold in_range in R. bool_prop. rewrite ?Z.leb_le in *. lia.
Qed.

Lemma digits_from_grows s n v : 0 <= n -> digits_from n s = Some v -> n <= v.
Proof.
  revert n. induction s as [|a s IH]; intros n Hn; cbn; [intros [= <-]; lia|].
  destruct (digit a) as [d|] eqn:Hd; [|done]. intros Hv. apply digit_range in Hd. apply IH in Hv; lia.
Qed.

Lemma uint_from_digits s n v : 0 <= n -> digits_from n s = Some v -> v <= max_uint -> uint_from n s = Some v.
Proof.
  revert n. induction s as [|a s IH]; intros n Hn; cbn; [done|].
  destruct (digit a) as [d|] eqn:Hd; [|done]. intros Hv Hmax. apply digit_range in Hd.
  pose proof (digits_from_grows s (10 * n + d) v ltac:(lia) Hv). rewrite (proj2 (Z.ltb_ge _ _)) by lia.
  apply IH; [lia|done..].
Qed.

Lemma atoi_number_read s v : Atoi s = Some v -> atoi_number s = v.
Proof.
  intros Hv. pose proof (Atoi_range _ _ Hv) as Hr. revert Hv. unfold Atoi, atoi_number.
  destruct (signed s) as [neg s']. destruct (digits s') as [u|] eqn:Hu; [|done]. cbv zeta.
  destruct (in_range min_int max_int _); [|done]. intros [= Hv].
  assert (0 <= u /\ uint s' = Some u) as [Hu0 ->].
  { unfold digits, uint in *. destruct s' as [|a s']; [done|].
    split; [by eapply digits_from_grows|]. apply uint_from_digits; [done|exact Hu|].
    unfold max_uint, min_int, max_int in *. destruct neg; lia. }
  unfold min_int, max_int in *. destruct neg; rewrite (proj2 (Z.ltb_ge _ _)) by lia; lia.
Qed.

(** Out of range the number is the nearest there is, even before a letter. *)
Example atoi_clamps :
  atoi_number "99999999999999999999x" = max_int /\ atoi_number "-9223372036854775809" = min_int /\
  atoi_number "4294967296" = 2 ^ 32 /\ atoi_number "12x" = 0 /\ atoi_number "" = 0.
Proof. vm_compute. done. Qed.

Lemma EqualFold_refl s : EqualFold s s = true.
Proof. apply bool_decide_eq_true_2. reflexivity. Qed.
