(* ===== verification/GoDuration.v ===== *)
(** * [time.Duration] as text

    [Duration.String] and [time.ParseDuration] of Go's standard library, byte by
    byte, with the 64-bit arithmetic of the parser and its one step in floating
    point; that the parser takes exactly [String]'s output back. *)
From stdpp Require Import pretty.
From S2P Require Import Prelude Utf8 Domain GoStd.
Open Scope Z_scope.

(** ** [float64]

    The parser multiplies and divides positive [float64]s: [m * 2 ^ e], rounded to
    53 bits, ties to even.  The exponent is unbounded: the scale of a fraction
    overflows, and its inverse underflows, only where the product is below one
    nanosecond and truncated to zero in either case. *)
Record float64 : Type := mkFloat { f_m : Z; f_e : Z }.

Definition round53 (m e : Z) : float64 :=
  let s := Z.log2 m + 1 - 53 in
  if s <=? 0 then mkFloat m e else
  let q := m / 2 ^ s in let r := m mod 2 ^ s in
  let up := (2 ^ (s - 1) <? r) || ((r =? 2 ^ (s - 1)) && Z.odd q) in
  mkFloat (if up then q + 1 else q) (e + s).

Definition f_of_uint (n : Z) : float64 := round53 n 0.
Definition f_mul (a b : float64) : float64 := round53 (f_m a * f_m b) (f_e a + f_e b).
(** The quotient to 55 bits and a sticky bit, then rounded. *)
Definition f_div (a b : float64) : float64 :=
  let k := Z.max 0 (Z.log2 (f_m b) - Z.log2 (f_m a) + 55) in
  let n := f_m a * 2 ^ k in
  let sticky := if n mod f_m b =? 0 then 0 else 1 in
  round53 (2 * (n / f_m b) + sticky) (f_e a - f_e b - k - 1).
(** The conversion to [uint64] truncates. *)
Definition f_trunc (a : float64) : Z := Z.shiftl (f_m a) (f_e a).

(** ** [Duration.String] *)
Definition digit_char (n : Z) : ascii := ascii_of_N (Z.to_N (48 + n)).

(** [fmtFrac], writing leftwards from [acc]: the last [prec] digits of [v] without
    their trailing zeros, and the rest of [v]. *)
Fixpoint fmtFrac_from (prec : nat) (print : bool) (v : Z) (acc : string) : string * Z :=
  match prec with
  | O => (if print then String "." acc else acc, v)
  | S prec =>
    let digit := v mod 10 in
    let print := print || negb (digit =? 0) in
    fmtFrac_from prec print (v / 10) (if print then String (digit_char digit) acc else acc)
  end.
Definition fmtFrac (v : Z) (prec : nat) (acc : string) : string * Z := fmtFrac_from prec false v acc.

(** [fmtInt]. *)
Definition fmtInt (v : Z) (acc : string) : string :=
  if v =? 0 then String "0" acc else pretty_N_go (Z.to_N v) acc.

Definition micro : string := String (ascii_of_N 194) (String (ascii_of_N 181) "s").

Definition magnitude_String (u : Z) : string :=
  let scaled p unit := let '(acc, v) := fmtFrac u p unit in fmtInt v acc in
  if u =? 0 then "0s"
  else if u <? 1000 then scaled 0%nat "ns"
  else if u <? 1000000 then scaled 3%nat micro
  else if u <? 1000000000 then scaled 6%nat "ms"
  else
    let '(acc, v) := fmtFrac u 9 "s" in
    let acc := fmtInt (v mod 60) acc in
    let v := v / 60 in
    if v =? 0 then acc else
    let acc := fmtInt (v mod 60) (String "m" acc) in
    let v := v / 60 in
    if v =? 0 then acc else fmtInt v (String "h" acc).

Definition Duration_String (d : Duration) : string :=
  if d <? 0 then String "-" (magnitude_String (- d)) else magnitude_String d.

(** ** [time.ParseDuration] *)
Inductive duration_error : Type :=
| InvalidDuration
| MissingUnit
| UnknownUnit (u : string).

Definition two63 : Z := 2 ^ 63.

Fixpoint leadingInt_from (x : Z) (s : string) : option (Z * string) :=
  match s with
  | "" => Some (x, s)
  | String c rest =>
    match digit c with
    | None => Some (x, s)
    | Some d =>
      if two63 / 10 <? x then None else
      if two63 <? x * 10 + d then None else leadingInt_from (x * 10 + d) rest
    end
  end.

Fixpoint leadingFraction_from (x : Z) (scale : float64) (overflow : bool) (s : string) : Z * float64 * string :=
  match s with
  | "" => (x, scale, s)
  | String c rest =>
    match digit c with
    | None => (x, scale, s)
    | Some d =>
      if overflow then leadingFraction_from x scale true rest else
      if (two63 - 1) / 10 <? x then leadingFraction_from x scale true rest else
      if two63 <? x * 10 + d then leadingFraction_from x scale true rest else
      leadingFraction_from (x * 10 + d) (f_mul scale (mkFloat 10 0)) false rest
    end
  end.

(** The bytes up to the next digit or period. *)
Fixpoint span_unit (s : string) : string * string :=
  match s with
  | "" => ("", "")
  | String c rest =>
    if Ascii.eqb c "." || bool_decide (is_Some (digit c)) then ("", s)
    else let '(u, r) := span_unit rest in (String c u, r)
  end.

(** [unitMap], with both encodings of mu. *)
Definition unitMap (u : string) : option Z :=
  if bool_decide (u = "ns") then Some 1
  else if bool_decide (u = "us") then Some 1000
  else if bool_decide (u = micro) then Some 1000
  else if bool_decide (u = String (ascii_of_N 206) (String (ascii_of_N 188) "s")) then Some 1000
  else if bool_decide (u = "ms") then Some 1000000
  else if bool_decide (u = "s") then Some 1000000000
  else if bool_decide (u = "m") then Some (60 * 1000000000)
  else if bool_decide (u = "h") then Some (3600 * 1000000000)
  else None.

(** [uint64] addition. *)
Definition add64 (a b : Z) : Z := (a + b) mod 2 ^ 64.

(** A period and digits, if any: the digits, their scale, what follows, and
    whether there were any. *)
Definition parse_fraction (s : string) : Z * float64 * string * bool :=
  match s with
  | String "." rest =>
    let p := leadingFraction_from 0 (mkFloat 1 0) false rest in
    (p, negb (String.length p.2 =? String.length rest)%nat)
  | _ => (0, mkFloat 1 0, s, false)
  end.

(** One term: digits, a fraction, a unit.  The new total and what follows. *)
Definition parse_term (d : Z) (s : string) : result duration_error (Z * string) :=
  match leadingInt_from 0 s with
  | None => Err InvalidDuration
  | Some (v, s1) =>
    let pre := negb (String.length s1 =? String.length s)%nat in
    let '(f, scale, s2, post) := parse_fraction s1 in
    if negb pre && negb post then Err InvalidDuration else
    let '(u, s3) := span_unit s2 in
    if bool_decide (u = "") then Err MissingUnit else
    match unitMap u with
    | None => Err (UnknownUnit u)
    | Some unit =>
      if two63 / unit <? v then Err InvalidDuration else
      let v := v * unit in
      let v := if 0 <? f then v + f_trunc (f_mul (f_of_uint f) (f_div (f_of_uint unit) scale)) else v in
      if two63 <? v then Err InvalidDuration else
      let d := add64 d v in
      if two63 <? d then Err InvalidDuration else Ok (d, s3)
    end
  end.

(** The loop over the terms; [fuel] bounds their number. *)
Fixpoint parse_terms (fuel : nat) (d : Z) (s : string) : result duration_error Z :=
  match s with
  | "" => Ok d
  | String c _ =>
    match fuel with
    | O => Err InvalidDuration
    | S fuel =>
      if negb (Ascii.eqb c "." || bool_decide (is_Some (digit c))) then Err InvalidDuration else
      match parse_term d s with
      | Err e => Err e
      | Ok (d, s) => parse_terms fuel d s
      end
    end
  end.

(** [-Duration(d)] and [Duration(d)] of a [uint64] up to [2 ^ 63]. *)
Definition parse_magnitude (neg : bool) (s : string) : result duration_error Duration :=
  if bool_decide (s = "0") then Ok 0 else
  if bool_decide (s = "") then Err InvalidDuration else
  match parse_terms (String.length s) 0 s with
  | Err e => Err e
  | Ok d => if neg then Ok (- d) else if two63 - 1 <? d then Err InvalidDuration else Ok d
  end.

Definition ParseDuration (s : string) : result duration_error Duration :=
  match s with
  | String "-" rest => parse_magnitude true rest
  | String "+" rest => parse_magnitude false rest
  | _ => parse_magnitude false s
  end.

(** ** Enough fuel *)
Lemma leadingInt_length x s v r : leadingInt_from x s = Some (v, r) -> (String.length r <= String.length s)%nat.
Proof.
  revert x. induction s as [|c s IH]; intros x; cbn -[two63]; [intros [= <- <-]; cbn; lia|].
  destruct (digit c) as [d|]; [|intros [= <- <-]; cbn; lia].
  do 2 (case_match; [done|]). intros Hr%IH. lia.
Qed.
Lemma leadingFraction_length x f o s : (String.length (leadingFraction_from x f o s).2 <= String.length s)%nat.
Proof.
  revert x f o. induction s as [|c s IH]; intros x f o; cbn -[two63 f_mul]; [lia|].
  destruct (digit c) as [d|]; [|cbn; lia].
  repeat case_match; (etransitivity; [apply IH|lia]).
Qed.
Lemma span_unit_length s : (String.length (span_unit s).1 + String.length (span_unit s).2 = String.length s)%nat.
Proof.
  induction s as [|c s IH]; cbn; [done|]. case_match; [done|]. destruct (span_unit s); cbn in *. lia.
Qed.

Lemma parse_fraction_length s : (String.length (parse_fraction s).1.2 <= String.length s)%nat.
Proof.
  destruct s as [|c s]; [done|]. unfold parse_fraction.
  destruct c as [[] [] [] [] [] [] [] []]; try done.
  pose proof (leadingFraction_length 0 (mkFloat 1 0) false s). cbn [fst snd String.length]. lia.
Qed.

Lemma parse_term_length d s d' s' : parse_term d s = Ok (d', s') -> (String.length s' < String.length s)%nat.
Proof.
  unfold parse_term. destruct (leadingInt_from 0 s) as [[v s1]|] eqn:E1; [|done].
  apply leadingInt_length in E1. pose proof (parse_fraction_length s1) as Hf.
  destruct (parse_fraction s1) as [[[f scale] s2] post]. cbn in Hf.
  case_match; [done|]. pose proof (span_unit_length s2) as Hu.
  destruct (span_unit s2) as [u s3]. cbn in Hu. case_bool_decide as Hne; [done|].
  assert (0 < String.length u)%nat by (destruct u; [done|cbn; lia]).
  repeat (case_match; try done); intros [= _ <-]; lia.
Qed.

(** The loop never runs out of fuel: more of it changes nothing. *)
Lemma parse_terms_fuel n m d s :
  (String.length s <= n)%nat -> (String.length s <= m)%nat -> parse_terms n d s = parse_terms m d s.
Proof.
  revert m d s. induction n as [|n IH]; intros m d s Hn Hm; (destruct s as [|c s]; [by destruct m|]);
    [cbn in Hn; lia|]. destruct m as [|m]; [cbn in Hm; lia|]. cbn -[parse_term].
  case_match; [done|]. destruct (parse_term d (String c s)) as [[d' s']|] eqn:E; [|done].
  apply parse_term_length in E. cbn in *. apply IH; lia.
Qed.

(** ** The parser takes the printer's texts *)
Lemma digit_pretty n : (n < 10)%N -> digit (pretty_N_char n) = Some (Z.of_N n).
Proof.
  assert (forallb (fun k => bool_decide (digit (pretty_N_char (N.of_nat k)) = Some (Z.of_nat k))) (seq 0 10) = true) as All
    by (vm_compute; reflexivity).
  intros H. rewrite forallb_forall in All. specialize (All (N.to_nat n)). rewrite in_seq, bool_decide_eq_true in All.
  rewrite N2Nat.id, N_nat_Z in All. apply All. lia.
Qed.

Lemma digit_digit_char n : 0 <= n < 10 -> digit (digit_char n) = Some n.
Proof.
  assert (forallb (fun k => bool_decide (digit (digit_char (Z.of_nat k)) = Some (Z.of_nat k))) (seq 0 10) = true) as All
    by (vm_compute; reflexivity).
  intros H. rewrite forallb_forall in All. specialize (All (Z.to_nat n)). rewrite in_seq, bool_decide_eq_true in All.
  rewrite Z2Nat.id in All by lia. apply All. lia.
Qed.

Lemma leadingInt_pretty (n : N) s :
  Z.of_N n <= two63 -> leadingInt_from 0 (pretty_N_go n s) = leadingInt_from (Z.of_N n) s.
Proof.
  revert s. induction (N.lt_wf_0 n) as [n _ IH]; intros s Hn.
  destruct (decide (0 < n)%N) as [Hp|Hz]; [|assert (n = 0%N) as -> by lia; by rewrite pretty_N_go_0].
  rewrite pretty_N_go_step by done. pose proof (N.div_mod n 10 ltac:(done)) as Hdm.
  pose proof (N.mod_lt n 10 ltac:(done)) as Hm.
  pose proof (N.div_lt n 10 Hp ltac:(done)) as Hlt.
  set (q := (n / 10)%N) in *. set (r := (n mod 10)%N) in *. clearbody q r.
  assert (Z.of_N q <= two63 / 10) by (apply Z.div_le_lower_bound; lia).
  rewrite IH by lia. cbn [leadingInt_from]. rewrite digit_pretty by done.
  destruct (Z.ltb_spec (two63 / 10) (Z.of_N q)); [lia|].
  destruct (Z.ltb_spec two63 (Z.of_N q * 10 + Z.of_N r)); [lia|].
  f_equal. lia.
Qed.

Lemma leadingInt_fmtInt v s :
  0 <= v <= two63 -> leadingInt_from 0 (fmtInt v s) = leadingInt_from v s.
Proof.
  intros H. unfold fmtInt. destruct (Z.eqb_spec v 0) as [->|Hv]; [done|].
  rewrite leadingInt_pretty by lia. by rewrite Z2N.id by lia.
Qed.

(** A text that does not start with a digit ends a number. *)
Definition no_digit (s : string) : Prop := match s with "" => True | String c _ => digit c = None end.

Lemma leadingInt_stop v s : no_digit s -> leadingInt_from v s = Some (v, s).
Proof. destruct s as [|c s]; [done|]. cbn. by intros ->. Qed.

Lemma pretty_N_go_length n s : (0 < n)%N -> (String.length s < String.length (pretty_N_go n s))%nat.
Proof.
  revert s. induction (N.lt_wf_0 n) as [n _ IH]; intros s Hn. rewrite pretty_N_go_step by done.
  destruct (decide (0 < n / 10)%N) as [Hp|Hz].
  - etransitivity; [|apply IH; [by apply N.div_lt|done]]. cbn. lia.
  - apply N.nlt_ge, N.le_0_r in Hz. rewrite Hz, pretty_N_go_0. cbn. lia.
Qed.

Lemma pretty_N_go_head n s : (0 < n)%N -> exists c r d, pretty_N_go n s = String c r /\ digit c = Some d.
Proof.
  revert s. induction (N.lt_wf_0 n) as [n _ IH]; intros s Hn. rewrite pretty_N_go_step by done.
  destruct (decide (0 < n / 10)%N) as [Hp|Hz]; [apply IH; [by apply N.div_lt|done]|].
  apply N.nlt_ge, N.le_0_r in Hz. rewrite Hz, pretty_N_go_0. do 3 eexists. split; [done|].
  apply digit_pretty, N.mod_lt. done.
Qed.

Lemma fmtInt_head v s : 0 <= v -> exists c r d, fmtInt v s = String c r /\ digit c = Some d.
Proof.
  intros H. unfold fmtInt. destruct (Z.eqb_spec v 0) as [->|Hv]; [by do 3 eexists|].
  apply pretty_N_go_head. lia.
Qed.
Lemma fmtInt_length v s : 0 <= v -> (String.length s < String.length (fmtInt v s))%nat.
Proof.
  intros H. unfold fmtInt. destruct (Z.eqb_spec v 0) as [->|Hv]; [cbn; lia|]. apply pretty_N_go_length. lia.
Qed.

(** *** Fractions *)

(** The last [k] digits of [n], leading zeros included. *)
Fixpoint fixed (k : nat) (n : Z) (acc : string) : string :=
  match k with O => acc | S k => fixed k (n / 10) (String (digit_char (n mod 10)) acc) end.

Abbreviation ten k := (10 ^ Z.of_nat k).
Lemma ten_S k : ten (S k) = 10 * ten k.
Proof. rewrite Nat2Z.inj_succ, Z.pow_succ_r; lia. Qed.
Lemma ten_pos k : 0 < ten k.
Proof. apply Z.pow_pos_nonneg; lia. Qed.
Lemma ten_le j k : (j <= k)%nat -> ten j <= ten k.
Proof. intros H. apply Z.pow_le_mono_r; lia. Qed.
#[local] Hint Resolve ten_pos : core.

Lemma ten_add j k : ten (j + k) = ten j * ten k.
Proof. rewrite Nat2Z.inj_add, Z.pow_add_r; lia. Qed.

(** The digit before the last [k]. *)
Lemma mod_ten_S n k : n mod ten (S k) = 10 * ((n / 10) mod ten k) + n mod 10.
Proof. pose proof (ten_pos k). rewrite ten_S, Z.rem_mul_r by lia. lia. Qed.
Lemma div_ten_S n k : n / ten (S k) = n / 10 / ten k.
Proof. pose proof (ten_pos k). by rewrite ten_S, Z.div_div by lia. Qed.

Lemma fmtFrac_print p v acc : fmtFrac_from p true v acc = (String "." (fixed p v acc), v / ten p).
Proof.
  revert v acc. induction p as [|p IH]; intros v acc; cbn [fmtFrac_from fixed orb]; [by rewrite Z.div_1_r|].
  by rewrite IH, div_ten_S.
Qed.

(** What [fmtFrac] writes: nothing, or the first [k] decimals, the others being zero. *)
Lemma fmtFrac_spec p v acc :
  (v mod ten p = 0 /\ fmtFrac v p acc = (acc, v / ten p)) \/
  exists k, (1 <= k <= p)%nat /\ v mod ten (p - k) = 0 /\
    fmtFrac v p acc = (String "." (fixed k (v / ten (p - k)) acc), v / ten p).
Proof.
  unfold fmtFrac. revert v. induction p as [|p IH]; intros v; cbn [fmtFrac_from orb].
  - left. by rewrite Z.mod_1_r, Z.div_1_r.
  - destruct (Z.eqb_spec (v mod 10) 0) as [E|E]; cbn [negb].
    + rewrite mod_ten_S, div_ten_S, E, Z.add_0_r.
      destruct (IH (v / 10)) as [[Hz ->]|(k & Hk & Hz & ->)]; [left; split; [lia|done]|].
      right. exists k. split; [lia|]. replace (S p - k)%nat with (S (p - k)) by lia.
      rewrite mod_ten_S, div_ten_S, E, Hz. split; [lia|done].
    + right. exists (S p). rewrite fmtFrac_print, Nat.sub_diag, div_ten_S. cbn [fixed].
      rewrite Z.mod_1_r, Z.div_1_r. split_and!; [lia|lia|done|done].
Qed.

Lemma round53_small m e : 0 <= m < 2 ^ 53 -> round53 m e = mkFloat m e.
Proof.
  intros H. unfold round53. destruct (Z.leb_spec (Z.log2 m + 1 - 53) 0) as [|Hl]; [done|].
  assert (Z.log2 m < 53); [|lia]. destruct (decide (m = 0)) as [->|]; [done|]. apply Z.log2_lt_pow2; lia.
Qed.

(** Rounding loses nothing of a short number with zeros behind it. *)
Lemma round53_exact m j : 0 < m < 2 ^ 53 -> 0 <= j -> f_trunc (round53 (m * 2 ^ j) (- j)) = m.
Proof.
  intros Hm Hj. unfold round53, f_trunc. rewrite Z.log2_mul_pow2 by lia.
  assert (Z.log2 m < 53) by (apply Z.log2_lt_pow2; lia). set (s := j + Z.log2 m + 1 - 53).
  assert (Hshift : forall i, 0 <= i -> Z.shiftl (m * 2 ^ i) (- i) = m).
  { intros i Hi. rewrite <- Z.shiftl_mul_pow2, Z.shiftl_shiftl, Z.add_opp_diag_r by lia. apply Z.shiftl_0_r. }
  destruct (Z.leb_spec s 0); cbn [f_m f_e]; [exact (Hshift j Hj)|].
  replace (m * 2 ^ j) with (m * 2 ^ (j - s) * 2 ^ s)
    by (rewrite <- Z.mul_assoc, <- Z.pow_add_r by lia; repeat f_equal; lia).
  rewrite Z.mod_mul, Z.div_mul by lia.
  destruct (Z.ltb_spec (2 ^ (s - 1)) 0); [lia|]. destruct (Z.eqb_spec 0 (2 ^ (s - 1))); [lia|].
  cbn [orb andb]. replace (- j + s) with (- (j - s)) by lia. apply Hshift. lia.
Qed.

(** The weights of the decimals are exact. *)
Definition weight_ok (p k : nat) : bool :=
  let w := f_div (f_of_uint (ten p)) (mkFloat (ten k) 0) in
  (f_e w <=? 0) && (f_m w =? ten (p - k) * 2 ^ (- f_e w)).

(** The precisions [String] prints with: micro-, milli- and whole seconds. *)
Abbreviation precision p := ((p = 3 \/ p = 6 \/ p = 9)%nat).

Lemma weights_ok p k : precision p -> (1 <= k <= p)%nat -> weight_ok p k = true.
Proof.
  intros Hp Hk. assert (forallb (weight_ok p) (seq 1 p) = true) as Hall by (by destruct Hp as [-> | [-> | ->]]).
  rewrite forallb_forall in Hall. apply Hall, in_seq. lia.
Qed.

Lemma fraction_value p k f :
  precision p -> (1 <= k <= p)%nat -> 0 < f < ten k ->
  f_trunc (f_mul (f_of_uint f) (f_div (f_of_uint (ten p)) (mkFloat (ten k) 0))) = f * ten (p - k).
Proof.
  intros Hp Hk Hf. pose proof (weights_ok p k Hp Hk) as Hw. unfold weight_ok in Hw.
  apply andb_true_iff in Hw as [He Hm]. apply Z.leb_le in He. apply Z.eqb_eq in Hm.
  set (w := f_div _ _) in *. clearbody w.
  assert (ten p <= 2 ^ 30) by (destruct Hp as [-> | [-> | ->]]; vm_compute; discriminate).
  assert (ten k * ten (p - k) = ten p) as Htp by (rewrite <- ten_add; do 2 f_equal; lia).
  pose proof (ten_pos (p - k)). pose proof (ten_le k p ltac:(lia)).
  assert (f * ten (p - k) < ten p) by (rewrite <- Htp; apply Z.mul_lt_mono_pos_r; lia).
  unfold f_mul, f_of_uint. rewrite (round53_small f) by lia. cbn [f_m f_e]. rewrite Hm, Z.mul_assoc.
  replace (0 + f_e w) with (- - f_e w) by lia. apply round53_exact; [split; [apply Z.mul_pos_pos|]; lia|lia].
Qed.

Lemma leadingFraction_fixed x j k n acc :
  0 <= x < ten j -> (j + k <= 9)%nat -> 0 <= n ->
  leadingFraction_from x (mkFloat (ten j) 0) false (fixed k n acc) =
  leadingFraction_from (x * ten k + n mod ten k) (mkFloat (ten (j + k)) 0) false acc.
Proof.
  intros Hx Hj. revert n acc. induction k as [|k IH]; intros n acc Hn.
  - cbn [fixed]. by rewrite Z.mod_1_r, Z.mul_1_r, Z.add_0_r, Nat.add_0_r.
  - cbn [fixed]. rewrite IH by (try apply Z.div_pos; lia). cbn [leadingFraction_from].
    pose proof (Z.mod_pos_bound n 10 ltac:(lia)). rewrite digit_digit_char by done.
    pose proof (Z.mod_pos_bound (n / 10) (ten k) (ten_pos k)). 
    pose proof (ten_add j k) as Ha. pose proof (ten_le (j + k) 8 ltac:(lia)) as Hle. change (ten 8) with 100000000 in Hle.
    set (x' := x * ten k + _). assert (0 <= x' < ten (j + k)) as Hx' by nia.
    change ((two63 - 1) / 10) with 922337203685477580. change two63 with 9223372036854775808.
    destruct (Z.ltb_spec 922337203685477580 x'); [lia|].
    destruct (Z.ltb_spec 9223372036854775808 (x' * 10 + n mod 10)); [lia|].
    unfold f_mul. cbn [f_m f_e]. rewrite round53_small by lia. 
    replace (x * ten (S k) + n mod ten (S k)) with (x' * 10 + n mod 10)
      by (unfold x'; rewrite mod_ten_S, ten_S; lia).
    by replace (ten (j + S k)) with (ten (j + k) * 10) by (rewrite Nat.add_succ_r, ten_S; lia).
Qed.

(** *** Terms *)

(** A unit of the map, as it stands before [rest]. *)
Definition unit_before (u : string) (unit : Z) (s rest : string) : Prop :=
  span_unit s = (u, rest) /\ u <> "" /\ unitMap u = Some unit /\ 0 < unit /\ no_digit s.

Lemma parse_term_gen d v T f sc s post u rest unit :
  0 <= v -> 0 <= d -> no_digit T -> parse_fraction T = (f, sc, s, post) -> unit_before u unit s rest ->
  v <= two63 / unit ->
  let x := if 0 <? f then f_trunc (f_mul (f_of_uint f) (f_div (f_of_uint unit) sc)) else 0 in
  0 <= x -> d + (v * unit + x) <= two63 ->
  parse_term d (fmtInt v T) = Ok (d + (v * unit + x), rest).
Proof.
  intros Hv Hd HT HP (Hspan & Hu & Hunit & Hpos & _) Hov x Hx Hsum.
  assert (0 <= v * unit) by lia. assert (v <= two63) by nia.
  unfold parse_term. rewrite leadingInt_fmtInt, leadingInt_stop, HP by done.
  pose proof (fmtInt_length v T Hv).
  destruct (Nat.eqb_spec (String.length T) (String.length (fmtInt v T))); [lia|]. cbn [negb andb].
  rewrite Hspan, bool_decide_eq_false_2, Hunit by done.
  destruct (Z.ltb_spec (two63 / unit) v); [lia|]. cbv zeta.
  replace (if 0 <? f then v * unit + _ else v * unit) with (v * unit + x)
    by (unfold x; destruct (0 <? f); [done|lia]).
  destruct (Z.ltb_spec two63 (v * unit + x)); [lia|].
  unfold add64. rewrite Z.mod_small by (unfold two63 in *; lia).
  by destruct (Z.ltb_spec two63 (d + (v * unit + x))); [lia|].
Qed.

Lemma parse_fraction_none s : no_digit s -> (forall r, s <> String "." r) -> parse_fraction s = (0, mkFloat 1 0, s, false).
Proof.
  intros _ H. destruct s as [|c s]; [done|]. unfold parse_fraction.
  destruct c as [[] [] [] [] [] [] [] []]; try done. by destruct (H s).
Qed.

(** An integer and a unit. *)
Lemma parse_term_int d v u unit s rest :
  0 <= v -> 0 <= d -> unit_before u unit s rest -> (forall r, s <> String "." r) ->
  d + v * unit <= two63 -> parse_term d (fmtInt v s) = Ok (d + v * unit, rest).
Proof.
  intros Hv Hd Hu Hdot Hsum. destruct (Hu) as (_ & _ & _ & Hpos & Hnd).
  rewrite (parse_term_gen d v s 0 (mkFloat 1 0) s false u rest unit); try done.
  - cbn. by rewrite Z.add_0_r.
  - by apply parse_fraction_none.
  - apply Z.div_le_lower_bound; lia.
  - cbn. lia.
Qed.

(** [x] of the smallest unit, written in units of [ten p] with [fmtFrac]. *)
Lemma parse_term_frac d x p u s rest :
  precision p -> 0 <= x -> 0 <= d -> unit_before u (ten p) s rest -> (forall r, s <> String "." r) ->
  d + x <= two63 ->
  let '(acc, v) := fmtFrac x p s in parse_term d (fmtInt v acc) = Ok (d + x, rest).
Proof.
  intros Hp Hx Hd Hu Hdot Hsum. pose proof (ten_pos p) as Hpos. pose proof (Z.div_pos x (ten p) Hx Hpos) as Hv.
  pose proof (Z.div_mod x (ten p) ltac:(lia)) as Hdm. pose proof (Z.mod_pos_bound x (ten p) Hpos).
  destruct (fmtFrac_spec p x s) as [[Hz ->]|(k & Hk & Hz & ->)].
  { rewrite (parse_term_int d _ u (ten p) s rest) by (done || lia). do 2 f_equal. lia. }
  assert (ten (p - k) * ten k = ten p) as Htp by (rewrite <- ten_add; do 2 f_equal; lia).
  pose proof (ten_pos k). pose proof (ten_pos (p - k)).
  set (y := x / ten (p - k)) in *. assert (0 <= y) by (apply Z.div_pos; lia).
  assert (x = y * ten (p - k)) as Hxy by (unfold y; pose proof (Z.div_mod x (ten (p - k)) ltac:(lia)); lia).
  assert (x mod ten p = (y mod ten k) * ten (p - k)) as Hmod.
  { rewrite Hxy, <- Htp, (Z.mul_comm (ten (p - k))). by rewrite Z.mul_mod_distr_r by lia. }
  pose proof (Z.mod_pos_bound y (ten k) ltac:(done)). destruct (Hu) as (_ & _ & _ & _ & Hnd).
  pose proof (leadingFraction_fixed 0 0 k y s ltac:(done) ltac:(lia) ltac:(done)) as HF. cbn [Nat.add] in HF.
  rewrite Z.mul_0_l, Z.add_0_l in HF.
  assert (leadingFraction_from (y mod ten k) (mkFloat (ten k) 0) false s = (y mod ten k, mkFloat (ten k) 0, s)) as Hstop.
  { destruct s as [|c s]; [done|]. cbn. by rewrite Hnd. }
  rewrite Hstop in HF.
  assert (exists post, parse_fraction (String "." (fixed k y s)) = (y mod ten k, mkFloat (ten k) 0, s, post)) as [post HP].
  { unfold parse_fraction. change (mkFloat 1 0) with (mkFloat (ten 0) 0). rewrite HF. by eexists. }
  assert (Hval : (if 0 <? y mod ten k then
      f_trunc (f_mul (f_of_uint (y mod ten k)) (f_div (f_of_uint (ten p)) (mkFloat (ten k) 0))) else 0) = x mod ten p).
  { destruct (Z.ltb_spec 0 (y mod ten k)); [rewrite fraction_value by (done || lia); lia|].
    rewrite Hmod. assert (y mod ten k = 0) as -> by lia. lia. }
  rewrite (parse_term_gen d (x / ten p) _ _ _ s post u rest (ten p)) by
    (done || (rewrite ?Hval; lia) || (apply Z.div_le_lower_bound; lia)).
  rewrite Hval. do 2 f_equal. lia.
Qed.

(** *** The round trip *)
Lemma parse_terms_step n d v T :
  0 <= v -> parse_terms (S n) d (fmtInt v T) =
  match parse_term d (fmtInt v T) with Err e => Err e | Ok (d, s) => parse_terms n d s end.
Proof.
  intros Hv. destruct (fmtInt_head v T Hv) as (c & r & x & E & Hc). rewrite E. cbn [parse_terms].
  rewrite (bool_decide_eq_true_2 (is_Some (digit c))) by (rewrite Hc; eauto). by rewrite orb_true_r.
Qed.

Lemma fmtFrac_rest p pr v acc : (fmtFrac_from p pr v acc).2 = v / ten p.
Proof.
  revert pr v acc. induction p as [|p IH]; intros pr v acc; cbn [fmtFrac_from snd]; [by rewrite Z.div_1_r|].
  by rewrite IH, div_ten_S.
Qed.

(** The decimals depend on the last digits only. *)
Lemma fmtFrac_text p pr v x acc : v mod ten p = x mod ten p -> (fmtFrac_from p pr v acc).1 = (fmtFrac_from p pr x acc).1.
Proof.
  revert pr v x acc. induction p as [|p IH]; intros pr v x acc E; [done|]. rewrite !mod_ten_S in E.
  pose proof (Z.mod_pos_bound v 10 ltac:(lia)). pose proof (Z.mod_pos_bound x 10 ltac:(lia)).
  assert (v mod 10 = x mod 10) as Hd by lia. cbn [fmtFrac_from]. rewrite Hd. apply IH. lia.
Qed.

Lemma unit_end u unit : unitMap u = Some unit -> span_unit u = (u, "") -> u <> "" -> 0 < unit -> no_digit u ->
  unit_before u unit u "".
Proof. by repeat split. Qed.

(** A one-letter unit before the next number. *)
Lemma unit_next c unit v T :
  0 <= v -> unitMap (String c "") = Some unit -> 0 < unit -> digit c = None -> c <> "."%char ->
  unit_before (String c "") unit (String c (fmtInt v T)) (fmtInt v T).
Proof.
  intros Hv Hu Hp Hc Hdot. destruct (fmtInt_head v T Hv) as (a & r & x & -> & Ha). repeat split; try done.
  cbn [span_unit]. rewrite Hc, Ha, (proj2 (Ascii.eqb_neq c ".") Hdot).
  replace (bool_decide (is_Some (Some x))) with true by (symmetry; apply bool_decide_eq_true_2; eauto).
  by rewrite orb_true_r.
Qed.

Lemma parse_small n u p s :
  precision p -> unit_before s (ten p) s "" -> (forall r, s <> String "." r) -> 0 <= u <= two63 ->
  parse_terms (S n) 0 (let '(acc, v) := fmtFrac u p s in fmtInt v acc) = Ok u.
Proof.
  intros Hp Hs Hdot Hu. pose proof (parse_term_frac 0 u p s s "" Hp ltac:(lia) ltac:(lia) Hs Hdot ltac:(lia)) as H.
  pose proof (fmtFrac_rest p false u s) as Hr. unfold fmtFrac in *. destruct (fmtFrac_from p false u s) as [acc v].
  cbn [fst snd] in *. subst v. pose proof (Z.div_pos u (ten p) ltac:(lia) (ten_pos p)).
  rewrite parse_terms_step, H by done. by destruct n.
Qed.

(** Seconds, with the minutes and hours before them. *)
Lemma parse_seconds n d x u :
  0 <= d -> 0 <= u -> x = u mod (60 * ten 9) -> d + x <= two63 ->
  parse_terms (S n) d (fmtInt (u / ten 9 mod 60) (fmtFrac u 9 "s").1) = Ok (d + x).
Proof.
  intros Hd Hu -> Hsum. set (x := u mod (60 * ten 9)) in *.
  assert (0 <= x < 60 * ten 9) as Hx by (apply Z.mod_pos_bound; done).
  assert (x = ten 9 * (u / ten 9 mod 60) + u mod ten 9) as Hsplit
    by (unfold x; rewrite (Z.mul_comm 60), Z.rem_mul_r by done; lia).
  pose proof (Z.mod_pos_bound u (ten 9) (ten_pos 9)) as Hb.
  assert (x / ten 9 = u / ten 9 mod 60) as Hdiv by (symmetry; eapply Z.div_unique; [left; exact Hb|exact Hsplit]).
  assert (u mod ten 9 = x mod ten 9) as Hmod by (eapply Z.mod_unique; [left; exact Hb|exact Hsplit]).
  unfold fmtFrac. rewrite (fmtFrac_text 9 false u x "s" Hmod), <- Hdiv.
  pose proof (parse_term_frac d x 9 "s" "s" "" ltac:(lia) ltac:(lia) Hd) as H.
  pose proof (fmtFrac_rest 9 false x "s") as Hr. unfold fmtFrac in H.
  destruct (fmtFrac_from 9 false x "s") as [acc v]. cbn [fst snd] in *. subst v.
  pose proof (Z.div_pos x (ten 9) ltac:(lia) (ten_pos 9)).
  rewrite parse_terms_step, H by (done || lia || by apply unit_end). by destruct n.
Qed.

(** A term of hours or minutes, then the rest. *)
Lemma parse_terms_next n d c unit v w T :
  0 <= v -> 0 <= w -> 0 <= d -> unitMap (String c "") = Some unit -> 0 < unit -> digit c = None -> c <> "."%char ->
  d + v * unit <= two63 ->
  parse_terms (S n) d (fmtInt v (String c (fmtInt w T))) = parse_terms n (d + v * unit) (fmtInt w T).
Proof.
  intros Hv Hw Hd Hu Hp Hc Hdot Hsum. rewrite parse_terms_step by done.
  by rewrite (parse_term_int d v (String c "") unit _ (fmtInt w T)) by (done || (by apply unit_next) || by intros r [=]).
Qed.

Lemma parse_large n u :
  ten 9 <= u <= two63 -> parse_terms (S (S (S n))) 0 (magnitude_String u) = Ok u.
Proof.
  intros Hu. unfold magnitude_String. change (ten 9) with 1000000000 in Hu.
  destruct (Z.eqb_spec u 0), (Z.ltb_spec u 1000), (Z.ltb_spec u 1000000), (Z.ltb_spec u 1000000000); try lia.
  rewrite (surjective_pairing (fmtFrac u 9 "s")), (fmtFrac_rest 9 false u "s" : (fmtFrac u 9 "s").2 = _).
  assert (u = 60 * ten 9 * (u / ten 9 / 60) + u mod (60 * ten 9)) as Hsplit.
  { rewrite Z.div_div, (Z.mul_comm (ten 9) 60) by done. by apply Z.div_mod. }
  pose proof (Z.mod_pos_bound (u / ten 9) 60 ltac:(lia)). pose proof (Z.mod_pos_bound u (60 * ten 9) ltac:(done)).
  pose proof (Z.div_pos u (ten 9) ltac:(lia) ltac:(done)).
  set (m := u / ten 9 / 60) in *. assert (0 <= m) by (apply Z.div_pos; lia).
  set (x := u mod (60 * ten 9)) in *.
  pose proof (Z.div_mod m 60 ltac:(lia)). pose proof (Z.mod_pos_bound m 60 ltac:(lia)).
  pose proof (Z.div_pos m 60 ltac:(lia) ltac:(lia)). change (ten 9) with 1000000000 in Hsplit.
  destruct (Z.eqb_spec m 0); [rewrite (parse_seconds _ 0 x u) by (done || lia); f_equal; lia|].
  destruct (Z.eqb_spec (m / 60) 0); rewrite ?(parse_terms_next _ 0 "h" (3600 * 1000000000)) by (done || lia);
    rewrite (parse_terms_next _ _ "m" (60 * 1000000000)) by (done || lia);
    rewrite (parse_seconds _ _ x u) by (done || lia); f_equal; lia.
Qed.

Lemma parse_magnitude_text u :
  0 <= u <= two63 ->
  parse_terms (String.length (magnitude_String u)) 0 (magnitude_String u) = Ok u.
Proof.
  intros Hu. rewrite (parse_terms_fuel _ (S (S (S (String.length (magnitude_String u)))))) by lia.
  generalize (String.length (magnitude_String u)) as n. intros n.
  destruct (Z.le_gt_cases (ten 9) u); [apply parse_large; lia|]. change (ten 9) with 1000000000 in *.
  unfold magnitude_String.
  destruct (Z.eqb_spec u 0) as [->|Hz]; [by destruct n|].
  destruct (Z.ltb_spec u 1000).
  { cbn [fmtFrac fmtFrac_from]. rewrite parse_terms_step by lia.
    rewrite (parse_term_int 0 u "ns" 1 "ns" "") by (done || lia || by apply unit_end). cbn [parse_terms]. f_equal. lia. }
  destruct (Z.ltb_spec u 1000000); [apply parse_small; [lia|by apply unit_end|by intros r [=]|done]|].
  destruct (Z.ltb_spec u 1000000000); [apply parse_small; [lia|by apply unit_end|by intros r [=]|done]|lia].
Qed.

(** A text of [String] but for its sign: a digit, then something. *)
Lemma magnitude_head u : 0 <= u -> exists c r d, magnitude_String u = String c r /\ digit c = Some d /\ r <> "".
Proof.
  intros Hu.
  assert (Hnum : forall v T, 0 <= v -> T <> "" -> exists c r d, fmtInt v T = String c r /\ digit c = Some d /\ r <> "").
  { intros v T Hv HT. destruct (fmtInt_head v T Hv) as (c & r & d & E & Hc). exists c, r, d. split_and!; [done|done|].
    intros ->. pose proof (fmtInt_length v T Hv) as Hl. rewrite E in Hl. destruct T; cbn in Hl; [done|lia]. }
  assert (Hfrac : forall p T, T <> "" -> (fmtFrac u p T).1 <> "").
  { intros p T HT. by destruct (fmtFrac_spec p u T) as [[_ ->]|(k & _ & _ & ->)]. }
  assert (Hsmall : forall p T, T <> "" ->
    exists c r d, (let '(acc, v) := fmtFrac u p T in fmtInt v acc) = String c r /\ digit c = Some d /\ r <> "").
  { intros p T HT. pose proof (Hfrac p T HT). pose proof (fmtFrac_rest p false u T : (fmtFrac u p T).2 = _) as Hr.
    destruct (fmtFrac u p T) as [acc v]. cbn [fst snd] in *. apply Hnum; [|done].
    subst v. by apply Z.div_pos. }
  unfold magnitude_String. pose proof (Hfrac 9%nat "s" ltac:(done)) as Hs.
  rewrite (surjective_pairing (fmtFrac u 9 "s")), (fmtFrac_rest 9 false u "s" : (fmtFrac u 9 "s").2 = _).
  pose proof (Z.div_pos u (ten 9) Hu (ten_pos 9)) as Hv. set (v := u / ten 9) in *.
  assert (0 <= v / 60 /\ 0 <= v / 60 / 60) as [] by (split; repeat (apply Z.div_pos; [|lia]); done).
  pose proof (Z.mod_pos_bound v 60 ltac:(lia)). pose proof (Z.mod_pos_bound (v / 60) 60 ltac:(lia)).
  destruct (u =? 0); [by do 3 eexists|]. destruct (u <? 1000); [by apply Hsmall|].
  destruct (u <? 1000000); [by apply Hsmall|]. destruct (u <? 1000000000); [by apply Hsmall|].
  destruct (v / 60 =? 0); [apply Hnum; [lia|done]|].
  destruct (v / 60 / 60 =? 0); apply Hnum; (lia || done).
Qed.

(** Every duration of 64 bits is read back from its text. *)
Lemma ParseDuration_String d : min_int <= d <= max_int -> ParseDuration (Duration_String d) = Ok d.
Proof.
  intros Hd. unfold min_int, max_int in Hd.
  assert (Hm : forall u neg, 0 <= u <= two63 -> parse_magnitude neg (magnitude_String u) =
    if neg then Ok (- u) else if two63 - 1 <? u then Err InvalidDuration else Ok u).
  { intros u neg Hu. unfold parse_magnitude. rewrite parse_magnitude_text by done.
    destruct (magnitude_head u ltac:(lia)) as (c & r & x & -> & _ & Hr).
    rewrite !bool_decide_eq_false_2 by (intros [=]; done). done. }
  unfold Duration_String, two63 in *. destruct (Z.ltb_spec d 0).
  - cbn [ParseDuration]. rewrite Hm by lia. f_equal. lia.
  - specialize (Hm d false ltac:(lia)). destruct (magnitude_head d ltac:(lia)) as (c & r & x & E & Hc & _).
    rewrite E in *. unfold ParseDuration.
    destruct c as [[] [] [] [] [] [] [] []]; try discriminate Hc; rewrite Hm;
      by destruct (Z.ltb_spec (2 ^ 63 - 1) d); [lia|].
Qed.

(** Whatever is read has 64 bits. *)
Lemma parse_terms_range n d s v : 0 <= d <= two63 -> parse_terms n d s = Ok v -> 0 <= v <= two63.
Proof.
  revert d s. induction n as [|n IH]; intros d s Hd; destruct s as [|c s]; cbn [parse_terms]; try done; try by intros [= <-].
  case_match; [done|]. destruct (parse_term d (String c s)) as [[d' s']|] eqn:E; [|done]. apply IH.
  unfold parse_term in E. repeat (case_match; try done).
  all: injection E as <- <-; split; [by apply Z.mod_pos_bound|].
  all: by match goal with H : (two63 <? add64 _ _) = false |- _ => apply Z.ltb_ge in H end.
Qed.

Lemma ParseDuration_range s d : ParseDuration s = Ok d -> min_int <= d <= max_int.
Proof.
  assert (Hm : forall neg s, parse_magnitude neg s = Ok d -> min_int <= d <= max_int).
  { intros neg s'. unfold parse_magnitude, min_int, max_int. case_bool_decide; [by intros [= <-]|].
    case_bool_decide; [done|]. destruct (parse_terms _ 0 s') as [v|] eqn:E; [|done].
    apply parse_terms_range in E; [|done]. unfold two63 in *.
    destruct neg; [intros [= <-]; lia|]. destruct (Z.ltb_spec (2 ^ 63 - 1) v); [done|]. intros [= <-]. lia. }
  unfold ParseDuration. repeat case_match; apply Hm.
Qed.
