(* ===== verification/Duration.v ===== *)
(** * Durations of the configuration

    [utils/config/duration.go]: [time.Duration] as it stands in a configuration
    file, a text such as ["15m"] or a count of nanoseconds.  [encoding/json] and
    [yaml.v3] find the value; what they find is the input here. *)
From S2P Require Import Prelude Utf8 Domain GoStd GoDuration.
Open Scope Z_scope.

(** The JSON value at a [Duration]: a string keeps its text, a number without
    fraction and exponent its value; nothing else is told apart. *)
Inductive json_value : Type :=
| JsonNull
| JsonString (s : string)
| JsonInteger (n : Z)
| JsonOther.

(** The YAML node: the text of a scalar, and what [value.Decode] makes of it for an
    [int64], which is [yaml.v3]'s to say. *)
Record yaml_node : Type := mkYamlNode { Value : string; Decode_int64 : option Z }.

Inductive config_duration_error : Type :=
| ParseDurationError (text : string) (e : duration_error)
| NotADuration
| ExpectedFormat (text : string).

(** [json.Unmarshal] into a [string]: [null] leaves it empty. *)
Definition json_string (v : json_value) : option string :=
  match v with JsonNull => Some "" | JsonString s => Some s | _ => None end.
(** [json.Unmarshal] into an [int64]. *)
Definition json_int64 (v : json_value) : option Z :=
  match v with
  | JsonNull => Some 0
  | JsonInteger n => if in_range min_int max_int n then Some n else None
  | _ => None
  end.

(** [String] writes ASCII and one mu: [json.Marshal] keeps the text. *)
Definition Duration_MarshalJSON (d : Duration) : json_value := JsonString (Duration_String d).

Definition Duration_UnmarshalJSON (v : json_value) : result config_duration_error Duration :=
  match json_string v with
  | Some s =>
    match ParseDuration s with
    | Ok d => Ok d
    | Err e => Err (ParseDurationError s e)
    end
  | None =>
    match json_int64 v with
    | Some n => Ok n
    | None => Err NotADuration
    end
  end.

Definition Duration_MarshalYAML (d : Duration) : string := Duration_String d.

Definition Duration_UnmarshalYAML (value : yaml_node) : result config_duration_error Duration :=
  match ParseDuration (Value value) with
  | Ok d => Ok d
  | Err _ =>
    match Decode_int64 value with
    | Some n => Ok n
    | None => Err (ExpectedFormat (Value value))
    end
  end.

(** ** Lemmas *)
Lemma UnmarshalJSON_text s d : ParseDuration s = Ok d -> Duration_UnmarshalJSON (JsonString s) = Ok d.
Proof. unfold Duration_UnmarshalJSON. cbn. by intros ->. Qed.

Lemma UnmarshalJSON_range v d : Duration_UnmarshalJSON v = Ok d -> min_int <= d <= max_int.
Proof.
  unfold Duration_UnmarshalJSON. destruct (json_string v) as [s|] eqn:Es.
  - destruct (ParseDuration s) as [d'|] eqn:E; [|done]. intros [= <-]. by eapply ParseDuration_range.
  - destruct v as [|s|n|]; try done. cbn [json_int64]. destruct (in_range min_int max_int n) eqn:R; [|done].
    intros [= <-]. unfold in_range in R. apply andb_true_iff in R as [?%Z.leb_le ?%Z.leb_le]. done.
Qed.

(** What the documentation of the type promises, and the defaults in the same notation. *)
Example texts_of_defaults :
  Duration_String (15 * 60 * 1000000000) = "15m0s" /\ ParseDuration "15m" = Ok (15 * 60 * 1000000000) /\
  ParseDuration "168h" = Ok (7 * 24 * 3600 * 1000000000) /\ ParseDuration "30s" = Ok (30 * 1000000000) /\
  ParseDuration "1.5h" = Ok (5400 * 1000000000) /\ ParseDuration "15" = Err MissingUnit.
Proof. by vm_compute. Qed.
