(* ===== verification/Config.v ===== *)
(** * Configuration

    Every [Config] of the program with its [SetDefaults] and [Validate], the
    validation errors they accumulate, and what [Load] does once the file is
    decoded.  The document is decoded by [yaml.v3]
    and [encoding/json] ([Lifecycle.v] reads the file, [Duration.v] its durations). *)
From S2P Require Import Prelude Utf8 Domain GoStd.
Open Scope Z_scope.

Definition second : Duration := 1000000000.
Definition minute : Duration := 60 * second.

(** [strconv.Quote], the ["%q"] of a message, needs the tables of printable
    runes. *)
Class Strconv : Type := Quote : string -> string.

(** ** utils/config/errors.go *)
Record fieldError : Type := mkFieldError { fe_field : string; fe_message : string }.

(** What a [Validate] returns when it does not return [nil]. *)
Inductive config_error : Type :=
| ValidationError (errs : list fieldError)
| OtherConfigError (text : string).

Definition Add (field message : string) (errs : list fieldError) : list fieldError :=
  errs ++ [mkFieldError field message].
Definition HasErrors (errs : list fieldError) : bool := (0 <? length errs)%nat.
Definition ve_Err (errs : list fieldError) : option config_error :=
  if negb (HasErrors errs) then None else Some (ValidationError errs).

Definition fieldError_text (fe : fieldError) : string :=
  "  " +:+ pad_right 20 (fe_field fe +:+ ":") +:+ " " +:+ fe_message fe.
Definition dquote : string := String (ascii_of_N 34) "".
Definition nl : string := String (ascii_of_N 10) "".
Definition config_error_Error (e : config_error) : string :=
  match e with
  | ValidationError errs => "config validation failed:" +:+ nl +:+ Join (fieldError_text <$> errs) nl
  | OtherConfigError text => text
  end.

Definition AddFrom (section : string) (other : option config_error) (errs : list fieldError) : list fieldError :=
  match other with
  | None => errs
  | Some (ValidationError l) =>
    foldl (fun errs fe => Add (section +:+ "." +:+ fe_field fe) (fe_message fe) errs) errs l
  | Some e => Add section (config_error_Error e) errs
  end.

(** [if cond { ve.Add(field, message) }] *)
Definition Add_if (cond : bool) (field message : string) (errs : list fieldError) : list fieldError :=
  if cond then Add field message errs else errs.

Definition is_empty (s : string) : bool := bool_decide (s = "").
Definition or_default (s def : string) : string := if is_empty s then def else s.
Definition or_defaultZ (n def : Z) : Z := if n =? 0 then def else n.

(** ** storage/postgres/config.go *)
Record PostgresConfig : Type := mkPostgresConfig {
  pg_Host : string; pg_Port : Z; pg_User : string; pg_Password : string; pg_DBName : string;
  pg_SSLMode : string; pg_MaxConns : Z; pg_MinConns : Z; pg_MigrationsPath : string }.

Definition PostgresConfig_SetDefaults (c : PostgresConfig) : PostgresConfig :=
  mkPostgresConfig (pg_Host c) (or_defaultZ (pg_Port c) 5432) (pg_User c) (pg_Password c) (pg_DBName c)
    (or_default (pg_SSLMode c) "disable") (or_defaultZ (pg_MaxConns c) 10) (or_defaultZ (pg_MinConns c) 2)
    (or_default (pg_MigrationsPath c) "migrations/postgres").

Definition port_message (n : Z) : string := "must be 1–65535, got " +:+ decimal n.

Definition PostgresConfig_Validate (c : PostgresConfig) : option config_error :=
  let ve := Add_if (is_empty (pg_Host c)) "host" "required" [] in
  let ve := Add_if ((pg_Port c <=? 0) || (65535 <? pg_Port c)) "port" (port_message (pg_Port c)) ve in
  let ve := Add_if (is_empty (pg_User c)) "user" "required" ve in
  let ve := Add_if (is_empty (pg_Password c)) "password" "required" ve in
  let ve := Add_if (is_empty (pg_DBName c)) "dbname" "required" ve in
  let ve := Add_if (pg_MaxConns c <? 1) "max_conns" ("must be ≥ 1, got " +:+ decimal (pg_MaxConns c)) ve in
  let ve := Add_if (pg_MinConns c <? 0) "min_conns" ("must be ≥ 0, got " +:+ decimal (pg_MinConns c)) ve in
  let ve := Add_if ((0 <? pg_MaxConns c) && (pg_MaxConns c <? pg_MinConns c)) "min_conns"
    ("must be ≤ max_conns (" +:+ decimal (pg_MaxConns c) +:+ "), got " +:+ decimal (pg_MinConns c)) ve in
  ve_Err ve.

(** The keyword/value string [NewPool] hands to [pgxpool.ParseConfig]. *)
Definition postgres_DSN (c : PostgresConfig) : string :=
  "host=" +:+ pg_Host c +:+ " port=" +:+ decimal (pg_Port c) +:+ " user=" +:+ pg_User c +:+
  " password=" +:+ pg_Password c +:+ " dbname=" +:+ pg_DBName c +:+ " sslmode=" +:+ pg_SSLMode c +:+
  " pool_max_conns=" +:+ decimal (pg_MaxConns c) +:+ " pool_min_conns=" +:+ decimal (pg_MinConns c).

(** ** storage/mysql/config.go *)
Record MysqlConfig : Type := mkMysqlConfig {
  my_Host : string; my_Port : Z; my_User : string; my_Password : string; my_DBName : string;
  my_MaxConns : Z; my_MinConns : Z; my_MigrationsPath : string }.

Definition MysqlConfig_SetDefaults (c : MysqlConfig) : MysqlConfig :=
  mkMysqlConfig (my_Host c) (or_defaultZ (my_Port c) 3306) (my_User c) (my_Password c) (my_DBName c)
    (or_defaultZ (my_MaxConns c) 10) (or_defaultZ (my_MinConns c) 2)
    (or_default (my_MigrationsPath c) "migrations/mysql").

Definition MysqlConfig_Validate (c : MysqlConfig) : option config_error :=
  let ve := Add_if (is_empty (my_Host c)) "host" "required" [] in
  let ve := Add_if ((my_Port c <=? 0) || (65535 <? my_Port c)) "port" (port_message (my_Port c)) ve in
  let ve := Add_if (is_empty (my_User c)) "user" "required" ve in
  let ve := Add_if (is_empty (my_Password c)) "password" "required" ve in
  let ve := Add_if (is_empty (my_DBName c)) "dbname" "required" ve in
  let ve := Add_if (my_MaxConns c <? 1) "max_conns" ("must be ≥ 1, got " +:+ decimal (my_MaxConns c)) ve in
  let ve := Add_if (my_MinConns c <? 0) "min_conns" ("must be ≥ 0, got " +:+ decimal (my_MinConns c)) ve in
  let ve := Add_if ((0 <? my_MaxConns c) && (my_MaxConns c <? my_MinConns c)) "min_conns"
    ("must be ≤ max_conns (" +:+ decimal (my_MaxConns c) +:+ "), got " +:+ decimal (my_MinConns c)) ve in
  ve_Err ve.

Definition mysql_DSN (c : MysqlConfig) : string :=
  my_User c +:+ ":" +:+ my_Password c +:+ "@tcp(" +:+ my_Host c +:+ ":" +:+ decimal (my_Port c) +:+ ")/" +:+
  my_DBName c +:+ "?" +:+
  Encode [("parseTime", "true"); ("charset", "utf8mb4"); ("collation", "utf8mb4_unicode_ci"); ("loc", "UTC")].

Definition MigrateDSN (c : MysqlConfig) : string :=
  "mysql://" +:+ my_User c +:+ ":" +:+ my_Password c +:+ "@tcp(" +:+ my_Host c +:+ ":" +:+ decimal (my_Port c) +:+
  ")/" +:+ my_DBName c +:+ "?" +:+
  Encode [("parseTime", "true"); ("charset", "utf8mb4"); ("multiStatements", "true")].

(** ** storage/config.go *)

(** The two types the package knows. *)
Inductive Driver : Type := TypePostgres | TypeMySQL.

#[export] Instance driver_eq_dec : EqDecision Driver.
Proof. solve_decision. Defined.

Definition driver_text (t : Driver) : string :=
  match t with TypePostgres => "postgres" | TypeMySQL => "mysql" end.

Record StorageConfig : Type := mkStorageConfig {
  storage_Type : string;
  storage_Postgres : option PostgresConfig;
  storage_MySQL : option MysqlConfig }.

Definition StorageConfig_SetDefaults (c : StorageConfig) : StorageConfig :=
  mkStorageConfig (or_default (storage_Type c) (driver_text TypePostgres))
    (PostgresConfig_SetDefaults <$> storage_Postgres c) (MysqlConfig_SetDefaults <$> storage_MySQL c).

(** [switch c.Type]. *)
Definition storage_driver (c : StorageConfig) : option Driver :=
  if bool_decide (storage_Type c = driver_text TypePostgres) then Some TypePostgres
  else if bool_decide (storage_Type c = driver_text TypeMySQL) then Some TypeMySQL
  else None.

Definition StorageConfig_Validate `{Strconv} (c : StorageConfig) : option config_error :=
  ve_Err
    match storage_driver c with
    | Some TypePostgres =>
      match storage_Postgres c with
      | None => Add "postgres" "required for type postgres" []
      | Some p => AddFrom "postgres" (PostgresConfig_Validate p) []
      end
    | Some TypeMySQL =>
      match storage_MySQL c with
      | None => Add "mysql" "required for type mysql" []
      | Some m => AddFrom "mysql" (MysqlConfig_Validate m) []
      end
    | None => Add "type" ("unknown storage type " +:+ Quote (storage_Type c)) []
    end.

(** ** infrastructure/cache/config.go *)
Record RedisConfig : Type := mkRedisConfig { redis_Addr : string; redis_Password : string; redis_DB : Z }.
Record TTLConfig : Type := mkTTLConfig { ttl_User : Duration; ttl_Chat : Duration; ttl_Member : Duration }.
Record CacheConfig : Type := mkCacheConfig {
  cache_Type : string; cache_Redis : option RedisConfig; cache_TTL : TTLConfig }.

Definition TypeRedis : string := "redis".
Definition TypeMock : string := "mock".

Definition CacheConfig_SetDefaults (c : CacheConfig) : CacheConfig :=
  mkCacheConfig (or_default (cache_Type c) TypeMock)
    ((fun r => if is_empty (redis_Addr r) then mkRedisConfig "localhost:6379" (redis_Password r) (redis_DB r) else r)
       <$> cache_Redis c)
    (mkTTLConfig (or_defaultZ (ttl_User (cache_TTL c)) (5 * minute))
       (or_defaultZ (ttl_Chat (cache_TTL c)) (10 * minute))
       (or_defaultZ (ttl_Member (cache_TTL c)) (2 * minute))).

Definition CacheConfig_Validate `{Strconv} (c : CacheConfig) : option config_error :=
  let is_redis := bool_decide (cache_Type c = TypeRedis) in
  let ve := Add_if (negb (is_redis || bool_decide (cache_Type c = TypeMock))) "type"
    ("must be " +:+ Quote TypeRedis +:+ " or " +:+ Quote TypeMock +:+ ", got " +:+ Quote (cache_Type c)) [] in
  let ve := Add_if (is_redis && bool_decide (cache_Redis c = None)) "redis"
    ("required when type is " +:+ dquote +:+ "redis" +:+ dquote) ve in
  let ve := Add_if (is_redis && match cache_Redis c with Some r => is_empty (redis_Addr r) | None => false end)
    "redis.addr" "required" ve in
  ve_Err ve.

(** ** utils/jwt/config.go *)
Record jwt_Config : Type := mkJwtConfig {
  jwt_AccessSecret : string; jwt_RefreshSecret : string;
  jwt_AccessTokenTTL : Duration; jwt_RefreshTokenTTL : Duration }.

Definition jwt_Config_SetDefaults (c : jwt_Config) : jwt_Config :=
  mkJwtConfig (jwt_AccessSecret c) (jwt_RefreshSecret c)
    (or_defaultZ (jwt_AccessTokenTTL c) (15 * minute)) (or_defaultZ (jwt_RefreshTokenTTL c) (7 * 24 * 60 * minute)).

(** [len] of a string: its bytes. *)
Definition len (s : string) : Z := Z.of_nat (String.length s).

Definition Add_secret (field secret : string) (ve : list fieldError) : list fieldError :=
  if is_empty secret then Add field "required" ve
  else Add_if (len secret <? 32) field ("must be ≥ 32 bytes for HS256 security, got " +:+ decimal (len secret)) ve.

Definition jwt_Config_Validate (c : jwt_Config) : option config_error :=
  let ve := Add_secret "access_secret" (jwt_AccessSecret c) [] in
  let ve := Add_secret "refresh_secret" (jwt_RefreshSecret c) ve in
  let ve := Add_if (negb (is_empty (jwt_AccessSecret c)) && negb (is_empty (jwt_RefreshSecret c)) &&
                    bool_decide (jwt_AccessSecret c = jwt_RefreshSecret c))
    "refresh_secret" "must differ from access_secret" ve in
  let ve := Add_if (jwt_AccessTokenTTL c <=? 0) "access_token_ttl" "must be positive" ve in
  let ve := Add_if (jwt_RefreshTokenTTL c <=? 0) "refresh_token_ttl" "must be positive" ve in
  let ve := Add_if ((0 <? jwt_AccessTokenTTL c) && (0 <? jwt_RefreshTokenTTL c) &&
                    (jwt_RefreshTokenTTL c <=? jwt_AccessTokenTTL c))
    "refresh_token_ttl" "must be greater than AccessTokenTTL" ve in
  ve_Err ve.

(** ** utils/logger/config.go *)
Record LoggerFileConfig : Type := mkLoggerFileConfig {
  file_Path : string; file_Owner : string; file_Group : string; file_Mode : Z;
  file_MaxBackups : Z; file_MaxSizeMB : Z }.
Record LoggerConfig : Type := mkLoggerConfig {
  logger_Type : string; logger_Level : string; logger_File : option LoggerFileConfig }.

Definition LoggerConfig_SetDefaults (c : LoggerConfig) : LoggerConfig :=
  mkLoggerConfig (or_default (logger_Type c) "stdout") (or_default (logger_Level c) "info")
    ((fun f => mkLoggerFileConfig (file_Path f) (file_Owner f) (file_Group f) (or_defaultZ (file_Mode f) 420)
                 (or_defaultZ (file_MaxBackups f) 3) (or_defaultZ (file_MaxSizeMB f) 256)) <$> logger_File c).

Definition validLevels : list string := ["trace"; "debug"; "info"; "warn"; "error"; "fatal"; "panic"].

Definition LoggerConfig_Validate `{Strconv} (c : LoggerConfig) : option config_error :=
  let ve := Add_if (negb (is_empty (logger_Level c)) && negb (existsb (lowers_to (logger_Level c)) validLevels))
    "level" ("unknown value " +:+ Quote (logger_Level c) +:+ "; valid: trace debug info warn error fatal panic") [] in
  ve_Err
    (if bool_decide (logger_Type c ∈ ["stdout"; "console"]) then ve
     else if bool_decide (logger_Type c = "file") then
       match logger_File c with
       | None => Add "file" "required for type file" ve
       | Some f => Add_if (is_empty (file_Path f)) "file.path" "required" ve
       end
     else Add "type" ("unknown value " +:+ Quote (logger_Type c) +:+ "; valid: stdout console file") ve).

(** ** utils/hasher/config.go, over the bounds of [bcrypt] *)
Definition bcrypt_MinCost : Z := 4.
Definition bcrypt_MaxCost : Z := 31.
Definition bcrypt_DefaultCost : Z := 10.

Record HasherConfig : Type := mkHasherConfig { hasher_Cost : Z }.

Definition HasherConfig_SetDefaults (c : HasherConfig) : HasherConfig :=
  mkHasherConfig (or_defaultZ (hasher_Cost c) bcrypt_DefaultCost).

Definition HasherConfig_Validate (c : HasherConfig) : option config_error :=
  ve_Err (Add_if ((hasher_Cost c <? bcrypt_MinCost) || (bcrypt_MaxCost <? hasher_Cost c)) "cost"
    ("must be " +:+ decimal bcrypt_MinCost +:+ "–" +:+ decimal bcrypt_MaxCost +:+ ", got " +:+ decimal (hasher_Cost c)) []).

(** ** delivery/http/config.go and delivery/ws/config.go *)
Record TLSConfig : Type := mkTLSConfig { tls_CertFile : string; tls_KeyFile : string }.
Record RateLimitConfig : Type := mkRateLimitConfig { rl_MaxRequests : Z; rl_Window : Duration }.
Record HttpConfig : Type := mkHttpServerConfig {
  http_Host : string; http_Port : Z;
  http_ReadTimeout : Duration; http_WriteTimeout : Duration; http_IdleTimeout : Duration;
  http_AllowedOrigins : list string; http_RateLimit : RateLimitConfig; http_MaxBodyBytes : Z;
  http_TLS : option TLSConfig }.

Definition default_RateLimit : RateLimitConfig := mkRateLimitConfig 20 (60 * second).

Definition HttpConfig_SetDefaults (c : HttpConfig) : HttpConfig :=
  mkHttpServerConfig (or_default (http_Host c) "0.0.0.0") (or_defaultZ (http_Port c) 8080)
    (or_defaultZ (http_ReadTimeout c) (5 * second)) (or_defaultZ (http_WriteTimeout c) (10 * second))
    (or_defaultZ (http_IdleTimeout c) (60 * second)) (http_AllowedOrigins c)
    (if rl_MaxRequests (http_RateLimit c) =? 0 then default_RateLimit else http_RateLimit c)
    (or_defaultZ (http_MaxBodyBytes c) (Z.shiftl 4 20)) (http_TLS c).

Definition TLSEnabled (c : HttpConfig) : bool :=
  match http_TLS c with
  | None => false
  | Some t => negb (is_empty (tls_CertFile t)) && negb (is_empty (tls_KeyFile t))
  end.

Definition HttpConfig_Validate (c : HttpConfig) : option config_error :=
  let ve := Add_if ((http_Port c <=? 0) || (65535 <? http_Port c)) "port" (port_message (http_Port c)) [] in
  let ve := Add_if (rl_MaxRequests (http_RateLimit c) <=? 0) "rate_limit.max_requests" "must be positive" ve in
  let ve := Add_if (rl_Window (http_RateLimit c) <=? 0) "rate_limit.window" "must be positive" ve in
  let ve := Add_if (http_MaxBodyBytes c <=? 0) "max_body_bytes" "must be positive" ve in
  let ve := Add_if (http_ReadTimeout c <=? 0) "read_timeout" "must be positive" ve in
  let ve := Add_if (http_WriteTimeout c <=? 0) "write_timeout" "must be positive" ve in
  let ve := Add_if (http_IdleTimeout c <=? 0) "idle_timeout" "must be positive" ve in
  let ve := match http_TLS c with
            | None => ve
            | Some t =>
              let ve := Add_if (is_empty (tls_CertFile t)) "tls.cert_file" "required when tls section is present" ve in
              Add_if (is_empty (tls_KeyFile t)) "tls.key_file" "required when tls section is present" ve
            end in
  ve_Err ve.

Record WsConfig : Type := mkWsConfig { ws_MaxMessageSize : Z }.
Definition WsConfig_SetDefaults (c : WsConfig) : WsConfig := mkWsConfig (or_defaultZ (ws_MaxMessageSize c) 4096).

(** ** delivery/config.go *)
Record DeliveryConfig : Type := mkDeliveryConfig {
  delivery_Enabled : list string; delivery_HTTP : HttpConfig; delivery_WS : WsConfig }.

Definition IsEnabled (api : string) (c : DeliveryConfig) : bool := bool_decide (api ∈ delivery_Enabled c).

Definition DeliveryConfig_SetDefaults (c : DeliveryConfig) : DeliveryConfig :=
  mkDeliveryConfig (match delivery_Enabled c with [] => ["http"; "ws"] | l => l end)
    (HttpConfig_SetDefaults (delivery_HTTP c)) (WsConfig_SetDefaults (delivery_WS c)).

Definition DeliveryConfig_Validate (c : DeliveryConfig) : option config_error :=
  ve_Err (if IsEnabled "http" c then AddFrom "http" (HttpConfig_Validate (delivery_HTTP c)) [] else []).

(** ** internal/config *)
Record ProfileConfig : Type := mkProfileConfig { profile_Enabled : bool; profile_Addr : string }.
Definition ProfileConfig_SetDefaults (c : ProfileConfig) : ProfileConfig :=
  mkProfileConfig (profile_Enabled c) (or_default (profile_Addr c) "localhost:8082").

Record AppConfig : Type := mkAppConfig {
  app_Storage : StorageConfig; app_Cache : option CacheConfig; app_JWT : jwt_Config; app_Logger : LoggerConfig;
  app_Hasher : HasherConfig; app_Delivery : DeliveryConfig; app_Profile : ProfileConfig }.

Definition AppConfig_SetDefaults (c : AppConfig) : AppConfig :=
  mkAppConfig (StorageConfig_SetDefaults (app_Storage c)) (CacheConfig_SetDefaults <$> app_Cache c)
    (jwt_Config_SetDefaults (app_JWT c)) (LoggerConfig_SetDefaults (app_Logger c))
    (HasherConfig_SetDefaults (app_Hasher c)) (DeliveryConfig_SetDefaults (app_Delivery c))
    (ProfileConfig_SetDefaults (app_Profile c)).

Definition AppConfig_Validate `{Strconv} (c : AppConfig) : option config_error :=
  let ve := AddFrom "storage" (StorageConfig_Validate (app_Storage c)) [] in
  let ve := match app_Cache c with None => ve | Some k => AddFrom "cache" (CacheConfig_Validate k) ve end in
  let ve := AddFrom "jwt" (jwt_Config_Validate (app_JWT c)) ve in
  let ve := AddFrom "logger" (LoggerConfig_Validate (app_Logger c)) ve in
  let ve := AddFrom "hasher" (HasherConfig_Validate (app_Hasher c)) ve in
  let ve := AddFrom "delivery" (DeliveryConfig_Validate (app_Delivery c)) ve in
  ve_Err ve.

(** [Load], from the decoded document on. *)
Definition Load `{Strconv} (decoded : AppConfig) : result config_error AppConfig :=
  let cfg := AppConfig_SetDefaults decoded in
  match AppConfig_Validate cfg with None => Ok cfg | Some e => Err e end.

Record MigrateConfig : Type := mkMigrateConfig { migrate_Storage : StorageConfig; migrate_Logger : LoggerConfig }.
Definition MigrateConfig_SetDefaults (c : MigrateConfig) : MigrateConfig :=
  mkMigrateConfig (StorageConfig_SetDefaults (migrate_Storage c)) (LoggerConfig_SetDefaults (migrate_Logger c)).
Definition MigrateConfig_Validate `{Strconv} (c : MigrateConfig) : option config_error :=
  let ve := AddFrom "storage" (StorageConfig_Validate (migrate_Storage c)) [] in
  let ve := AddFrom "logger" (LoggerConfig_Validate (migrate_Logger c)) ve in
  ve_Err ve.
Definition LoadMigrate `{Strconv} (decoded : MigrateConfig) : result config_error MigrateConfig :=
  let cfg := MigrateConfig_SetDefaults decoded in
  match MigrateConfig_Validate cfg with None => Ok cfg | Some e => Err e end.

(** ** cmd/migrate/main.go: where the migrations go, and from where *)
Definition migrate_target `{Strconv} (c : MigrateConfig) : result string (string * string) :=
  let s := migrate_Storage c in
  match storage_driver s with
  | Some TypePostgres =>
    match storage_Postgres s with
    | None => Err "postgres config is required for type postgres"
    | Some p =>
      Ok ("postgres://" +:+ pg_User p +:+ ":" +:+ pg_Password p +:+ "@" +:+ pg_Host p +:+ ":" +:+
          decimal (pg_Port p) +:+ "/" +:+ pg_DBName p +:+ "?sslmode=" +:+ pg_SSLMode p,
          "file://" +:+ pg_MigrationsPath p)
    end
  | Some TypeMySQL =>
    match storage_MySQL s with
    | None => Err "mysql config is required for type mysql"
    | Some m => Ok (MigrateDSN m, "file://" +:+ my_MigrationsPath m)
    end
  | None => Err ("unsupported storage type " +:+ Quote (storage_Type s))
  end.
