(* ===== verification/ConfigSpec.v ===== *)
(** * What a valid configuration is

    For every [Validate] the condition it stands for, and the proof that it
    reports no error exactly then. *)
From S2P Require Import Prelude Utf8 Domain GoStd Config.
Open Scope Z_scope.

(** ** The accumulator *)
Lemma Add_not_nil f m l : Add f m l <> [].
Proof. unfold Add. by destruct l. Qed.

Lemma ve_Err_None l : ve_Err l = None <-> l = [].
Proof. unfold ve_Err, HasErrors. by destruct l. Qed.

Lemma ve_Err_Some l e : ve_Err l = Some e -> e = ValidationError l /\ l <> [].
Proof. unfold ve_Err, HasErrors. destruct l; [done|]. cbn. by intros [= <-]. Qed.

Lemma Add_if_nil b f m l : Add_if b f m l = [] <-> b = false /\ l = [].
Proof. destruct b; cbn; [|naive_solver]. split; [by intros ?%Add_not_nil|by intros [? _]]. Qed.

Lemma AddFrom_nil s l0 l : AddFrom s (ve_Err l0) l = [] <-> l0 = [] /\ l = [].
Proof.
  unfold ve_Err, HasErrors. destruct l0 as [|fe l0]; cbn; [naive_solver|].
  split; [|naive_solver]. intros H. exfalso.
  assert (forall l1 fes, l1 <> [] -> foldl (fun errs fe => Add (s +:+ "." +:+ fe_field fe) (fe_message fe) errs) l1 fes <> [])
    as Hne.
  { intros l1 fes. revert l1. induction fes as [|x fes IH]; intros l1 Hl; [done|]. cbn. apply IH, Add_not_nil. }
  revert H. apply Hne, Add_not_nil.
Qed.

Lemma Add_secret_nil f s l : Add_secret f s l = [] <-> 32 <= len s /\ l = [].
Proof.
  unfold Add_secret, is_empty. case_bool_decide as He.
  - split; [by intros ?%Add_not_nil|]. intros [Hl _]. subst s. unfold len in Hl. cbn in Hl. lia.
  - rewrite Add_if_nil, Z.ltb_ge. done.
Qed.

Lemma is_empty_false s : is_empty s = false <-> s <> "".
Proof. unfold is_empty. apply bool_decide_eq_false. Qed.

(** Read a chain of conditions, and reduce each to arithmetic and equalities. *)
Ltac validates :=
  rewrite ?ve_Err_None, ?AddFrom_nil, ?Add_if_nil, ?Add_secret_nil, ?is_empty_false, ?orb_false_iff, ?Z.leb_gt, ?Z.ltb_ge.

(** ** The conditions *)
Definition port_ok (n : Z) : Prop := 1 <= n <= 65535.

Definition postgres_sound (c : PostgresConfig) : Prop :=
  pg_Host c <> "" /\ port_ok (pg_Port c) /\ pg_User c <> "" /\ pg_Password c <> "" /\ pg_DBName c <> "" /\
  1 <= pg_MaxConns c /\ 0 <= pg_MinConns c <= pg_MaxConns c.

Definition mysql_sound (c : MysqlConfig) : Prop :=
  my_Host c <> "" /\ port_ok (my_Port c) /\ my_User c <> "" /\ my_Password c <> "" /\ my_DBName c <> "" /\
  1 <= my_MaxConns c /\ 0 <= my_MinConns c <= my_MaxConns c.

(** The type is known and its section is there and sound. *)
Definition storage_sound (c : StorageConfig) : Prop :=
  match storage_driver c with
  | Some TypePostgres => exists p, storage_Postgres c = Some p /\ postgres_sound p
  | Some TypeMySQL => exists m, storage_MySQL c = Some m /\ mysql_sound m
  | None => False
  end.

Definition cache_sound (c : CacheConfig) : Prop :=
  cache_Type c = TypeMock \/
  (cache_Type c = TypeRedis /\ exists r, cache_Redis c = Some r /\ redis_Addr r <> "").

Definition jwt_sound (c : jwt_Config) : Prop :=
  32 <= len (jwt_AccessSecret c) /\ 32 <= len (jwt_RefreshSecret c) /\
  jwt_AccessSecret c <> jwt_RefreshSecret c /\ 0 < jwt_AccessTokenTTL c < jwt_RefreshTokenTTL c.

Definition logger_sound (c : LoggerConfig) : Prop :=
  (logger_Level c = "" \/ existsb (lowers_to (logger_Level c)) validLevels = true) /\
  (logger_Type c ∈ ["stdout"; "console"] \/
   (logger_Type c = "file" /\ exists f, logger_File c = Some f /\ file_Path f <> "")).

Definition hasher_sound (c : HasherConfig) : Prop := bcrypt_MinCost <= hasher_Cost c <= bcrypt_MaxCost.

Definition http_sound (c : HttpConfig) : Prop :=
  port_ok (http_Port c) /\ 1 <= rl_MaxRequests (http_RateLimit c) /\ 0 < rl_Window (http_RateLimit c) /\
  1 <= http_MaxBodyBytes c /\ 0 < http_ReadTimeout c /\ 0 < http_WriteTimeout c /\ 0 < http_IdleTimeout c /\
  forall t, http_TLS c = Some t -> tls_CertFile t <> "" /\ tls_KeyFile t <> "".

(** Only an enabled HTTP API is looked at. *)
Definition delivery_sound (c : DeliveryConfig) : Prop :=
  "http" ∈ delivery_Enabled c -> http_sound (delivery_HTTP c).

Definition app_sound (c : AppConfig) : Prop :=
  storage_sound (app_Storage c) /\ (forall k, app_Cache c = Some k -> cache_sound k) /\ jwt_sound (app_JWT c) /\
  logger_sound (app_Logger c) /\ hasher_sound (app_Hasher c) /\ delivery_sound (app_Delivery c).

(** ** Each [Validate] decides its condition *)
Lemma postgres_validates c : PostgresConfig_Validate c = None <-> postgres_sound c.
Proof.
  unfold PostgresConfig_Validate, postgres_sound, port_ok. validates. rewrite andb_false_iff, !Z.ltb_ge. intuition lia.
Qed.

Lemma mysql_validates c : MysqlConfig_Validate c = None <-> mysql_sound c.
Proof.
  unfold MysqlConfig_Validate, mysql_sound, port_ok. validates. rewrite andb_false_iff, !Z.ltb_ge. intuition lia.
Qed.

(** A section's report is empty exactly when its [Validate] is content. *)
Lemma section_nil s o l :
  o <> Some (ValidationError []) -> AddFrom s o l = [] <-> o = None /\ l = [].
Proof.
  intros Ho. destruct o as [[errs|text]|]; cbn.
  - change (foldl _ l errs) with (AddFrom s (Some (ValidationError errs)) l).
    assert (Some (ValidationError errs) = ve_Err errs) as -> by (by destruct errs).
    rewrite AddFrom_nil, ve_Err_None. done.
  - split; [by intros ?%Add_not_nil|by intros [? _]].
  - naive_solver.
Qed.

Lemma ve_Err_proper l : ve_Err l <> Some (ValidationError []).
Proof. unfold ve_Err, HasErrors. by destruct l. Qed.
#[local] Hint Resolve ve_Err_proper : core.

Section validates.
Context `{Strconv}.

Lemma storage_validates c : StorageConfig_Validate c = None <-> storage_sound c.
Proof using.
  unfold StorageConfig_Validate, storage_sound. rewrite ve_Err_None.
  destruct (storage_driver c) as [[]|].
  - destruct (storage_Postgres c) as [p|]; [|split; [by intros ?%Add_not_nil|by intros (? & [=] & _)]].
    rewrite section_nil, postgres_validates by apply ve_Err_proper. naive_solver.
  - destruct (storage_MySQL c) as [m|]; [|split; [by intros ?%Add_not_nil|by intros (? & [=] & _)]].
    rewrite section_nil, mysql_validates by apply ve_Err_proper. naive_solver.
  - split; [by intros ?%Add_not_nil|done].
Qed.

Lemma cache_validates c : CacheConfig_Validate c = None <-> cache_sound c.
Proof using.
  unfold CacheConfig_Validate, cache_sound. validates. rewrite negb_false_iff, orb_true_iff, !bool_decide_eq_true.
  destruct (decide (cache_Type c = TypeRedis)) as [E|E].
  - rewrite (bool_decide_eq_true_2 _ E). cbn. rewrite bool_decide_eq_false. rewrite E.
    destruct (cache_Redis c) as [r|]; rewrite ?is_empty_false; split.
    + intros (Hr & _ & _). right. split; [done|]. by exists r.
    + intros [[=]|(_ & r' & [= <-] & Hr)]. repeat split; auto.
    + by intros (_ & ? & _).
    + by intros [[=]|(_ & r & [=] & _)].
  - rewrite (bool_decide_eq_false_2 _ E). cbn. naive_solver.
Qed.

Lemma jwt_validates c : jwt_Config_Validate c = None <-> jwt_sound c.
Proof using.
  unfold jwt_Config_Validate, jwt_sound. validates.
  rewrite !andb_false_iff, !negb_false_iff, !bool_decide_eq_false, !Z.ltb_ge, !Z.leb_gt.
  assert (forall s, 32 <= len s -> is_empty s = true -> False) as Hne.
  { intros s Hs He%bool_decide_eq_true. subst s. unfold len in Hs. cbn in Hs. lia. }
  split.
  - intros (Hlt & Hr0 & Ha0 & Hd & H2 & H1 & _). assert (jwt_AccessSecret c <> jwt_RefreshSecret c) by naive_solver.
    split_and!; [done..|lia|lia].
  - intros (H1 & H2 & Hd & Ha & Hlt). split_and!; auto with lia.
Qed.

Lemma logger_validates c : LoggerConfig_Validate c = None <-> logger_sound c.
Proof using.
  unfold LoggerConfig_Validate, logger_sound. rewrite ve_Err_None.
  assert (forall ve, ve = Add_if (negb (is_empty (logger_Level c)) && negb (existsb (lowers_to (logger_Level c)) validLevels))
    "level" ("unknown value " +:+ Quote (logger_Level c) +:+ "; valid: trace debug info warn error fatal panic") [] ->
    ve = [] <-> logger_Level c = "" \/ existsb (lowers_to (logger_Level c)) validLevels = true) as Hl.
  { intros ve ->. rewrite Add_if_nil, andb_false_iff, !negb_false_iff. unfold is_empty. rewrite bool_decide_eq_true.
    split; [by intros [? _]|done]. }
  set (ve := Add_if _ _ _ _) in *. specialize (Hl ve eq_refl). clearbody ve.
  case_bool_decide as Ht; [rewrite Hl; tauto|]. case_bool_decide as Hf.
  - destruct (logger_File c) as [f|].
    + rewrite Add_if_nil, is_empty_false, Hl. split.
      * intros [Hp ?]. split; [done|]. right. split; [done|]. by exists f.
      * intros [? [?|(_ & f' & [= <-] & ?)]]; done.
    + split; [by intros ?%Add_not_nil|]. by intros [_ [?|(_ & f & [=] & _)]].
  - split; [by intros ?%Add_not_nil|]. by intros [_ [?|[? _]]].
Qed.

Lemma hasher_validates c : HasherConfig_Validate c = None <-> hasher_sound c.
Proof using. unfold HasherConfig_Validate, hasher_sound. validates. tauto. Qed.

Lemma http_validates c : HttpConfig_Validate c = None <-> http_sound c.
Proof using.
  unfold HttpConfig_Validate, http_sound, port_ok. rewrite ve_Err_None.
  destruct (http_TLS c) as [t|]; validates; split.
  - intros (Hk & Hc & ? & ? & ? & ? & ? & ? & [? ?] & _). split_and!; try lia. by intros t' [= <-].
  - intros (? & ? & ? & ? & ? & ? & ? & Ht). destruct (Ht t eq_refl). split_and!; auto with lia.
  - intros (? & ? & ? & ? & ? & ? & [? ?] & _). split_and!; try lia. done.
  - intros (? & ? & ? & ? & ? & ? & ? & _). split_and!; auto with lia.
Qed.

Lemma delivery_validates c : DeliveryConfig_Validate c = None <-> delivery_sound c.
Proof using.
  unfold DeliveryConfig_Validate, delivery_sound, IsEnabled. rewrite ve_Err_None. case_bool_decide as He.
  - rewrite section_nil, http_validates by apply ve_Err_proper. tauto.
  - tauto.
Qed.

Lemma app_validates c : AppConfig_Validate c = None <-> app_sound c.
Proof using.
  unfold AppConfig_Validate, app_sound. rewrite ve_Err_None.
  rewrite !section_nil by apply ve_Err_proper.
  rewrite delivery_validates, hasher_validates, logger_validates, jwt_validates.
  assert (match app_Cache c with
          | None => AddFrom "storage" (StorageConfig_Validate (app_Storage c)) []
          | Some k => AddFrom "cache" (CacheConfig_Validate k) (AddFrom "storage" (StorageConfig_Validate (app_Storage c)) [])
          end = [] <-> storage_sound (app_Storage c) /\ forall k, app_Cache c = Some k -> cache_sound k) as ->; [|tauto].
  destruct (app_Cache c) as [k|]; rewrite ?section_nil, storage_validates, ?cache_validates by apply ve_Err_proper.
  - split; [intros (? & ? & _); split; [done|by intros k' [= <-]]|]. intros [? Hk]. auto.
  - split; [by intros [? _]|by intros [? _]].
Qed.

Lemma Load_Ok decoded c :
  Load decoded = Ok c <-> c = AppConfig_SetDefaults decoded /\ app_sound (AppConfig_SetDefaults decoded).
Proof using.
  unfold Load. rewrite <- app_validates. destruct (AppConfig_Validate _); split.
  - done.
  - by intros [_ [=]].
  - by intros [= <-].
  - by intros [-> _].
Qed.
End validates.
