(* ===== verification/Json.v ===== *)
(** * JSON as [encoding/json] reads and writes it

    Documents are trees of tokens.  A UUID and an instant are string tokens in
    the text; they keep their value here, [uuid.UUID] and [time.Time] being
    (un)marshalled by methods whose text round-trips.  [Marshal] of the domain
    entities follows the struct tags: field order, [omitempty], and [-] for the
    password hash. *)
From S2P Require Import Prelude Utf8 Domain Store.
Open Scope Z_scope.

#[warnings="-register-all"]
Inductive json : Type :=
| JNull
| JBool (b : bool)
| JNum (n : Z)
| JStr (s : string)
| JUUID (u : uuid)
| JTime (t : Time)
| JArr (l : list json)
| JObj (fields : list (string * json)).

(** [time.Time.MarshalJSON] refuses years outside [0, 9999]: the bounds are the
    first instant of year 0 and of year 10000, in nanoseconds since 1970. *)
Definition year_0 : Time := -62167219200 * 1000000000.
Definition year_10000 : Time := 253402300800 * 1000000000.
Definition marshal_time (t : Time) : res json :=
  if (year_0 <=? t) && (t <? year_10000) then Ok (JTime t)
  else Err (Other "Time.MarshalJSON: year outside of range [0,9999]").

(** A string value: invalid UTF-8 becomes U+FFFD. *)
Definition marshal_string (s : string) : json := JStr (ToValidUTF8 s).

(** A field tagged [omitempty] is absent when the string is empty. *)
Definition omitempty (name s : string) : list (string * json) :=
  if bool_decide (s = "") then [] else [(name, marshal_string s)].

Definition both {A B} (a : res A) (b : A -> res B) : res B :=
  match a with Ok x => b x | Err e => Err e end.

Definition marshal_User (u : User) : res json :=
  both (marshal_time (user_LastSeen u)) (fun seen =>
  both (marshal_time (user_CreatedAt u)) (fun created =>
  both (marshal_time (user_UpdatedAt u)) (fun updated =>
  Ok (JObj ([("id", JUUID (user_ID u)); ("username", marshal_string (user_Username u));
             ("email", marshal_string (user_Email u))]
            ++ omitempty "avatar_url" (user_AvatarURL u)
            ++ omitempty "bio" (user_Bio u)
            ++ [("status", marshal_string (user_Status u)); ("last_seen", seen);
                ("created_at", created); ("updated_at", updated)]))))).

Definition marshal_Chat (c : Chat) : res json :=
  both (marshal_time (chat_CreatedAt c)) (fun created =>
  both (marshal_time (chat_UpdatedAt c)) (fun updated =>
  Ok (JObj ([("id", JUUID (chat_ID c)); ("type", marshal_string (chat_Type c))]
            ++ omitempty "name" (chat_Name c)
            ++ omitempty "avatar_url" (chat_AvatarURL c)
            ++ omitempty "description" (chat_Description c)
            ++ [("created_by", JUUID (chat_CreatedBy c));
                ("created_at", created); ("updated_at", updated)])))).

Definition marshal_ChatMember (m : ChatMember) : res json :=
  both (marshal_time (cm_JoinedAt m)) (fun joined =>
  both (match cm_User m with
        | None => Ok []
        | Some u => both (marshal_User u) (fun j => Ok [("user", j)]) end) (fun user =>
  Ok (JObj ([("chat_id", JUUID (cm_ChatID m)); ("user_id", JUUID (cm_UserID m));
             ("role", marshal_string (cm_Role m)); ("joined_at", joined)] ++ user)))).

(** ** Decoding into a struct

    A missing key leaves the zero value, [null] leaves the field alone, a token
    of another kind is an error. *)
Definition field (name : string) (fs : list (string * json)) : option json :=
  match list_find (fun f => f.1 = name) fs with Some (_, f) => Some f.2 | None => None end.

Definition unmarshal_error : error := Other "json: cannot unmarshal value into Go struct field".

(** The zero [time.Time] is the first instant of year 1. *)
Definition zero_Time : Time := -62135596800 * 1000000000.

Definition get_string name fs : res string :=
  match field name fs with
  | None | Some JNull => Ok "" | Some (JStr s) => Ok s | Some _ => Err unmarshal_error end.
Definition get_uuid name fs : res uuid :=
  match field name fs with
  | None | Some JNull => Ok Nil | Some (JUUID u) => Ok u | Some _ => Err unmarshal_error end.
Definition get_time name fs : res Time :=
  match field name fs with
  | None | Some JNull => Ok zero_Time | Some (JTime t) => Ok t | Some _ => Err unmarshal_error end.

Definition unmarshal_User (j : json) : res User :=
  match j with
  | JObj fs =>
    both (get_uuid "id" fs) (fun id => both (get_string "username" fs) (fun username =>
    both (get_string "email" fs) (fun email => both (get_string "avatar_url" fs) (fun avatar =>
    both (get_string "bio" fs) (fun bio => both (get_string "status" fs) (fun status =>
    both (get_time "last_seen" fs) (fun seen => both (get_time "created_at" fs) (fun created =>
    both (get_time "updated_at" fs) (fun updated =>
    Ok (mkUser id username email "" avatar bio status seen created updated))))))))))
  | _ => Err unmarshal_error
  end.

Definition unmarshal_Chat (j : json) : res Chat :=
  match j with
  | JObj fs =>
    both (get_uuid "id" fs) (fun id => both (get_string "type" fs) (fun type =>
    both (get_string "name" fs) (fun name => both (get_string "avatar_url" fs) (fun avatar =>
    both (get_string "description" fs) (fun description =>
    both (get_uuid "created_by" fs) (fun by_ => both (get_time "created_at" fs) (fun created =>
    both (get_time "updated_at" fs) (fun updated =>
    Ok (mkChat id type name avatar description by_ created updated)))))))))
  | _ => Err unmarshal_error
  end.

Definition unmarshal_ChatMember (j : json) : res ChatMember :=
  match j with
  | JObj fs =>
    both (get_uuid "chat_id" fs) (fun c => both (get_uuid "user_id" fs) (fun u =>
    both (get_string "role" fs) (fun role => both (get_time "joined_at" fs) (fun joined =>
    both (match field "user" fs with
          | None | Some JNull => Ok None
          | Some j => both (unmarshal_User j) (fun u => Ok (Some u)) end) (fun user =>
    Ok (mkChatMember c u role joined user))))))
  | _ => Err unmarshal_error
  end.

(** ** Round trips *)

Definition text_ok (s : string) : Prop := ValidString s = true.

Lemma marshal_string_ok s : text_ok s -> marshal_string s = JStr s.
Proof. intros H. unfold marshal_string. by rewrite ToValidUTF8_id. Qed.

Lemma marshal_time_ok t j : marshal_time t = Ok j -> j = JTime t.
Proof. unfold marshal_time. case_match; [by intros [= <-]|done]. Qed.

Lemma both_Ok {A B} (a : res A) (k : A -> res B) b :
  both a k = Ok b -> exists x, a = Ok x /\ k x = Ok b.
Proof. destruct a; [eauto|done]. Qed.

Definition user_text (u : User) : Prop :=
  text_ok (user_Username u) /\ text_ok (user_Email u) /\ text_ok (user_AvatarURL u) /\
  text_ok (user_Bio u) /\ text_ok (user_Status u).
Definition chat_text (c : Chat) : Prop :=
  text_ok (chat_Type c) /\ text_ok (chat_Name c) /\ text_ok (chat_AvatarURL c) /\
  text_ok (chat_Description c).

Ltac unmarshalled :=
  repeat match goal with
  | H : both _ _ = Ok _ |- _ => apply both_Ok in H as (? & ? & H)
  | H : Ok _ = Ok _ |- _ => injection H as <-
  | H : marshal_time _ = Ok _ |- _ => apply marshal_time_ok in H as ->
  end.

Lemma User_roundtrip u j :
  user_text u -> marshal_User u = Ok j -> unmarshal_User j = Ok (public u).
Proof.
  intros (? & ? & ? & ? & ?) Hm. unfold marshal_User in Hm. unmarshalled.
  unfold omitempty, public. rewrite !marshal_string_ok by done.
  destruct u as [id un em ph av bio st ls ca ua]; cbn in *.
  by repeat case_bool_decide; subst.
Qed.

Lemma Chat_roundtrip c j :
  chat_text c -> marshal_Chat c = Ok j -> unmarshal_Chat j = Ok c.
Proof.
  intros (? & ? & ? & ?) Hm. unfold marshal_Chat in Hm. unmarshalled.
  unfold omitempty. rewrite !marshal_string_ok by done.
  destruct c as [id ty n av de cb ca ua]; cbn in *.
  by repeat case_bool_decide; subst.
Qed.

Lemma ChatMember_roundtrip m j :
  text_ok (cm_Role m) -> (forall u, cm_User m = Some u -> user_text u) ->
  marshal_ChatMember m = Ok j ->
  unmarshal_ChatMember j =
    Ok (mkChatMember (cm_ChatID m) (cm_UserID m) (cm_Role m) (cm_JoinedAt m) (public <$> cm_User m)).
Proof.
  intros Hr Hu Hm. unfold marshal_ChatMember in Hm. unmarshalled.
  rewrite marshal_string_ok by done.
  destruct m as [c u r t [us|]]; cbn -[marshal_User unmarshal_User] in *; unmarshalled; [|done].
  pose proof (User_roundtrip us x (Hu us eq_refl) H) as E. destruct x; try discriminate E.
  transitivity (both (both (unmarshal_User (JObj fields)) (fun us => Ok (Some us)))
    (fun user => Ok (mkChatMember c u r t user))); [reflexivity|].
  by rewrite E.
Qed.

(** What survives of a member whatever its embedded user holds. *)
Lemma ChatMember_keeps m m' j :
  text_ok (cm_Role m) -> marshal_ChatMember m = Ok j -> unmarshal_ChatMember j = Ok m' ->
  cm_ChatID m' = cm_ChatID m /\ cm_UserID m' = cm_UserID m /\ cm_Role m' = cm_Role m.
Proof.
  intros Hr Hm Hu. unfold marshal_ChatMember in Hm. unmarshalled. rewrite marshal_string_ok in Hu by done.
  destruct m as [c u r t us]. cbn -[unmarshal_User] in Hu. unmarshalled.
  repeat match goal with H : both _ _ = Ok _ |- _ => apply both_Ok in H as (? & ? & H) end.
  repeat match goal with
  | H : get_uuid _ _ = Ok _ |- _ => injection H as <-
  | H : get_string _ _ = Ok _ |- _ => injection H as <- end.
  done.
Qed.
