(* ===== verification/ChatUsecase.v ===== *)
(** * Package usecase/chat

    [internal/usecase/chat/{dto,chat}.go]: input validation and the chat
    service, for any monad that offers a clock, a UUID source and the two
    repositories. *)
From S2P Require Import Prelude Utf8 Domain Validate.
Open Scope Z_scope.

(** ** dto.go *)
Record CreateDirectInput : Type := mkCreateDirectInput { cdi_TargetUserID : uuid }.

Definition CreateDirectInput_Validate (i : CreateDirectInput) : option error :=
  Err_ (New
    .Check(negb (bool_decide (cdi_TargetUserID i = Nil)), "target_user_id is required")).

Record CreateGroupInput : Type := mkCreateGroupInput {
  cgi_Name : string; cgi_Description : string; cgi_MemberIDs : list uuid }.

Definition CreateGroupInput_Validate (i : CreateGroupInput) : option error :=
  Err_ (New
    .Check(MinLen (cgi_Name i) 1, "name is required")
    .Check(MaxLen (cgi_Name i) 100, "name must be at most 100 characters")
    .Check(MaxLen (cgi_Description i) 500, "description must be at most 500 characters")).

Record UpdateGroupInput : Type := mkUpdateGroupInput {
  ugi_Name : option string; ugi_Description : option string; ugi_AvatarURL : option string }.

Definition UpdateGroupInput_Validate (i : UpdateGroupInput) : option error :=
  let v := New in
  let v := match ugi_Name i with
           | Some n => v.Check(MinLen n 1, "name must not be empty")
                        .Check(MaxLen n 100, "name must be at most 100 characters")
           | None => v end in
  let v := match ugi_Description i with
           | Some d => v.Check(MaxLen d 500, "description must be at most 500 characters")
           | None => v end in
  let v := match ugi_AvatarURL i with
           | Some u => v.Check(IsURL u, "avatar_url must be a valid HTTP/HTTPS URL")
           | None => v end in
  Err_ v.

Record AddMemberInput : Type := mkAddMemberInput { ami_UserID : uuid }.

Definition AddMemberInput_Validate (i : AddMemberInput) : option error :=
  Err_ (New.Check(negb (bool_decide (ami_UserID i = Nil)), "user_id is required")).

Record ChangeMemberRoleInput : Type := mkChangeMemberRoleInput {
  cmri_UserID : uuid; cmri_Role : string }.

Definition ChangeMemberRoleInput_Validate (i : ChangeMemberRoleInput) : option error :=
  Err_ (New
    .Check(negb (bool_decide (cmri_UserID i = Nil)), "user_id is required")
    .Check(OneOf (cmri_Role i) ["admin"; "member"], "role must be one of: admin, member")).

(** ** chat.go *)

(** [nextOwner]: the first admin other than [excludeID], else the first other
    member. *)
Fixpoint nextOwner_from (members : list ChatMember) (excludeID : uuid)
    (fallback : option ChatMember) : option ChatMember :=
  match members with
  | [] => fallback
  | m :: rest =>
    if bool_decide (cm_UserID m = excludeID) then nextOwner_from rest excludeID fallback
    else if bool_decide (cm_Role m = MemberRoleAdmin) then Some m
    else nextOwner_from rest excludeID
           (match fallback with None => Some m | Some f => Some f end)
  end.

Definition nextOwner (members : list ChatMember) (excludeID : uuid) : option ChatMember :=
  nextOwner_from members excludeID None.

(** The [seen] loop of [CreateGroup]: members in input order, without repeats. *)
Fixpoint dedup_members (chatID : uuid) (now : Time) (seen : gset uuid)
    (ids : list uuid) : list ChatMember :=
  match ids with
  | [] => []
  | uid :: rest =>
    if bool_decide (uid ∈ seen) then dedup_members chatID now seen rest
    else mkChatMember chatID uid MemberRoleMember now None
           :: dedup_members chatID now ({[uid]} ∪ seen) rest
  end.

Definition group_members (chatID callerID : uuid) (now : Time) (ids : list uuid) :
    list ChatMember :=
  mkChatMember chatID callerID MemberRoleOwner now None
    :: dedup_members chatID now {[callerID]} ids.

Section Service.
Context {M : Type -> Type} `{MRet M, MBind M, Clock M, UUIDSource M}.
Context `{ChatRepository M, UserRepository M}.

Definition assertMember (chatID userID : uuid) : M (res unit) :=
  let? ok := chats_IsMember chatID userID in
  if negb ok then mret (Fail ErrNotChatMember) else mret (Ok tt).

Definition CreateDirect (callerID : uuid) (i : CreateDirectInput) : M (res (Chat * bool)) :=
  let? _ := check_err (CreateDirectInput_Validate i) in
  if bool_decide (cdi_TargetUserID i = callerID) then mret (Fail ErrForbidden) else
  let? _ := users_GetByID (cdi_TargetUserID i) in
  let* existing := chats_GetDirectChat callerID (cdi_TargetUserID i) in
  match existing with
  | Ok c => mret (Ok (c, false))
  | Err e =>
    if negb (errors_Is e ErrChatNotFound) then mret (Err e) else
    let* now := time_Now in
    let* id := uuid_New in
    let chat := mkChat id ChatTypeDirect "" "" "" callerID now now in
    let members :=
      [mkChatMember id callerID MemberRoleMember now None;
       mkChatMember id (cdi_TargetUserID i) MemberRoleMember now None] in
    let? _ := chats_CreateWithMembers chat members in
    mret (Ok (chat, true))
  end.

Definition CreateGroup (callerID : uuid) (i : CreateGroupInput) : M (res Chat) :=
  let? _ := check_err (CreateGroupInput_Validate i) in
  let* now := time_Now in
  let* id := uuid_New in
  let chat := mkChat id ChatTypeGroup (cgi_Name i) "" (cgi_Description i) callerID now now in
  let? _ := for_each (cgi_MemberIDs i) (fun uid =>
              if bool_decide (uid = callerID) then mret (Ok tt)
              else let? _ := users_GetByID uid in mret (Ok tt)) in
  let members := group_members id callerID now (cgi_MemberIDs i) in
  let? _ := chats_CreateWithMembers chat members in
  mret (Ok chat).

Definition GetChat (chatID callerID : uuid) : M (res Chat) :=
  let? _ := assertMember chatID callerID in
  chats_GetByID chatID.

Definition GetUserChats (callerID : uuid) : M (res (list ChatPreview)) :=
  chats_GetUserChats callerID.

Definition GetMembers (chatID callerID : uuid) : M (res (list ChatMember)) :=
  let? _ := assertMember chatID callerID in
  chats_GetMembers chatID.

(** The field assignments of [UpdateGroup]: a nil pointer leaves the field. *)
Definition apply_update (i : UpdateGroupInput) (now : Time) (c : Chat) : Chat :=
  mkChat (chat_ID c) (chat_Type c)
    (default (chat_Name c) (ugi_Name i))
    (default (chat_AvatarURL c) (ugi_AvatarURL i))
    (default (chat_Description c) (ugi_Description i))
    (chat_CreatedBy c) (chat_CreatedAt c) now.

Definition UpdateGroup (chatID callerID : uuid) (i : UpdateGroupInput) : M (res Chat) :=
  let? _ := check_err (UpdateGroupInput_Validate i) in
  let? chat := chats_GetByID chatID in
  if IsDirect chat then mret (Fail ErrForbidden) else
  let? caller := chats_GetMember chatID callerID in
  if negb (CanManageMembers (cm_Role caller)) then mret (Fail ErrInsufficientRights) else
  let* now := time_Now in
  let chat := apply_update i now chat in
  let? _ := chats_Update chat in
  mret (Ok chat).

Definition AddMember (chatID callerID : uuid) (i : AddMemberInput) : M (res unit) :=
  let? _ := check_err (AddMemberInput_Validate i) in
  let? chat := chats_GetByID chatID in
  if IsDirect chat then mret (Fail ErrForbidden) else
  let? caller := chats_GetMember chatID callerID in
  if negb (CanManageMembers (cm_Role caller)) then mret (Fail ErrInsufficientRights) else
  let? _ := users_GetByID (ami_UserID i) in
  let? already := chats_IsMember chatID (ami_UserID i) in
  if (already : bool) then mret (Fail ErrAlreadyChatMember) else
  let* now := time_Now in
  let? _ := chats_AddMember (mkChatMember chatID (ami_UserID i) MemberRoleMember now None) in
  mret (Ok tt).

Definition RemoveMember (chatID callerID targetID : uuid) : M (res unit) :=
  let? chat := chats_GetByID chatID in
  if IsDirect chat then mret (Fail ErrForbidden) else
  let? caller := chats_GetMember chatID callerID in
  if negb (CanManageMembers (cm_Role caller)) then mret (Fail ErrInsufficientRights) else
  let? target := chats_GetMember chatID targetID in
  if bool_decide (cm_Role target = MemberRoleOwner) then mret (Fail ErrCannotRemoveOwner) else
  if bool_decide (cm_Role target = MemberRoleAdmin) &&
     negb (bool_decide (cm_Role caller = MemberRoleOwner))
  then mret (Fail ErrInsufficientRights) else
  let? _ := chats_RemoveMember chatID targetID in
  mret (Ok tt).

Definition ChangeMemberRole (chatID callerID : uuid) (i : ChangeMemberRoleInput) : M (res unit) :=
  let? _ := check_err (ChangeMemberRoleInput_Validate i) in
  if bool_decide (cmri_UserID i = callerID) then mret (Fail ErrForbidden) else
  let? caller := chats_GetMember chatID callerID in
  if negb (bool_decide (cm_Role caller = MemberRoleOwner))
  then mret (Fail ErrInsufficientRights) else
  let? _ := chats_GetMember chatID (cmri_UserID i) in
  let? _ := chats_UpdateMemberRole chatID (cmri_UserID i) (cmri_Role i) in
  mret (Ok tt).

Definition LeaveChat (chatID callerID : uuid) : M (res unit) :=
  let? chat := chats_GetByID chatID in
  if IsDirect chat then mret (Fail ErrForbidden) else
  let? caller := chats_GetMember chatID callerID in
  let leave := let? _ := chats_RemoveMember chatID callerID in mret (Ok tt) in
  if bool_decide (cm_Role caller = MemberRoleOwner) then
    let? members := chats_GetMembers chatID in
    match nextOwner members callerID with
    | None => chats_Delete chatID
    | Some next =>
      let? _ := chats_UpdateMemberRole chatID (cm_UserID next) MemberRoleOwner in
      leave
    end
  else leave.
End Service.

(** ** Validation lemmas *)

(** A validated role is one of the two a caller may assign. *)
Lemma ChangeMemberRole_valid i :
  ChangeMemberRoleInput_Validate i = None ->
  cmri_UserID i <> Nil /\ cmri_Role i ∈ [MemberRoleAdmin; MemberRoleMember].
Proof.
  intros H.
  assert (first_failure
    [(negb (bool_decide (cmri_UserID i = Nil)), "user_id is required");
     (OneOf (cmri_Role i) ["admin"; "member"], "role must be one of: admin, member")] = None)
    as Hf by (rewrite <- checks_first_failure; exact H).
  rewrite first_failure_None, !Forall_cons in Hf. cbn [fst] in Hf. destruct Hf as (Hn & Ho & _).
  apply OneOf_spec in Ho. by bool_prop.
Qed.

(** ** Who inherits a group *)

Definition others (x : uuid) (ms : list ChatMember) : list ChatMember :=
  filter (fun m => cm_UserID m <> x) ms.
Definition other_admins (x : uuid) (ms : list ChatMember) : list ChatMember :=
  filter (fun m => cm_Role m = MemberRoleAdmin) (others x ms).

Lemma nextOwner_from_first ms x fb :
  nextOwner_from ms x fb =
  match head (other_admins x ms) with
  | Some m => Some m
  | None => match fb with Some f => Some f | None => head (others x ms) end
  end.
Proof.
  revert fb. induction ms as [|m ms IH]; intros fb; [by destruct fb|]. cbn [nextOwner_from].
  unfold other_admins, others. rewrite filter_cons. case_bool_decide as Hx.
  - rewrite decide_False by tauto. apply IH.
  - rewrite decide_True by done. rewrite filter_cons. case_bool_decide as Ha.
    + by rewrite decide_True.
    + rewrite decide_False by done. rewrite IH. unfold other_admins, others.
      by destruct (head (filter _ (filter _ ms))), fb.
Qed.

Lemma nextOwner_first ms x :
  nextOwner ms x =
  match head (other_admins x ms) with Some m => Some m | None => head (others x ms) end.
Proof. apply nextOwner_from_first. Qed.

Lemma nextOwner_other ms x m :
  nextOwner ms x = Some m -> m ∈ ms /\ cm_UserID m <> x.
Proof.
  rewrite nextOwner_first. intros H. assert (m ∈ others x ms) as Hm.
  { destruct (head (other_admins x ms)) as [a|] eqn:E; simplify_eq.
    - apply head_Some_elem_of in E. by apply list_elem_of_filter in E as [_ ?].
    - by apply head_Some_elem_of. }
  apply list_elem_of_filter in Hm. tauto.
Qed.

Lemma nextOwner_nobody ms x m : nextOwner ms x = None -> m ∈ ms -> cm_UserID m = x.
Proof.
  rewrite nextOwner_first. intros H Hm. destruct (decide (cm_UserID m = x)) as [|Hne]; [done|].
  assert (m ∈ others x ms) as Ho by by apply list_elem_of_filter.
  destruct (head (other_admins x ms)); [done|]. by destruct (others x ms); [apply not_elem_of_nil in Ho|].
Qed.
