(* ===== verification/MessageUsecase.v ===== *)
(** * Package usecase/message

    [internal/usecase/message/{dto,message}.go]: input validation, the keyset
    cursor and the message service. *)
From S2P Require Import Prelude Utf8 Domain Validate ChatUsecase.
Open Scope Z_scope.

(** ** dto.go *)
Record SendInput : Type := mkSendInput {
  si_ChatID : uuid; si_Content : string; si_Type : MessageType; si_ReplyToID : option uuid }.

Definition SendInput_Validate (i : SendInput) : option error :=
  Err_ (New
    .Check(negb (bool_decide (si_ChatID i = Nil)), "chat_id is required")
    .Check(MinLen (si_Content i) 1, "content must not be empty")
    .Check(MaxLen (si_Content i) 4096, "content must be at most 4096 characters")
    .Check(OneOf (si_Type i) ["text"; "image"; "file"], "type must be one of: text, image, file")).

Record EditInput : Type := mkEditInput { ei_Content : string }.

Definition EditInput_Validate (i : EditInput) : option error :=
  Err_ (New
    .Check(MinLen (ei_Content i) 1, "content must not be empty")
    .Check(MaxLen (ei_Content i) 4096, "content must be at most 4096 characters")).

Record ListInput : Type := mkListInput {
  li_ChatID : uuid; li_Cursor : option MessageCursor; li_Limit : Z }.

Record ReactInput : Type := mkReactInput { ri_Emoji : string }.

Definition ReactInput_Validate (i : ReactInput) : option error :=
  Err_ (New
    .Check(MinLen (ri_Emoji i) 1, "emoji is required")
    .Check(MaxLen (ri_Emoji i) 10, "emoji must be at most 10 characters")).

Record PageResult : Type := mkPageResult {
  page_Messages : list Message; page_NextCursor : option MessageCursor }.

(** [msgs[len(msgs)-1]] panics on the empty page a limit below one asks for. *)
Definition nextCursor (msgs : list Message) (limit : Z) : res (option MessageCursor) :=
  if Z.of_nat (length msgs) <? limit then Ok None
  else match last msgs with
       | Some m => Ok (Some (mkMessageCursor (msg_CreatedAt m) (msg_ID m)))
       | None => Err (GoPanic "index out of range [-1]")
       end.

Definition buildPageResult (msgs : list Message) (limit : Z) : res PageResult :=
  match nextCursor msgs limit with
  | Ok c => Ok (mkPageResult msgs c)
  | Err e => Err e
  end.

(** ** message.go *)

(** [msg.Content = ...; msg.EditedAt = &now; msg.UpdatedAt = now]. *)
Definition edited (content : string) (now : Time) (m : Message) : Message :=
  mkMessage (msg_ID m) (msg_ChatID m) (msg_SenderID m) content (msg_Type m) (msg_ReplyToID m)
    (Some now) (msg_DeletedAt m) (msg_CreatedAt m) now (msg_Sender m) (msg_Reactions m) (msg_ReplyTo m).

(** [m.Reactions = reactionsByMsg[m.ID]]. *)
Definition with_reactions_of (t : gmap uuid (list Reaction)) (m : Message) : Message :=
  mkMessage (msg_ID m) (msg_ChatID m) (msg_SenderID m) (msg_Content m) (msg_Type m) (msg_ReplyToID m)
    (msg_EditedAt m) (msg_DeletedAt m) (msg_CreatedAt m) (msg_UpdatedAt m) (msg_Sender m)
    (default [] (t !! msg_ID m)) (msg_ReplyTo m).

Section Service.
Context {M : Type -> Type} `{MRet M, MBind M, Clock M, UUIDSource M}.
Context `{MessageRepository M, ChatRepository M}.

Definition Send (senderID : uuid) (i : SendInput) : M (res Message) :=
  let? _ := check_err (SendInput_Validate i) in
  let? _ := assertMember (si_ChatID i) senderID in
  let? _ := match si_ReplyToID i with
            | None => mret (Ok tt)
            | Some r =>
              let? reply := messages_GetByID r in
              if negb (bool_decide (msg_ChatID reply = si_ChatID i))
              then mret (Fail ErrMessageNotFound) else mret (Ok tt)
            end in
  let* now := time_Now in
  let* id := uuid_New in
  let msg := mkMessage id (si_ChatID i) senderID (si_Content i) (si_Type i) (si_ReplyToID i)
               None None now now None [] None in
  let? _ := messages_Create msg in
  mret (Ok msg).

Definition Edit (messageID callerID : uuid) (i : EditInput) : M (res Message) :=
  let? _ := check_err (EditInput_Validate i) in
  let? msg := messages_GetByID messageID in
  if IsDeleted msg then mret (Fail ErrMessageDeleted) else
  if negb (IsAuthoredBy msg callerID) then mret (Fail ErrNotMessageAuthor) else
  let? _ := assertMember (msg_ChatID msg) callerID in
  let* now := time_Now in
  let msg := edited (ei_Content i) now msg in
  let? _ := messages_Update msg in
  mret (Ok msg).

Definition Delete (messageID callerID : uuid) : M (res unit) :=
  let? msg := messages_GetByID messageID in
  if IsDeleted msg then mret (Fail ErrMessageDeleted) else
  if negb (IsAuthoredBy msg callerID) then mret (Fail ErrNotMessageAuthor) else
  let? _ := assertMember (msg_ChatID msg) callerID in
  let? _ := messages_Delete messageID in
  mret (Ok tt).

Definition MarkRead (chatID callerID : uuid) : M (res unit) :=
  let? _ := assertMember chatID callerID in
  let? _ := messages_MarkRead chatID callerID in
  mret (Ok tt).

Definition GetHistory (callerID : uuid) (i : ListInput) : M (res PageResult) :=
  let? _ := assertMember (li_ChatID i) callerID in
  let? msgs := messages_GetChatMessages (li_ChatID i) (li_Cursor i) (li_Limit i) in
  let? msgs := match msgs with
               | [] => mret (Ok [])
               | _ =>
                 let? t := messages_GetReactionsBatch (msg_ID <$> msgs) in
                 mret (Ok (with_reactions_of t <$> msgs))
               end in
  mret (buildPageResult msgs (li_Limit i)).

Definition AddReaction (messageID callerID : uuid) (i : ReactInput) : M (res unit) :=
  let? _ := check_err (ReactInput_Validate i) in
  let? msg := messages_GetByID messageID in
  if IsDeleted msg then mret (Fail ErrMessageDeleted) else
  let? _ := assertMember (msg_ChatID msg) callerID in
  let* now := time_Now in
  let? _ := messages_AddReaction (mkReaction messageID callerID (ri_Emoji i) now None) in
  mret (Ok tt).

Definition RemoveReaction (messageID callerID : uuid) (i : ReactInput) : M (res unit) :=
  let? _ := check_err (ReactInput_Validate i) in
  let? msg := messages_GetByID messageID in
  if IsDeleted msg then mret (Fail ErrMessageDeleted) else
  let? _ := assertMember (msg_ChatID msg) callerID in
  let? _ := messages_RemoveReaction messageID callerID (ri_Emoji i) in
  mret (Ok tt).
End Service.
