(* ===== verification/UserUsecase.v ===== *)
(** * Package usecase/user

    [internal/usecase/user/{dto,user}.go]: registration, login, tokens, profile
    and presence.  The password hasher and the token manager are the interfaces
    the package declares. *)
From S2P Require Import Prelude Utf8 Domain Validate.
Open Scope Z_scope.

(** ** dto.go *)
Record RegisterInput : Type := mkRegisterInput {
  reg_Username : string; reg_Email : string; reg_Password : string }.

Definition RegisterInput_Validate (i : RegisterInput) : option error :=
  Err_ (New
    .Check(MinLen (reg_Username i) 3, "username must be at least 3 characters")
    .Check(MaxLen (reg_Username i) 50, "username must be at most 50 characters")
    .Check(IsAlphanumeric (reg_Username i), "username must contain only letters and digits")
    .Check(IsEmail (reg_Email i), "invalid email address")
    .Check(MinLen (reg_Password i) 8, "password must be at least 8 characters")
    .Check(MaxLen (reg_Password i) 72, "password must be at most 72 characters")).

Record LoginInput : Type := mkLoginInput { log_Email : string; log_Password : string }.

Definition LoginInput_Validate (i : LoginInput) : option error :=
  Err_ (New
    .Check(NonEmpty (log_Email i), "email is required")
    .Check(NonEmpty (log_Password i), "password is required")).

Record UpdateProfileInput : Type := mkUpdateProfileInput {
  upi_Username : option string; upi_Bio : option string; upi_AvatarURL : option string }.

Definition UpdateProfileInput_Validate (i : UpdateProfileInput) : option error :=
  let v := New in
  let v := match upi_Username i with
           | Some n => v.Check(MinLen n 3, "username must be at least 3 characters")
                        .Check(MaxLen n 50, "username must be at most 50 characters")
                        .Check(IsAlphanumeric n, "username must contain only letters and digits")
           | None => v end in
  let v := match upi_Bio i with
           | Some b => v.Check(MaxLen b 500, "bio must be at most 500 characters")
           | None => v end in
  let v := match upi_AvatarURL i with
           | Some u => v.Check(IsURL u, "avatar_url must be a valid HTTP/HTTPS URL")
           | None => v end in
  Err_ v.

Record SearchInput : Type := mkSearchInput {
  srch_Query : string; srch_Limit : Z; srch_Offset : Z }.

Definition SearchInput_Validate (i : SearchInput) : option error :=
  Err_ (New
    .Check(NonEmpty (srch_Query i), "query is required")
    .Check(InRange (srch_Limit i) 1 100, "limit must be between 1 and 100")
    .Check(0 <=? srch_Offset i, "offset must be non-negative")).

Record TokenPair : Type := mkTokenPair { AccessToken : string; RefreshToken_ : string }.

(** ** The interfaces the service consumes *)
Class tokenManager (M : Type -> Type) : Type := {
  GenerateAccessToken : uuid -> M (res string);
  GenerateRefreshToken : uuid -> M (res string);
  ValidateRefreshToken : string -> M (res uuid) }.

Class passwordHasher (M : Type -> Type) : Type := {
  Hash : string -> M (res string);
  hasher_Check : string -> string -> bool }.

(** ** user.go *)

(** The assignments of [UpdateProfile]: a nil pointer leaves the field. *)
Definition apply_profile (username : string) (i : UpdateProfileInput) (now : Time) (u : User) : User :=
  mkUser (user_ID u) username (user_Email u) (user_PasswordHash u)
    (default (user_AvatarURL u) (upi_AvatarURL i)) (default (user_Bio u) (upi_Bio i))
    (user_Status u) (user_LastSeen u) (user_CreatedAt u) now.

Section Service.
Context {M : Type -> Type} `{MRet M, MBind M, Clock M, UUIDSource M}.
Context `{UserRepository M, tokenManager M, passwordHasher M}.

Definition issueTokens (userID : uuid) : M (res TokenPair) :=
  let* access := GenerateAccessToken userID in
  match access with
  | Err _ => mret (Fail ErrInternal)
  | Ok access =>
    let* refresh := GenerateRefreshToken userID in
    match refresh with
    | Err _ => mret (Fail ErrInternal)
    | Ok refresh => mret (Ok (mkTokenPair access refresh))
    end
  end.

(** [if _, err := lookup(); err == nil { return taken } else if !errors.Is(err,
    ErrUserNotFound) { return err }]. *)
Definition assertFree (taken : sentinel) (lookup : M (res User)) : M (res unit) :=
  let* r := lookup in
  match r with
  | Ok _ => mret (Fail taken)
  | Err e => if negb (errors_Is e ErrUserNotFound) then mret (Err e) else mret (Ok tt)
  end.

Definition Register (i : RegisterInput) : M (res (User * TokenPair)) :=
  let? _ := check_err (RegisterInput_Validate i) in
  let? _ := assertFree ErrEmailTaken (users_GetByEmail (reg_Email i)) in
  let? _ := assertFree ErrUsernameTaken (users_GetByUsername (reg_Username i)) in
  let* hash := Hash (reg_Password i) in
  match hash with
  | Err _ => mret (Fail ErrInternal)
  | Ok hash =>
    let* now := time_Now in
    let* id := uuid_New in
    let u := mkUser id (reg_Username i) (reg_Email i) hash "" "" UserStatusOffline now now now in
    let? _ := users_Create u in
    let* tokens := issueTokens id in
    match tokens with
    | Err e => let* _ := users_Delete id in mret (Err e)
    | Ok tokens => mret (Ok (u, tokens))
    end
  end.

Definition Login (i : LoginInput) : M (res (User * TokenPair)) :=
  let? _ := check_err (LoginInput_Validate i) in
  let* r := users_GetByEmail (log_Email i) in
  match r with
  | Err e =>
    if errors_Is e ErrUserNotFound then mret (Fail ErrInvalidCredentials) else mret (Err e)
  | Ok u =>
    if negb (hasher_Check (log_Password i) (user_PasswordHash u))
    then mret (Fail ErrInvalidCredentials) else
    let? tokens := issueTokens (user_ID u) in
    mret (Ok (u, tokens))
  end.

Definition RefreshToken (refreshToken : string) : M (res TokenPair) :=
  let? userID := ValidateRefreshToken refreshToken in
  let? _ := users_GetByID userID in
  issueTokens userID.

Definition GetProfile (id : uuid) : M (res User) := users_GetByID id.

(** The new name, once it is known to be free: the [switch] of [UpdateProfile]. *)
Definition claimUsername (id : uuid) (u : User) (i : UpdateProfileInput) : M (res string) :=
  match upi_Username i with
  | None => mret (Ok (user_Username u))
  | Some n =>
    if bool_decide (n = user_Username u) then mret (Ok (user_Username u)) else
    let* existing := users_GetByUsername n in
    match existing with
    | Ok x => if negb (bool_decide (user_ID x = id)) then mret (Fail ErrUsernameTaken)
              else mret (Ok n)
    | Err e => if negb (errors_Is e ErrUserNotFound) then mret (Err e) else mret (Ok n)
    end
  end.

Definition UpdateProfile (id : uuid) (i : UpdateProfileInput) : M (res User) :=
  let? _ := check_err (UpdateProfileInput_Validate i) in
  let? u := users_GetByID id in
  let? username := claimUsername id u i in
  let* now := time_Now in
  let u := apply_profile username i now u in
  let? _ := users_Update u in
  mret (Ok u).

Definition Search (i : SearchInput) : M (res (list User)) :=
  let? _ := check_err (SearchInput_Validate i) in
  users_Search (srch_Query i) (srch_Limit i) (srch_Offset i).

Definition SetOnline (id : uuid) : M (res unit) :=
  let* now := time_Now in users_UpdateStatus id UserStatusOnline now.

Definition SetOffline (id : uuid) : M (res unit) :=
  let* now := time_Now in users_UpdateStatus id UserStatusOffline now.
End Service.

(** ** The validations as lists of checks *)
Lemma RegisterInput_checks i :
  RegisterInput_Validate i = first_failure
    [(MinLen (reg_Username i) 3, "username must be at least 3 characters");
     (MaxLen (reg_Username i) 50, "username must be at most 50 characters");
     (IsAlphanumeric (reg_Username i), "username must contain only letters and digits");
     (IsEmail (reg_Email i), "invalid email address");
     (MinLen (reg_Password i) 8, "password must be at least 8 characters");
     (MaxLen (reg_Password i) 72, "password must be at most 72 characters")].
Proof. by rewrite <- checks_first_failure. Qed.

Lemma LoginInput_checks i :
  LoginInput_Validate i = first_failure
    [(NonEmpty (log_Email i), "email is required"); (NonEmpty (log_Password i), "password is required")].
Proof. by rewrite <- checks_first_failure. Qed.
