(* ===== verification/Http.v ===== *)
(** * Requests, responses and their JSON

    What [net/http] hands to a handler and what a handler writes
    ([internal/delivery/http/response]).  Every handler of the code writes one
    status line and one body, so a handler returns its response; a panic
    unwinds to the recovery middleware. *)
From S2P Require Import Prelude Utf8 Domain GoStd Json ChatUsecase MessageUsecase UserUsecase.
Open Scope Z_scope.

(** [uuid.Parse] of the uuid package. *)
Class UUIDParse : Type := uuid_Parse : string -> option uuid.
Class UUIDParseLaws (UP : UUIDParse) (UT : UUIDText) : Prop := {
  uuid_Parse_String u : uuid_Parse (uuid_String u) = Some u }.

(** ** Requests *)

(** A body: the first JSON value in it, unless there is none, and the number of
    bytes a reader consumes to the end of that value.  The strings of the value
    are plain tokens: [JUUID] and [JTime] are not used in a body. *)
Record body : Type := mkBody { bd_Doc : option json; bd_End : Z }.

(** The path is the cleaned URL path, one text per segment (a trailing slash is
    an empty last segment).  Header names are in their canonical form
    ([X-Real-Ip]).  [rq_PathValues], [rq_UserID] and [rq_RequestID] are
    what the mux and the middleware add. *)
Record request : Type := mkRequest {
  rq_Method : string;
  rq_Path : list string;
  rq_Query : list (string * string);
  rq_Header : list (string * string);
  rq_RemoteAddr : string;
  rq_Body : body;
  rq_PathValues : list (string * string);
  rq_UserID : option uuid;
  rq_RequestID : option string }.

(** [Header.Get], [Query().Get], [PathValue]: the first value, or the empty text. *)
Definition get (key : string) (l : list (string * string)) : string :=
  match list_find (fun p => p.1 = key) l with Some (_, p) => p.2 | None => "" end.
Definition header (r : request) (key : string) : string := get key (rq_Header r).
Definition query (r : request) (key : string) : string := get key (rq_Query r).
Definition PathValue (r : request) (key : string) : string := get key (rq_PathValues r).

(** The connection behind a response: whether its [http.ResponseWriter] is also
    an [http.Hijacker]. *)
Record ResponseWriter : Type := mkWriter { is_Hijacker : bool }.

(** ** Responses *)
Inductive payload : Type :=
| NoBody
| Doc (j : json)
| Text (s : string).

Record response : Type := mkResponse {
  rs_Status : Z; rs_Header : list (string * string); rs_Body : payload }.

Definition with_headers (hs : list (string * string)) (rs : response) : response :=
  mkResponse (rs_Status rs) (hs ++ rs_Header rs) (rs_Body rs).

(** [response.JSON]: the status is sent before the encoder can fail. *)
Definition JSON (status : Z) (v : res json) : response :=
  mkResponse status [("Content-Type", "application/json")]
    match v with Ok j => Doc j | Err _ => NoBody end.

(** [Body{Data: data}] and [Body{Error: error}]. *)
Definition Body_data (data : res json) : res json := both data (fun d => Ok (JObj [("data", d)])).
Definition Body_error (e : string) : res json := Ok (JObj (omitempty "error" e)).

Definition OK (data : res json) : response := JSON 200 (Body_data data).
Definition Created (data : res json) : response := JSON 201 (Body_data data).
Definition NoContent : response := mkResponse 204 [] NoBody.
Definition BadRequest : response := JSON 400 (Body_error "bad request").

(** The [switch] of [statusCode], in its order. *)
Definition statusCode (e : error) : Z :=
  if errors_Is e ErrUserNotFound || errors_Is e ErrChatNotFound || errors_Is e ErrMessageNotFound then 404
  else if errors_Is e ErrInvalidCredentials || errors_Is e ErrInvalidToken || errors_Is e ErrExpiredToken then 401
  else if errors_Is e ErrEmailTaken || errors_Is e ErrUsernameTaken || errors_Is e ErrAlreadyChatMember then 409
  else if errors_Is e ErrNotChatMember || errors_Is e ErrInsufficientRights || errors_Is e ErrNotMessageAuthor
       || errors_Is e ErrForbidden || errors_Is e ErrCannotRemoveOwner then 403
  else if errors_Is e ErrMessageDeleted then 410
  else if errors_Is e ErrValidation then 422
  else 500.

(** [response.Err]: the text of the error is the answer. *)
Definition response_Err (e : error) : response := JSON (statusCode e) (Body_error (error_text e)).

(** ** The JSON of the answers *)
Fixpoint marshal_all {A} (f : A -> res json) (l : list A) : res (list json) :=
  match l with
  | [] => Ok []
  | a :: l => both (f a) (fun j => both (marshal_all f l) (fun js => Ok (j :: js)))
  end.

(** A slice that was declared and never appended to is nil: it is sent as [null]. *)
Definition marshal_slice {A} (f : A -> res json) (l : list A) : res json :=
  match l with
  | [] => Ok JNull
  | _ => both (marshal_all f l) (fun js => Ok (JArr js))
  end.

(** Optional fields: a nil pointer and an empty slice are left out. *)
Definition opt_field {A} (name : string) (f : A -> res json) (o : option A) : res (list (string * json)) :=
  match o with None => Ok [] | Some a => both (f a) (fun j => Ok [(name, j)]) end.
Definition slice_field {A} (name : string) (f : A -> res json) (l : list A) : res (list (string * json)) :=
  match l with [] => Ok [] | _ => both (marshal_all f l) (fun js => Ok [(name, JArr js)]) end.

Definition marshal_Reaction (r : Reaction) : res json :=
  both (marshal_time (rx_CreatedAt r)) (fun created =>
  both (opt_field "user" marshal_User (rx_User r)) (fun user =>
  Ok (JObj ([("message_id", JUUID (rx_MessageID r)); ("user_id", JUUID (rx_UserID r));
             ("emoji", marshal_string (rx_Emoji r)); ("created_at", created)] ++ user)))).

Fixpoint marshal_Message (m : Message) : res json :=
  both (opt_field "edited_at" marshal_time (msg_EditedAt m)) (fun edited =>
  both (opt_field "deleted_at" marshal_time (msg_DeletedAt m)) (fun deleted =>
  both (marshal_time (msg_CreatedAt m)) (fun created =>
  both (marshal_time (msg_UpdatedAt m)) (fun updated =>
  both (opt_field "sender" marshal_User (msg_Sender m)) (fun sender =>
  both (slice_field "reactions" marshal_Reaction (msg_Reactions m)) (fun reactions =>
  both (match msg_ReplyTo m with
        | None => Ok []
        | Some r => both (marshal_Message r) (fun j => Ok [("reply_to", j)]) end) (fun reply =>
  Ok (JObj ([("id", JUUID (msg_ID m)); ("chat_id", JUUID (msg_ChatID m));
             ("sender_id", JUUID (msg_SenderID m)); ("content", marshal_string (msg_Content m));
             ("type", marshal_string (msg_Type m))]
            ++ match msg_ReplyToID m with Some u => [("reply_to_id", JUUID u)] | None => [] end
            ++ edited ++ deleted ++ [("created_at", created); ("updated_at", updated)]
            ++ sender ++ reactions ++ reply))))))))).

Definition marshal_ChatPreview (p : ChatPreview) : res json :=
  both (marshal_Chat (pv_Chat p)) (fun chat =>
  both (slice_field "members" marshal_ChatMember (pv_Members p)) (fun members =>
  both (opt_field "last_message" marshal_Message (pv_LastMessage p)) (fun last =>
  Ok (JObj ([("chat", chat)] ++ members ++ last ++ [("unread_count", JNum (pv_UnreadCount p))]))))).

Definition marshal_cursor (c : MessageCursor) : res json :=
  both (marshal_time (cur_CreatedAt c)) (fun created =>
  Ok (JObj [("created_at", created); ("id", JUUID (cur_ID c))])).

Definition marshal_PageResult (p : PageResult) : res json :=
  both (marshal_slice marshal_Message (page_Messages p)) (fun messages =>
  both (opt_field "next_cursor" marshal_cursor (page_NextCursor p)) (fun cursor =>
  Ok (JObj ([("messages", messages)] ++ cursor)))).

Definition marshal_TokenPair (t : TokenPair) : res json :=
  Ok (JObj [("access_token", marshal_string (AccessToken t));
            ("refresh_token", marshal_string (RefreshToken_ t))]).

(** [map[string]any{"user": u, "tokens": tokens}]: the keys are sorted. *)
Definition marshal_session (s : User * TokenPair) : res json :=
  both (marshal_TokenPair s.2) (fun tokens =>
  both (marshal_User s.1) (fun user => Ok (JObj [("tokens", tokens); ("user", user)]))).

(** ** Decoding a body

    [json.NewDecoder(r.Body).Decode(&in)] for a struct: the keys are compared
    without regard to case and read in order, a repeated key is assigned again,
    [null] leaves the field, unknown keys are skipped, a token of another kind
    makes the whole decoding fail. *)
Definition reader (A : Type) : Type := A -> json -> res A.

Definition read_string : reader string := fun old j =>
  match j with JNull => Ok old | JStr s => Ok s | _ => Err unmarshal_error end.
Definition read_uuid `{UUIDParse} : reader uuid := fun old j =>
  match j with
  | JNull => Ok old
  | JStr s => match uuid_Parse s with Some u => Ok u | None => Err (Other "invalid UUID") end
  | _ => Err unmarshal_error
  end.
(** A pointer: [null] makes it nil. *)
Definition read_ptr {A} (zero : A) (rd : reader A) : reader (option A) := fun old j =>
  match j with
  | JNull => Ok None
  | _ => both (rd (default zero old) j) (fun a => Ok (Some a))
  end.
Definition read_slice {A} (zero : A) (rd : reader A) : reader (list A) := fun old j =>
  match j with
  | JNull => Ok []
  | JArr js => foldr (fun j acc => both (rd zero j) (fun a => both acc (fun l => Ok (a :: l)))) (Ok []) js
  | _ => Err unmarshal_error
  end.

Definition read_field {A} (name : string) (rd : reader A) (zero : A) (fs : list (string * json)) : res A :=
  foldl (fun acc f => both acc (fun old => if EqualFold name f.1 then rd old f.2 else Ok old)) (Ok zero) fs.

(** The fields of the document; [null] leaves every field at its zero value. *)
Definition Decode {A} (k : list (string * json) -> res A) (r : request) : res A :=
  match bd_Doc (rq_Body r) with
  | Some (JObj fs) => k fs
  | Some JNull => k []
  | Some _ => Err unmarshal_error
  | None => Err (Other "invalid or missing JSON")
  end.

Section inputs.
Context `{UUIDParse}.

Definition decode_RegisterInput fs : res RegisterInput :=
  both (read_field "username" read_string "" fs) (fun username =>
  both (read_field "email" read_string "" fs) (fun email =>
  both (read_field "password" read_string "" fs) (fun password =>
  Ok (mkRegisterInput username email password)))).
Definition decode_LoginInput fs : res LoginInput :=
  both (read_field "email" read_string "" fs) (fun email =>
  both (read_field "password" read_string "" fs) (fun password => Ok (mkLoginInput email password))).
Definition decode_refresh fs : res string := read_field "refresh_token" read_string "" fs.
Definition decode_UpdateProfileInput fs : res UpdateProfileInput :=
  both (read_field "username" (read_ptr "" read_string) None fs) (fun username =>
  both (read_field "bio" (read_ptr "" read_string) None fs) (fun bio =>
  both (read_field "avatar_url" (read_ptr "" read_string) None fs) (fun avatar =>
  Ok (mkUpdateProfileInput username bio avatar)))).
Definition decode_CreateDirectInput fs : res CreateDirectInput :=
  both (read_field "target_user_id" read_uuid Nil fs) (fun u => Ok (mkCreateDirectInput u)).
Definition decode_CreateGroupInput fs : res CreateGroupInput :=
  both (read_field "name" read_string "" fs) (fun name =>
  both (read_field "description" read_string "" fs) (fun description =>
  both (read_field "member_ids" (read_slice Nil read_uuid) [] fs) (fun ids =>
  Ok (mkCreateGroupInput name description ids)))).
Definition decode_UpdateGroupInput fs : res UpdateGroupInput :=
  both (read_field "name" (read_ptr "" read_string) None fs) (fun name =>
  both (read_field "description" (read_ptr "" read_string) None fs) (fun description =>
  both (read_field "avatar_url" (read_ptr "" read_string) None fs) (fun avatar =>
  Ok (mkUpdateGroupInput name description avatar)))).
Definition decode_AddMemberInput fs : res AddMemberInput :=
  both (read_field "user_id" read_uuid Nil fs) (fun u => Ok (mkAddMemberInput u)).
Definition decode_ChangeMemberRoleInput fs : res ChangeMemberRoleInput :=
  both (read_field "user_id" read_uuid Nil fs) (fun u =>
  both (read_field "role" read_string "" fs) (fun role => Ok (mkChangeMemberRoleInput u role))).
Definition decode_EditInput fs : res EditInput :=
  both (read_field "content" read_string "" fs) (fun content => Ok (mkEditInput content)).
Definition decode_ReactInput fs : res ReactInput :=
  both (read_field "emoji" read_string "" fs) (fun emoji => Ok (mkReactInput emoji)).

(** The anonymous struct of the [Send] handler: content, type, reply. *)
Definition decode_send fs : res (string * MessageType * option uuid) :=
  both (read_field "content" read_string "" fs) (fun content =>
  both (read_field "type" read_string "" fs) (fun type =>
  both (read_field "reply_to_id" (read_ptr Nil read_uuid) None fs) (fun reply =>
  Ok (content, type, reply)))).
End inputs.

(** ** Lemmas *)

(** The status an error is answered with tells which sentinel it wraps. *)
Definition sentinel_status (s : sentinel) : Z :=
  match s with
  | ErrUserNotFound | ErrChatNotFound | ErrMessageNotFound => 404
  | ErrInvalidCredentials | ErrInvalidToken | ErrExpiredToken => 401
  | ErrEmailTaken | ErrUsernameTaken | ErrAlreadyChatMember => 409
  | ErrNotChatMember | ErrInsufficientRights | ErrNotMessageAuthor | ErrForbidden | ErrCannotRemoveOwner => 403
  | ErrMessageDeleted => 410
  | ErrValidation => 422
  | ErrInternal => 500
  end.

Lemma statusCode_Is e s : errors_Is e s = true -> statusCode e = sentinel_status s.
Proof.
  intros Hs. assert (forall s', errors_Is e s' = bool_decide (s' = s)) as He.
  { intros s'. destruct (errors_Is e s') eqn:E.
    - rewrite (errors_Is_inj _ _ _ E Hs). by rewrite bool_decide_eq_true_2.
    - symmetry. apply bool_decide_eq_false_2. intros ->. congruence. }
  unfold statusCode. rewrite !He. by destruct s.
Qed.

Lemma statusCode_infra e : infra e -> statusCode e = 500.
Proof. intros He. unfold statusCode. by rewrite !He. Qed.

