(* ===== verification/Handlers.v ===== *)
(** * The handlers

    [internal/delivery/http/handler/*.go] over the three [UseCase] interfaces,
    which the services of the use-case packages implement. *)
From S2P Require Import Prelude Utf8 Domain GoStd Json ChatUsecase MessageUsecase UserUsecase Http.
Open Scope Z_scope.

(** ** The interfaces of the use-case packages *)
Class chat_UseCase (M : Type -> Type) : Type := {
  uc_CreateDirect : uuid -> CreateDirectInput -> M (res (Chat * bool));
  uc_CreateGroup : uuid -> CreateGroupInput -> M (res Chat);
  uc_GetChat : uuid -> uuid -> M (res Chat);
  uc_GetUserChats : uuid -> M (res (list ChatPreview));
  uc_UpdateGroup : uuid -> uuid -> UpdateGroupInput -> M (res Chat);
  uc_AddMember : uuid -> uuid -> AddMemberInput -> M (res unit);
  uc_RemoveMember : uuid -> uuid -> uuid -> M (res unit);
  uc_ChangeMemberRole : uuid -> uuid -> ChangeMemberRoleInput -> M (res unit);
  uc_LeaveChat : uuid -> uuid -> M (res unit);
  uc_GetMembers : uuid -> uuid -> M (res (list ChatMember)) }.

Class message_UseCase (M : Type -> Type) : Type := {
  uc_Send : uuid -> SendInput -> M (res Message);
  uc_GetHistory : uuid -> ListInput -> M (res PageResult);
  uc_Edit : uuid -> uuid -> EditInput -> M (res Message);
  uc_Delete : uuid -> uuid -> M (res unit);
  uc_MarkRead : uuid -> uuid -> M (res unit);
  uc_AddReaction : uuid -> uuid -> ReactInput -> M (res unit);
  uc_RemoveReaction : uuid -> uuid -> ReactInput -> M (res unit) }.

Class user_UseCase (M : Type -> Type) : Type := {
  uc_Register : RegisterInput -> M (res (User * TokenPair));
  uc_Login : LoginInput -> M (res (User * TokenPair));
  uc_RefreshToken : string -> M (res TokenPair);
  uc_GetProfile : uuid -> M (res User);
  uc_UpdateProfile : uuid -> UpdateProfileInput -> M (res User);
  uc_Search : SearchInput -> M (res (list User));
  uc_SetOnline : uuid -> M (res unit);
  uc_SetOffline : uuid -> M (res unit) }.

(** [New] of the three packages: the services implement the interfaces. *)
Section services.
Context {M : Type -> Type} `{MRet M, MBind M, Clock M, UUIDSource M}.
Context `{UR : UserRepository M, CR : ChatRepository M, MR : MessageRepository M}.
Context `{TM : tokenManager M, PH : passwordHasher M}.

Definition chat_New : chat_UseCase M := {|
  uc_CreateDirect := CreateDirect; uc_CreateGroup := CreateGroup; uc_GetChat := GetChat;
  uc_GetUserChats := GetUserChats; uc_UpdateGroup := UpdateGroup; uc_AddMember := AddMember;
  uc_RemoveMember := RemoveMember; uc_ChangeMemberRole := ChangeMemberRole;
  uc_LeaveChat := LeaveChat; uc_GetMembers := GetMembers |}.

Definition message_New : message_UseCase M := {|
  uc_Send := Send; uc_GetHistory := GetHistory; uc_Edit := Edit; uc_Delete := Delete;
  uc_MarkRead := MarkRead; uc_AddReaction := AddReaction; uc_RemoveReaction := RemoveReaction |}.

Definition user_New : user_UseCase M := {|
  uc_Register := Register; uc_Login := Login; uc_RefreshToken := RefreshToken;
  uc_GetProfile := GetProfile; uc_UpdateProfile := UpdateProfile; uc_Search := Search;
  uc_SetOnline := SetOnline; uc_SetOffline := SetOffline |}.
End services.

(** ** Handlers *)

(** A handler answers, or panics with the headers set so far. *)
Record panic : Type := mkPanic { p_value : string; p_header : list (string * string) }.
Abbreviation served := (result panic response).
Definition Handler (M : Type -> Type) : Type := ResponseWriter -> request -> M served.

Section handlers.
Context {M : Type -> Type} `{MRet M, MBind M, UP : UUIDParse}.

(** [if err != nil { response.BadRequest(w); return }]. *)
Definition or_BadRequest {A} (a : res A) (k : A -> M served) : M served :=
  match a with Ok x => k x | Err _ => mret (Ok BadRequest) end.

(** [if err != nil { response.Err(w, r, err); return }]; a panic goes on. *)
Definition or_Err {A} (m : M (res A)) (k : A -> response) : M served :=
  let* a := m in
  mret match a with
       | Ok x => Ok (k x)
       | Err (GoPanic t) => Err (mkPanic t [])
       | Err e => Ok (response_Err e)
       end.

Notation "'let!' x := a 'in' k" := (or_BadRequest a (fun x => k))
  (at level 10, x binder, a at level 200, k at level 200).

(** [mw.UserID]: the type assertion panics outside the protected routes. *)
Definition UserID (r : request) : M (result panic uuid) :=
  mret match rq_UserID r with
       | Some u => Ok u
       | None => Err (mkPanic "interface conversion: interface {} is nil, not uuid.UUID" [])
       end.

Definition parseUUID (r : request) (key : string) : res uuid :=
  match uuid_Parse (PathValue r key) with Some u => Ok u | None => Err (Other "invalid UUID") end.

Definition queryInt (s : string) (defaultVal : Z) : Z :=
  if bool_decide (s = "") then defaultVal else default defaultVal (Atoi s).

(** *** user.go *)
Section user.
Context `{UU : user_UseCase M}.

Definition h_Register : Handler M := fun _ r =>
  let! i := Decode decode_RegisterInput r in
  or_Err (uc_Register i) (fun s => Created (marshal_session s)).

Definition h_Login : Handler M := fun _ r =>
  let! i := Decode decode_LoginInput r in
  or_Err (uc_Login i) (fun s => OK (marshal_session s)).

Definition h_RefreshToken : Handler M := fun _ r =>
  let! t := Decode decode_refresh r in
  if bool_decide (t = "") then mret (Ok BadRequest) else
  or_Err (uc_RefreshToken t) (fun p => OK (marshal_TokenPair p)).

Definition h_GetMe : Handler M := fun _ r =>
  let? me := UserID r in
  or_Err (uc_GetProfile me) (fun u => OK (marshal_User u)).

Definition h_UpdateMe : Handler M := fun _ r =>
  let! i := Decode decode_UpdateProfileInput r in
  let? me := UserID r in
  or_Err (uc_UpdateProfile me i) (fun u => OK (marshal_User u)).

Definition h_GetProfile : Handler M := fun _ r =>
  let! id := parseUUID r "user_id" in
  or_Err (uc_GetProfile id) (fun u => OK (marshal_User u)).

(** The input of [Search]: a limit below one becomes the default. *)
Definition search_input (r : request) : SearchInput :=
  let limit := queryInt (query r "limit") 20 in
  mkSearchInput (query r "q") (if limit <? 1 then 20 else limit) (queryInt (query r "offset") 0).

Definition h_Search : Handler M := fun _ r =>
  or_Err (uc_Search (search_input r)) (fun us => OK (marshal_slice marshal_User us)).
End user.

(** *** chat.go *)
Section chat.
Context `{CU : chat_UseCase M}.

Definition h_CreateDirect : Handler M := fun _ r =>
  let! i := Decode decode_CreateDirectInput r in
  let? me := UserID r in
  or_Err (uc_CreateDirect me i) (fun '(c, created) =>
    if (created : bool) then Created (marshal_Chat c) else OK (marshal_Chat c)).

Definition h_CreateGroup : Handler M := fun _ r =>
  let! i := Decode decode_CreateGroupInput r in
  let? me := UserID r in
  or_Err (uc_CreateGroup me i) (fun c => Created (marshal_Chat c)).

Definition h_GetUserChats : Handler M := fun _ r =>
  let? me := UserID r in
  or_Err (uc_GetUserChats me) (fun ps => OK (marshal_slice marshal_ChatPreview ps)).

Definition h_GetChat : Handler M := fun _ r =>
  let! chatID := parseUUID r "chat_id" in
  let? me := UserID r in
  or_Err (uc_GetChat chatID me) (fun c => OK (marshal_Chat c)).

Definition h_UpdateGroup : Handler M := fun _ r =>
  let! chatID := parseUUID r "chat_id" in
  let! i := Decode decode_UpdateGroupInput r in
  let? me := UserID r in
  or_Err (uc_UpdateGroup chatID me i) (fun c => OK (marshal_Chat c)).

Definition h_GetMembers : Handler M := fun _ r =>
  let! chatID := parseUUID r "chat_id" in
  let? me := UserID r in
  or_Err (uc_GetMembers chatID me) (fun ms => OK (marshal_slice marshal_ChatMember ms)).

Definition h_AddMember : Handler M := fun _ r =>
  let! chatID := parseUUID r "chat_id" in
  let! i := Decode decode_AddMemberInput r in
  let? me := UserID r in
  or_Err (uc_AddMember chatID me i) (fun _ => NoContent).

Definition h_RemoveMember : Handler M := fun _ r =>
  let! chatID := parseUUID r "chat_id" in
  let! targetID := parseUUID r "user_id" in
  let? me := UserID r in
  or_Err (uc_RemoveMember chatID me targetID) (fun _ => NoContent).

(** [in.UserID = targetID]: the path wins over the body. *)
Definition h_ChangeMemberRole : Handler M := fun _ r =>
  let! chatID := parseUUID r "chat_id" in
  let! targetID := parseUUID r "user_id" in
  let! i := Decode decode_ChangeMemberRoleInput r in
  let? me := UserID r in
  or_Err (uc_ChangeMemberRole chatID me (mkChangeMemberRoleInput targetID (cmri_Role i))) (fun _ => NoContent).

Definition h_LeaveChat : Handler M := fun _ r =>
  let! chatID := parseUUID r "chat_id" in
  let? me := UserID r in
  or_Err (uc_LeaveChat chatID me) (fun _ => NoContent).
End chat.

(** *** message.go *)
Section message.
Context `{MU : message_UseCase M}.

(** No type means text, the zero UUID means no reply. *)
Definition send_input (chatID : uuid) (b : string * MessageType * option uuid) : SendInput :=
  let '(content, type, reply) := b in
  mkSendInput chatID content
    (if bool_decide (type = "") then MessageTypeText else type)
    (if bool_decide (reply = Some Nil) then None else reply).

Definition h_Send : Handler M := fun _ r =>
  let! chatID := parseUUID r "chat_id" in
  let! b := Decode decode_send r in
  let? me := UserID r in
  or_Err (uc_Send me (send_input chatID b)) (fun m => Created (marshal_Message m)).

Definition history_limit (r : request) : Z :=
  let limit := queryInt (query r "limit") 30 in
  if limit <? 1 then 30 else if 100 <? limit then 100 else limit.

(** [cursor_id] and [cursor_ts], both or neither. *)
Definition history_cursor (r : request) : res (option MessageCursor) :=
  if bool_decide (query r "cursor_id" = "") then Ok None else
  match uuid_Parse (query r "cursor_id"), time_Parse (query r "cursor_ts") with
  | Some id, Some ts => Ok (Some (mkMessageCursor ts id))
  | _, _ => Err (Other "invalid cursor")
  end.

Definition h_GetHistory : Handler M := fun _ r =>
  let! chatID := parseUUID r "chat_id" in
  let! cursor := history_cursor r in
  let? me := UserID r in
  or_Err (uc_GetHistory me (mkListInput chatID cursor (history_limit r))) (fun p => OK (marshal_PageResult p)).

Definition h_Edit : Handler M := fun _ r =>
  let! msgID := parseUUID r "msg_id" in
  let! i := Decode decode_EditInput r in
  let? me := UserID r in
  or_Err (uc_Edit msgID me i) (fun m => OK (marshal_Message m)).

Definition h_Delete : Handler M := fun _ r =>
  let! msgID := parseUUID r "msg_id" in
  let? me := UserID r in
  or_Err (uc_Delete msgID me) (fun _ => NoContent).

Definition h_MarkRead : Handler M := fun _ r =>
  let! chatID := parseUUID r "chat_id" in
  let? me := UserID r in
  or_Err (uc_MarkRead chatID me) (fun _ => NoContent).

Definition h_AddReaction : Handler M := fun _ r =>
  let! msgID := parseUUID r "msg_id" in
  let! i := Decode decode_ReactInput r in
  let? me := UserID r in
  or_Err (uc_AddReaction msgID me i) (fun _ => NoContent).

Definition h_RemoveReaction : Handler M := fun _ r =>
  let! msgID := parseUUID r "msg_id" in
  if bool_decide (query r "emoji" = "") then mret (Ok BadRequest) else
  let? me := UserID r in
  or_Err (uc_RemoveReaction msgID me (mkReactInput (query r "emoji"))) (fun _ => NoContent).
End message.
End handlers.
