(* ===== verification/Middleware.v ===== *)
(** * The middleware

    [internal/delivery/http/middleware/*.go].  Their log is in [Logging.v]; what a
    middleware passes on, refuses or adds to the response is here. *)
From S2P Require Import Prelude Utf8 Domain GoStd Json Http Handlers.
Open Scope Z_scope.

(** What [net/http] sets on the response before the handler returns survives a
    panic: the headers of an outer middleware are added either way. *)
Definition add_headers (hs : list (string * string)) (s : served) : served :=
  match s with
  | Ok rs => Ok (with_headers hs rs)
  | Err p => Err (mkPanic (p_value p) (hs ++ p_header p))
  end.

(** ** The middleware that keeps no state *)
Section middleware.
Context {M : Type -> Type} `{MRet M, MBind M}.

(** *** auth.go *)
Class TokenValidator (N : Type -> Type) : Type := tv_ValidateAccessToken : string -> N (res uuid).

Definition unauthorized : response := JSON 401 (Body_error "unauthorized").

Definition with_user (u : uuid) (r : request) : request :=
  mkRequest (rq_Method r) (rq_Path r) (rq_Query r) (rq_Header r) (rq_RemoteAddr r) (rq_Body r)
    (rq_PathValues r) (Some u) (rq_RequestID r).

(** The token of an [Authorization: Bearer <token>] header. *)
Definition bearer (r : request) : option string :=
  let h := header r "Authorization" in
  if bool_decide (h = "") then None else
  match cut " " h with
  | Some (scheme, token) => if EqualFold "bearer" scheme then Some token else None
  | None => None
  end.

Definition Auth `{TV : TokenValidator M} (next : Handler M) : Handler M := fun w r =>
  match bearer r with
  | None => mret (Ok unauthorized)
  | Some token =>
    let* v := tv_ValidateAccessToken token in
    match v with
    | Err _ => mret (Ok unauthorized)
    | Ok userID => next w (with_user userID r)
    end
  end.

(** *** cors.go *)
Definition allow_all (allowedOrigins : list string) : bool :=
  bool_decide (allowedOrigins = []) || bool_decide (allowedOrigins = ["*"]).

Definition isAllowed (allowedOrigins : list string) (origin : string) : bool :=
  allow_all allowedOrigins || existsb (fun o => EqualFold o origin) allowedOrigins.

Definition cors_headers (allowedOrigins : list string) (origin : string) : list (string * string) :=
  if negb (bool_decide (origin = "")) && isAllowed allowedOrigins origin then
    if allow_all allowedOrigins then [("Access-Control-Allow-Origin", "*")]
    else [("Access-Control-Allow-Origin", origin); ("Access-Control-Allow-Credentials", "true");
          ("Vary", "Origin")]
  else [].

Definition CORS (allowedOrigins : list string) (next : Handler M) : Handler M := fun w r =>
  let hs := cors_headers allowedOrigins (header r "Origin") in
  if bool_decide (rq_Method r = "OPTIONS") then
    mret (Ok (mkResponse 204 (hs ++
      [("Access-Control-Allow-Methods", "GET, POST, PUT, PATCH, DELETE, OPTIONS");
       ("Access-Control-Allow-Headers", "Content-Type, Authorization, X-Request-ID");
       ("Access-Control-Max-Age", "3600")]) NoBody))
  else
    let* rs := next w r in
    mret (add_headers (hs ++ [("Access-Control-Expose-Headers", "X-Request-ID")]) rs).

(** *** requestid.go *)
Definition with_id (id : string) (r : request) : request :=
  mkRequest (rq_Method r) (rq_Path r) (rq_Query r) (rq_Header r) (rq_RemoteAddr r) (rq_Body r)
    (rq_PathValues r) (rq_UserID r) (Some id).

Definition RequestID `{UUIDSource M, UUIDText} (next : Handler M) : Handler M := fun w r =>
  let* id := if bool_decide (header r "X-Request-Id" = "")
             then (let* u := uuid_New in mret (uuid_String u))
             else mret (header r "X-Request-Id") in
  let* rs := next w (with_id id r) in
  mret (add_headers [("X-Request-Id", id)] rs).

Definition GetRequestID (r : request) : string := default "" (rq_RequestID r).

(** *** logger.go *)

(** [statusWriter] embeds the interface [http.ResponseWriter]: whatever else the
    underlying writer implements is hidden. *)
Definition statusWriter (w : ResponseWriter) : ResponseWriter := mkWriter false.

Definition RequestLogger (next : Handler M) : Handler M := fun w r => next (statusWriter w) r.

(** [http.MaxBytesReader]: a value that ends beyond the limit cannot be read. *)
Definition limited (maxBytes : Z) (b : body) : body :=
  mkBody (if bd_End b <=? maxBytes then bd_Doc b else None) (bd_End b).
Definition with_body (b : body) (r : request) : request :=
  mkRequest (rq_Method r) (rq_Path r) (rq_Query r) (rq_Header r) (rq_RemoteAddr r) b
    (rq_PathValues r) (rq_UserID r) (rq_RequestID r).

Definition LimitBody (maxBytes : Z) (next : Handler M) : Handler M := fun w r =>
  next w (with_body (limited maxBytes (rq_Body r)) r).

Definition recovered (hs : list (string * string)) : response :=
  mkResponse 500 (("Content-Type", "application/json") :: hs) (Doc (JObj [("error", JStr "internal server error")])).

Definition Recovery (next : Handler M) : Handler M := fun w r =>
  let* s := next w r in
  mret (match s with Ok rs => Ok rs | Err p => Ok (recovered (p_header p)) end).
End middleware.

(** ** ratelimit.go *)

(** The address a request is counted under. *)
Definition clientIP (r : request) : string :=
  if negb (bool_decide (header r "X-Real-Ip" = "")) then header r "X-Real-Ip"
  else if negb (bool_decide (header r "X-Forwarded-For" = "")) then
    TrimSpace (match cut "," (header r "X-Forwarded-For") with
               | Some (first, _) => first
               | None => header r "X-Forwarded-For" end)
  else match before_last ":" (rq_RemoteAddr r) with Some ip => ip | None => rq_RemoteAddr r end.

Record rl_entry : Type := mkRlEntry { rl_count : Z; rl_resetAt : Time }.
Abbreviation clients := (gmap string rl_entry).

(** The critical section: whether the request may pass, and the new table. *)
Definition allow (maxReqs : Z) (window : Duration) (now : Time) (ip : string) (cl : clients) : bool * clients :=
  match cl !! ip with
  | Some e =>
    if rl_resetAt e <? now then (true, <[ip := mkRlEntry 1 (now + window)]> cl)
    else (negb (maxReqs <? rl_count e + 1), <[ip := mkRlEntry (rl_count e + 1) (rl_resetAt e)]> cl)
  | None => (true, <[ip := mkRlEntry 1 (now + window)]> cl)
  end.

(** The background sweep. *)
Definition purge (now : Time) (cl : clients) : clients :=
  filter (fun p : string * rl_entry => ~ rl_resetAt p.2 < now) cl.

Definition too_many : response :=
  mkResponse 429 [("Content-Type", "application/json")] (Doc (JObj [("error", JStr "too many requests")])).

(** The limiter keeps its table beside the state [W] of the rest. *)
Section limiter.
Context {W : Type} `{CK : Clock (ST W)}.

(** A handler that does not know of the table. *)
Definition beside (next : Handler (ST W)) : Handler (ST (clients * W)) := fun w r '(cl, s) =>
  let '(rs, s') := next w r s in (rs, (cl, s')).

Definition RateLimit (maxReqs : Z) (window : Duration) (next : Handler (ST W)) :
    Handler (ST (clients * W)) := fun w r '(cl, s) =>
  let '(now, s) := time_Now s in
  let '(ok, cl) := allow maxReqs window now (clientIP r) cl in
  if ok then beside next w r (cl, s) else (Ok too_many, (cl, s)).
End limiter.
