(* ===== verification/RateLimit.v ===== *)
(** * What the rate limiter guarantees

    The mutex serialises the critical sections of [RateLimit]: a run is a
    sequence of requests and background sweeps, with times that do not go back. *)
From S2P Require Import Prelude Domain Http Handlers Middleware.
Open Scope Z_scope.

Inductive rl_event : Type :=
| Arrives (now : Time) (ip : string)
| Sweep (now : Time).

Definition event_time (e : rl_event) : Time := match e with Arrives now _ | Sweep now => now end.

(** What the limiter decided, the newest decision first. *)
Record decision : Type := mkDecision { dc_at : Time; dc_ip : string; dc_ok : bool }.

Section limiter.
Context (maxReqs : Z) (window : Duration).

Definition rl_step (e : rl_event) (st : clients * list decision) : clients * list decision :=
  let '(cl, h) := st in
  match e with
  | Arrives now ip => let '(ok, cl) := allow maxReqs window now ip cl in (cl, mkDecision now ip ok :: h)
  | Sweep now => (purge now cl, h)
  end.

(** The events in order, from the empty table. *)
Definition rl_run (evs : list rl_event) : clients * list decision :=
  foldl (fun st e => rl_step e st) (∅, []) evs.

(** Requests of [ip] let through at times in an interval. *)
Definition let_through (ip : string) (P : Time -> bool) (h : list decision) : Z :=
  Z.of_nat (length (filter (fun d => dc_ok d && bool_decide (dc_ip d = ip) && P (dc_at d)) h)).

Lemma let_through_cons ip P d h :
  let_through ip P (d :: h) =
  (if dc_ok d && bool_decide (dc_ip d = ip) && P (dc_at d) then 1 else 0) + let_through ip P h.
Proof using.
  unfold let_through. rewrite filter_cons.
  destruct (dc_ok d && bool_decide (dc_ip d = ip) && P (dc_at d)); [|done].
  rewrite decide_True by done. cbn [length]. lia.
Qed.

Lemma let_through_nonneg ip P h : 0 <= let_through ip P h.
Proof using. unfold let_through. lia. Qed.

(** ** Frames: other addresses and the sweep *)
Lemma allow_other now ip ip' cl : ip <> ip' -> (allow maxReqs window now ip' cl).2 !! ip = cl !! ip.
Proof using.
  intros Hne. unfold allow. destruct (cl !! ip') as [e|]; [destruct (rl_resetAt e <? now)|];
    cbn [snd]; by rewrite lookup_insert_ne by done.
Qed.

Lemma purge_lookup now cl ip :
  purge now cl !! ip = match cl !! ip with
                       | Some e => if rl_resetAt e <? now then None else Some e
                       | None => None end.
Proof using.
  unfold purge. destruct (cl !! ip) as [e|] eqn:E.
  - destruct (rl_resetAt e <? now) eqn:R.
    + apply map_lookup_filter_None. right. intros e' He'. simplify_eq/=. lia.
    + apply map_lookup_filter_Some. split; [done|]. cbn. lia.
  - apply map_lookup_filter_None. by left.
Qed.

(** ** At most two windows' worth in any window *)
Section upper.
Context (ip : string) (t : Time).

Definition K : Z := Z.max 1 maxReqs.
Definition within : Time -> bool := fun now => (t <? now) && (now <=? t + window).

(** Of the [n] requests let through in the interval by [last], those of the
    current window are at most its count; an earlier window fills the rest. *)
Definition fits_windows (o : option rl_entry) (n : Z) (last : Time) : Prop :=
  n <= 2 * K /\ (last <= t -> n = 0) /\
  (t + window < last \/
   match o with
   | None => n <= K
   | Some e => 1 <= rl_count e /\
     n <= (if rl_resetAt e <=? t + window then 0 else K) + Z.min (rl_count e) K
   end).

Lemma fits_arrival cl h now ip' last :
  last <= now -> fits_windows (cl !! ip) (let_through ip within h) last ->
  let '(ok, cl') := allow maxReqs window now ip' cl in
  fits_windows (cl' !! ip) (let_through ip within (mkDecision now ip' ok :: h)) now.
Proof using.
  intros Hl (Hn & H0 & Hw). pose proof (let_through_nonneg ip within h) as Hpos.
  destruct (allow maxReqs window now ip' cl) as [ok cl'] eqn:Ha. rewrite let_through_cons. cbn [dc_ok dc_ip dc_at].
  destruct (decide (ip' = ip)) as [->|Hne].
  2:{ pose proof (allow_other now ip ip' cl (not_eq_sym Hne)) as Ho. rewrite Ha in Ho. cbn in Ho.
      rewrite Ho, bool_decide_eq_false_2, andb_false_r by done. cbn.
      split; [lia|]. split; [intros; rewrite H0; lia|]. destruct Hw as [Hw|Hw]; [left; lia|by right]. }
  rewrite bool_decide_eq_true_2, andb_true_r by done. unfold within in *. unfold allow in Ha.
  set (n := let_through ip _ h) in *. clearbody n. unfold K in *.
  destruct (cl !! ip) as [e|].
  - destruct (rl_resetAt e <? now) eqn:Hr; simplify_eq/=; rewrite lookup_insert_eq; unfold fits_windows, K; cbn;
      repeat case_match; bool_prop; split; try lia; split; lia.
  - simplify_eq/=; rewrite lookup_insert_eq; unfold fits_windows, K; cbn;
      repeat case_match; bool_prop; split; try lia; split; lia.
Qed.

Lemma fits_sweep o n now last :
  last <= now -> fits_windows o n last ->
  fits_windows (match o with Some e => if rl_resetAt e <? now then None else Some e | None => None end) n now.
Proof using.
  intros Hl (Hn & H0 & Hw). unfold fits_windows, K in *.
  split; [lia|]. split; [intros; apply H0; lia|]. destruct Hw as [Hw|Hw]; [left; lia|].
  destruct o as [e|]; [|by right]. destruct (rl_resetAt e <? now) eqn:R; [|by right].
  destruct (rl_resetAt e <=? t + window) eqn:R2; [right; lia|left; lia].
Qed.

Lemma fits_later o n last last' : last <= last' -> fits_windows o n last -> fits_windows o n last'.
Proof using.
  intros Hl (Hn & H0 & Hw). split; [done|]. split; [intros; apply H0; lia|].
  destruct Hw; [left; lia|by right].
Qed.
End upper.

(** ** A refusal is earned: the count of an entry is requests of its window *)
Definition earned (ip : string) (o : option rl_entry) (h : list decision) : Prop :=
  match o with
  | None => True
  | Some e => 1 <= rl_count e /\ forall a, a <= rl_resetAt e - window ->
      Z.min (rl_count e) (Z.max 1 maxReqs) <= let_through ip (fun now => a <=? now) h
  end.

Lemma earned_arrival ip cl h now ip' :
  (forall e, cl !! ip = Some e -> rl_resetAt e - window <= now) ->
  earned ip (cl !! ip) h ->
  let '(ok, cl') := allow maxReqs window now ip' cl in
  earned ip (cl' !! ip) (mkDecision now ip' ok :: h).
Proof using.
  intros Hstart He. destruct (allow maxReqs window now ip' cl) as [ok cl'] eqn:Ha.
  destruct (decide (ip' = ip)) as [->|Hne].
  - assert (forall b a, let_through ip (fun now => a <=? now) (mkDecision now ip b :: h) =
        (if b && (a <=? now) then 1 else 0) + let_through ip (fun now => a <=? now) h) as Hcons.
    { intros b a. rewrite let_through_cons. cbn. by rewrite bool_decide_eq_true_2, andb_true_r by done. }
    pose proof (fun a => let_through_nonneg ip (fun now => a <=? now) h) as Hpos.
    unfold allow in Ha. destruct (cl !! ip) as [e|]; [specialize (Hstart e eq_refl)|];
      [destruct (rl_resetAt e <? now) eqn:Hr|]; simplify_eq/=; rewrite lookup_insert_eq; cbn;
      (split; [lia|]); intros a Hle; rewrite Hcons; specialize (Hpos a); cbn;
      rewrite (proj2 (Z.leb_le a now)) by lia; rewrite ?andb_true_r; try lia.
    destruct He as [Hc He]. specialize (He a Hle). destruct (maxReqs <? rl_count e + 1) eqn:R; cbn; lia.
  - pose proof (allow_other now ip ip' cl (not_eq_sym Hne)) as Ho. rewrite Ha in Ho. cbn in Ho.
    rewrite Ho. destruct (cl !! ip) as [e|]; [|done]. destruct He as [Hc He]. split; [done|]. intros a Hle. specialize (He a Hle).
    rewrite let_through_cons. cbn. rewrite (bool_decide_eq_false_2 (ip' = ip)), andb_false_r by done. done.
Qed.

(** ** Runs *)
Definition chronological (evs : list rl_event) : Prop := StronglySorted Z.le (event_time <$> evs).
Definition by_then (evs : list rl_event) (now : Time) : Prop := Forall (fun e => event_time e <= now) evs.

Lemma rl_run_snoc evs e : rl_run (evs ++ [e]) = rl_step e (rl_run evs).
Proof using. unfold rl_run. by rewrite foldl_app. Qed.

Lemma chronological_snoc evs e : chronological (evs ++ [e]) -> chronological evs /\ by_then evs (event_time e).
Proof using.
  unfold chronological, by_then. rewrite fmap_app. induction evs as [|e' evs IH]; cbn; [by split; constructor|].
  intros H. apply StronglySorted_inv in H as [H Hall]. destruct (IH H) as [H1 H2].
  apply Forall_app in Hall as [Hl Hx]. split; [by constructor|].
  constructor; [|done]. by apply Forall_inv in Hx.
Qed.

Lemma run_fits ip t evs now :
  chronological evs -> by_then evs now ->
  fits_windows t ((rl_run evs).1 !! ip) (let_through ip (within t) (rl_run evs).2) now.
Proof using.
  revert now. induction evs as [|e evs IH] using rev_ind; intros now Hc Hb.
  - unfold fits_windows, K. change (rl_run []) with ((∅, []) : clients * list decision).
    cbn [fst snd]. rewrite lookup_empty. change (let_through ip (within t) []) with 0.
    split; [|split; [|right]]; lia.
  - apply chronological_snoc in Hc as [Hc He]. apply Forall_app in Hb as [_ Hb%Forall_inv].
    specialize (IH (event_time e) Hc He). rewrite rl_run_snoc. apply (fits_later _ _ _ (event_time e)); [done|].
    destruct (rl_run evs) as [cl h]. destruct e as [now' ip'|now']; cbn in *.
    + pose proof (fits_arrival ip t cl h now' ip' now' (Z.le_refl _) IH) as Hf.
      by destruct (allow _ _ _ _ _).
    + rewrite purge_lookup. by apply (fits_sweep t _ _ _ now').
Qed.

(** The current window of an entry began before now. *)
Lemma run_started ip evs now e :
  chronological evs -> by_then evs now -> (rl_run evs).1 !! ip = Some e -> rl_resetAt e - window <= now.
Proof using.
  revert now e. induction evs as [|ev evs IH] using rev_ind; intros now e Hc Hb; [done|].
  apply chronological_snoc in Hc as [Hc He]. apply Forall_app in Hb as [_ Hb%Forall_inv].
  rewrite rl_run_snoc. specialize (fun e => IH (event_time ev) e Hc He).
  destruct (rl_run evs) as [cl h]. destruct ev as [now' ip'|now']; cbn in *.
  - destruct (decide (ip' = ip)) as [->|Hne].
    + unfold allow. destruct (cl !! ip) as [e0|]; [destruct (rl_resetAt e0 <? now')|];
        cbn; rewrite lookup_insert_eq; intros [= <-]; cbn; [|specialize (IH e0 eq_refl)|]; lia.
    + pose proof (allow_other now' ip ip' cl (not_eq_sym Hne)) as Ho.
      destruct (allow _ _ _ _ _). cbn in *. rewrite Ho. intros Hlk. specialize (IH e Hlk). lia.
  - rewrite purge_lookup. destruct (cl !! ip) as [e0|]; [|done].
    destruct (rl_resetAt e0 <? now'); [done|]. intros [= ->]. specialize (IH e eq_refl). lia.
Qed.

Lemma run_earned ip evs :
  chronological evs -> earned ip ((rl_run evs).1 !! ip) (rl_run evs).2.
Proof using.
  induction evs as [|e evs IH] using rev_ind; intros Hc; [done|].
  apply chronological_snoc in Hc as [Hc He]. specialize (IH Hc). rewrite rl_run_snoc.
  pose proof (fun e' => run_started ip evs (event_time e) e' Hc He) as Hst.
  destruct (rl_run evs) as [cl h]. destruct e as [now ip'|now]; cbn in *.
  - pose proof (earned_arrival ip cl h now ip' Hst IH) as Hr. by destruct (allow _ _ _ _ _).
  - rewrite purge_lookup. destruct (cl !! ip) as [e|]; [|done]. by destruct (_ <? _).
Qed.

(** In any interval of the length of the window at most twice the allowance gets
    through; and a request is refused only when the allowance was used up by
    requests of the same address within the last window. *)
Lemma run_bounds ip t evs :
  chronological evs -> let_through ip (within t) (rl_run evs).2 <= 2 * Z.max 1 maxReqs.
Proof using.
  intros Hc. destruct evs as [|e evs _] using rev_ind.
  - change (let_through ip (within t) (rl_run []).2) with 0. lia.
  - pose proof (chronological_snoc _ _ Hc) as [_ He].
    destruct (run_fits ip t (evs ++ [e]) (event_time e) Hc) as [Hn _]; [|exact Hn].
    apply Forall_app. split; [done|by repeat constructor].
Qed.

Lemma refusal_earned ip evs now :
  chronological (evs ++ [Arrives now ip]) -> (allow maxReqs window now ip (rl_run evs).1).1 = false ->
  maxReqs <= let_through ip (fun at_ => now - window <=? at_) (rl_run evs).2.
Proof using.
  intros Hc Hno. apply chronological_snoc in Hc as [Hc _].
  pose proof (run_earned ip evs Hc) as He. unfold allow in Hno.
  destruct ((rl_run evs).1 !! ip) as [e|]; [|done]. cbn in He.
  destruct (rl_resetAt e <? now) eqn:R; [done|]. cbn in Hno. bool_prop.
  destruct He as [Hc1 He]. specialize (He (now - window)). lia.
Qed.
End limiter.
