(* ===== verification/Router.v ===== *)
(** * Routing

    The patterns of [http.ServeMux] (method, literal segments, [{name}]
    segments), the route table of [internal/delivery/http/router.go], and the
    chain of middleware that [newApplication] builds around it. *)
From S2P Require Import Prelude Utf8 Domain GoStd Json Http Handlers Middleware.
Open Scope Z_scope.

(** ** ServeMux *)
Inductive segment : Type :=
| Lit (s : string)
| Wild (name : string).

#[export] Instance segment_eq_dec : EqDecision segment.
Proof. solve_decision. Defined.

Record pattern : Type := mkPattern { pt_Method : string; pt_Path : list segment }.

(** A wildcard takes any one segment, but not a trailing slash (nor a segment
    that is an escaped slash). *)
Fixpoint match_path (ps : list segment) (path : list string) : option (list (string * string)) :=
  match ps, path with
  | [], [] => Some []
  | Lit s :: ps, x :: path => if bool_decide (x = s) then match_path ps path else None
  | Wild n :: ps, x :: path =>
    if bool_decide (x = "") || bool_decide (x = "/") then None
    else match match_path ps path with Some vs => Some ((n, x) :: vs) | None => None end
  | _, _ => None
  end.

(** [GET] also serves [HEAD]. *)
Definition match_method (pattern_method method : string) : bool :=
  bool_decide (method = pattern_method) || (bool_decide (pattern_method = "GET") && bool_decide (method = "HEAD")).

(** Every path [q] matches is matched by [p] too. *)
Fixpoint covers (p q : list segment) : bool :=
  match p, q with
  | [], [] => true
  | Lit s :: p, Lit t :: q => bool_decide (s = t) && covers p q
  | Wild _ :: p, Lit t :: q => negb (bool_decide (t = "")) && negb (bool_decide (t = "/")) && covers p q
  | Wild _ :: p, Wild _ :: q => covers p q
  | _, _ => false
  end.

Section mux.
Context {H : Type}.

Definition mux : Type := list (pattern * H).

(** The most specific of the routes that match the path and the method. *)
Fixpoint best (method : string) (path : list string) (routes : mux) :
    option (pattern * H * list (string * string)) :=
  match routes with
  | [] => None
  | (p, h) :: rest =>
    match match_method (pt_Method p) method, match_path (pt_Path p) path with
    | true, Some vs =>
      match best method path rest with
      | Some (p', h', vs') => if covers (pt_Path p) (pt_Path p') then Some (p', h', vs') else Some (p, h, vs)
      | None => Some (p, h, vs)
      end
    | _, _ => best method path rest
    end
  end.

(** The methods some route takes at the path: the [Allow] header of a 405. *)
Definition allowed (path : list string) (routes : mux) : list string :=
  omap (fun '(p, _) => match match_path (pt_Path p) path with Some _ => Some (pt_Method p) | None => None end) routes.
End mux.
Arguments mux : clear implicits.

Definition with_values (vs : list (string * string)) (r : request) : request :=
  mkRequest (rq_Method r) (rq_Path r) (rq_Query r) (rq_Header r) (rq_RemoteAddr r) (rq_Body r)
    vs (rq_UserID r) (rq_RequestID r).

Definition not_found : response := mkResponse 404 [("Content-Type", "text/plain; charset=utf-8")] (Text "404 page not found").
Definition method_not_allowed : response :=
  mkResponse 405 [("Content-Type", "text/plain; charset=utf-8")] (Text "Method Not Allowed").

Definition mux_ServeHTTP {M : Type -> Type} `{MRet M} (routes : mux (Handler M)) : Handler M := fun w r =>
  match best (rq_Method r) (rq_Path r) routes with
  | Some (_, h, vs) => h w (with_values vs r)
  | None => mret (Ok (match allowed (rq_Path r) routes with [] => not_found | _ => method_not_allowed end))
  end.

(** ** router.go *)
Inductive route : Set :=
| R_Health | R_WS
| R_Register | R_Login | R_RefreshToken
| R_GetMe | R_UpdateMe | R_Search | R_GetProfile
| R_GetUserChats | R_CreateDirect | R_CreateGroup | R_GetChat | R_UpdateGroup
| R_GetMembers | R_AddMember | R_LeaveChat | R_RemoveMember | R_ChangeMemberRole
| R_Send | R_GetHistory | R_MarkRead | R_Edit | R_Delete | R_AddReaction | R_RemoveReaction.

#[export] Instance route_eq_dec : EqDecision route.
Proof. solve_decision. Defined.

Definition api (l : list segment) : list segment := Lit "api" :: Lit "v1" :: l.
Definition chat_path (l : list segment) : list segment := api (Lit "chats" :: Wild "chat_id" :: l).
Definition message_path (l : list segment) : list segment := chat_path (Lit "messages" :: Wild "msg_id" :: l).

(** The patterns, in the order they are registered. *)
Definition ws_table : mux route := [ (mkPattern "GET" [Lit "ws"], R_WS) ].
Definition api_table : mux route := [
  (mkPattern "GET" [Lit "health"], R_Health);
  (mkPattern "POST" (api [Lit "auth"; Lit "register"]), R_Register);
  (mkPattern "POST" (api [Lit "auth"; Lit "login"]), R_Login);
  (mkPattern "POST" (api [Lit "auth"; Lit "refresh"]), R_RefreshToken);
  (mkPattern "GET" (api [Lit "users"; Lit "me"]), R_GetMe);
  (mkPattern "PUT" (api [Lit "users"; Lit "me"]), R_UpdateMe);
  (mkPattern "GET" (api [Lit "users"; Lit "search"]), R_Search);
  (mkPattern "GET" (api [Lit "users"; Wild "user_id"]), R_GetProfile);
  (mkPattern "GET" (api [Lit "chats"]), R_GetUserChats);
  (mkPattern "POST" (api [Lit "chats"; Lit "direct"]), R_CreateDirect);
  (mkPattern "POST" (api [Lit "chats"; Lit "group"]), R_CreateGroup);
  (mkPattern "GET" (chat_path []), R_GetChat);
  (mkPattern "PUT" (chat_path []), R_UpdateGroup);
  (mkPattern "GET" (chat_path [Lit "members"]), R_GetMembers);
  (mkPattern "POST" (chat_path [Lit "members"]), R_AddMember);
  (mkPattern "DELETE" (chat_path [Lit "members"; Lit "me"]), R_LeaveChat);
  (mkPattern "DELETE" (chat_path [Lit "members"; Wild "user_id"]), R_RemoveMember);
  (mkPattern "PATCH" (chat_path [Lit "members"; Wild "user_id"; Lit "role"]), R_ChangeMemberRole);
  (mkPattern "POST" (chat_path [Lit "messages"]), R_Send);
  (mkPattern "GET" (chat_path [Lit "messages"]), R_GetHistory);
  (mkPattern "POST" (chat_path [Lit "read"]), R_MarkRead);
  (mkPattern "PUT" (message_path []), R_Edit);
  (mkPattern "DELETE" (message_path []), R_Delete);
  (mkPattern "POST" (message_path [Lit "reactions"]), R_AddReaction);
  (mkPattern "DELETE" (message_path [Lit "reactions"]), R_RemoveReaction) ].

(** Who may call a route. *)
Inductive access : Set := Open_ | RateLimited | Protected.
Definition route_access (x : route) : access :=
  match x with
  | R_Health => Open_
  | R_Register | R_Login | R_RefreshToken => RateLimited
  | _ => Protected
  end.

(** ** The server *)

(** [websocket.Upgrader.Upgrade] of gorilla: hijacks the connection, or writes an
    error response. *)
Class Upgrader : Type := Upgrade : (request -> bool) -> ResponseWriter -> request -> result response unit.
(** Without an [http.Hijacker], or when [CheckOrigin] refuses, it answers an error. *)
Class UpgraderLaws (U : Upgrader) : Prop := {
  upgrade_needs_hijacker check w r : is_Hijacker w = false -> exists rs, Upgrade check w r = Err rs /\ 400 <= rs_Status rs;
  upgrade_checks_origin check w r : check r = false -> exists rs, Upgrade check w r = Err rs /\ 400 <= rs_Status rs }.

(** The [CheckOrigin] of [ws.NewHandler]: the exact texts of a set, or anything when
    it is empty. *)
Definition checkOrigin (allowedOrigins : list string) (r : request) : bool :=
  bool_decide (allowedOrigins = []) || bool_decide (header r "Origin" ∈ allowedOrigins).

Section server.
Context {M : Type -> Type} `{MRet M, MBind M, UP : UUIDParse, UG : Upgrader}.
Context `{UU : user_UseCase M, CU : chat_UseCase M, MU : message_UseCase M}.
Context (health : M (res unit)) (allowedOrigins : list string).

Definition h_Health : Handler M := fun _ _ =>
  let* s := health in
  mret (Ok (match s with
            | Ok _ => JSON 200 (Ok (JObj [("status", JStr "ok")]))
            | Err e => JSON 503 (Ok (JObj [("error", marshal_string (error_text e));
                                          ("status", JStr "unhealthy")])) end)).

(** The start of [ws.Handler.ServeHTTP], up to the connected client: the user
    and the chats the client subscribes to. *)
Definition ws_accept (w : ResponseWriter) (r : request) : M (result panic (response + uuid * list uuid)) :=
  let? userID := UserID r in
  let* previews := uc_GetUserChats userID in
  match previews with
  | Err (GoPanic t) => mret (Err (mkPanic t []))
  | Err _ => mret (Ok (inl (mkResponse 500 [("Content-Type", "text/plain; charset=utf-8")] (Text "internal server error"))))
  | Ok previews =>
    match Upgrade (checkOrigin allowedOrigins) w r with
    | Err rs => mret (Ok (inl rs))
    | Ok _ =>
      let* _ := uc_SetOnline userID in
      mret (Ok (inr (userID, (fun p => chat_ID (pv_Chat p)) <$> previews)))
    end
  end.

Definition h_WS : Handler M := fun w r =>
  let? c := ws_accept w r in
  mret (Ok (match c with inl rs => rs | inr _ => mkResponse 101 [] NoBody end)).

Definition route_handler (x : route) : Handler M :=
  match x with
  | R_Health => h_Health | R_WS => h_WS
  | R_Register => h_Register | R_Login => h_Login | R_RefreshToken => h_RefreshToken
  | R_GetMe => h_GetMe | R_UpdateMe => h_UpdateMe | R_Search => h_Search | R_GetProfile => h_GetProfile
  | R_GetUserChats => h_GetUserChats | R_CreateDirect => h_CreateDirect | R_CreateGroup => h_CreateGroup
  | R_GetChat => h_GetChat | R_UpdateGroup => h_UpdateGroup
  | R_GetMembers => h_GetMembers | R_AddMember => h_AddMember | R_LeaveChat => h_LeaveChat
  | R_RemoveMember => h_RemoveMember | R_ChangeMemberRole => h_ChangeMemberRole
  | R_Send => h_Send | R_GetHistory => h_GetHistory | R_MarkRead => h_MarkRead
  | R_Edit => h_Edit | R_Delete => h_Delete | R_AddReaction => h_AddReaction | R_RemoveReaction => h_RemoveReaction
  end.
End server.

(** [delivery.Config], as far as requests depend on it. *)
Record http_Config : Type := mkHttpConfig {
  hc_HTTP : bool; hc_WS : bool;
  hc_AllowedOrigins : list string;
  hc_MaxBodyBytes : Z;
  hc_MaxRequests : Z;
  hc_Window : Duration }.

Section application.
Context {W : Type} `{CK : Clock (ST W), US : UUIDSource (ST W), UT : UUIDText, UP : UUIDParse, UG : Upgrader}.
Context `{UU : user_UseCase (ST W), CU : chat_UseCase (ST W), MU : message_UseCase (ST W)}.
Context `{TV : TokenValidator (ST W)} (health : ST W (res unit)) (cfg : http_Config).

Definition handler_of : route -> Handler (ST W) := route_handler health (hc_AllowedOrigins cfg).

(** [h], [authRoute] and the health route of [SetupRoutes]. *)
Definition guarded (x : route) : Handler (ST (clients * W)) :=
  match route_access x with
  | Open_ => beside (handler_of x)
  | RateLimited => RateLimit (hc_MaxRequests cfg) (hc_Window cfg) (handler_of x)
  | Protected => beside (Auth (handler_of x))
  end.

Definition table : mux route :=
  (if hc_WS cfg then ws_table else []) ++ (if hc_HTTP cfg then api_table else []).

Definition SetupRoutes : mux (Handler (ST (clients * W))) :=
  (fun '(p, x) => (p, guarded x)) <$> table.

#[local] Instance beside_uuid : UUIDSource (ST (clients * W)) :=
  fun '(cl, s) => let '(u, s') := uuid_New s in (u, (cl, s')).

(** The handler of the server: the mux in the chain of [newApplication]. *)
Definition httpHandler : Handler (ST (clients * W)) :=
  Recovery (RequestLogger (RequestID (CORS (hc_AllowedOrigins cfg)
    (LimitBody (hc_MaxBodyBytes cfg) (mux_ServeHTTP SetupRoutes))))).
End application.
