(* ===== verification/Routing.v ===== *)
(** * Routing is unambiguous

    [ServeMux] serves the most specific of the patterns that match.  Any two
    patterns of the route table that match a common request are comparable, so
    the order of registration does not matter. *)
From S2P Require Import Prelude Domain Http Handlers Middleware Router.

(** ** The order on patterns *)
Lemma covers_trans p q r : covers p q = true -> covers q r = true -> covers p r = true.
Proof.
  revert q r. induction p as [|[s|n] p IH]; intros [|[t|m] q] [|[u|k] r]; cbn; try done;
    rewrite ?andb_true_iff, ?bool_decide_eq_true.
  - intros [-> ?] [-> ?]. eauto.
  - intros [? ?] [-> ?]. eauto.
  - intros ? [? ?]. eauto.
  - apply IH.
Qed.

(** Two patterns that may match the same path, and the same method. *)
Fixpoint overlap (p q : list segment) : bool :=
  match p, q with
  | [], [] => true
  | Lit s :: p, Lit t :: q => bool_decide (s = t) && overlap p q
  | _ :: p, _ :: q => overlap p q
  | _, _ => false
  end.

Definition methods_meet (p q : string) : bool :=
  bool_decide (p = q) || (bool_decide (p = "GET") && bool_decide (q = "HEAD"))
    || (bool_decide (q = "GET") && bool_decide (p = "HEAD")).

Lemma overlap_match p q path :
  is_Some (match_path p path) -> is_Some (match_path q path) -> overlap p q = true.
Proof.
  revert q path. induction p as [|[s|n] p IH]; intros [|[t|m] q] [|x path]; cbn; try by intros [? ?] [? ?].
  - destruct (bool_decide (x = s)) eqn:E1, (bool_decide (x = t)) eqn:E2; try (by intros [? ?]); try (by intros _ [? ?]).
    bool_prop. subst. rewrite bool_decide_eq_true_2 by done. apply IH.
  - destruct (bool_decide (x = s)); [|by intros [? ?]]. destruct (_ || _); [by intros _ [? ?]|].
    intros Hp Hq. apply (IH q path Hp). destruct (match_path q path); [by eexists|by destruct Hq].
  - destruct (_ || _); [by intros [? ?]|]. destruct (bool_decide (x = t)); [|by intros _ [? ?]].
    intros Hp Hq. apply (IH q path); [|done]. destruct (match_path p path); [by eexists|by destruct Hp].
  - destruct (_ || _); [by intros [? ?]|]. intros Hp Hq. apply (IH q path).
    + destruct (match_path p path); [by eexists|by destruct Hp].
    + destruct (match_path q path); [by eexists|by destruct Hq].
Qed.

Lemma meet_match p q m : match_method p m = true -> match_method q m = true -> methods_meet p q = true.
Proof.
  unfold match_method, methods_meet. rewrite !orb_true_iff, !andb_true_iff, !bool_decide_eq_true.
  intros [->|[-> ->]] [->|[-> E]]; auto.
Qed.

Section mux.
Context {H : Type}.
Implicit Types routes : mux H.

Definition matching (m : string) (path : list string) (p : pattern) : Prop :=
  match_method (pt_Method p) m = true /\ is_Some (match_path (pt_Path p) path).

(** Patterns that meet are comparable; the same pattern is registered once. *)
Definition unambiguous routes : Prop := forall p h q h',
  (p, h) ∈ routes -> (q, h') ∈ routes ->
  methods_meet (pt_Method p) (pt_Method q) = true -> overlap (pt_Path p) (pt_Path q) = true ->
  (covers (pt_Path p) (pt_Path q) = true \/ covers (pt_Path q) (pt_Path p) = true) /\
  (covers (pt_Path p) (pt_Path q) = true -> covers (pt_Path q) (pt_Path p) = true -> (p, h) = (q, h')).

Lemma best_None m path routes :
  best m path routes = None <-> forall p h, (p, h) ∈ routes -> ~ matching m path p.
Proof using.
  induction routes as [|[p h] routes IH]; cbn; [split; [intros _ p h Hp; by apply not_elem_of_nil in Hp|done]|].
  destruct (match_method (pt_Method p) m) eqn:Em, (match_path (pt_Path p) path) as [vs|] eqn:Ep.
  1: { split.
    - destruct (best m path routes) as [[[q h'] ws]|]; [destruct (covers _ _)|]; done.
    - intros Hn. exfalso. apply (Hn p h); [by left|]. split; [done|]. by exists vs. }
  all: rewrite IH; split; intros Hn q h' Hq; [apply elem_of_cons in Hq as [[= -> ->]|Hq]; [intros [? [? ?]]; congruence|by eapply Hn]
    |apply (Hn q h'); by right].
Qed.

Lemma best_Some m path routes p h vs :
  unambiguous routes -> best m path routes = Some (p, h, vs) ->
  (p, h) ∈ routes /\ match_method (pt_Method p) m = true /\ match_path (pt_Path p) path = Some vs /\
  forall q h', (q, h') ∈ routes -> matching m path q -> (q, h') = (p, h) \/ covers (pt_Path q) (pt_Path p) = true.
Proof using.
  revert p h vs. induction routes as [|[p0 h0] routes IH]; intros p h vs Hu; [done|]. cbn.
  assert (unambiguous routes) as Hu'.
  { intros q1 k1 q2 k2 H1 H2. apply Hu; by right. }
  specialize (fun p h vs => IH p h vs Hu').
  destruct (match_method (pt_Method p0) m) eqn:Em, (match_path (pt_Path p0) path) as [vs0|] eqn:Ep.
  2-4: intros Hb; destruct (IH _ _ _ Hb) as (Hin & H1 & H2 & Hall);
    (split; [by right|]; split; [done|]; split; [done|]); intros q h' [[= -> ->]|Hq]%elem_of_cons [Hqm [ws Hqp]];
    [congruence|apply Hall; [done|split; [done|by exists ws]]].
  destruct (best m path routes) as [[[p' h'] vs']|] eqn:Hb.
  - destruct (IH _ _ _ eq_refl) as (Hin & H1 & H2 & Hall).
    assert (methods_meet (pt_Method p0) (pt_Method p') = true) as Hmeet by by apply (meet_match _ _ m).
    assert (overlap (pt_Path p0) (pt_Path p') = true) as Hover by (apply (overlap_match _ _ path); by eexists).
    destruct (Hu p0 h0 p' h' ltac:(by left) ltac:(by right) Hmeet Hover) as [Hcmp _].
    destruct (covers (pt_Path p0) (pt_Path p')) eqn:Ec; intros [= <- <- <-].
    + split; [by right|]. split; [done|]. split; [done|]. intros q k [[= -> ->]|Hq]%elem_of_cons Hm; [by right|by apply Hall].
    + destruct Hcmp as [?|Hcmp]; [done|]. split; [by left|]. split; [done|]. split; [done|].
      intros q k [[= -> ->]|Hq]%elem_of_cons Hm; [by left|right].
      destruct (Hall q k Hq Hm) as [[= -> ->]|Hc]; [done|]. by eapply covers_trans.
  - intros [= <- <- <-]. split; [by left|]. split; [done|]. split; [done|].
    intros q k [[= -> ->]|Hq]%elem_of_cons Hm; [by left|]. exfalso.
    apply (proj1 (best_None m path routes) Hb q k Hq Hm).
Qed.

Lemma best_permutation m path routes routes' :
  unambiguous routes -> routes ≡ₚ routes' -> best m path routes' = best m path routes.
Proof using.
  intros Hu Hp.
  assert (unambiguous routes') as Hu'.
  { intros p h q k H1 H2. rewrite <- Hp in H1, H2. by apply Hu. }
  destruct (best m path routes) as [[[p h] vs]|] eqn:E1, (best m path routes') as [[[q k] ws]|] eqn:E2; [| | |done].
  - apply best_Some in E1 as (Hin1 & M1 & P1 & A1); [|done]. apply best_Some in E2 as (Hin2 & M2 & P2 & A2); [|done].
    rewrite <- Hp in Hin2. setoid_rewrite <- Hp in A2.
    assert ((p, h) = (q, k)) as [= -> ->]; [|congruence].
    destruct (A1 q k Hin2 (conj M2 (ex_intro _ _ P2))) as [?|C1]; [done|].
    destruct (A2 p h Hin1 (conj M1 (ex_intro _ _ P1))) as [?|C2]; [done|].
    apply (Hu p h q k); try done; [by apply (meet_match _ _ m)|apply (overlap_match _ _ path); by eexists].
  - exfalso. apply best_Some in E1 as (Hin1 & M1 & P1 & _); [|done]. rewrite Hp in Hin1.
    apply (proj1 (best_None m path routes') E2 p h Hin1). split; [done|by eexists].
  - exfalso. apply best_Some in E2 as (Hin2 & M2 & P2 & _); [|done]. rewrite <- Hp in Hin2.
    apply (proj1 (best_None m path routes) E1 q k Hin2). split; [done|by eexists].
Qed.
End mux.

(** ** The route table *)
Definition conflict_free (routes : mux route) : bool :=
  forallb (fun '(p, h) => forallb (fun '(q, k) =>
    implb (methods_meet (pt_Method p) (pt_Method q) && overlap (pt_Path p) (pt_Path q))
      ((covers (pt_Path p) (pt_Path q) || covers (pt_Path q) (pt_Path p)) &&
       implb (covers (pt_Path p) (pt_Path q) && covers (pt_Path q) (pt_Path p))
         (bool_decide (h = k) && bool_decide (pt_Method p = pt_Method q) && bool_decide (pt_Path p = pt_Path q))))
    routes) routes.

Lemma conflict_free_unambiguous routes : conflict_free routes = true -> unambiguous routes.
Proof.
  unfold conflict_free. rewrite forallb_forall. intros Hf p h q k Hp%list_elem_of_In Hq%list_elem_of_In Hm Ho.
  specialize (Hf (p, h) Hp). cbn in Hf. rewrite forallb_forall in Hf. specialize (Hf (q, k) Hq). cbn in Hf.
  rewrite Hm, Ho in Hf. cbn in Hf. apply andb_true_iff in Hf as [Hc He]. split; [by apply orb_true_iff|].
  intros C1 C2. rewrite C1, C2 in He. cbn in He. bool_prop. destruct p, q; cbn in *. by subst.
Qed.

Lemma table_unambiguous cfg : unambiguous (table cfg).
Proof.
  apply conflict_free_unambiguous. unfold table. by destruct (hc_WS cfg), (hc_HTTP cfg); vm_compute.
Qed.
