(* ===== verification/Schema.v ===== *)
(** * The database

    The tables of [migrations/{postgres,mysql}/000001_init.up.sql] as finite maps
    from primary keys to rows, nullable columns as options; the clauses the
    queries of the storage packages are built from; the [view] of the tables as
    the abstract [store] of the contracts. *)
From S2P Require Import Prelude Utf8 Domain Store.
Open Scope Z_scope.

(** ** Tables *)
Record user_row : Type := mkUserRow {
  ur_username : string; ur_email : string; ur_password_hash : string;
  ur_avatar_url : option string; ur_bio : option string; ur_status : UserStatus;
  ur_last_seen : Time; ur_created_at : Time; ur_updated_at : Time;
  ur_deleted_at : option Time }.

Record chat_row : Type := mkChatRow {
  cr_type : ChatType; cr_name : option string; cr_avatar_url : option string;
  cr_description : option string; cr_created_by : uuid;
  cr_created_at : Time; cr_updated_at : Time; cr_deleted_at : option Time }.

Record message_row : Type := mkMessageRow {
  mr_chat_id : uuid; mr_sender_id : uuid; mr_content : string; mr_type : MessageType;
  mr_reply_to_id : option uuid; mr_edited_at : option Time; mr_deleted_at : option Time;
  mr_created_at : Time; mr_updated_at : Time }.

Record db : Type := mkDb {
  t_users : gmap uuid user_row;
  t_chats : gmap uuid chat_row;
  t_members : gmap (uuid * uuid) (MemberRole * Time);
  t_messages : gmap uuid message_row;
  t_receipts : gmap (uuid * uuid) Time;
  t_reactions : gmap (uuid * uuid * string) Time }.

Definition empty_db : db := mkDb ∅ ∅ ∅ ∅ ∅ ∅.

Definition set_users f (d : db) : db :=
  mkDb (f (t_users d)) (t_chats d) (t_members d) (t_messages d) (t_receipts d) (t_reactions d).
Definition set_chats f (d : db) : db :=
  mkDb (t_users d) (f (t_chats d)) (t_members d) (t_messages d) (t_receipts d) (t_reactions d).
Definition set_members f (d : db) : db :=
  mkDb (t_users d) (t_chats d) (f (t_members d)) (t_messages d) (t_receipts d) (t_reactions d).
Definition set_messages f (d : db) : db :=
  mkDb (t_users d) (t_chats d) (t_members d) (f (t_messages d)) (t_receipts d) (t_reactions d).
Definition set_receipts f (d : db) : db :=
  mkDb (t_users d) (t_chats d) (t_members d) (t_messages d) (f (t_receipts d)) (t_reactions d).
Definition set_reactions f (d : db) : db :=
  mkDb (t_users d) (t_chats d) (t_members d) (t_messages d) (t_receipts d) (f (t_reactions d)).

(** [deleted_at IS NULL]. *)
Definition user_live (r : user_row) : bool := bool_decide (ur_deleted_at r = None).
Definition chat_live (r : chat_row) : bool := bool_decide (cr_deleted_at r = None).
Definition message_live (r : message_row) : bool := bool_decide (mr_deleted_at r = None).

(** ** Constraint violations

    A unique index reports the entry it holds already; the entry of a primary key
    is the text of identifiers. *)
Inductive violation : Type :=
| Unique (index entry : string)
| DuplicateKey (key : string)
| ForeignKey (constraint : string)
| CheckFailed (constraint : string)
| TooLong (column : string)
| BadEnum (column : string)
| BadText
| BadLimit.

(** The first constraint that does not hold. *)
Fixpoint violated (l : list (bool * violation)) : option violation :=
  match l with
  | [] => None
  | (true, _) :: l' => violated l'
  | (false, v) :: _ => Some v
  end.

Definition varchar (n : Z) (s : string) : bool := RuneCountInString s <=? n.
Definition nullable (p : string -> bool) (o : option string) : bool :=
  match o with None => true | Some s => p s end.
Definition one_of (l : list string) (s : string) : bool := bool_decide (s ∈ l).

Definition user_status_enum : list string := ["online"; "offline"; "away"].
Definition chat_type_enum : list string := ["direct"; "group"].
Definition member_role_enum : list string := ["owner"; "admin"; "member"].
Definition message_type_enum : list string := ["text"; "image"; "file"].

(** ** Statements

    A statement sees the server's [NOW()], an oracle for the choices SQL leaves
    open (which row [LIMIT 1] keeps), and the tables; it answers or violates a
    constraint, in which case it changes nothing. *)
Definition stmt (A : Type) : Type := Time -> nat -> db -> result violation (A * db).

(** The rows of a table that satisfy a predicate, by primary key. *)
Definition select `{Countable K} {R} (p : K -> R -> bool) (t : gmap K R) : list (K * R) :=
  filter (fun kr => p kr.1 kr.2 = true) (map_to_list t).

(** A unique index over the live users; [same] is the column's equality. *)
Definition taken (same : string -> string -> bool) (column : user_row -> string) (v : string)
    (self : uuid) (t : gmap uuid user_row) : bool :=
  existsb (fun kr => user_live kr.2 && negb (bool_decide (kr.1 = self)) && same (column kr.2) v)
    (map_to_list t).

(** ** Rows and entities *)
Definition user_of_row (id : uuid) (r : user_row) : User :=
  mkUser id (ur_username r) (ur_email r) (ur_password_hash r) (default "" (ur_avatar_url r))
    (default "" (ur_bio r)) (ur_status r) (ur_last_seen r) (ur_created_at r) (ur_updated_at r).

Definition chat_of_row (id : uuid) (r : chat_row) : Chat :=
  mkChat id (cr_type r) (default "" (cr_name r)) (default "" (cr_avatar_url r))
    (default "" (cr_description r)) (cr_created_by r) (cr_created_at r) (cr_updated_at r).

Definition message_of_row (id : uuid) (r : message_row) : Message :=
  mkMessage id (mr_chat_id r) (mr_sender_id r) (mr_content r) (mr_type r) (mr_reply_to_id r)
    (mr_edited_at r) (mr_deleted_at r) (mr_created_at r) (mr_updated_at r) None [] None.

(** ** The view *)
Definition live_users (t : gmap uuid user_row) : gmap uuid User :=
  map_imap (fun id r => if user_live r then Some (user_of_row id r) else None) t.
Definition live_chats (t : gmap uuid chat_row) : gmap uuid Chat :=
  map_imap (fun id r => if chat_live r then Some (chat_of_row id r) else None) t.
Definition all_messages (t : gmap uuid message_row) : gmap uuid Message :=
  map_imap (fun id r => Some (message_of_row id r)) t.

Definition view_db (d : db) : store :=
  mkStore (live_users (t_users d)) (live_chats (t_chats d)) (t_members d)
    (all_messages (t_messages d)) (t_receipts d) (t_reactions d).

(** ** Lemmas *)

Lemma violated_None l : violated l = None <-> Forall (fun c => c.1 = true) l.
Proof.
  induction l as [|[[] m] l IH]; cbn.
  - done.
  - rewrite IH, Forall_cons. tauto.
  - split; [done|]. by inversion_clear 1.
Qed.

Lemma elem_of_select `{Countable K} {R} (p : K -> R -> bool) (t : gmap K R) k r :
  (k, r) ∈ select p t <-> t !! k = Some r /\ p k r = true.
Proof. unfold select. rewrite list_elem_of_filter, elem_of_map_to_list. cbn. tauto. Qed.

Lemma select_nil `{Countable K} {R} (p : K -> R -> bool) (t : gmap K R) :
  select p t = [] <-> forall k r, t !! k = Some r -> p k r = false.
Proof.
  split.
  - intros E k r Hk. apply not_true_iff_false. intros Hp.
    assert ((k, r) ∈ select p t) as Hin by by apply elem_of_select.
    rewrite E in Hin. by apply not_elem_of_nil in Hin.
  - intros Hall. destruct (select p t) as [|[k r] l] eqn:E; [done|].
    assert ((k, r) ∈ select p t) as [Hk Hp]%elem_of_select by (rewrite E; by left).
    by rewrite (Hall k r Hk) in Hp.
Qed.

Lemma NoDup_select `{Countable K} {R} (p : K -> R -> bool) (t : gmap K R) :
  NoDup ((select p t).*1).
Proof.
  unfold select. apply (sublist_NoDup _ ((map_to_list t).*1)); [apply NoDup_fst_map_to_list|].
  apply fmap_sublist, sublist_filter.
Qed.

Lemma taken_false same column v self t :
  taken same column v self t = false <->
  forall k r, t !! k = Some r -> user_live r = true -> k <> self -> same (column r) v = false.
Proof.
  unfold taken. rewrite <- not_true_iff_false, existsb_exists. split.
  - intros H k r Hk Hl Hne. apply not_true_iff_false. intros Hs. apply H. exists (k, r).
    split; [by apply list_elem_of_In, elem_of_map_to_list|]. cbn.
    rewrite Hl, Hs, bool_decide_eq_false_2 by done. done.
  - intros H ([k r] & Hin%list_elem_of_In%elem_of_map_to_list & Hp). cbn in Hp. bool_prop.
    rewrite (H k r) in H1; done.
Qed.

Lemma lookup_live_users t id :
  live_users t !! id = t !! id ≫= fun r => if user_live r then Some (user_of_row id r) else None.
Proof. apply map_lookup_imap. Qed.
Lemma lookup_live_chats t id :
  live_chats t !! id = t !! id ≫= fun r => if chat_live r then Some (chat_of_row id r) else None.
Proof. apply map_lookup_imap. Qed.
Lemma lookup_all_messages t id : all_messages t !! id = message_of_row id <$> t !! id.
Proof. unfold all_messages. rewrite map_lookup_imap. by destruct (t !! id). Qed.

Lemma live_chats_Some t id c :
  live_chats t !! id = Some c <->
  exists r, t !! id = Some r /\ chat_live r = true /\ c = chat_of_row id r.
Proof.
  rewrite lookup_live_chats. destruct (t !! id) as [r|]; cbn.
  - destruct (chat_live r) eqn:E; split; [intros [= <-]; eauto|intros (? & [= ->] & _ & ->); done
      |done|intros (? & [= ->] & ? & _); congruence].
  - split; [done|]. by intros (? & ? & _).
Qed.

Lemma live_users_Some t id u :
  live_users t !! id = Some u <->
  exists r, t !! id = Some r /\ user_live r = true /\ u = user_of_row id r.
Proof.
  rewrite lookup_live_users. destruct (t !! id) as [r|]; cbn.
  - destruct (user_live r) eqn:E; split; [intros [= <-]; eauto|intros (? & [= ->] & _ & ->); done
      |done|intros (? & [= ->] & ? & _); congruence].
  - split; [done|]. by intros (? & ? & _).
Qed.

Lemma live_chats_None t id :
  live_chats t !! id = None <-> forall r, t !! id = Some r -> chat_live r = false.
Proof.
  rewrite lookup_live_chats. destruct (t !! id) as [r|]; cbn.
  - destruct (chat_live r) eqn:E; split; [done|intros H; by rewrite (H r) in E|by intros _ ? [= <-]|done].
  - done.
Qed.

Lemma live_users_None t id :
  live_users t !! id = None <-> forall r, t !! id = Some r -> user_live r = false.
Proof.
  rewrite lookup_live_users. destruct (t !! id) as [r|]; cbn.
  - destruct (user_live r) eqn:E; split; [done|intros H; by rewrite (H r) in E|by intros _ ? [= <-]|done].
  - done.
Qed.

Lemma live_chats_insert t id r :
  chat_live r = true -> live_chats (<[id := r]> t) = <[id := chat_of_row id r]> (live_chats t).
Proof.
  intros Hl. apply map_eq. intros k. rewrite lookup_live_chats, !lookup_insert, lookup_live_chats.
  case_decide; [subst; cbn; by rewrite Hl|done].
Qed.

Lemma live_users_insert t id r :
  user_live r = true -> live_users (<[id := r]> t) = <[id := user_of_row id r]> (live_users t).
Proof.
  intros Hl. apply map_eq. intros k. rewrite lookup_live_users, !lookup_insert, lookup_live_users.
  case_decide; [subst; cbn; by rewrite Hl|done].
Qed.

Lemma all_messages_insert t id r :
  all_messages (<[id := r]> t) = <[id := message_of_row id r]> (all_messages t).
Proof.
  apply map_eq. intros k. rewrite lookup_all_messages, !lookup_insert, lookup_all_messages.
  by case_decide; subst.
Qed.
