(* ===== verification/World.v ===== *)
(** * The world a request runs in

    The database, the in-memory cache, and a tick that advances with every
    effect.  An environment fixes, for every tick, the readings of the two clocks
    (the application's and the database server's), the next random UUID, the
    choices SQL leaves open, and what goes wrong with a statement: nothing, the
    statement is lost, or it is executed and its acknowledgement lost (a
    cancelled context, a broken connection).  Every theorem quantifies over the
    environment, hence over every failure pattern. *)
From S2P Require Import Prelude Domain Json Store Schema.
Open Scope Z_scope.

Inductive fault : Type :=
| NoFault
| Lost (text : string)
| Unacked (text : string).

Class Env : Type := {
  env_now : nat -> Time;
  env_db_now : nat -> Time;
  env_uuid : nat -> uuid;
  env_choice : nat -> nat;
  env_fault : nat -> fault }.

(** A cached value is the text ["0"] or ["1"], or a JSON document. *)
Inductive cval : Type :=
| CText (s : string)
| CJson (j : json).

(** The zero [expiresAt] means no expiry. *)
Record entry : Type := mkEntry { e_value : cval; e_expiresAt : Time }.

Record world : Type := mkWorld {
  w_db : db; w_cache : gmap string entry; w_tick : nat }.

Definition next (w : world) : world := mkWorld (w_db w) (w_cache w) (S (w_tick w)).
Definition put_db (d : db) (w : world) : world := mkWorld d (w_cache w) (w_tick w).
Definition put_cache (c : gmap string entry) (w : world) : world := mkWorld (w_db w) c (w_tick w).

Definition view (w : world) : store := view_db (w_db w).

Section effects.
Context `{Env}.

#[export] Instance world_clock : Clock (ST world) := fun w => (env_now (w_tick w), next w).
#[export] Instance world_uuid : UUIDSource (ST world) := fun w => (env_uuid (w_tick w), next w).

(** One statement in its own transaction; [err] renders a violation as the
    driver's error value. *)
Definition run_stmt {A} (err : violation -> error) (q : stmt A) : ST world (res A) := fun w =>
  let t := w_tick w in
  let ran := q (env_db_now t) (env_choice t) (w_db w) in
  match env_fault t, ran with
  | Lost e, _ => (Err (Other e), next w)
  | _, Err v => (Err (err v), next w)
  | NoFault, Ok (a, d) => (Ok a, next (put_db d w))
  | Unacked e, Ok (_, d) => (Err (Other e), next (put_db d w))
  end.

(** A transaction works on a copy: [tx_begin] takes it, [tx_exec] runs a
    statement on it, [tx_commit] installs it.  Leaving without a commit is the
    deferred [Rollback]. *)
Definition tx_begin : ST world (res db) := fun w =>
  match env_fault (w_tick w) with
  | NoFault => (Ok (w_db w), next w)
  | Lost e | Unacked e => (Err (Other e), next w)
  end.

Definition tx_exec {A} (err : violation -> error) (q : stmt A) (d : db) :
    ST world (res (A * db)) := fun w =>
  let t := w_tick w in
  match env_fault t with
  | NoFault =>
    match q (env_db_now t) (env_choice t) d with
    | Ok r => (Ok r, next w)
    | Err v => (Err (err v), next w)
    end
  | Lost e | Unacked e => (Err (Other e), next w)
  end.

Definition tx_commit (d : db) : ST world (res unit) := fun w =>
  match env_fault (w_tick w) with
  | NoFault => (Ok tt, next (put_db d w))
  | Lost e => (Err (Other e), next w)
  | Unacked e => (Err (Other e), next (put_db d w))
  end.

(** ** The statement rule *)

(** Acknowledgements get lost when the environment says so. *)
#[export] Instance world_loss : Loss := exists t text, env_fault t = Unacked text.

(** [inv] looks at the database only. *)
Definition over_db (wf : db -> Prop) (w : world) : Prop := wf (w_db w).

(** What a repository method does with the answer of its one statement: a pure
    continuation, whose errors leave the view alone. *)
Definition settles {A B} (k : res A -> ST world (res B)) (r : res A) (Q : res B -> Prop) : Prop :=
  forall w, wp (k r) (fun b w' => w' = w /\ Q b) w.

Lemma honours_stmt {A B} (wf : db -> Prop) err (q : stmt A) (k : res A -> ST world (res B))
    (post : store -> B -> store -> Prop) (fail : store -> error -> Prop) :
  (forall now c d, wf d ->
    match q now c d with
    | Ok (a, d') => wf d' /\ settles k (Ok a) (fun b =>
        match b with
        | Ok b => post (view_db d) b (view_db d')
        | Err e => view_db d' = view_db d /\ (fail (view_db d) e \/ infra e) end)
    | Err v => settles k (Err (err v)) (fun b =>
        match b with Ok _ => False | Err e => fail (view_db d) e \/ infra e end)
    end) ->
  (forall t, settles k (Err (Other t)) (fun b =>
     match b with Ok _ => False | Err e => infra e end)) ->
  honours (over_db wf) view (mbind k (run_stmt err q)) post fail.
Proof using.
  intros Hq Hfault w Hw. specialize (Hq (env_db_now (w_tick w)) (env_choice (w_tick w)) _ Hw).
  apply wp_bind. unfold wp at 1. unfold run_stmt.
  destruct (q _ _ _) as [[a d']|v]; destruct (env_fault (w_tick w)) as [|e|e] eqn:Hf; cbn [fst snd].
  - destruct Hq as [Hwf Hk]. eapply wp_mono; [apply Hk|]. intros b w' [-> Hb].
    split; [done|]. destruct b as [b|e]; cbn; [done|].
    destruct Hb as [E [?|?]]; [by left|right]. by split; [|left].
  - eapply wp_mono; [apply Hfault|]. intros [b|e'] w' [-> Hb]; [done|]. split; [done|].
    right. by split; [|left].
  - destruct Hq as [Hwf Hk]. eapply wp_mono; [apply Hfault|]. intros [b|e'] w' [-> Hb]; [done|].
    split; [done|]. right. split; [done|].
    destruct (Hk w) as [_ Hans]. destruct (k (Ok a) w).1 as [b|e2].
    + right. split; [by exists (w_tick w), e|by exists b].
    + left. apply Hans.
  - eapply wp_mono; [apply Hq|]. intros [b|e'] w' [-> Hb]; [done|]. split; [done|].
    destruct Hb; [by left|right]. by split; [|left].
  - eapply wp_mono; [apply Hfault|]. intros [b|e'] w' [-> Hb]; [done|]. split; [done|].
    right. by split; [|left].
  - eapply wp_mono; [apply Hq|]. intros [b|e'] w' [-> Hb]; [done|]. split; [done|].
    destruct Hb; [by left|right]. by split; [|left].
Qed.

(** The clock and the UUID source advance the tick only. *)
Lemma world_env_spec wf : EnvSpec (over_db wf) view.
Proof using. by split. Qed.
End effects.
