(* ===== verification/Sql.v ===== *)
(** * SQL as the two storage packages use it

    What [storage/postgres] and [storage/mysql] share: the clauses of the
    queries, the joins, the orders, scanning, and the driver's calls.  A [Dialect]
    is what differs between the servers: the precision of an instant, the
    equality of texts, the constraints of the tables and the driver's errors. *)
From S2P Require Import Prelude Utf8 Domain Validate Json Store Schema World.
Open Scope Z_scope.

(** ** Dialects *)
Class Dialect : Type := {
  dl_precision :: Precision;
  dl_text_eq :: TextEq;
  dl_latitude :: Latitude;
  driver_error : violation -> error;
  user_ok : user_row -> Prop;
  chat_checks : chat_row -> db -> list (bool * violation);
  member_fk : uuid -> uuid -> db -> list (bool * violation);
  message_checks : message_row -> db -> list (bool * violation) }.

(** The unique indexes over the live users. *)
Definition user_unique `{TextEq} (id : uuid) (r : user_row) (d : db) : list (bool * violation) :=
  [(negb (user_live r && taken same_text ur_email (ur_email r) id (t_users d)),
    Unique "uidx_users_email" (ur_email r));
   (negb (user_live r && taken same_text ur_username (ur_username r) id (t_users d)),
    Unique "uidx_users_username" (ur_username r))].

(** ** Statements *)

Definition texts_of (l : list (option string)) : list string := omap id l.

(** A statement that checks the constraints, then writes and counts rows. *)
Definition checked (l : list (bool * violation)) (n : Z) (d : db) : result violation (Z * db) :=
  match violated l with Some v => Err v | None => Ok (n, d) end.

(** [UPDATE ... WHERE id = $1 AND deleted_at IS NULL]; [count] tells how many rows
    the server reports for a row it rewrote. *)
Definition update_counting {R} (count : R -> R -> Z) (live : R -> bool) (id : uuid) (t : gmap uuid R)
    (params : bool * violation) (f : R -> R) (ok : R -> list (bool * violation))
    (put : R -> db) (d : db) : result violation (Z * db) :=
  match violated [params], t !! id with
  | Some v, _ => Err v
  | None, Some r => if live r then checked (ok (f r)) (count r (f r)) (put (f r)) else Ok (0, d)
  | None, None => Ok (0, d)
  end.

(** ** Execution and scanning *)
Section driver.
Context `{Env, Dialect}.

Definition db_Exec {A} (q : stmt A) : ST world (res A) := run_stmt driver_error q.
Definition db_Query {A} (q : stmt (list A)) : ST world (res (list A)) := run_stmt driver_error q.

(** [QueryRow(...).Scan]: the first row, or [pgx.ErrNoRows]. *)
Definition first_row {A} (rows : res (list A)) : res A :=
  match rows with
  | Ok (r :: _) => Ok r
  | Ok [] => Err ErrNoRows
  | Err e => Err e
  end.
Definition db_QueryRow {A} (q : stmt (list A)) : ST world (res A) :=
  let* rows := db_Query q in mret (first_row rows).

(** [if n == 0 { return err }] on the number of affected rows. *)
Definition affected (s : sentinel) (n : Z) : ST world (res unit) :=
  if n =? 0 then mret (Fail s) else mret (Ok tt).

(** [for _, x := range xs { tx.Exec(...) }] *)
Fixpoint tx_for_each {A} (q : A -> stmt Z) (xs : list A) (tx : db) : ST world (res db) :=
  match xs with
  | [] => mret (Ok tx)
  | x :: rest =>
    let? r := tx_exec driver_error (q x) tx in
    tx_for_each q rest r.2
  end.
End driver.

Definition res_bind {A B} (m : res A) (k : A -> res B) : res B :=
  match m with Ok a => k a | Err e => Err e end.

Fixpoint scan_rows {R A} (scan : R -> res A) (rows : list R) : res (list A) :=
  match rows with
  | [] => Ok []
  | r :: rest => res_bind (scan r) (fun a => res_bind (scan_rows scan rest) (fun l => Ok (a :: l)))
  end.

Definition row_or {A} (s : sentinel) (row : res A) : res A :=
  match row with
  | Ok a => Ok a
  | Err e => if is_NoRows e then Fail s else Err e
  end.

Definition nullableStr (s : string) : option string := if bool_decide (s = "") then None else Some s.

(** ** Clauses *)

(** [LIMIT 1] without an order keeps a row of the server's choosing. *)
Definition limit_1 {A} (choice : nat) (rows : list A) : list A :=
  match rows with
  | [] => []
  | r :: _ => [nth (choice mod length rows) rows r]
  end.

Definition page {A} (limit offset : Z) (l : list A) : list A :=
  take (Z.to_nat limit) (drop (Z.to_nat offset) l).

(** [ILIKE] and the order of text columns depend on the database's collation. *)
Class Collation : Type := {
  ilike : string -> string -> bool;
  text_le : string -> string -> Prop;
  text_le_dec :: RelDecision text_le }.

Section orders.
Context `{Collation}.

Definition username_le (a b : uuid * user_row) : Prop :=
  text_le (ur_username a.2) (ur_username b.2).
#[export] Instance username_le_dec : RelDecision username_le := fun a b => _ : Decision (text_le _ _).

(** One row of [message_reactions mr JOIN users u]. *)
Definition reaction_join : Type := (uuid * uuid * string) * Time * user_row.

(** [ORDER BY mr.created_at, mr.user_id, mr.emoji] *)
Definition reaction_le (a b : reaction_join) : Prop :=
  a.1.2 < b.1.2 \/ (a.1.2 = b.1.2 /\
    ((a.1.1.1.2 < b.1.1.1.2)%N \/ (a.1.1.1.2 = b.1.1.1.2 /\ text_le a.1.1.2 b.1.1.2))).
#[export] Instance reaction_le_dec : RelDecision reaction_le := fun a b =>
  ltac:(unfold reaction_le; pose proof (text_le_dec : RelDecision text_le); apply _).

(** [ORDER BY mr.message_id, mr.created_at, mr.user_id, mr.emoji] *)
Definition reaction_batch_le (a b : reaction_join) : Prop :=
  (a.1.1.1.1 < b.1.1.1.1)%N \/ (a.1.1.1.1 = b.1.1.1.1 /\ reaction_le a b).
#[export] Instance reaction_batch_le_dec : RelDecision reaction_batch_le :=
  fun a b => _ : Decision (_ \/ _).

End orders.

Definition q_reactions (p : uuid -> bool) (d : db) : list reaction_join :=
  omap (fun kr : (uuid * uuid * string) * Time =>
          u ← t_users d !! kr.1.1.2; if user_live u then Some (kr, u) else None)
    (select (fun k _ => p k.1.1) (t_reactions d)).

(** [result[rx.MessageID] = append(result[rx.MessageID], &rx)] *)
Definition append_reaction (t : gmap uuid (list Reaction)) (rx : Reaction) : gmap uuid (list Reaction) :=
  <[rx_MessageID rx := default [] (t !! rx_MessageID rx) ++ [rx]]> t.

(** One row of [chat_members cm JOIN users u]. *)
Definition member_join : Type := (uuid * uuid) * (MemberRole * Time) * user_row.

Definition q_members (p : uuid * uuid -> bool) (d : db) : list member_join :=
  omap (fun kr : (uuid * uuid) * (MemberRole * Time) =>
          u ← t_users d !! kr.1.2; if user_live u then Some (kr, u) else None)
    (select (fun k _ => p k) (t_members d)).

Definition joined_le (a b : member_join) : Prop :=
  a.1.2.2 < b.1.2.2 \/ (a.1.2.2 = b.1.2.2 /\ (a.1.1.2 <= b.1.1.2)%N).
#[export] Instance joined_le_dec : RelDecision joined_le := fun a b => _ : Decision (_ \/ _).

(** [ORDER BY m.created_at DESC, m.id DESC] *)
Definition newer (a b : uuid * message_row) : Prop :=
  mr_created_at b.2 < mr_created_at a.2 \/
  (mr_created_at b.2 = mr_created_at a.2 /\ (b.1 <= a.1)%N).
#[export] Instance newer_dec : RelDecision newer := fun a b => _ : Decision (_ \/ _).

Definition newest_first (l : list (uuid * message_row)) : list (uuid * message_row) :=
  merge_sort newer l.

(** [SELECT DISTINCT ON (m.chat_id) ... ORDER BY m.chat_id, m.created_at DESC, m.id DESC] *)
Definition last_message (c : uuid) (d : db) : option (uuid * message_row) :=
  head (newest_first (select (fun _ m => bool_decide (mr_chat_id m = c) && message_live m)
                        (t_messages d))).

(** [COALESCE((SELECT last_read_at ...), 'epoch')] *)
Definition last_read (c u : uuid) (d : db) : Time := default 0 (t_receipts d !! (c, u)).

Definition unread_messages (c u : uuid) (d : db) : list (uuid * message_row) :=
  select (fun _ m => bool_decide (mr_chat_id m = c) && negb (bool_decide (mr_sender_id m = u)) &&
                     message_live m && (last_read c u d <? mr_created_at m)) (t_messages d).

Record preview_row : Type := mkPreviewRow {
  pr_chat : uuid * chat_row;
  pr_last_id : option uuid; pr_last_sender : option uuid; pr_last_content : option string;
  pr_last_type : option MessageType; pr_last_created : option Time; pr_last_updated : option Time;
  pr_unread : Z }.

Definition preview_of (u : uuid) (d : db) (c : uuid * chat_row) : preview_row :=
  let lm := last_message c.1 d in
  mkPreviewRow c (fst <$> lm) ((fun m => mr_sender_id m.2) <$> lm) ((fun m => mr_content m.2) <$> lm)
    ((fun m => mr_type m.2) <$> lm) ((fun m => mr_created_at m.2) <$> lm)
    ((fun m => mr_updated_at m.2) <$> lm) (Z.of_nat (length (unread_messages c.1 u d))).

(** [ORDER BY COALESCE(lm.created_at, uc.created_at) DESC] *)
Definition activity (r : preview_row) : Time :=
  default (cr_created_at (pr_chat r).2) (pr_last_created r).
Definition more_recent (a b : preview_row) : Prop := activity b <= activity a.
#[export] Instance more_recent_dec : RelDecision more_recent := fun a b => _ : Decision (_ <= _).

Definition scan_preview (row : preview_row) : res ChatPreview :=
  let c := chat_of_row (pr_chat row).1 (pr_chat row).2 in
  let last :=
    match pr_last_id row, pr_last_sender row, pr_last_content row, pr_last_type row with
    | Some id, Some sender, Some content, Some type =>
      Some (mkMessage id (chat_ID c) sender content type None None None
              (default Json.zero_Time (pr_last_created row))
              (default Json.zero_Time (pr_last_updated row)) None [] None)
    | _, _, _, _ => None
    end in
  Ok (mkChatPreview c [] last (pr_unread row)).

(** [(m.created_at, m.id) < ($2, $3)]; the cursor's instant is a parameter, hence
    truncated like a stored one. *)
Definition before `{Precision} (cursor : option MessageCursor) (id : uuid) (m : message_row) : bool :=
  match cursor with
  | None => true
  | Some cur =>
    (mr_created_at m <? stamp (cur_CreatedAt cur)) ||
    ((mr_created_at m =? stamp (cur_CreatedAt cur)) && (id <? cur_ID cur)%N)
  end.

(** ** The queries both packages send *)
Definition q_chat_GetByID (id : uuid) : stmt (list (uuid * chat_row)) := fun _ _ d =>
  Ok (select (fun k r => bool_decide (k = id) && chat_live r) (t_chats d), d).

Definition q_chat_RemoveMember (c u : uuid) : stmt Z := fun _ _ d =>
  if bool_decide (is_Some (t_members d !! (c, u))) then Ok (1, set_members (delete (c, u)) d)
  else Ok (0, d).

Definition q_chat_GetMembers (c : uuid) : stmt (list member_join) := fun _ _ d =>
  Ok (merge_sort joined_le (q_members (fun k => bool_decide (k.1 = c)) d), d).

Definition q_chat_GetDirectChat (u1 u2 : uuid) : stmt (list (uuid * chat_row)) := fun _ choice d =>
  Ok (limit_1 choice (select (fun id r => bool_decide (cr_type r = "direct") && chat_live r &&
         bool_decide (is_Some (t_members d !! (id, u1))) &&
         bool_decide (is_Some (t_members d !! (id, u2)))) (t_chats d)), d).

Definition q_chat_GetUserChats (u : uuid) : stmt (list preview_row) := fun _ _ d =>
  Ok (merge_sort more_recent (preview_of u d <$>
        select (fun c r => chat_live r && bool_decide (is_Some (t_members d !! (c, u)))) (t_chats d)), d).

Definition q_message_GetChatMessages `{Precision} (c : uuid) (cursor : option MessageCursor) (limit : Z) :
    stmt (list ((uuid * message_row) * (uuid * user_row))) := fun _ _ d =>
  if limit <? 0 then Err BadLimit else
  let rows := newest_first (select (fun id m => bool_decide (mr_chat_id m = c) && message_live m &&
                 before cursor id m && bool_decide (is_Some (t_users d !! mr_sender_id m)))
                (t_messages d)) in
  Ok (omap (fun km : uuid * message_row =>
              u ← t_users d !! mr_sender_id km.2; Some (km, (mr_sender_id km.2, u)))
        (take (Z.to_nat limit) rows), d).
