(* ===== verification/SqlWf.v ===== *)
(** * Integrity of the tables

    [db_wf]: every row satisfies the constraints of the schema, in any [Dialect]
    that obeys [DialectLaws].  Every write the repositories issue preserves it;
    and what each write does to the [view]. *)
From S2P Require Import Prelude Utf8 Domain Validate Json Store Schema World Sql.
Open Scope Z_scope.

Definition holds (l : list (bool * violation)) : Prop := violated l = None.

(** ** What the proofs ask of a dialect *)

(** A write that deletes nothing from the referenced tables. *)
Definition grows (d d' : db) : Prop :=
  (forall k, is_Some (t_users d !! k) -> is_Some (t_users d' !! k)) /\
  (forall k, is_Some (t_chats d !! k) -> is_Some (t_chats d' !! k)) /\
  (forall k, is_Some (t_messages d !! k) -> is_Some (t_messages d' !! k)).

Class DialectLaws (D : Dialect) : Prop := {
  law_infra v : infra (driver_error v);
  law_rows v : is_NoRows (driver_error v) = false;
  law_same_sym a b : same_text a b = same_text b a;
  law_same_trans a b c : same_text a b = true -> same_text b c = true -> same_text a c = true;
  law_stamp t : stamp (stamp t) = stamp t;
  law_chat_grow r d d' : grows d d' -> holds (chat_checks r d) -> holds (chat_checks r d');
  law_member_grow c u d d' : grows d d' -> holds (member_fk c u d) -> holds (member_fk c u d');
  law_message_grow r d d' : grows d d' -> holds (message_checks r d) -> holds (message_checks r d');
  law_member_chat c u d : holds (member_fk c u d) -> is_Some (t_chats d !! c);
  law_message_sender r d : holds (message_checks r d) -> is_Some (t_users d !! mr_sender_id r);
  law_user_text id r : user_ok r -> user_text (user_of_row id r);
  law_chat_text id r d : holds (chat_checks r d) -> chat_text (chat_of_row id r) }.

#[export] Hint Resolve law_infra : vibe.

Lemma same_join `{D : Dialect, DL : !DialectLaws D} a b n :
  same_text a n = true -> same_text b n = true -> same_text a b = true.
Proof. intros Ha Hb. rewrite law_same_sym in Hb. by eapply law_same_trans. Qed.

Lemma enum_ok l s : Forall text_ok l -> one_of l s = true -> text_ok s.
Proof. intros Hl Hs. unfold one_of in Hs. bool_prop. rewrite Forall_forall in Hl. auto. Qed.

Lemma elem_of_texts l s : Some s ∈ l -> s ∈ texts_of l.
Proof. intros Hs. apply list_elem_of_omap. by exists (Some s). Qed.

Lemma holds_cons c l : holds (c :: l) <-> c.1 = true /\ holds l.
Proof. unfold holds. rewrite !violated_None, Forall_cons. done. Qed.
Lemma holds_nil : holds [] <-> True.
Proof. done. Qed.
Lemma holds_app l1 l2 : holds (l1 ++ l2) <-> holds l1 /\ holds l2.
Proof. unfold holds. rewrite !violated_None, Forall_app. done. Qed.

Lemma bool_decide_mono (P Q : Prop) `{Decision P, Decision Q} :
  (P -> Q) -> bool_decide P = true -> bool_decide Q = true.
Proof. rewrite !bool_decide_eq_true. auto. Qed.

(** Peel a list of checks, proving each again from the one before. *)
Ltac regrow H :=
  revert H; rewrite ?holds_cons; cbn [fst]; intros H; decompose [and] H; clear H;
  repeat split; try done;
  try (match goal with Hb : bool_decide _ = true |- bool_decide _ = true =>
         revert Hb; apply bool_decide_mono; solve [auto] end).

Definition unique_live `{TextEq} (column : user_row -> string) (t : gmap uuid user_row) : Prop :=
  forall i j r s, t !! i = Some r -> t !! j = Some s ->
    user_live r = true -> user_live s = true -> same_text (column r) (column s) = true -> i = j.

Record db_wf `{Dialect} (d : db) : Prop := {
  wf_user : map_Forall (fun _ r => user_ok r) (t_users d);
  wf_email : unique_live ur_email (t_users d);
  wf_username : unique_live ur_username (t_users d);
  wf_chat : map_Forall (fun _ r => holds (chat_checks r d)) (t_chats d);
  wf_member : map_Forall (fun k m => one_of member_role_enum m.1 = true /\
                                     holds (member_fk k.1 k.2 d)) (t_members d);
  wf_message : map_Forall (fun _ r => holds (message_checks r d)) (t_messages d);
  wf_stamped : map_Forall (fun _ r => stamp (mr_created_at r) = mr_created_at r) (t_messages d);
  wf_reaction : map_Forall (fun k _ => is_Some (t_messages d !! k.1.1) /\
                                       is_Some (t_users d !! k.1.2)) (t_reactions d) }.

Lemma empty_db_wf `{Dialect} : db_wf empty_db.
Proof. by split; try (intros ? ? ?); intros. Qed.

(** ** Foreign keys survive the growth of the referenced tables *)
Lemma is_Some_insert `{Countable K} {A} (t : gmap K A) i a k :
  is_Some (t !! k) -> is_Some (<[i := a]> t !! k).
Proof. intros ?. rewrite lookup_insert_is_Some'. by right. Qed.

Lemma grows_users id r d : grows d (set_users <[id := r]> d).
Proof. split; [intros k; apply is_Some_insert|done]. Qed.
Lemma grows_chats id r d : grows d (set_chats <[id := r]> d).
Proof. repeat split; [done|intros k; apply is_Some_insert|done]. Qed.
Lemma grows_messages id r d : grows d (set_messages <[id := r]> d).
Proof. repeat split; [done|done|intros k; apply is_Some_insert]. Qed.
Lemma grows_members f d : grows d (set_members f d).
Proof. by repeat split. Qed.
Lemma grows_receipts f d : grows d (set_receipts f d).
Proof. by repeat split. Qed.
Lemma grows_reactions f d : grows d (set_reactions f d).
Proof. by repeat split. Qed.
#[export] Hint Resolve grows_users grows_chats grows_messages grows_members grows_receipts
  grows_reactions : vibe.

(** What a growing write leaves to check: the rows of the written table. *)
Lemma wf_grow `{D : Dialect, !DialectLaws D} d d' :
  db_wf d -> grows d d' ->
  map_Forall (fun _ r => user_ok r) (t_users d') ->
  unique_live ur_email (t_users d') -> unique_live ur_username (t_users d') ->
  (forall k r, t_chats d' !! k = Some r -> t_chats d !! k = Some r \/ holds (chat_checks r d)) ->
  (forall k m, t_members d' !! k = Some m -> t_members d !! k = Some m \/
     (one_of member_role_enum m.1 = true /\ holds (member_fk k.1 k.2 d))) ->
  (forall k r, t_messages d' !! k = Some r -> t_messages d !! k = Some r \/ holds (message_checks r d)) ->
  map_Forall (fun _ r => stamp (mr_created_at r) = mr_created_at r) (t_messages d') ->
  (forall k m, t_reactions d' !! k = Some m -> is_Some (t_reactions d !! k) \/
     (is_Some (t_messages d !! k.1.1) /\ is_Some (t_users d !! k.1.2))) ->
  db_wf d'.
Proof.
  intros Hd Hg Hu He Hn Hc Hm Hmsg Hst Hrx. pose proof Hg as (Hgu & _ & Hgm).
  split; [done..| | | |done|].
  - intros k r Hk. eapply law_chat_grow; [done|].
    destruct (Hc k r Hk) as [Ho|]; [exact (wf_chat d Hd k r Ho)|done].
  - intros k m Hk. destruct (Hm k m Hk) as [Ho|[? ?]].
    + destruct (wf_member d Hd k m Ho). split; [done|]. by eapply law_member_grow.
    + split; [done|]. by eapply law_member_grow.
  - intros k r Hk. eapply law_message_grow; [done|].
    destruct (Hmsg k r Hk) as [Ho|]; [exact (wf_message d Hd k r Ho)|done].
  - intros k m Hk. destruct (Hrx k m Hk) as [[x Ho]|[? ?]].
    + destruct (wf_reaction d Hd k x Ho). split; auto.
    + split; auto.
Qed.

Section writes.
Context `{D : Dialect, DL : !DialectLaws D} (d : db) (Hd : db_wf d).

Ltac by_grow := eapply wf_grow; [exact Hd|auto with vibe| | | | | | | |];
  try apply Hd; cbn; try by (intros; left; eauto).

Lemma wf_set_chat id r : holds (chat_checks r d) -> db_wf (set_chats <[id := r]> d).
Proof using Hd DL.
  intros Hr. by_grow. intros k r' [[-> <-]|[_ ?]]%lookup_insert_Some; auto.
Qed.

Lemma wf_set_member c u m :
  one_of member_role_enum m.1 = true -> holds (member_fk c u d) ->
  db_wf (set_members <[(c, u) := m]> d).
Proof using Hd DL.
  intros Hm Hfk. by_grow. intros k m' [[<- <-]|[_ ?]]%lookup_insert_Some; auto.
Qed.

Lemma wf_delete_member k : db_wf (set_members (delete k) d).
Proof using Hd DL. by_grow. intros k' m' [_ ?]%lookup_delete_Some. auto. Qed.

Lemma wf_set_message id r :
  holds (message_checks r d) -> stamp (mr_created_at r) = mr_created_at r ->
  db_wf (set_messages <[id := r]> d).
Proof using Hd DL.
  intros Hr Hst. by_grow.
  - intros k r' [[-> <-]|[_ ?]]%lookup_insert_Some; auto.
  - by apply map_Forall_insert_2, Hd.
Qed.

Lemma wf_set_receipts f : db_wf (set_receipts f d).
Proof using Hd DL. by_grow. Qed.

Lemma wf_set_reaction k t :
  is_Some (t_messages d !! k.1.1) -> is_Some (t_users d !! k.1.2) ->
  db_wf (set_reactions <[k := t]> d).
Proof using Hd DL.
  intros ? ?. by_grow. intros k' m' [[<- <-]|[_ ?]]%lookup_insert_Some; auto.
Qed.

Lemma unique_live_insert column id r :
  unique_live column (t_users d) ->
  (user_live r = true -> taken same_text column (column r) id (t_users d) = false) ->
  unique_live column (<[id := r]> (t_users d)).
Proof using DL.
  intros Hu Ht i j ri rj Hi Hj Li Lj E.
  apply lookup_insert_Some in Hi as [[<- <-]|[Hni Hi]];
    apply lookup_insert_Some in Hj as [[<- <-]|[Hnj Hj]]; [done| | |by eapply Hu].
  - specialize (Ht Li). rewrite taken_false in Ht. specialize (Ht j rj Hj Lj (not_eq_sym Hnj)).
    rewrite law_same_sym in Ht. congruence.
  - specialize (Ht Lj). rewrite taken_false in Ht. specialize (Ht i ri Hi Li (not_eq_sym Hni)). congruence.
Qed.

Lemma wf_set_user id r :
  user_ok r -> holds (user_unique id r d) -> db_wf (set_users <[id := r]> d).
Proof using Hd DL.
  unfold user_unique. intros Hr. rewrite !holds_cons; cbn [fst]. intros (He & Hn & _). by_grow.
  - by apply map_Forall_insert_2, Hd.
  - apply unique_live_insert; [apply Hd|]. intros Hl. rewrite Hl in He. by apply negb_true_iff in He.
  - apply unique_live_insert; [apply Hd|]. intros Hl. rewrite Hl in Hn. by apply negb_true_iff in Hn.
Qed.
End writes.

(** ** Writes through the view *)

Lemma view_set_chat_live id r d :
  chat_live r = true -> view_db (set_chats <[id := r]> d) = with_chats <[id := chat_of_row id r]> (view_db d).
Proof. intros Hl. unfold view_db, with_chats. cbn. by rewrite live_chats_insert. Qed.

Lemma live_chats_insert_dead t id r :
  chat_live r = false -> live_chats (<[id := r]> t) = delete id (live_chats t).
Proof.
  intros Hl. apply map_eq. intros k.
  rewrite lookup_live_chats, lookup_insert, lookup_delete, lookup_live_chats.
  case_decide; [subst; cbn; by rewrite Hl|done].
Qed.

Lemma live_users_insert_dead t id r :
  user_live r = false -> live_users (<[id := r]> t) = delete id (live_users t).
Proof.
  intros Hl. apply map_eq. intros k.
  rewrite lookup_live_users, lookup_insert, lookup_delete, lookup_live_users.
  case_decide; [subst; cbn; by rewrite Hl|done].
Qed.

Lemma view_set_chat_dead id r d :
  chat_live r = false -> view_db (set_chats <[id := r]> d) = with_chats (delete id) (view_db d).
Proof. intros Hl. unfold view_db, with_chats. cbn. by rewrite live_chats_insert_dead. Qed.

Lemma view_set_user_live id r d :
  user_live r = true -> view_db (set_users <[id := r]> d) = with_users <[id := user_of_row id r]> (view_db d).
Proof. intros Hl. unfold view_db, with_users. cbn. by rewrite live_users_insert. Qed.

Lemma view_set_user_dead id r d :
  user_live r = false -> view_db (set_users <[id := r]> d) = with_users (delete id) (view_db d).
Proof. intros Hl. unfold view_db, with_users. cbn. by rewrite live_users_insert_dead. Qed.

Lemma view_set_message id r d :
  view_db (set_messages <[id := r]> d) = with_messages <[id := message_of_row id r]> (view_db d).
Proof. unfold view_db, with_messages. cbn. by rewrite all_messages_insert. Qed.

