(* ===== verification/SqlRules.v ===== *)
(** * Rules for the repository methods

    One rule per way a method uses its statement: the count tested, the count
    ignored, one row, a list of rows. *)
From S2P Require Import Prelude Utf8 Domain Validate Json Store Schema World Sql SqlWf.
Open Scope Z_scope.

(** Answer of a statement, settled by the rest of the method. *)
Ltac settle := let w := fresh "w" in intros w; cbn; try apply wp_ret.

Section spec.
Context `{Env, D : Dialect, DL : !DialectLaws D}.
Abbreviation inv := (over_db db_wf).

(** A query answers from the tables and leaves them alone. *)
Lemma reads_stmt {A B} (q : stmt A) (k : res A -> ST world (res B))
    (Q : store -> B -> Prop) (fail : store -> error -> Prop) :
  (forall now c d, db_wf d ->
    match q now c d with
    | Ok (a, d') => d' = d /\ settles k (Ok a) (fun b =>
        match b with Ok b => Q (view_db d) b | Err e => fail (view_db d) e \/ infra e end)
    | Err v => settles k (Err (driver_error v)) (fun b =>
        match b with Ok _ => False | Err e => fail (view_db d) e \/ infra e end)
    end) ->
  (forall t, settles k (Err (Other t)) (fun b =>
     match b with Ok _ => False | Err e => infra e end)) ->
  reads inv view (mbind k (run_stmt driver_error q)) Q fail.
Proof using.
  intros Hq Ht. apply honours_stmt; [|exact Ht]. intros now c d Hd. specialize (Hq now c d Hd).
  destruct (q now c d) as [[a d']|v]; [|exact Hq]. destruct Hq as [-> Hk]. split; [done|].
  intros w. eapply wp_mono; [apply Hk|]. intros [b|e] w' [-> Hb]; auto.
Qed.

(** [Exec], then the test of the number of affected rows. *)
Lemma affected_stmt (q : stmt Z) s (post : store -> store -> Prop) (fail : store -> Prop) :
  (forall now c d, db_wf d ->
    match q now c d with
    | Ok (n, d') => db_wf d' /\
        if n =? 0 then view_db d' = view_db d /\ fail (view_db d) else post (view_db d) (view_db d')
    | Err _ => True end) ->
  honours inv view (try (db_Exec q) (affected s)) (fun d _ d' => post d d')
    (fun d e => e = Sentinel s /\ fail d).
Proof using DL.
  intros Hq. apply honours_stmt.
  - intros now c d Hd. specialize (Hq now c d Hd). destruct (q now c d) as [[n d']|v].
    + destruct Hq as [Hwf Hn]. split; [done|]. unfold affected. settle.
      destruct (n =? 0); apply wp_ret; (split; [done|]); [|done].
      destruct Hn. split; [done|]. by left.
    + settle. split; [done|]. auto with vibe.
  - intros t. settle. split; [done|]. auto with vibe.
Qed.

(** [Exec] whose count is ignored. *)
Lemma exec_stmt (q : stmt Z) (post : store -> store -> Prop) :
  (forall now c d, db_wf d ->
    match q now c d with
    | Ok (n, d') => db_wf d' /\ post (view_db d) (view_db d')
    | Err _ => True end) ->
  honours inv view (try (db_Exec q) (fun _ => mret (Ok tt))) (fun d _ d' => post d d') never.
Proof using DL.
  intros Hq. apply honours_stmt.
  - intros now c d Hd. specialize (Hq now c d Hd). destruct (q now c d) as [[n d']|v].
    + destruct Hq as [Hwf Hn]. split; [done|]. settle. by split.
    + settle. split; [done|]. auto with vibe.
  - intros t. settle. split; [done|]. auto with vibe.
Qed.

Lemma checked_Ok l n d a d' : checked l n d = Ok (a, d') -> holds l /\ a = n /\ d' = d.
Proof using. unfold checked, holds. destruct (violated l); [done|]. by intros [= <- <-]. Qed.

(** [UPDATE ... WHERE id = $1 AND deleted_at IS NULL]: either the live row is
    rewritten, its constraints checked, or nothing matches. *)
Lemma update_counting_Ok {R} count live id (t : gmap uuid R) params f ok put d a d' :
  update_counting count live id t params f ok put d = Ok (a, d') ->
  params.1 = true /\
  ((exists r, t !! id = Some r /\ live r = true /\ holds (ok (f r)) /\ a = count r (f r) /\ d' = put (f r)) \/
   (a = 0 /\ d' = d /\ forall r, t !! id = Some r -> live r = false)).
Proof using.
  unfold update_counting. destruct params as [[] v]; cbn; [|done]. intros Hrun. split; [done|].
  revert Hrun. destruct (t !! id) as [r|] eqn:Hr.
  - destruct (live r) eqn:Hl.
    + intros (? & ? & ?)%checked_Ok. left. by exists r.
    + intros [= <- <-]. right. repeat split. by intros ? [= <-].
  - intros [= <- <-]. by right.
Qed.

Lemma holds_pkey b v l1 : holds (l1 ++ [(b, v)]) -> holds l1 /\ b = true.
Proof using. rewrite holds_app, holds_cons. cbn. tauto. Qed.

(** ** Reads *)

Lemma row_query {R A} (q : stmt (list R)) (f : res R -> res A) Q fail :
  (forall now c d, db_wf d ->
    match q now c d with
    | Ok (rows, d') => d' = d /\
        match f (first_row (Ok rows)) with
        | Ok a => Q (view_db d) a | Err e => fail (view_db d) e \/ infra e end
    | Err v => True end) ->
  (forall e, infra e -> is_NoRows e = false -> exists e', f (Err e) = Err e' /\ infra e') ->
  reads inv view (let* row := db_QueryRow q in mret (f row)) Q fail.
Proof using DL.
  intros Hq Hf. change (reads inv view (let* rows := db_Query q in mret (f (first_row rows))) Q fail).
  apply reads_stmt.
  - intros now c d Hd. specialize (Hq now c d Hd). destruct (q now c d) as [[rows d']|v].
    + destruct Hq as [-> Hr]. split; [done|]. settle. by split.
    + settle. split; [done|].
      destruct (Hf (driver_error v)) as (e' & -> & ?); [apply law_infra|apply law_rows|]. by right.
  - intros t. settle. split; [done|].
    by destruct (Hf (Other t)) as (e' & -> & ?); [auto with vibe..|].
Qed.

(** The error side of [row_query] for a method that maps [pgx.ErrNoRows]. *)
Lemma row_or_infra {R A} (scan : R -> res A) s e :
  infra e -> is_NoRows e = false -> exists e', row_or s (res_bind (Err e) scan) = Err e' /\ infra e'.
Proof using. intros ? Hn. cbn. rewrite Hn. by exists e. Qed.

Lemma select_key_Some {R} (p : R -> bool) (t : gmap uuid R) id k r l :
  select (fun k r => bool_decide (k = id) && p r) t = (k, r) :: l -> k = id /\ t !! id = Some r /\ p r = true.
Proof using.
  intros E. assert ((k, r) ∈ select (fun k r => bool_decide (k = id) && p r) t) as Hin
    by (rewrite E; by left).
  apply elem_of_select in Hin as [Hk Hp]. bool_prop. by subst.
Qed.

Lemma select_key_None {R} (p : R -> bool) (t : gmap uuid R) id :
  select (fun k r => bool_decide (k = id) && p r) t = [] -> forall r, t !! id = Some r -> p r = false.
Proof using.
  intros E r Hr. rewrite select_nil in E. specialize (E id r Hr).
  by rewrite bool_decide_eq_true_2 in E.
Qed.

Lemma scan_rows_map {R A} (scan : R -> res A) (f : R -> A) rows :
  Forall (fun r => scan r = Ok (f r)) rows -> scan_rows scan rows = Ok (f <$> rows).
Proof using. induction 1 as [|r l Hr _ IH]; [done|]. cbn. by rewrite Hr, IH. Qed.

(** [Query], then the scan of every row. *)
Lemma list_query {R A} (q : stmt (list R)) (scan : R -> res A) (f : R -> A) Q :
  (forall now c d, db_wf d ->
    match q now c d with
    | Ok (rows, d') => d' = d /\ Forall (fun r => scan r = Ok (f r)) rows /\ Q (view_db d) (f <$> rows)
    | Err v => True end) ->
  reads inv view (let? rows := db_Query q in mret (scan_rows scan rows)) Q never.
Proof using DL.
  intros Hq. apply reads_stmt.
  - intros now c d Hd. specialize (Hq now c d Hd). destruct (q now c d) as [[rows d']|v].
    + destruct Hq as (-> & Hs & HQ). split; [done|]. settle. split; [done|].
      by erewrite scan_rows_map.
    + settle. split; [done|]. right. auto with vibe.
  - intros t. settle. split; [done|]. auto with vibe.
Qed.

End spec.
