(* ===== verification/SqlReads.v ===== *)
(** * What the queries answer

    The reading half of the two storage packages: the joins and the lookups, and
    the contract of every method that runs one query and scans its rows, for any
    way of scanning that renders the rows of a well-formed database. *)
From S2P Require Import Prelude Utf8 Domain Validate Json Store Schema World Sql SqlWf SqlRules.
Open Scope Z_scope.

(** ** Rows and lists of rows *)

Lemma limit_1_in {A} c (l : list A) r l' : limit_1 c l = r :: l' -> r ∈ l.
Proof.
  destruct l as [|x l]; [done|]. unfold limit_1.
  assert (nth (c mod length (x :: l)) (x :: l) x ∈ x :: l) as Hin
    by (apply list_elem_of_In, nth_In, Nat.mod_upper_bound; done).
  revert Hin. generalize (nth (c mod length (x :: l)) (x :: l) x). by intros y Hy [= <- _].
Qed.

Lemma limit_1_nil {A} c (l : list A) : limit_1 c l = [] -> l = [].
Proof. by destruct l. Qed.

(** Rows of the member join. *)

Lemma elem_of_q_members p d c u m ur :
  (((c, u), m), ur) ∈ q_members p d <->
  t_members d !! (c, u) = Some m /\ p (c, u) = true /\ t_users d !! u = Some ur /\ user_live ur = true.
Proof.
  unfold q_members. rewrite list_elem_of_omap. split.
  - intros ([[c' u'] m'] & Hin & Hu). apply elem_of_select in Hin as [Hm Hp]. cbn in *.
    destruct (t_users d !! u') as [ur'|] eqn:Hu'; [|done]. cbn in Hu.
    destruct (user_live ur') eqn:Hl; [|done]. by simplify_eq.
  - intros (Hm & Hp & Hu & Hl). exists ((c, u), m). split; [by apply elem_of_select|].
    cbn. by rewrite Hu; cbn; rewrite Hl.
Qed.

Definition member_of_join (r : member_join) : ChatMember :=
  mkChatMember r.1.1.1 r.1.1.2 r.1.2.1 r.1.2.2 (Some (user_of_row r.1.1.2 r.2)).

#[export] Instance joined_le_total : Total joined_le.
Proof. intros a b. unfold joined_le. lia. Qed.
#[export] Instance joined_le_trans : Transitive joined_le.
Proof. intros a b c. unfold joined_le. lia. Qed.

Lemma q_members_users c d :
  NoDup ((fun r : member_join => r.1.1.2) <$> q_members (fun k => bool_decide (k.1 = c)) d).
Proof.
  unfold q_members. set (l := select _ _).
  assert (NoDup l.*1) as Hnd by apply NoDup_select.
  assert (Forall (fun kr => kr.1.1 = c) l) as Hc.
  { apply Forall_forall. intros [[c' u] m] [_ Hp]%elem_of_select. by bool_prop. }
  clearbody l. induction l as [|[[c' u] m] l IH]; [constructor|].
  apply NoDup_cons in Hnd as [Hni Hnd]. apply Forall_cons in Hc as [Hc Hcl]. cbn in Hc. subst c'.
  cbn. destruct (t_users d !! u) as [ur|]; cbn; [|by apply IH].
  destruct (user_live ur); [|by apply IH]. cbn. constructor; [|by apply IH].
  intros (r & Hu & Hin)%list_elem_of_fmap. apply Hni.
  apply list_elem_of_omap in Hin as ([[c2 u2] m2] & Hin & Hr). cbn in Hr.
  destruct (t_users d !! u2) as [ur2|]; [|done]. cbn in Hr. destruct (user_live ur2); [|done].
  injection Hr as <-. cbn in Hu. subst u2. apply list_elem_of_fmap. exists (c2, u, m2).
  rewrite Forall_forall in Hcl. specialize (Hcl _ Hin). cbn in *. by subst.
Qed.

Definition preview_of_row (row : preview_row) : ChatPreview :=
  match scan_preview row with Ok p => p | Err _ => mkChatPreview (chat_of_row Nil (pr_chat row).2) [] None 0 end.

Definition public_of_row (row : uuid * user_row) : User := public (user_of_row row.1 row.2).

Lemma page_sublist {A} limit offset (l : list A) : page limit offset l `sublist_of` l.
Proof. unfold page. etransitivity; [apply sublist_take|apply sublist_drop]. Qed.

Lemma lookup_view_row d id r :
  t_users d !! id = Some r -> user_live r = true ->
  st_users (view_db d) !! id = Some (user_of_row id r).
Proof. intros. apply live_users_Some. eauto. Qed.

Lemma user_says_row d id r :
  t_users d !! id = Some r -> user_live r = true -> user_says (view_db d) id (user_of_row id r).
Proof.
  intros Hr Hl. split; [done|]. exists (user_of_row id r). split; [|done].
  apply live_users_Some. eauto.
Qed.

Lemma NoDup_key_inj {A B} (f : A -> B) (l : list A) x y :
  NoDup (f <$> l) -> x ∈ l -> y ∈ l -> f x = f y -> x = y.
Proof.
  intros Hnd [i Hi]%list_elem_of_lookup [j Hj]%list_elem_of_lookup E.
  assert (i = j) as ->; [|congruence].
  apply (NoDup_lookup (f <$> l) i j (f x)); [done|by rewrite list_lookup_fmap, Hi|].
  by rewrite list_lookup_fmap, Hj, E.
Qed.

(** A list sorted newest first is determined by its elements. *)
Lemma newest_first_unique (l1 l2 : list Message) :
  StronglySorted newer_message l1 -> StronglySorted newer_message l2 ->
  NoDup (msg_ID <$> l1) -> l1 ≡ₚ l2 -> l1 = l2.
Proof.
  intros H1 H2 Hnd Hp. apply (StronglySorted_unique_strong newer_message); [|done..].
  intros x y Hx Hy. rewrite <- Hp in Hy. unfold newer_message. intros Hxy Hyx.
  apply (NoDup_key_inj msg_ID l1); [done..|]. lia.
Qed.

#[export] Instance newer_total : Total newer.
Proof. intros a b. unfold newer. lia. Qed.

#[export] Instance newer_trans : Transitive newer.
Proof. intros a b c. unfold newer. lia. Qed.

Definition to_message (km : uuid * message_row) : Message := message_of_row km.1 km.2.

(** A table's rows as messages: the same selection on both sides of the view. *)
Lemma select_messages (p : uuid -> message_row -> bool) (Q : Message -> Prop)
    `{forall m, Decision (Q m)} t :
  (forall id r, t !! id = Some r -> p id r = true <-> Q (message_of_row id r)) ->
  to_message <$> select p t ≡ₚ filter Q (map_to_list (all_messages t)).*2.
Proof.
  intros Hpq.
  assert (NoDup (msg_ID <$> (map_to_list (all_messages t)).*2)) as Hids.
  { assert (msg_ID <$> (map_to_list (all_messages t)).*2 = (map_to_list (all_messages t)).*1) as ->;
      [|apply NoDup_fst_map_to_list].
    rewrite <- list_fmap_compose. apply list_fmap_ext. intros i [k m] Hi.
    apply list_elem_of_lookup_2, elem_of_map_to_list in Hi. rewrite lookup_all_messages in Hi.
    by destruct (t !! k); simplify_eq/=. }
  apply NoDup_Permutation.
  - apply (NoDup_fmap_1 msg_ID). rewrite <- list_fmap_compose. apply NoDup_select.
  - apply NoDup_filter. by apply (NoDup_fmap_1 msg_ID).
  - intros m. rewrite list_elem_of_filter, !list_elem_of_fmap. split.
    + intros ([id r] & -> & [Hr Hp]%elem_of_select). split; [by apply Hpq|].
      exists (id, message_of_row id r). split; [done|]. apply elem_of_map_to_list.
      by rewrite lookup_all_messages, Hr.
    + intros (HQ & [id m'] & -> & Hin%elem_of_map_to_list). rewrite lookup_all_messages in Hin.
      destruct (t !! id) as [r|] eqn:Hr; simplify_eq/=. exists (id, r). split; [done|].
      apply elem_of_select. split; [done|]. by apply Hpq.
Qed.

Lemma newest_first_messages l :
  StronglySorted newer_message (to_message <$> newest_first l).
Proof.
  apply (StronglySorted_fmap _ newer); [done|]. apply StronglySorted_merge_sort; apply _.
Qed.

Lemma newest_first_ids p t : NoDup (msg_ID <$> (to_message <$> newest_first (select p t))).
Proof.
  rewrite <- list_fmap_compose. change (NoDup (merge_sort newer (select p t)).*1).
  rewrite (NoDup_Permutation_proper _ _ (fmap_Permutation fst _ _ (merge_sort_Permutation newer _))).
  apply NoDup_select.
Qed.

Definition joined_message (row : (uuid * message_row) * (uuid * user_row)) : Message :=
  let m := to_message row.1 in
  mkMessage (msg_ID m) (msg_ChatID m) (msg_SenderID m) (msg_Content m) (msg_Type m) (msg_ReplyToID m)
    (msg_EditedAt m) (msg_DeletedAt m) (msg_CreatedAt m) (msg_UpdatedAt m)
    (Some (public (user_of_row row.2.1 row.2.2))) [] None.

Definition reaction_of_join (row : reaction_join) : Reaction :=
  let '((m, u, e), t, ur) := row in
  mkReaction m u e t (Some (mkUser u (ur_username ur) "" "" (default "" (ur_avatar_url ur)) "" ""
    Json.zero_Time Json.zero_Time Json.zero_Time)).

Lemma elem_of_q_reactions p d k t ur :
  ((k, t), ur) ∈ q_reactions p d <->
  t_reactions d !! k = Some t /\ p k.1.1 = true /\ t_users d !! k.1.2 = Some ur /\ user_live ur = true.
Proof.
  unfold q_reactions. rewrite list_elem_of_omap. split.
  - intros ([k' t'] & Hin & Hu). apply elem_of_select in Hin as [Hm Hp]. cbn in *.
    destruct (t_users d !! k'.1.2) as [ur'|] eqn:Hu'; [|done]. cbn in Hu.
    destruct (user_live ur') eqn:Hl; [|done]. by simplify_eq.
  - intros (Hm & Hp & Hu & Hl). exists (k, t). split; [by apply elem_of_select|].
    cbn. by rewrite Hu; cbn; rewrite Hl.
Qed.

Lemma q_reactions_keys p d : NoDup ((fun r : reaction_join => r.1.1) <$> q_reactions p d).
Proof.
  unfold q_reactions. assert (NoDup (select (fun k (_ : Time) => p k.1.1) (t_reactions d)).*1) as Hnd
    by apply NoDup_select.
  induction (select _ _) as [|[k t] l IH]; [constructor|].
  apply NoDup_cons in Hnd as [Hni Hnd]. cbn. destruct (t_users d !! k.1.2) as [ur|]; cbn; [|by apply IH].
  destruct (user_live ur); [|by apply IH]. cbn. constructor; [|by apply IH].
  intros (r & Hk & Hin)%list_elem_of_fmap. apply Hni.
  apply list_elem_of_omap in Hin as ([k2 t2] & Hin & Hr). cbn in Hr.
  destruct (t_users d !! k2.1.2) as [ur2|]; [|done]. cbn in Hr. destruct (user_live ur2); [|done].
  injection Hr as <-. cbn in Hk. subst k2. apply list_elem_of_fmap. by exists (k, t2).
Qed.

Lemma foldl_append_reaction l t m :
  default [] (foldl append_reaction t l !! m) =
  default [] (t !! m) ++ filter (fun r => rx_MessageID r = m) l.
Proof.
  revert t. induction l as [|r l IH]; intros t; [by rewrite app_nil_r|]. cbn [foldl].
  rewrite IH, filter_cons. unfold append_reaction. rewrite lookup_insert.
  case_decide as E.
  - subst. cbn. by rewrite <- app_assoc.
  - by repeat case_decide.
Qed.

Section spec.
Context `{Env, D : Dialect, DL : !DialectLaws D}.
Abbreviation inv := (over_db db_wf).

(** The rows of the SQL page are the page of the abstract history. *)
Lemma page_rows c cursor limit d :
  db_wf d ->
  to_message <$> take limit (newest_first (select (fun id m => bool_decide (mr_chat_id m = c) &&
      message_live m && before cursor id m && bool_decide (is_Some (t_users d !! mr_sender_id m)))
    (t_messages d))) =
  history_page (view_db d) c cursor limit.
Proof using DL.
  intros Hd. rewrite fmap_take. unfold history_page. f_equal. apply newest_first_unique.
  - apply newest_first_messages.
  - apply StronglySorted_filter. unfold history. apply StronglySorted_merge_sort; apply _.
  - apply newest_first_ids.
  - unfold newest_first. rewrite (merge_sort_Permutation newer). unfold history.
    rewrite merge_sort_Permutation. rewrite list_filter_filter. apply select_messages.
    intros id r Hr. rewrite !andb_true_iff, !bool_decide_eq_true.
    pose proof (law_message_sender r d (wf_message d Hd id r Hr)) as Hs.
    assert (message_live r = true <-> IsDeleted (message_of_row id r) = false) as Hlive.
    { unfold message_live, IsDeleted. cbn. rewrite bool_decide_eq_true, bool_decide_eq_false.
      rewrite <- eq_None_not_Some. done. }
    assert (before cursor id r = true <-> older_than cursor (message_of_row id r)) as Hbefore.
    { destruct cursor as [cur|]; cbn; [|done].
      rewrite orb_true_iff, andb_true_iff, Z.ltb_lt, Z.eqb_eq, N.ltb_lt. done. }
    cbn. tauto.
Qed.

(** ** Users *)
Section users.
Context (scan scan_public : uuid * user_row -> res User).
Context (Hscan : forall id r, user_ok r -> scan (id, r) = Ok (user_of_row id r)).
Context (Hpublic : forall id r, user_ok r -> scan_public (id, r) = Ok (public (user_of_row id r))).

Definition looks_up (q : stmt (list (uuid * user_row))) (p : uuid -> user_row -> bool) : Prop :=
  forall now c d, match q now c d with
    | Ok (rows, d') => d' = d /\ rows = select (fun id r => p id r && user_live r) (t_users d)
    | Err _ => True end.

Lemma user_lookup q p (Q : store -> User -> Prop) (fail : store -> Prop) :
  looks_up q p ->
  (forall d id r, t_users d !! id = Some r -> user_live r = true -> p id r = true ->
     Q (view_db d) (user_of_row id r)) ->
  (forall d, (forall id r, t_users d !! id = Some r -> user_live r = true -> p id r = false) ->
     fail (view_db d)) ->
  reads inv view (let* row := db_QueryRow q in mret (row_or ErrUserNotFound (res_bind row scan))) Q
    (fun d e => e = Sentinel ErrUserNotFound /\ fail d).
Proof using DL Hscan.
  intros Hq HQ Hfail. apply row_query; [|intros; by apply row_or_infra].
  intros now c d Hd. specialize (Hq now c d). destruct (q now c d) as [[rows d']|v]; [|done].
  destruct Hq as [-> ->]. split; [done|]. destruct (select _ _) as [|[id r] l] eqn:E.
  - left. split; [done|]. apply Hfail. intros id r Hr Hl. rewrite select_nil in E. specialize (E id r Hr).
    by rewrite Hl, andb_true_r in E.
  - assert ((id, r) ∈ select (fun id r => p id r && user_live r) (t_users d)) as Hin by (rewrite E; by left).
    apply elem_of_select in Hin as [Hr Hp]. bool_prop. cbn [first_row res_bind].
    rewrite Hscan by exact (wf_user d Hd id r Hr). by apply HQ.
Qed.

Lemma user_by_id q id :
  looks_up q (fun k _ => bool_decide (k = id)) ->
  reads inv view (let* row := db_QueryRow q in mret (row_or ErrUserNotFound (res_bind row scan)))
    (fun d u => user_says d id u) (fun d e => e = Sentinel ErrUserNotFound /\ st_users d !! id = None).
Proof using DL Hscan.
  intros Hq. eapply user_lookup; [exact Hq| |].
  - intros d k r Hr Hl Hp. cbn in Hp. bool_prop. subst k. by apply user_says_row.
  - intros d Hn. apply live_users_None. intros r Hr. apply not_true_iff_false. intros Hl.
    specialize (Hn id r Hr Hl). cbn in Hn. by bool_prop.
Qed.

(** A lookup by a text column. *)
Lemma user_by_text q (column : user_row -> string) (field : User -> string) (text : string) :
  (forall id r, field (user_of_row id r) = column r) ->
  looks_up q (fun _ r => same_text (column r) text) ->
  reads inv view (let* row := db_QueryRow q in mret (row_or ErrUserNotFound (res_bind row scan)))
    (fun d u => st_users d !! user_ID u = Some u /\ same_text (field u) text = true)
    (fun d e => e = Sentinel ErrUserNotFound /\
       forall k u, st_users d !! k = Some u -> same_text (field u) text = false).
Proof using DL Hscan.
  intros Hf Hq. eapply user_lookup; [exact Hq| |].
  - intros d k r Hr Hl Hp. split; [by apply lookup_view_row|]. by rewrite Hf.
  - intros d Hn k u (r & Hr & Hl & ->)%live_users_Some. rewrite Hf. by apply (Hn k r).
Qed.

Lemma search_reads `{Collation} (q : stmt (list (uuid * user_row))) (p : uuid -> user_row -> bool) limit offset :
  (forall k r, p k r = true -> user_live r = true) ->
  (forall now c d, match q now c d with
    | Ok (rows, d') => d' = d /\ rows = page limit offset (merge_sort username_le (select p (t_users d)))
    | Err _ => True end) ->
  reads inv view (let? rows := db_Query q in mret (scan_rows scan_public rows))
    (fun d us => Z.of_nat (length us) <= Z.max 0 limit /\ NoDup (user_ID <$> us) /\
       Forall (fun u => exists u', st_users d !! user_ID u = Some u' /\ u = public u') us) never.
Proof using DL Hpublic.
  intros Hp Hq. apply (list_query _ _ public_of_row). intros now c d Hd. specialize (Hq now c d).
  destruct (q now c d) as [[rows d']|v]; [|done]. destruct Hq as [-> Hrows]. split; [done|].
  assert (forall k r, (k, r) ∈ rows -> t_users d !! k = Some r /\ user_live r = true) as Hin.
  { intros k r Hk. rewrite Hrows in Hk. eapply elem_of_sublist in Hk; [|apply page_sublist].
    rewrite merge_sort_Permutation in Hk. apply elem_of_select in Hk as [Hk Hl]. eauto. }
  split; [|split; [|split]].
  - apply Forall_forall. intros [k r] [Hk _]%Hin. by apply Hpublic, (wf_user d Hd k).
  - rewrite length_fmap, Hrows. unfold page. rewrite length_take. lia.
  - rewrite <- list_fmap_compose. change (NoDup (rows.*1)). rewrite Hrows.
    apply (sublist_NoDup _ ((merge_sort username_le (select p (t_users d))).*1)).
    + rewrite (NoDup_Permutation_proper _ _ (fmap_Permutation fst _ _
        (merge_sort_Permutation username_le _))). apply NoDup_select.
    + apply fmap_sublist, page_sublist.
  - apply Forall_fmap, Forall_forall. intros [k r] [Hk Hl]%Hin. cbn.
    exists (user_of_row k r). split; [by apply lookup_view_row|done].
Qed.
End users.

(** ** Chats *)
Section chats.
Context (scan : uuid * chat_row -> res Chat) (scan_member : member_join -> res ChatMember).
Context (Hscan : forall id r, scan (id, r) = Ok (chat_of_row id r)).
Context (Hmember : forall j, user_ok j.2 -> scan_member j = Ok (member_of_join j)).

Lemma chat_by_id id :
  reads inv view (let* row := db_QueryRow (q_chat_GetByID id) in mret (row_or ErrChatNotFound (res_bind row scan)))
    (fun d c => st_chats d !! id = Some c /\ chat_ID c = id)
    (fun d e => e = Sentinel ErrChatNotFound /\ st_chats d !! id = None).
Proof using DL Hscan.
  apply row_query; [|intros; by apply row_or_infra].
  intros now c d Hd. cbn. split; [done|].
  destruct (select _ _) as [|[k r] l] eqn:E; cbn.
  - left. split; [done|]. apply live_chats_None. by apply (select_key_None chat_live).
  - apply select_key_Some in E as (-> & Hr & Hl). rewrite Hscan. split; [|done]. apply live_chats_Some. eauto.
Qed.

Lemma direct_chat_reads a b :
  reads inv view (let* row := db_QueryRow (q_chat_GetDirectChat a b) in
                  mret (row_or ErrChatNotFound (res_bind row scan)))
    (fun d c => st_chats d !! chat_ID c = Some c /\ chat_Type c = ChatTypeDirect /\
         is_member d (chat_ID c) a /\ is_member d (chat_ID c) b)
    (fun d e => e = Sentinel ErrChatNotFound /\
         forall id c, st_chats d !! id = Some c -> chat_Type c = ChatTypeDirect ->
           ~ (is_member d id a /\ is_member d id b)).
Proof using DL Hscan.
  apply row_query; [|intros; by apply row_or_infra].
  intros now ch d Hd. cbn. split; [done|].
  destruct (limit_1 _ _) as [|[id r] l] eqn:E; cbn.
  - apply limit_1_nil in E. rewrite select_nil in E. left. split; [done|].
    intros id c (r & Hr & Hl & ->)%live_chats_Some Ht [Ha Hb]. specialize (E id r Hr).
    cbn in Ht. rewrite !bool_decide_eq_true_2, Hl in E by done. done.
  - apply limit_1_in, elem_of_select in E as [Hr Hp]. bool_prop. rewrite Hscan.
    repeat split; [|done..]. apply live_chats_Some. eauto.
Qed.

Lemma is_member_reads c u :
  reads inv view (db_QueryRow (fun _ _ d => Ok ([bool_decide (is_Some (t_members d !! (c, u)))], d)))
    (fun d b => b = bool_decide (is_member d c u)) never.
Proof using DL.
  change (reads inv view (let* row := db_QueryRow (fun _ _ d =>
    Ok ([bool_decide (is_Some (t_members d !! (c, u)))], d)) in mret (id row))
    (fun d b => b = bool_decide (is_member d c u)) never).
  apply row_query; [|intros; by eexists]. intros now ch d Hd. cbn. split; [done|].
  by apply bool_decide_ext.
Qed.

Lemma member_reads c u :
  reads inv view
    (let* row := db_QueryRow (fun _ _ d => Ok (q_members (fun k => bool_decide (k = (c, u))) d, d)) in
     mret (row_or ErrNotChatMember (res_bind row scan_member)))
    (fun d m => member_role_says d c u m)
    (fun d e => e = Sentinel ErrNotChatMember /\ (~ is_member d c u \/ st_users d !! u = None)).
Proof using DL Hmember.
  apply row_query; [|intros; by apply row_or_infra].
  intros now ch d Hd. split; [done|].
  destruct (q_members _ d) as [|[[[c' u'] m] ur] l] eqn:E; cbn [first_row res_bind].
  - left. split; [done|]. destruct (decide (is_member (view_db d) c u)) as [[m Hm]|]; [right|by left].
    apply live_users_None. intros ur Hur. apply not_true_iff_false. intros Hl.
    assert ((((c, u), m), ur) ∈ q_members (fun k => bool_decide (k = (c, u))) d) as Hin.
    { apply elem_of_q_members. by rewrite bool_decide_eq_true_2. }
    rewrite E in Hin. by apply not_elem_of_nil in Hin.
  - assert ((((c', u'), m), ur) ∈ q_members (fun k => bool_decide (k = (c, u))) d) as Hin
      by (rewrite E; by left).
    apply elem_of_q_members in Hin as (Hm & Hk & Hu & Hl). bool_prop. simplify_eq.
    rewrite Hmember by exact (wf_user d Hd u ur Hu). repeat split. unfold role_of. cbn. by rewrite Hm.
Qed.

Lemma members_reads c :
  reads inv view (let? rows := db_Query (q_chat_GetMembers c) in mret (scan_rows scan_member rows)) (fun d ms => members_listing d c ms) never.
Proof using DL Hmember.
  apply (list_query _ _ member_of_join). intros now ch d Hd. cbn. split; [done|].
  set (rows := q_members _ d).
  pose proof (merge_sort_Permutation joined_le rows) as Hperm.
  assert (Forall (fun r : member_join => t_members d !! r.1.1 = Some r.1.2 /\ r.1.1.1 = c /\
                    t_users d !! r.1.1.2 = Some r.2) (merge_sort joined_le rows)) as Hrows.
  { rewrite Hperm. apply Forall_forall. intros [[[c' u] m] ur] Hin.
    apply elem_of_q_members in Hin as (? & ? & ? & _). by bool_prop. }
  split; [|repeat split].
  - eapply Forall_impl; [exact Hrows|]. intros [[[c' u] m] ur] (Hm & Hc & Hu).
    apply Hmember. by apply (wf_user d Hd u).
  - rewrite <- list_fmap_compose.
    rewrite (NoDup_Permutation_proper _ _ (fmap_Permutation _ _ _ Hperm)). apply q_members_users.
  - apply (StronglySorted_fmap _ joined_le); [done|]. apply StronglySorted_merge_sort; apply _.
  - apply Forall_fmap. eapply Forall_impl; [exact Hrows|].
    intros [[[c' u] [r t]] ur] (Hm & Hc & Hu). cbn in *. subst c'. done.
  - intros u [m Hm] [us Hus]. apply live_users_Some in Hus as (ur & Hu & Hl & _).
    rewrite <- list_fmap_compose. apply list_elem_of_fmap. exists (((c, u), m), ur). split; [done|].
    rewrite Hperm. apply elem_of_q_members. cbn. by rewrite bool_decide_eq_true_2.
Qed.

Lemma user_chats_reads u :
  reads inv view (let? rows := db_Query (q_chat_GetUserChats u) in mret (scan_rows scan_preview rows))
    (fun d ps => Forall (fun p => is_member d (chat_ID (pv_Chat p)) u /\
                   st_chats d !! chat_ID (pv_Chat p) = Some (pv_Chat p)) ps /\
       (forall c, is_member d c u -> is_Some (st_chats d !! c) ->
                  c ∈ (fun p => chat_ID (pv_Chat p)) <$> ps)) never.
Proof using DL.
  apply (list_query _ _ preview_of_row). intros now ch d Hd. cbn. split; [done|].
  set (rows := preview_of u d <$> _).
  pose proof (merge_sort_Permutation more_recent rows) as Hperm.
  split; [by apply Forall_forall|]. split.
  - rewrite Hperm. apply Forall_fmap, Forall_fmap, Forall_forall.
    intros [c r] [Hc Hp]%elem_of_select. bool_prop. cbn.
    split; [done|]. apply live_chats_Some. eauto.
  - intros c Hm [x Hx]. apply live_chats_Some in Hx as (r & Hr & Hl & _).
    apply list_elem_of_fmap. exists (preview_of_row (preview_of u d (c, r))). split; [done|].
    apply list_elem_of_fmap_2. rewrite Hperm. apply list_elem_of_fmap_2, elem_of_select. split; [done|]. by rewrite Hl, bool_decide_eq_true_2.
Qed.

End chats.

(** ** Messages *)
Section messages.
Context (scan : uuid * message_row -> res Message).
Context (scan_joined : (uuid * message_row) * (uuid * user_row) -> res Message) (scan_rx : reaction_join -> res Reaction).
Context (Hscan : forall row, scan row = Ok (to_message row)).
Context (Hjoined : forall row, user_ok row.2.2 -> scan_joined row = Ok (joined_message row)).
Context (Hrx : forall row, user_ok row.2 -> scan_rx row = Ok (reaction_of_join row)).

Lemma message_by_id id :
  reads inv view (let* row := db_QueryRow (fun _ _ d => Ok (select (fun k _ => bool_decide (k = id)) (t_messages d), d)) in
     mret (row_or ErrMessageNotFound (res_bind row scan)))
    (fun d m => st_messages d !! id = Some m /\ msg_ID m = id)
    (fun d e => e = Sentinel ErrMessageNotFound /\ st_messages d !! id = None).
Proof using DL Hscan.
  apply row_query; [|intros; by apply row_or_infra].
  intros now c d Hd. split; [done|].
  destruct (select _ _) as [|[k r] l] eqn:E; cbn.
  - left. split; [done|]. rewrite select_nil in E. rewrite lookup_all_messages.
    destruct (t_messages d !! id) as [r|] eqn:Hr; [|done]. specialize (E id r Hr). by bool_prop.
  - assert ((k, r) ∈ select (fun k (_ : message_row) => bool_decide (k = id)) (t_messages d)) as Hin
      by (rewrite E; by left).
    apply elem_of_select in Hin as [Hr Hp]. bool_prop. subst k. rewrite Hscan. split; [|done].
    by rewrite lookup_all_messages, Hr.
Qed.

(** The inner join keeps every row: the sender of a message exists. *)
Lemma join_senders d (l : list (uuid * message_row)) :
  db_wf d -> Forall (fun km => is_Some (t_users d !! mr_sender_id km.2)) l ->
  let rows := omap (fun km : uuid * message_row =>
                u ← t_users d !! mr_sender_id km.2; Some (km, (mr_sender_id km.2, u))) l in
  Forall (fun r => scan_joined r = Ok (joined_message r)) rows /\
  bare <$> (joined_message <$> rows) = to_message <$> l.
Proof using Hjoined.
  intros Hd. induction 1 as [|[id r] l [ur Hu] _ [IH1 IH2]]; [done|]. cbn in *. rewrite Hu. cbn.
  split; [|by f_equal]. constructor; [|done]. apply Hjoined. by apply (wf_user d Hd (mr_sender_id r)).
Qed.

Lemma history_reads c cursor limit :
  reads inv view (let? rows := db_Query (q_message_GetChatMessages c cursor limit) in mret (scan_rows scan_joined rows))
    (fun d ms => 0 <= limit /\ bare <$> ms = history_page d c cursor (Z.to_nat limit)) never.
Proof using DL Hjoined.
  apply (list_query _ _ joined_message). intros now ch d Hd. unfold q_message_GetChatMessages.
  destruct (limit <? 0) eqn:Hl; [done|]. cbv zeta. split; [done|].
  rewrite <- page_rows by done. set (l := take _ _).
  destruct (join_senders d l Hd) as [Hs Hb].
  - apply Forall_forall. intros [id r] Hin. unfold l in Hin.
    eapply elem_of_sublist in Hin; [|apply sublist_take]. unfold newest_first in Hin.
    rewrite merge_sort_Permutation in Hin. apply elem_of_select in Hin as [_ Hp]. by bool_prop.
  - split; [done|]. split; [|done]. lia.
Qed.

Lemma unread_reads c u :
  reads inv view (db_QueryRow (fun _ _ d => Ok ([Z.of_nat (length (unread_messages c u d))], d))) (fun d n => n = Z.of_nat (unread_count d c u)) never.
Proof using DL.
  change (reads inv view (let* row := db_QueryRow (fun _ _ d =>
    Ok ([Z.of_nat (length (unread_messages c u d))], d)) in mret (id row))
    (fun d n => n = Z.of_nat (unread_count d c u)) never).
  apply row_query; [|intros; by eexists]. intros now ch d Hd. split; [done|]. cbn [first_row id].
  f_equal. unfold unread_messages, unread_count. rewrite <- (length_fmap to_message).
  apply Permutation_length, select_messages. intros id r Hr. unfold message_live, IsDeleted, last_read.
  rewrite !andb_true_iff, negb_true_iff, !bool_decide_eq_true, !bool_decide_eq_false, Z.ltb_lt.
  cbn. rewrite <- eq_None_not_Some. tauto.
Qed.

(** Rows sorted in any way list the reactions of the selected messages. *)
Lemma reactions_of_rows d p (rows : list reaction_join) :
  db_wf d -> rows ≡ₚ q_reactions p d ->
  Forall (fun r => scan_rx r = Ok (reaction_of_join r)) rows /\
  forall m, p m = true ->
    reactions_listing (view_db d) m
      (filter (fun r => rx_MessageID r = m) (reaction_of_join <$> rows)).
Proof using Hrx.
  intros Hd Hperm. split.
  - apply Forall_forall. intros [[[[m u] e] t] ur] Hin. rewrite Hperm in Hin.
    apply elem_of_q_reactions in Hin as (_ & _ & Hu & _). cbn in Hu.
    by apply Hrx, (wf_user d Hd u).
  - intros m Hp. assert (forall r, r ∈ filter (fun r => rx_MessageID r = m) (reaction_of_join <$> rows) <->
      exists u e t ur, r = reaction_of_join (((m, u, e), t), ur) /\
        t_reactions d !! (m, u, e) = Some t /\ t_users d !! u = Some ur /\ user_live ur = true) as Hin.
    { intros r. rewrite list_elem_of_filter, list_elem_of_fmap. split.
      - intros (Hm & [[[[m' u] e] t] ur] & -> & Hrow). rewrite Hperm in Hrow.
        apply elem_of_q_reactions in Hrow as (Ht & _ & Hu & Hl). cbn in Hm. subst m'. eauto 8.
      - intros (u & e & t & ur & -> & Ht & Hu & Hl). split; [done|].
        exists (((m, u, e), t), ur). split; [done|]. rewrite Hperm. by apply elem_of_q_reactions. }
    split; [|split].
    + assert (NoDup ((fun r => (rx_MessageID r, rx_UserID r, rx_Emoji r)) <$> (reaction_of_join <$> rows))) as Hnd.
      { rewrite <- list_fmap_compose.
        assert ((fun r => (rx_MessageID r, rx_UserID r, rx_Emoji r)) ∘ reaction_of_join <$> rows =
                (fun r : reaction_join => r.1.1) <$> rows) as ->.
        { apply list_fmap_ext. by intros i [[[[m' u] e] t] ur] _. }
        rewrite (NoDup_Permutation_proper _ _ (fmap_Permutation _ _ _ Hperm)). apply q_reactions_keys. }
      clear Hin. induction (reaction_of_join <$> rows) as [|r l IH]; [constructor|].
      rewrite fmap_cons in Hnd. apply NoDup_cons in Hnd as [Hni Hnd]. rewrite filter_cons.
      case_decide as Hm; [|by apply IH]. rewrite fmap_cons. constructor; [|by apply IH].
      intros (r' & Hr & [Hm' Hr']%list_elem_of_filter)%list_elem_of_fmap. apply Hni.
      apply list_elem_of_fmap. exists r'. split; [|done]. congruence.
    + apply Forall_forall. intros r (u & e & t & ur & -> & Ht & _)%Hin. done.
    + intros u e [t Ht] [us Hus]. apply live_users_Some in Hus as (ur & Hu & Hl & _).
      apply list_elem_of_fmap. exists (reaction_of_join (((m, u, e), t), ur)). split; [done|].
      apply Hin. by exists u, e, t, ur.
Qed.

Lemma reactions_reads `{Collation} m :
  reads inv view (let? rows := db_Query (fun _ _ d =>
                 Ok (merge_sort reaction_le (q_reactions (fun k => bool_decide (k = m)) d), d)) in
     mret (scan_rows scan_rx rows)) (fun d rs => reactions_listing d m rs) never.
Proof using DL Hrx.
  apply (list_query _ _ reaction_of_join). intros now c d Hd. split; [done|].
  destruct (reactions_of_rows d (fun k => bool_decide (k = m))
    (merge_sort reaction_le (q_reactions (fun k => bool_decide (k = m)) d)) Hd) as [Hs Hl].
  { apply merge_sort_Permutation. }
  split; [done|]. rewrite <- (filter_every (fun r => rx_MessageID r = m) (_ <$> _)).
  - apply Hl. by apply bool_decide_eq_true_2.
  - apply Forall_fmap, Forall_forall. intros [[[[m' u] e] t] ur] Hin.
    rewrite merge_sort_Permutation in Hin. apply elem_of_q_reactions in Hin as (_ & Hp & _).
    by bool_prop.
Qed.

Lemma batch_reads `{Collation} ids :
  reads inv view (match ids with
     | [] => mret (Ok ∅)
     | _ =>
       let? rows := db_Query (fun _ _ d =>
                      Ok (merge_sort reaction_batch_le (q_reactions (fun k => bool_decide (k ∈ ids)) d), d)) in
       mret (res_bind (scan_rows scan_rx rows) (fun l => Ok (foldl append_reaction ∅ l)))
     end)
    (fun d t => forall m, m ∈ ids -> reactions_listing d m (default [] (t !! m))) never.
Proof using DL Hrx.
  destruct ids as [|i ids].
  { intros w Hw. apply wp_ret. split; [done|]. split; [done|]. by intros m ?%not_elem_of_nil. }
  apply reads_stmt; [|intros t; settle; split; [done|]; cbn; auto with vibe].
  intros now c d Hd. split; [done|]. settle. split; [done|].
  destruct (reactions_of_rows d (fun k => bool_decide (k ∈ i :: ids))
    (merge_sort reaction_batch_le (q_reactions (fun k => bool_decide (k ∈ i :: ids)) d)) Hd) as [Hs Hl].
  { apply merge_sort_Permutation. }
  rewrite (scan_rows_map _ reaction_of_join) by done. cbn [res_bind].
  intros m Hm. rewrite foldl_append_reaction, lookup_empty. apply Hl. by apply bool_decide_eq_true_2.
Qed.

End messages.
End spec.
