(* ===== verification/SqlWrites.v ===== *)
(** * What the writes do

    The writing half of the two storage packages.  A method is a statement and
    the treatment of its answer; each lemma here takes the statement's effect on
    well-formed tables and gives the contract of the method, in any dialect. *)
From S2P Require Import Prelude Utf8 Domain Validate Json Store Schema World Sql SqlWf SqlRules SqlReads.
Open Scope Z_scope.

(** A rewritten row that is not counted is one that did not change. *)
Definition counts `{Latitude} {R} (count : R -> R -> Z) : Prop :=
  forall r r', count r r' = 0 -> lenient /\ r' = r.

(** ** A rewritten row, in the view *)
Lemma view_rewrite_chat d id r r' f :
  t_chats d !! id = Some r -> chat_live r = true -> chat_live r' = true ->
  chat_of_row id r' = f (chat_of_row id r) ->
  view_db (set_chats <[id := r']> d) = with_chats (alter f id) (view_db d).
Proof.
  intros Hr Hl Hl' Hf. rewrite view_set_chat_live by done. unfold with_chats. cbn. f_equal.
  apply map_eq. intros k. rewrite lookup_insert, lookup_alter. case_decide as E; [subst|done].
  rewrite lookup_live_chats, Hr. cbn. rewrite Hl. cbn. by rewrite Hf.
Qed.

Lemma view_rewrite_user d id r r' f :
  t_users d !! id = Some r -> user_live r = true -> user_live r' = true ->
  user_of_row id r' = f (user_of_row id r) ->
  view_db (set_users <[id := r']> d) = with_users (alter f id) (view_db d).
Proof.
  intros Hr Hl Hl' Hf. rewrite view_set_user_live by done. unfold with_users. cbn. f_equal.
  apply map_eq. intros k. rewrite lookup_insert, lookup_alter. case_decide as E; [subst|done].
  rewrite lookup_live_users, Hr. cbn. rewrite Hl. cbn. by rewrite Hf.
Qed.

Lemma view_rewrite_message d id r r' f :
  t_messages d !! id = Some r -> message_of_row id r' = f (message_of_row id r) ->
  view_db (set_messages <[id := r']> d) = with_messages (alter f id) (view_db d).
Proof.
  intros Hr Hf. rewrite view_set_message. unfold with_messages. cbn. f_equal.
  apply map_eq. intros k. rewrite lookup_insert, lookup_alter. case_decide as E; [subst|done].
  rewrite lookup_all_messages, Hr. cbn. by rewrite Hf.
Qed.

(** Writing a row back as it was. *)
Lemma set_chats_same d id r : t_chats d !! id = Some r -> set_chats <[id := r]> d = d.
Proof. intros Hr. unfold set_chats. rewrite insert_id by done. by destruct d. Qed.
Lemma set_users_same d id r : t_users d !! id = Some r -> set_users <[id := r]> d = d.
Proof. intros Hr. unfold set_users. rewrite insert_id by done. by destruct d. Qed.
Lemma set_messages_same d id r : t_messages d !! id = Some r -> set_messages <[id := r]> d = d.
Proof. intros Hr. unfold set_messages. rewrite insert_id by done. by destruct d. Qed.

Lemma live_message_row d id r :
  t_messages d !! id = Some r -> message_live r = true ->
  live_message (view_db d) id (message_of_row id r).
Proof.
  intros Hr Hl. split; [cbn; by rewrite lookup_all_messages, Hr|].
  unfold message_live in Hl. unfold IsDeleted. bool_prop. cbn. by rewrite Hl.
Qed.

Lemma no_live_message d id :
  (forall r, t_messages d !! id = Some r -> message_live r = false) ->
  forall old, ~ live_message (view_db d) id old.
Proof.
  intros Hn old [Ho Hl]. cbn in Ho. rewrite lookup_all_messages in Ho.
  destruct (t_messages d !! id) as [r|] eqn:Hr; simplify_eq/=. specialize (Hn r eq_refl).
  unfold message_live in Hn. unfold IsDeleted in Hl. bool_prop. cbn in Hl.
  by apply eq_None_not_Some in Hl.
Qed.

Section spec.
Context `{Env, D : Dialect, DL : !DialectLaws D}.
Abbreviation inv := (over_db db_wf).

(** ** Chats *)
Lemma chat_update_honours c (q : stmt Z) count params f :
  counts count ->
  (forall r, chat_live (f r) = chat_live r) ->
  (forall r, chat_of_row (chat_ID c) (f r) = patch_chat (stamp_chat c) (chat_of_row (chat_ID c) r)) ->
  (forall now ch d, q now ch d = update_counting count chat_live (chat_ID c) (t_chats d) params f
     (fun r => chat_checks r d) (fun r => set_chats <[chat_ID c := r]> d) d) ->
  honours inv view (let? n := db_Exec q in affected ErrChatNotFound n)
    (fun d _ d' => is_Some (st_chats d !! chat_ID c) /\ d' = update_chat c d) (chat_missing c).
Proof using DL.
  intros Hcount Hlive Hf Hq.
  apply (affected_stmt _ _ (fun d d' => is_Some (st_chats d !! chat_ID c) /\ d' = update_chat c d)
    (fun d => st_chats d !! chat_ID c = None \/ (lenient /\ update_chat c d = d))). intros now ch d Hd.
  destruct (q now ch d) as [[n d']|v] eqn:E; [|done]. rewrite Hq in E.
  apply update_counting_Ok in E as [_ [(r & Hr & Hl & Hok & -> & ->)|(-> & -> & Hn)]].
  - assert (view_db (set_chats <[chat_ID c := f r]> d) = update_chat c (view_db d)) as Hv.
    { apply (view_rewrite_chat d _ r); [done|done|by rewrite Hlive|apply Hf]. }
    split; [by apply wf_set_chat|]. destruct (count r (f r) =? 0) eqn:E0.
    + apply Z.eqb_eq, Hcount in E0 as [Hlen Hsame]. rewrite Hsame, set_chats_same in Hv |- * by done.
      split; [done|]. by right.
    + split; [|done]. eexists. apply live_chats_Some. eauto.
  - split; [done|]. split; [done|]. left. by apply live_chats_None.
Qed.

Lemma chat_delete_honours id (q : stmt Z) count f :
  (forall now r, chat_live (f now r) = false) ->
  (forall now ch d, q now ch d = update_counting count chat_live id (t_chats d) (true, BadText) (f now)
     (fun r => chat_checks r d) (fun r => set_chats <[id := r]> d) d) ->
  honours inv view (let? _ := db_Exec q in mret (Ok tt)) (fun d _ d' => d' = with_chats (delete id) d) never.
Proof using DL.
  intros Hdead Hq. apply (exec_stmt _ (fun d d' => d' = with_chats (delete id) d)). intros now ch d Hd.
  destruct (q now ch d) as [[n d']|v] eqn:E; [|done]. rewrite Hq in E.
  apply update_counting_Ok in E as [_ [(r & Hr & Hl & Hok & -> & ->)|(-> & -> & Hn)]].
  - split; [by apply wf_set_chat|]. by apply view_set_chat_dead.
  - split; [done|]. unfold with_chats, view_db. cbn. rewrite delete_id; [done|]. by apply live_chats_None.
Qed.

Lemma remove_member_honours c u :
  honours inv view (let? n := db_Exec (q_chat_RemoveMember c u) in affected ErrNotChatMember n)
    (fun d _ d' => is_member d c u /\ d' = remove_member c u d)
    (fun d e => e = Sentinel ErrNotChatMember /\ ~ is_member d c u).
Proof using DL.
  apply (affected_stmt _ _ (fun d d' => is_member d c u /\ d' = remove_member c u d)
    (fun d => ~ is_member d c u)). intros now ch d Hd.
  unfold q_chat_RemoveMember. case_bool_decide; cbn; [|done].
  split; [by apply wf_delete_member|done].
Qed.

(** A role written over another. *)
Lemma set_role_row c u role m d :
  db_wf d -> t_members d !! (c, u) = Some m -> one_of member_role_enum role = true ->
  db_wf (set_members <[(c, u) := (role, m.2)]> d) /\
  view_db (set_members <[(c, u) := (role, m.2)]> d) = set_role c u role (view_db d).
Proof using DL.
  intros Hd Hm Hr. destruct (wf_member d Hd _ _ Hm) as [_ Hfk]. split; [by apply wf_set_member|].
  unfold set_role, with_members, view_db. cbn. f_equal.
  apply map_eq. intros k. rewrite lookup_insert, lookup_alter. case_decide; [subst|done]. by rewrite Hm.
Qed.

(** The transaction: the chat, then its members one by one. *)
Lemma tx_for_each_wp (q : ChatMember -> stmt Z) ms tx w :
  (forall m now ch d n d', db_wf d -> q m now ch d = Ok (n, d') ->
     db_wf d' /\ view_db d' = add_member (stamp_member m) (view_db d)) ->
  db_wf tx ->
  wp (tx_for_each q ms tx) (fun r w' => w_db w' = w_db w /\
    match r with
    | Ok tx' => db_wf tx' /\ view_db tx' = with_members (insert_members (stamp_member <$> ms)) (view_db tx)
    | Err e => infra e end) w.
Proof using DL.
  intros Hq. revert tx w. induction ms as [|m ms IH]; intros tx w Htx; cbn [tx_for_each].
  - by apply wp_ret.
  - apply wp_try. unfold wp at 1, tx_exec.
    destruct (env_fault _); cbn; [|split; auto with vibe..].
    destruct (q m _ _ _) as [[n tx']|v] eqn:E; cbn; [|split; auto with vibe].
    apply Hq in E as [Hwf Hv]; [|done].
    eapply wp_mono; [apply IH; exact Hwf|]. cbn.
    intros [tx2|e] w2 [Hw2 Hr2]; (split; [done|]); [|done].
    destruct Hr2 as [Hwf2 Hv2]. split; [done|]. by rewrite Hv2, Hv.
Qed.

Lemma no_chat_no_member d c u : db_wf d -> t_chats d !! c = None -> t_members d !! (c, u) = None.
Proof using DL.
  intros Hd Hc. destruct (t_members d !! (c, u)) as [m|] eqn:Hm; [|done].
  destruct (wf_member d Hd _ _ Hm) as [_ Hfk]. apply law_member_chat in Hfk as [x Hx]. cbn in Hx. congruence.
Qed.

Lemma create_with_members_honours c ms (qc : stmt Z) (qm : ChatMember -> stmt Z) :
  (forall now ch d n d', db_wf d -> qc now ch d = Ok (n, d') ->
     db_wf d' /\ t_chats d !! chat_ID c = None /\
     view_db d' = with_chats <[chat_ID c := stamp_chat c]> (view_db d)) ->
  (forall m now ch d n d', db_wf d -> qm m now ch d = Ok (n, d') ->
     db_wf d' /\ view_db d' = add_member (stamp_member m) (view_db d)) ->
  honours inv view
    (let? tx := tx_begin in let? r := tx_exec driver_error qc tx in
     let? tx := tx_for_each qm ms r.2 in tx_commit tx)
    (fun d _ d' => fresh_chat d (chat_ID c) /\ d' = create_chat (stamp_chat c) (stamp_member <$> ms) d)
    never.
Proof using DL.
  intros Hqc Hqm w Hw. apply wp_try. unfold wp at 1, tx_begin.
  assert (forall e w', w_db w' = w_db w -> infra e ->
    inv w' /\ answer (fun d _ d' => fresh_chat d (chat_ID c) /\
      d' = create_chat (stamp_chat c) (stamp_member <$> ms) d) never (view w) (Err (A:=unit) e) (view w')) as Habort.
  { intros e w' E ?. split; [by red; rewrite E|]. right. split; [done|]. left.
    unfold view. by rewrite E. }
  destruct (env_fault _); [|apply Habort; auto with vibe..].
  cbn [fst snd]. apply wp_try. unfold wp at 1, tx_exec.
  destruct (env_fault _); cbn [fst snd]; [|apply Habort; auto with vibe..].
  destruct (qc _ _ _) as [[n tx]|v] eqn:E; cbn [fst snd]; [|apply Habort; auto with vibe].
  apply Hqc in E as (Hwf & Hfresh & Hchat); [|done]. apply wp_try.
  eapply wp_mono; [by apply tx_for_each_wp|].
  intros [tx2|e] w1 [Hw1 Htx]; [|by apply Habort]. destruct Htx as [Hwf2 Hview].
  assert (fresh_chat (view w) (chat_ID c) /\
          view_db tx2 = create_chat (stamp_chat c) (stamp_member <$> ms) (view w)) as Hpost.
  { split; [split|].
    - apply live_chats_None. intros r. by rewrite Hfresh.
    - intros u. by apply no_chat_no_member.
    - by rewrite Hview, Hchat. }
  unfold wp, tx_commit. destruct (env_fault _) as [|t|t] eqn:Hcommit; cbn [fst snd].
  - by split.
  - by apply Habort; [|apply infra_other].
  - split; [done|]. right. split; [apply infra_other|]. right. split; [by eexists _, t|by exists tt].
Qed.

(** ** Users *)

(** The unique indexes, seen through the view. *)
Lemma taken_email_free d id e :
  taken same_text ur_email e id (t_users d) = false <-> email_free (view_db d) id e.
Proof using.
  rewrite taken_false. unfold email_free. cbn. setoid_rewrite live_users_Some. split.
  - intros Ht k u (r & Hk & Hl & ->) Hne. by apply (Ht k r).
  - intros Hf k r Hk Hl Hne. apply (Hf k (user_of_row k r)); [|done]. by exists r.
Qed.

Lemma taken_username_free d id n :
  taken same_text ur_username n id (t_users d) = false <-> username_free (view_db d) id n.
Proof using.
  rewrite taken_false. unfold username_free. cbn. setoid_rewrite live_users_Some. split.
  - intros Ht k u (r & Hk & Hl & ->) Hne. by apply (Ht k r).
  - intros Hf k r Hk Hl Hne. apply (Hf k (user_of_row k r)); [|done]. by exists r.
Qed.

Lemma user_unique_free id r d :
  user_live r = true ->
  holds (user_unique id r d) <->
  email_free (view_db d) id (ur_email r) /\ username_free (view_db d) id (ur_username r).
Proof using.
  intros Hl. unfold user_unique. rewrite !holds_cons, holds_nil, Hl. cbn [fst andb].
  rewrite !negb_true_iff, taken_email_free, taken_username_free. tauto.
Qed.

Lemma violated_app l1 l2 :
  violated (l1 ++ l2) = match violated l1 with Some v => Some v | None => violated l2 end.
Proof using. induction l1 as [|[[] v] l1 IH]; [done|apply IH|done]. Qed.

Lemma violated_In l v : violated l = Some v -> (false, v) ∈ l.
Proof using.
  induction l as [|[[] w] l IH]; cbn; [done|right; auto|]. intros [= ->]. by left.
Qed.

Definition plain (v : violation) : Prop :=
  match v with
  | Unique _ _ => False
  | DuplicateKey k => k = "users_pkey" \/ k = "PRIMARY"
  | _ => True
  end.

(** The package's reading of the driver's constraint errors: those of the unique
    indexes are told from the others, which it passes on. *)
Record maps_constraints (map_err : error -> error) (checks : user_row -> list (bool * violation)) : Prop := {
  map_other text : infra (map_err (Other text));
  map_params v : plain v -> infra (map_err (driver_error v));
  map_email e : map_err (driver_error (Unique "uidx_users_email" e)) = Sentinel ErrEmailTaken;
  map_username n : let e := map_err (driver_error (Unique "uidx_users_username" n)) in
    e = Sentinel ErrUsernameTaken \/ (lenient /\ e = Sentinel ErrEmailTaken);
  checks_plain r v : violated (checks r) = Some v -> plain v }.

Section user_writes.
Context (map_err : error -> error) (checks : user_row -> list (bool * violation)).
Context (HM : maps_constraints map_err checks).

Lemma unique_violation u r d v :
  user_live r = true -> ur_email r = user_Email u -> ur_username r = user_Username u ->
  violated (user_unique (user_ID u) r d) = Some v -> name_taken u (view_db d) (map_err (driver_error v)).
Proof using HM.
  intros Hl He0 Hn0. unfold user_unique. rewrite Hl. cbn [andb violated].
  destruct (taken _ ur_email _ _ _) eqn:He; cbn.
  - intros [= <-]. left. split; [apply HM|]. left. rewrite <- He0, <- taken_email_free. congruence.
  - destruct (taken _ ur_username _ _ _) eqn:Hn; cbn; [|done].
    intros [= <-]. assert (~ username_free (view_db d) (user_ID u) (user_Username u)) as Hfree.
    { rewrite <- Hn0, <- taken_username_free. congruence. }
    destruct (map_username _ _ HM (ur_username r)) as [->|[Hlen ->]]; [by right|left]. split; [done|]. by right.
Qed.

Lemma user_create_honours u (q : stmt Z) r pkey :
  plain (DuplicateKey pkey) ->
  user_live r = true -> user_of_row (user_ID u) r = stamp_user u -> (holds (checks r) -> user_ok r) ->
  (forall now ch d, q now ch d = checked (checks r ++ [(bool_decide (t_users d !! user_ID u = None), DuplicateKey pkey)]
     ++ user_unique (user_ID u) r d) 1 (set_users <[user_ID u := r]> d)) ->
  honours inv view (let* x := db_Exec q in mret (match x with Ok _ => Ok tt | Err e => Err (map_err e) end))
    (fun d _ d' => st_users d !! user_ID u = None /\ email_free d (user_ID u) (user_Email u) /\
       username_free d (user_ID u) (user_Username u) /\ d' = with_users <[user_ID u := stamp_user u]> d)
    (name_taken u).
Proof using DL HM.
  intros Hpk Hl Hrow Hok Hq.
  assert (ur_email r = user_Email u /\ ur_username r = user_Username u) as [He0 Hn0].
  { unfold user_of_row, stamp_user in Hrow. by injection Hrow. }
  apply honours_stmt; [|intros t; settle; split; [done|]; cbn; apply HM].
  intros now c d Hd. rewrite Hq. unfold checked. destruct (violated _) as [v|] eqn:Hv.
  - settle. split; [done|]. rewrite !violated_app in Hv.
    destruct (violated (checks r)) as [v'|] eqn:Hc.
    { injection Hv as <-. right. by apply (map_params _ _ HM), (checks_plain _ _ HM r). }
    cbn [violated] in Hv. case_bool_decide.
    + left. by apply (unique_violation u r).
    + injection Hv as <-. right. by apply (map_params _ _ HM).
  - change (holds (checks r ++ [(bool_decide (t_users d !! user_ID u = None), DuplicateKey pkey)]
             ++ user_unique (user_ID u) r d)) in Hv.
    rewrite !holds_app, holds_cons in Hv. destruct Hv as (Hc & [Hid _] & Hu). cbn in Hid. bool_prop.
    split; [apply wf_set_user; auto|]. settle. split; [done|].
    apply user_unique_free in Hu as [He Hn]; [|done]. rewrite He0 in He. rewrite Hn0 in Hn.
    repeat split; [|done..|].
    + apply live_users_None. by rewrite Hid.
    + by rewrite view_set_user_live, Hrow.
Qed.

Lemma user_update_honours u (q : stmt Z) count params f :
  counts count -> plain params.2 ->
  (forall r, user_live (f r) = user_live r /\ (user_ok r -> holds (checks (f r)) -> user_ok (f r))) ->
  (forall r, user_of_row (user_ID u) (f r) = patch_user (stamp_user u) (user_of_row (user_ID u) r)) ->
  (forall now ch d, q now ch d = update_counting count user_live (user_ID u) (t_users d) params f
     (fun r => checks r ++ user_unique (user_ID u) r d) (fun r => set_users <[user_ID u := r]> d) d) ->
  honours inv view
    (let* x := db_Exec q in
     match x with
     | Err e => mret (Err (map_err e))
     | Ok n => if n =? 0 then mret (Fail ErrUserNotFound) else mret (Ok tt)
     end)
    (fun d _ d' => is_Some (st_users d !! user_ID u) /\ email_free d (user_ID u) (user_Email u) /\
       username_free d (user_ID u) (user_Username u) /\ d' = update_user u d)
    (fun d e => user_missing u d e \/ name_taken u d e).
Proof using DL HM.
  intros Hcount Hpe Hf Hrow Hq.
  apply honours_stmt; [|intros t; settle; split; [done|]; cbn; apply HM].
  assert (forall d, st_users (view_db d) !! user_ID u = None ->
    user_missing u (view_db d) (Sentinel ErrUserNotFound)) as Hmiss by (intros d ?; split; [done|by left]).
  intros now c d Hd. rewrite Hq. unfold update_counting.
  destruct params as [[] vp]; cbn [violated snd] in *.
  2:{ settle. split; [done|]. right. by apply (map_params _ _ HM). }
  destruct (t_users d !! user_ID u) as [r|] eqn:Hr.
  2:{ split; [done|]. settle. split; [done|]. split; [done|]. left. left. apply Hmiss.
      apply live_users_None. by rewrite Hr. }
  destruct (user_live r) eqn:Hl.
  2:{ split; [done|]. settle. split; [done|]. split; [done|]. left. left. apply Hmiss.
      apply live_users_None. rewrite Hr. by intros ? [= <-]. }
  destruct (Hf r) as [Hl' Hok]. rewrite Hl in Hl'. specialize (Hrow r).
  assert (ur_email (f r) = user_Email u /\ ur_username (f r) = user_Username u) as [He0 Hn0].
  { unfold user_of_row, patch_user, stamp_user in Hrow. cbn in Hrow. by injection Hrow. }
  unfold checked. rewrite violated_app. destruct (violated (checks (f r))) as [v|] eqn:Hc.
  { settle. split; [done|]. right. by apply (map_params _ _ HM), (checks_plain _ _ HM (f r)). }
  destruct (violated (user_unique _ _ _)) as [v|] eqn:Hv.
  { settle. split; [done|]. left. right. by apply (unique_violation u (f r)). }
  pose proof Hv as Hu. apply user_unique_free in Hu as [He Hn]; [|done]. rewrite He0 in He. rewrite Hn0 in Hn.
  assert (view_db (set_users <[user_ID u := f r]> d) = update_user u (view_db d)) as Hview.
  { by apply (view_rewrite_user d _ r). }
  split; [apply wf_set_user; [done|apply Hok; [exact (wf_user d Hd _ r Hr)|done]|done]|].
  settle. destruct (count r (f r) =? 0) eqn:E0; apply wp_ret; (split; [done|]).
  - apply Z.eqb_eq, Hcount in E0 as [Hlen Hsame]. rewrite Hsame, set_users_same in Hview |- * by done.
    split; [done|]. left. left. split; [done|]. by right.
  - split; [by rewrite (lookup_view_row d _ r)|]. done.
Qed.

Lemma user_status_honours id s t (q : stmt Z) count params (seen : Time -> Time) f :
  (forall now r, user_live (f now r) = user_live r /\ (user_ok r -> holds (checks (f now r)) -> user_ok (f now r))) ->
  (forall now r, user_of_row id (f now r) = set_status s (stamp t) (seen now) (user_of_row id r)) ->
  (forall now ch d, q now ch d = update_counting count user_live id (t_users d) params (f now)
     (fun r => checks r ++ user_unique id r d) (fun r => set_users <[id := r]> d) d) ->
  honours inv view (let? _ := db_Exec q in mret (Ok tt))
    (fun d _ d' => exists now, d' = with_users (alter (set_status s (stamp t) now) id) d) never.
Proof using DL.
  intros Hf Hrow Hq.
  apply (exec_stmt _ (fun d d' => exists now, d' = with_users (alter (set_status s (stamp t) now) id) d)).
  intros now c d Hd. destruct (q now c d) as [[n d']|v] eqn:E; [|done]. rewrite Hq in E.
  apply update_counting_Ok in E as [_ [(r & Hr & Hl & Hok & -> & ->)|(-> & -> & Hn)]].
  - rewrite holds_app in Hok. destruct Hok as [Hrc Hu]. destruct (Hf now r) as [Hl' Hk].
    split; [apply wf_set_user; [done|apply Hk; [exact (wf_user d Hd _ r Hr)|done]|done]|].
    exists (seen now). apply (view_rewrite_user d _ r); [done|done|by rewrite Hl'|done].
  - split; [done|]. exists (seen now). unfold with_users, view_db. cbn. f_equal.
    apply map_eq. intros k. rewrite lookup_alter. case_decide; [subst|done].
    by rewrite (proj2 (live_users_None _ _) Hn).
Qed.

Lemma user_delete_honours id (q : stmt Z) count params f :
  (forall now r, user_live (f now r) = false /\ (user_ok r -> holds (checks (f now r)) -> user_ok (f now r))) ->
  (forall now ch d, q now ch d = update_counting count user_live id (t_users d) params (f now)
     (fun r => checks r) (fun r => set_users <[id := r]> d) d) ->
  honours inv view (let? _ := db_Exec q in mret (Ok tt)) (fun d _ d' => d' = with_users (delete id) d) never.
Proof using DL.
  intros Hf Hq. apply (exec_stmt _ (fun d d' => d' = with_users (delete id) d)).
  intros now c d Hd. destruct (q now c d) as [[n d']|v] eqn:E; [|done]. rewrite Hq in E.
  apply update_counting_Ok in E as [_ [(r & Hr & Hl & Hok & -> & ->)|(-> & -> & Hn)]].
  - destruct (Hf now r) as [Hl' Hk].
    split; [apply wf_set_user; [done|apply Hk; [exact (wf_user d Hd _ r Hr)|done]|]|by apply view_set_user_dead].
    unfold user_unique. by rewrite !holds_cons, Hl'.
  - split; [done|]. unfold with_users, view_db. cbn. rewrite delete_id; [done|]. by apply live_users_None.
Qed.
End user_writes.

(** ** Messages *)
Lemma message_create_honours m (q : stmt Z) r pkey :
  message_of_row (msg_ID m) r = stored_message m ->
  (forall now ch d, q now ch d = checked (message_checks r d
     ++ [(bool_decide (t_messages d !! msg_ID m = None), DuplicateKey pkey)]) 1 (set_messages <[msg_ID m := r]> d)) ->
  honours inv view (let? _ := db_Exec q in mret (Ok tt))
    (fun d _ d' => st_messages d !! msg_ID m = None /\
       d' = with_messages <[msg_ID m := stored_message m]> d) never.
Proof using DL.
  intros Hrow Hq. apply (exec_stmt _ (fun d d' => st_messages d !! msg_ID m = None /\
       d' = with_messages <[msg_ID m := stored_message m]> d)).
  intros now c d Hd. destruct (q now c d) as [[n d']|v] eqn:E; [|done]. rewrite Hq in E.
  apply checked_Ok in E as (Hok & _ & ->). apply holds_pkey in Hok as [Hok Hid]. bool_prop.
  assert (mr_created_at r = stamp (msg_CreatedAt m)) as Hc.
  { unfold message_of_row, stored_message in Hrow. by injection Hrow. }
  split; [apply wf_set_message; [done|done|rewrite Hc; apply law_stamp]|].
  split; [cbn; by rewrite lookup_all_messages, Hid|]. by rewrite view_set_message, Hrow.
Qed.

Lemma message_update_honours m (q : stmt Z) count params f :
  counts count -> (forall r, mr_created_at (f r) = mr_created_at r) ->
  (forall r, message_of_row (msg_ID m) (f r) = patch_message m (message_of_row (msg_ID m) r)) ->
  (forall now ch d, q now ch d = update_counting count message_live (msg_ID m) (t_messages d) params f
     (fun r => message_checks r d) (fun r => set_messages <[msg_ID m := r]> d) d) ->
  honours inv view (let? n := db_Exec q in affected ErrMessageNotFound n)
    (fun d _ d' => (exists old, live_message d (msg_ID m) old) /\ d' = update_message m d) (message_missing m).
Proof using DL.
  intros Hcount Hc Hrow Hq.
  apply (affected_stmt _ _ (fun d d' => (exists old, live_message d (msg_ID m) old) /\ d' = update_message m d)
    (fun d => (forall old, ~ live_message d (msg_ID m) old) \/ (lenient /\ update_message m d = d))).
  intros now c d Hd. destruct (q now c d) as [[n d']|v] eqn:E; [|done]. rewrite Hq in E.
  apply update_counting_Ok in E as [_ [(r & Hr & Hl & Hok & -> & ->)|(-> & -> & Hn)]].
  - assert (view_db (set_messages <[msg_ID m := f r]> d) = update_message m (view_db d)) as Hv
      by (by apply (view_rewrite_message d _ r)).
    split; [apply wf_set_message; [done|done|rewrite Hc; exact (wf_stamped d Hd _ r Hr)]|].
    destruct (count r (f r) =? 0) eqn:E0.
    + apply Z.eqb_eq, Hcount in E0 as [Hlen Hsame]. rewrite Hsame, set_messages_same in Hv |- * by done.
      split; [done|]. by right.
    + split; [|done]. by eexists; apply live_message_row.
  - split; [done|]. split; [done|]. left. by apply no_live_message.
Qed.

Lemma message_delete_honours id (q : stmt Z) count params (at_ : Time -> Time) f :
  (forall r r', count r r' = 0 -> mr_deleted_at r' = mr_deleted_at r) ->
  (forall now r, mr_created_at (f now r) = mr_created_at r /\
     message_of_row id (f now r) = mark_deleted (at_ now) (message_of_row id r)) ->
  (forall now ch d, q now ch d = update_counting count message_live id (t_messages d) params (f now)
     (fun r => message_checks r d) (fun r => set_messages <[id := r]> d) d) ->
  honours inv view (let? n := db_Exec q in affected ErrMessageNotFound n)
    (fun d _ d' => (exists old, live_message d id old) /\
       exists now, d' = with_messages (alter (mark_deleted now) id) d)
    (fun d e => e = Sentinel ErrMessageNotFound /\ forall old, ~ live_message d id old).
Proof using DL.
  intros Hcount Hf Hq.
  apply (affected_stmt _ _ (fun d d' => (exists old, live_message d id old) /\
       exists now, d' = with_messages (alter (mark_deleted now) id) d)
    (fun d => forall old, ~ live_message d id old)).
  intros now c d Hd. destruct (q now c d) as [[n d']|v] eqn:E; [|done]. rewrite Hq in E.
  apply update_counting_Ok in E as [_ [(r & Hr & Hl & Hok & -> & ->)|(-> & -> & Hn)]].
  - destruct (Hf now r) as [Hc Hrow].
    split; [apply wf_set_message; [done|done|rewrite Hc; exact (wf_stamped d Hd _ r Hr)]|].
    destruct (count r (f now r) =? 0) eqn:E0.
    + exfalso. apply Z.eqb_eq, Hcount in E0. unfold message_live in Hl. bool_prop.
      assert (mr_deleted_at (f now r) = Some (at_ now)) as Hdel
        by (unfold message_of_row, mark_deleted in Hrow; by injection Hrow). congruence.
    + split; [by eexists; apply live_message_row|]. exists (at_ now). by apply (view_rewrite_message d _ r).
  - split; [done|]. split; [done|]. by apply no_live_message.
Qed.

Lemma mark_read_honours c u (q : stmt Z) :
  (forall now ch d n d', q now ch d = Ok (n, d') -> d' = set_receipts <[(c, u) := stamp now]> d) ->
  honours inv view (let? _ := db_Exec q in mret (Ok tt))
    (fun d _ d' => exists now, d' = with_receipts <[(c, u) := now]> d) never.
Proof using DL.
  intros Hq. apply (exec_stmt _ (fun d d' => exists now, d' = with_receipts <[(c, u) := now]> d)).
  intros now ch d Hd. destruct (q now ch d) as [[n d']|v] eqn:E; [|done]. apply Hq in E as ->.
  split; [by apply wf_set_receipts|]. by exists (stamp now).
Qed.

Lemma wf_filter_reactions (P : (uuid * uuid * string) * Time -> Prop) `{forall x, Decision (P x)} d :
  db_wf d -> db_wf (set_reactions (filter P) d).
Proof using DL.
  intros Hd. eapply wf_grow; [exact Hd|auto with vibe|apply Hd|apply Hd|apply Hd|..]; cbn;
    try (by intros; left; eauto); [exact (wf_stamped d Hd)|].
  intros k m [Hk _]%map_lookup_filter_Some. left. eauto.
Qed.

Lemma remove_reaction_honours m u e (q : stmt Z) :
  (forall now ch d n d', q now ch d = Ok (n, d') ->
     d' = set_reactions (filter (fun kt => ~ (kt.1.1 = (m, u) /\ same_text kt.1.2 e = true))) d) ->
  honours inv view (let? _ := db_Exec q in mret (Ok tt)) (fun d _ d' => d' = remove_reaction m u e d) never.
Proof using DL.
  intros Hq. apply (exec_stmt _ (fun d d' => d' = remove_reaction m u e d)).
  intros now c d Hd. destruct (q now c d) as [[n d']|v] eqn:E; [|done]. apply Hq in E as ->.
  split; [by apply wf_filter_reactions|done].
Qed.
End spec.
