(* ===== verification/Postgres.v ===== *)
(** * Package storage/postgres

    [internal/infrastructure/storage/postgres/{user,chat,message}.go] over the
    schema of [migrations/postgres].  Each query is the statement its SQL text
    spells; each method runs it and maps the answer as the Go code does.  A
    string the schema's [VARCHAR] bounds refuse is refused whatever its last
    characters are (PostgreSQL would drop surplus trailing blanks). *)
From S2P Require Import Prelude Utf8 Domain Validate Json Store Schema World Sql.
Open Scope Z_scope.

(** ** The server *)

(** [TIMESTAMPTZ] keeps microseconds; the driver truncates. *)
Definition pg_stamp (t : Time) : Time := t / 1000 * 1000.

(** [TEXT] and [VARCHAR] take valid UTF-8 without NUL. *)
Definition pg_text (s : string) : bool :=
  ValidString s && forallb (fun c => negb (Ascii.eqb c "000")) (String.list_ascii_of_string s).
Definition pg_texts (l : list string) : bool * violation := (forallb pg_text l, BadText).

Definition pg_error (v : violation) : error :=
  match v with
  | Unique ix _ | DuplicateKey ix => PgError "23505" ix "duplicate key value violates unique constraint"
  | ForeignKey c => PgError "23503" c "insert or update violates foreign key constraint"
  | CheckFailed c => PgError "23514" c "new row violates check constraint"
  | TooLong _ => PgError "22001" "" "value too long for type character varying"
  | BadEnum _ => PgError "22P02" "" "invalid input value for enum"
  | BadText => PgError "22021" "" "invalid byte sequence for encoding"
  | BadLimit => PgError "2201W" "" "LIMIT must not be negative"
  end.

Definition pg_user_checks (r : user_row) : list (bool * violation) :=
  [pg_texts ([ur_username r; ur_email r; ur_password_hash r] ++ texts_of [ur_avatar_url r; ur_bio r]);
   (one_of user_status_enum (ur_status r), BadEnum "status");
   (varchar 50 (ur_username r), TooLong "username");
   (varchar 255 (ur_email r), TooLong "email");
   (nullable (varchar 500) (ur_bio r), TooLong "bio");
   (InRange (RuneCountInString (ur_username r)) 3 50, CheckFailed "chk_users_username");
   (IsAlphanumeric (ur_username r), CheckFailed "chk_users_username_pattern");
   (0 <? RuneCountInString (ur_email r), CheckFailed "chk_users_email")].

Definition pg_chat_checks (r : chat_row) (d : db) : list (bool * violation) :=
  [pg_texts (texts_of [cr_name r; cr_avatar_url r; cr_description r]);
   (one_of chat_type_enum (cr_type r), BadEnum "type");
   (nullable (varchar 100) (cr_name r), TooLong "name");
   (nullable (varchar 500) (cr_description r), TooLong "description");
   (negb (bool_decide (cr_type r = "group")) || bool_decide (is_Some (cr_name r)),
    CheckFailed "chk_chats_group_name");
   (negb (bool_decide (cr_type r = "direct")) || negb (bool_decide (is_Some (cr_name r))),
    CheckFailed "chk_chats_direct_name");
   (bool_decide (is_Some (t_users d !! cr_created_by r)), ForeignKey "chats_created_by_fkey")].

Definition pg_member_fk (c u : uuid) (d : db) : list (bool * violation) :=
  [(bool_decide (is_Some (t_chats d !! c)), ForeignKey "chat_members_chat_id_fkey");
   (bool_decide (is_Some (t_users d !! u)), ForeignKey "chat_members_user_id_fkey")].

Definition pg_message_checks (r : message_row) (d : db) : list (bool * violation) :=
  [pg_texts [mr_content r];
   (one_of message_type_enum (mr_type r), BadEnum "type");
   (0 <? RuneCountInString (mr_content r), CheckFailed "chk_messages_content");
   (RuneCountInString (mr_content r) <=? 4096, CheckFailed "chk_messages_content_max");
   (bool_decide (is_Some (t_chats d !! mr_chat_id r)), ForeignKey "messages_chat_id_fkey");
   (bool_decide (is_Some (t_users d !! mr_sender_id r)), ForeignKey "messages_sender_id_fkey");
   (match mr_reply_to_id r with
    | None => true | Some m => bool_decide (is_Some (t_messages d !! m)) end,
    ForeignKey "messages_reply_to_id_fkey")].

#[local] Instance postgres : Dialect := {|
  dl_precision := pg_stamp;
  dl_text_eq := fun a b => bool_decide (a = b);
  dl_latitude := {| lenient := False; kept_emoji := Some |};
  driver_error := pg_error;
  user_ok := fun r => violated (pg_user_checks r) = None /\ is_Some (ur_avatar_url r) /\ is_Some (ur_bio r);
  chat_checks := pg_chat_checks;
  member_fk := pg_member_fk;
  message_checks := pg_message_checks |}.

(** The server counts the rows the condition of an [UPDATE] selects. *)
Definition update_live {R} : (R -> bool) -> uuid -> gmap uuid R -> bool * violation -> (R -> R) ->
    (R -> list (bool * violation)) -> (R -> db) -> db -> result violation (Z * db) :=
  update_counting (fun _ _ => 1).

(** ** Scanning *)

(** Scanning [NULL] into a Go string fails. *)
Definition scan_text (o : option string) : res string :=
  match o with Some s => Ok s | None => Err (Other "cannot scan NULL into *string") end.

Definition scanUser (row : uuid * user_row) : res User :=
  let '(id, r) := row in
  res_bind (scan_text (ur_avatar_url r)) (fun avatar =>
  res_bind (scan_text (ur_bio r)) (fun bio =>
  Ok (mkUser id (ur_username r) (ur_email r) (ur_password_hash r) avatar bio (ur_status r)
        (ur_last_seen r) (ur_created_at r) (ur_updated_at r)))).

(** The select of [Search] and of the message joins leaves the hash out. *)
Definition scanUserPublic (row : uuid * user_row) : res User :=
  let '(id, r) := row in
  res_bind (scan_text (ur_avatar_url r)) (fun avatar =>
  res_bind (scan_text (ur_bio r)) (fun bio =>
  Ok (mkUser id (ur_username r) (ur_email r) "" avatar bio (ur_status r)
        (ur_last_seen r) (ur_created_at r) (ur_updated_at r)))).

Definition scanChat (row : uuid * chat_row) : res Chat :=
  let '(id, r) := row in
  Ok (mkChat id (cr_type r) (default "" (cr_name r)) (default "" (cr_avatar_url r))
        (default "" (cr_description r)) (cr_created_by r) (cr_created_at r) (cr_updated_at r)).

(** ** user.go *)
Section UserRepo.
Context `{Env}.

Definition q_user_Create (u : User) : stmt Z := fun _ _ d =>
  let r := mkUserRow (user_Username u) (user_Email u) (user_PasswordHash u)
             (Some (user_AvatarURL u)) (Some (user_Bio u)) (user_Status u)
             (stamp (user_LastSeen u)) (stamp (user_CreatedAt u)) (stamp (user_UpdatedAt u)) None in
  checked (pg_user_checks r
           ++ [(bool_decide (t_users d !! user_ID u = None), DuplicateKey "users_pkey")]
           ++ user_unique (user_ID u) r d) 1
    (set_users <[user_ID u := r]> d).

(** [errors.As(err, &pgErr)]. *)
Fixpoint as_PgError (e : error) : option (string * string) :=
  match e with
  | PgError code name _ => Some (code, name)
  | Wrap _ e' _ => as_PgError e'
  | _ => None
  end.

Definition mapUserConstraintErr (e : error) : error :=
  match as_PgError e with
  | Some (code, name) =>
    if bool_decide (code = "23505") then
      if bool_decide (name = "uidx_users_email") then Sentinel ErrEmailTaken
      else if bool_decide (name = "uidx_users_username") then Sentinel ErrUsernameTaken
      else e
    else e
  | None => e
  end.

Definition map_constraint {A} (r : res A) : res unit :=
  match r with Ok _ => Ok tt | Err e => Err (mapUserConstraintErr e) end.

Definition user_Create (u : User) : ST world (res unit) :=
  let* r := db_Exec (q_user_Create u) in mret (map_constraint r).

Definition q_user_by (p : uuid -> user_row -> bool) (arg : list string) : stmt (list (uuid * user_row)) :=
  fun _ _ d =>
    match violated [pg_texts arg] with
    | Some v => Err v
    | None => Ok (select (fun id r => p id r && user_live r) (t_users d), d)
    end.

Definition user_scanOne (q : stmt (list (uuid * user_row))) : ST world (res User) :=
  let* row := db_QueryRow q in mret (row_or ErrUserNotFound (res_bind row scanUser)).

Definition user_GetByID (id : uuid) : ST world (res User) :=
  user_scanOne (q_user_by (fun k _ => bool_decide (k = id)) []).
Definition user_GetByEmail (email : string) : ST world (res User) :=
  user_scanOne (q_user_by (fun _ r => bool_decide (ur_email r = email)) [email]).
Definition user_GetByUsername (username : string) : ST world (res User) :=
  user_scanOne (q_user_by (fun _ r => bool_decide (ur_username r = username)) [username]).

Definition q_user_Update (u : User) : stmt Z := fun _ _ d =>
  update_live user_live (user_ID u) (t_users d)
    (pg_texts [user_Username u; user_Email u; user_AvatarURL u; user_Bio u])
    (fun r => mkUserRow (user_Username u) (user_Email u) (ur_password_hash r)
                (Some (user_AvatarURL u)) (Some (user_Bio u)) (ur_status r) (ur_last_seen r)
                (ur_created_at r) (stamp (user_UpdatedAt u)) (ur_deleted_at r))
    (fun r => pg_user_checks r ++ user_unique (user_ID u) r d)
    (fun r => set_users <[user_ID u := r]> d) d.

Definition user_Update (u : User) : ST world (res unit) :=
  let* r := db_Exec (q_user_Update u) in
  match r with
  | Err e => mret (Err (mapUserConstraintErr e))
  | Ok n => if n =? 0 then mret (Fail ErrUserNotFound) else mret (Ok tt)
  end.

Definition q_user_UpdateStatus (id : uuid) (status : UserStatus) (lastSeen : Time) : stmt Z :=
  fun now _ d =>
  update_live user_live id (t_users d) (one_of user_status_enum status, BadEnum "status")
    (fun r => mkUserRow (ur_username r) (ur_email r) (ur_password_hash r) (ur_avatar_url r)
                (ur_bio r) status (stamp lastSeen) (ur_created_at r) (stamp now) (ur_deleted_at r))
    (fun r => pg_user_checks r ++ user_unique id r d)
    (fun r => set_users <[id := r]> d) d.

Definition user_UpdateStatus (id : uuid) (status : UserStatus) (lastSeen : Time) :
    ST world (res unit) :=
  let? _ := db_Exec (q_user_UpdateStatus id status lastSeen) in mret (Ok tt).

Definition q_user_Delete (id : uuid) : stmt Z := fun now _ d =>
  update_live user_live id (t_users d) (true, BadText)
    (fun r => mkUserRow (ur_username r) (ur_email r) (ur_password_hash r) (ur_avatar_url r)
                (ur_bio r) (ur_status r) (ur_last_seen r) (ur_created_at r) (ur_updated_at r)
                (Some (stamp now)))
    (fun r => pg_user_checks r) (fun r => set_users <[id := r]> d) d.

Definition user_Delete (id : uuid) : ST world (res unit) :=
  let? _ := db_Exec (q_user_Delete id) in mret (Ok tt).
End UserRepo.

Section UserSearch.
Context `{Env, Collation}.

Definition q_user_Search (query : string) (limit offset : Z) : stmt (list (uuid * user_row)) :=
  fun _ _ d =>
  let pat := "%" +:+ query +:+ "%" in
  match violated [pg_texts [query]; (0 <=? limit, BadLimit); (0 <=? offset, BadLimit)] with
  | Some v => Err v
  | None => Ok (page limit offset (merge_sort username_le
              (select (fun _ r => (ilike (ur_username r) pat || ilike (ur_email r) pat) && user_live r)
                 (t_users d))), d)
  end.

Definition user_Search (query : string) (limit offset : Z) : ST world (res (list User)) :=
  let? rows := db_Query (q_user_Search query limit offset) in
  mret (scan_rows scanUserPublic rows).

Definition NewUserRepository : UserRepository (ST world) := {|
  users_Create := user_Create;
  users_GetByID := user_GetByID;
  users_GetByEmail := user_GetByEmail;
  users_GetByUsername := user_GetByUsername;
  users_Update := user_Update;
  users_UpdateStatus := user_UpdateStatus;
  users_Search := user_Search;
  users_Delete := user_Delete |}.
End UserSearch.

(** ** chat.go *)
Section ChatRepo.
Context `{Env}.

Definition q_insert_chat (c : Chat) : stmt Z := fun _ _ d =>
  let r := mkChatRow (chat_Type c) (nullableStr (chat_Name c)) (nullableStr (chat_AvatarURL c))
             (nullableStr (chat_Description c)) (chat_CreatedBy c)
             (stamp (chat_CreatedAt c)) (stamp (chat_UpdatedAt c)) None in
  checked (pg_chat_checks r d ++ [(bool_decide (t_chats d !! chat_ID c = None), DuplicateKey "chats_pkey")]) 1
    (set_chats <[chat_ID c := r]> d).

Definition q_insert_member (m : ChatMember) : stmt Z := fun _ _ d =>
  let k := (cm_ChatID m, cm_UserID m) in
  checked ([(one_of member_role_enum (cm_Role m), BadEnum "role");
            (bool_decide (t_members d !! k = None), DuplicateKey "chat_members_pkey")]
           ++ pg_member_fk (cm_ChatID m) (cm_UserID m) d) 1
    (set_members <[k := (cm_Role m, stamp (cm_JoinedAt m))]> d).

Definition chat_CreateWithMembers (c : Chat) (members : list ChatMember) : ST world (res unit) :=
  let? tx := tx_begin in
  let? r := tx_exec driver_error (q_insert_chat c) tx in
  let? tx := tx_for_each q_insert_member members r.2 in
  tx_commit tx.

Definition chat_GetByID (id : uuid) : ST world (res Chat) :=
  let* row := db_QueryRow (q_chat_GetByID id) in
  mret (row_or ErrChatNotFound (res_bind row scanChat)).

Definition q_chat_Update (c : Chat) : stmt Z := fun _ _ d =>
  update_live chat_live (chat_ID c) (t_chats d)
    (pg_texts [chat_Name c; chat_AvatarURL c; chat_Description c])
    (fun r => mkChatRow (cr_type r) (nullableStr (chat_Name c)) (nullableStr (chat_AvatarURL c))
                (nullableStr (chat_Description c)) (cr_created_by r) (cr_created_at r)
                (stamp (chat_UpdatedAt c)) (cr_deleted_at r))
    (fun r => pg_chat_checks r d)
    (fun r => set_chats <[chat_ID c := r]> d) d.

Definition chat_Update (c : Chat) : ST world (res unit) :=
  let? n := db_Exec (q_chat_Update c) in affected ErrChatNotFound n.

Definition q_chat_Delete (id : uuid) : stmt Z := fun now _ d =>
  update_live chat_live id (t_chats d) (true, BadText)
    (fun r => mkChatRow (cr_type r) (cr_name r) (cr_avatar_url r) (cr_description r)
                (cr_created_by r) (cr_created_at r) (cr_updated_at r) (Some (stamp now)))
    (fun r => pg_chat_checks r d) (fun r => set_chats <[id := r]> d) d.

Definition chat_Delete (id : uuid) : ST world (res unit) :=
  let? _ := db_Exec (q_chat_Delete id) in mret (Ok tt).

(** [ON CONFLICT (chat_id, user_id) DO NOTHING] *)
Definition q_chat_AddMember (m : ChatMember) : stmt Z := fun _ _ d =>
  let k := (cm_ChatID m, cm_UserID m) in
  let role_ok := (one_of member_role_enum (cm_Role m), BadEnum "role") in
  if bool_decide (is_Some (t_members d !! k)) then checked [role_ok] 0 d
  else checked (role_ok :: pg_member_fk (cm_ChatID m) (cm_UserID m) d) 1
         (set_members <[k := (cm_Role m, stamp (cm_JoinedAt m))]> d).

Definition chat_AddMember (m : ChatMember) : ST world (res unit) :=
  let? n := db_Exec (q_chat_AddMember m) in affected ErrAlreadyChatMember n.

Definition chat_RemoveMember (c u : uuid) : ST world (res unit) :=
  let? n := db_Exec (q_chat_RemoveMember c u) in affected ErrNotChatMember n.

Definition scanMemberWithUser (row : member_join) : res ChatMember :=
  let '((c, u), (role, joined), ur) := row in
  res_bind (scanUser (u, ur)) (fun user => Ok (mkChatMember c u role joined (Some user))).

Definition chat_GetMember (c u : uuid) : ST world (res ChatMember) :=
  let* row := db_QueryRow (fun _ _ d => Ok (q_members (fun k => bool_decide (k = (c, u))) d, d)) in
  mret (row_or ErrNotChatMember (res_bind row scanMemberWithUser)).

Definition chat_GetMembers (c : uuid) : ST world (res (list ChatMember)) :=
  let? rows := db_Query (q_chat_GetMembers c) in mret (scan_rows scanMemberWithUser rows).

Definition q_chat_UpdateMemberRole (c u : uuid) (role : MemberRole) : stmt Z := fun _ _ d =>
  match violated [(one_of member_role_enum role, BadEnum "role")], t_members d !! (c, u) with
  | Some v, _ => Err v
  | None, Some m => Ok (1, set_members <[(c, u) := (role, m.2)]> d)
  | None, None => Ok (0, d)
  end.

Definition chat_UpdateMemberRole (c u : uuid) (role : MemberRole) : ST world (res unit) :=
  let? n := db_Exec (q_chat_UpdateMemberRole c u role) in affected ErrNotChatMember n.

Definition chat_GetDirectChat (u1 u2 : uuid) : ST world (res Chat) :=
  let* row := db_QueryRow (q_chat_GetDirectChat u1 u2) in
  mret (row_or ErrChatNotFound (res_bind row scanChat)).

Definition chat_IsMember (c u : uuid) : ST world (res bool) :=
  db_QueryRow (fun _ _ d => Ok ([bool_decide (is_Some (t_members d !! (c, u)))], d)).

Definition chat_GetUserChats (u : uuid) : ST world (res (list ChatPreview)) :=
  let? rows := db_Query (q_chat_GetUserChats u) in mret (scan_rows scan_preview rows).

Definition NewChatRepository : ChatRepository (ST world) := {|
  chats_CreateWithMembers := chat_CreateWithMembers;
  chats_GetByID := chat_GetByID;
  chats_Update := chat_Update;
  chats_Delete := chat_Delete;
  chats_AddMember := chat_AddMember;
  chats_RemoveMember := chat_RemoveMember;
  chats_GetMember := chat_GetMember;
  chats_GetMembers := chat_GetMembers;
  chats_UpdateMemberRole := chat_UpdateMemberRole;
  chats_GetUserChats := chat_GetUserChats;
  chats_GetDirectChat := chat_GetDirectChat;
  chats_IsMember := chat_IsMember |}.
End ChatRepo.

(** ** message.go *)
Section MessageRepo.
Context `{Env, Collation}.

Definition q_message_Create (m : Message) : stmt Z := fun _ _ d =>
  let r := mkMessageRow (msg_ChatID m) (msg_SenderID m) (msg_Content m) (msg_Type m)
             (msg_ReplyToID m) None None (stamp (msg_CreatedAt m)) (stamp (msg_UpdatedAt m)) in
  checked (pg_message_checks r d
           ++ [(bool_decide (t_messages d !! msg_ID m = None), DuplicateKey "messages_pkey")]) 1
    (set_messages <[msg_ID m := r]> d).

Definition message_Create (m : Message) : ST world (res unit) :=
  let? _ := db_Exec (q_message_Create m) in mret (Ok tt).

Definition scanMessage (row : uuid * message_row) : res Message :=
  Ok (message_of_row row.1 row.2).

Definition message_GetByID (id : uuid) : ST world (res Message) :=
  let* row := db_QueryRow (fun _ _ d =>
                Ok (select (fun k _ => bool_decide (k = id)) (t_messages d), d)) in
  mret (row_or ErrMessageNotFound (res_bind row scanMessage)).

Definition scanMessageWithSender (row : (uuid * message_row) * (uuid * user_row)) : res Message :=
  let '((id, r), u) := row in
  res_bind (scanUserPublic u) (fun sender =>
  Ok (mkMessage id (mr_chat_id r) (mr_sender_id r) (mr_content r) (mr_type r) (mr_reply_to_id r)
        (mr_edited_at r) (mr_deleted_at r) (mr_created_at r) (mr_updated_at r) (Some sender) [] None)).

Definition message_GetChatMessages (c : uuid) (cursor : option MessageCursor) (limit : Z) :
    ST world (res (list Message)) :=
  let? rows := db_Query (q_message_GetChatMessages c cursor limit) in
  mret (scan_rows scanMessageWithSender rows).

Definition q_message_Update (m : Message) : stmt Z := fun _ _ d =>
  update_live message_live (msg_ID m) (t_messages d) (pg_texts [msg_Content m])
    (fun r => mkMessageRow (mr_chat_id r) (mr_sender_id r) (msg_Content m) (mr_type r)
                (mr_reply_to_id r) (stamp <$> msg_EditedAt m) (mr_deleted_at r) (mr_created_at r)
                (stamp (msg_UpdatedAt m)))
    (fun r => pg_message_checks r d) (fun r => set_messages <[msg_ID m := r]> d) d.

Definition message_Update (m : Message) : ST world (res unit) :=
  let? n := db_Exec (q_message_Update m) in affected ErrMessageNotFound n.

Definition q_message_Delete (id : uuid) : stmt Z := fun now _ d =>
  update_live message_live id (t_messages d) (true, BadText)
    (fun r => mkMessageRow (mr_chat_id r) (mr_sender_id r) (mr_content r) (mr_type r)
                (mr_reply_to_id r) (mr_edited_at r) (Some (stamp now)) (mr_created_at r) (stamp now))
    (fun r => pg_message_checks r d) (fun r => set_messages <[id := r]> d) d.

Definition message_Delete (id : uuid) : ST world (res unit) :=
  let? n := db_Exec (q_message_Delete id) in affected ErrMessageNotFound n.

Definition q_message_MarkRead (c u : uuid) : stmt Z := fun now _ d =>
  checked [(bool_decide (is_Some (t_chats d !! c)), ForeignKey "chat_read_receipts_chat_id_fkey");
           (bool_decide (is_Some (t_users d !! u)), ForeignKey "chat_read_receipts_user_id_fkey")] 1
    (set_receipts <[(c, u) := stamp now]> d).

Definition message_MarkRead (c u : uuid) : ST world (res unit) :=
  let? _ := db_Exec (q_message_MarkRead c u) in mret (Ok tt).

Definition message_GetUnreadCount (c u : uuid) : ST world (res Z) :=
  db_QueryRow (fun _ _ d => Ok ([Z.of_nat (length (unread_messages c u d))], d)).

(** [ON CONFLICT (message_id, user_id, emoji) DO NOTHING] *)
Definition q_message_AddReaction (rx : Reaction) : stmt Z := fun _ _ d =>
  let k := (rx_MessageID rx, rx_UserID rx, rx_Emoji rx) in
  let ok := [pg_texts [rx_Emoji rx];
             (InRange (RuneCountInString (rx_Emoji rx)) 1 10, CheckFailed "chk_reactions_emoji")] in
  if bool_decide (is_Some (t_reactions d !! k)) then checked ok 0 d
  else checked (ok ++
         [(bool_decide (is_Some (t_messages d !! rx_MessageID rx)),
           ForeignKey "message_reactions_message_id_fkey");
          (bool_decide (is_Some (t_users d !! rx_UserID rx)),
           ForeignKey "message_reactions_user_id_fkey")]) 1
         (set_reactions <[k := stamp (rx_CreatedAt rx)]> d).

Definition message_AddReaction (rx : Reaction) : ST world (res unit) :=
  let? _ := db_Exec (q_message_AddReaction rx) in mret (Ok tt).

Definition q_message_RemoveReaction (m u : uuid) (emoji : string) : stmt Z := fun _ _ d =>
  match violated [pg_texts [emoji]] with
  | Some v => Err v
  | None => Ok (if bool_decide (is_Some (t_reactions d !! (m, u, emoji))) then 1 else 0,
                set_reactions (delete (m, u, emoji)) d)
  end.

Definition message_RemoveReaction (m u : uuid) (emoji : string) : ST world (res unit) :=
  let? _ := db_Exec (q_message_RemoveReaction m u emoji) in mret (Ok tt).

Definition scan_reaction (row : reaction_join) : res Reaction :=
  let '((m, u, emoji), created, ur) := row in
  res_bind (scan_text (ur_avatar_url ur)) (fun avatar =>
  Ok (mkReaction m u emoji created
        (Some (mkUser u (ur_username ur) "" "" avatar "" "" Json.zero_Time Json.zero_Time Json.zero_Time)))).

Definition message_GetReactions (m : uuid) : ST world (res (list Reaction)) :=
  let? rows := db_Query (fun _ _ d =>
                 Ok (merge_sort reaction_le (q_reactions (fun k => bool_decide (k = m)) d), d)) in
  mret (scan_rows scan_reaction rows).

Definition message_GetReactionsBatch (ids : list uuid) : ST world (res (gmap uuid (list Reaction))) :=
  match ids with
  | [] => mret (Ok ∅)
  | _ =>
    let? rows := db_Query (fun _ _ d =>
                   Ok (merge_sort reaction_batch_le (q_reactions (fun k => bool_decide (k ∈ ids)) d), d)) in
    mret (res_bind (scan_rows scan_reaction rows) (fun l => Ok (foldl append_reaction ∅ l)))
  end.

Definition NewMessageRepository : MessageRepository (ST world) := {|
  messages_Create := message_Create;
  messages_GetByID := message_GetByID;
  messages_GetChatMessages := message_GetChatMessages;
  messages_Update := message_Update;
  messages_Delete := message_Delete;
  messages_MarkRead := message_MarkRead;
  messages_GetUnreadCount := message_GetUnreadCount;
  messages_AddReaction := message_AddReaction;
  messages_RemoveReaction := message_RemoveReaction;
  messages_GetReactions := message_GetReactions;
  messages_GetReactionsBatch := message_GetReactionsBatch |}.
End MessageRepo.
