(* ===== verification/PostgresSpec.v ===== *)
(** * The PostgreSQL repositories honour their contracts

    The dialect obeys its laws; the statements of [Postgres.v] have the effects
    [SqlReads] and [SqlWrites] ask for. *)
From S2P Require Import Prelude Utf8 Domain Validate Json Store Schema World Sql SqlWf SqlRules SqlReads SqlWrites.
From S2P Require Import Postgres.
Open Scope Z_scope.

#[local] Existing Instance postgres.

(** ** The laws of the dialect *)
Lemma pg_text_ok s : pg_text s = true -> text_ok s.
Proof. unfold pg_text. by intros [? _]%andb_true_iff. Qed.

Lemma pg_texts_ok l s : (pg_texts l).1 = true -> s ∈ l -> text_ok s.
Proof.
  cbn. rewrite forallb_forall. intros Hl Hs. apply pg_text_ok, Hl. by apply list_elem_of_In.
Qed.

Lemma pg_user_text id r : user_ok r -> user_text (user_of_row id r).
Proof.
  change (user_ok r) with (holds (pg_user_checks r) /\ is_Some (ur_avatar_url r) /\ is_Some (ur_bio r)).
  intros (Hok & [a Ha] & [b Hb]). unfold pg_user_checks in Hok. rewrite !holds_cons in Hok. destruct Hok as (Ht & Hs & _).
  assert (forall s, s ∈ [ur_username r; ur_email r; ur_password_hash r; a; b] -> text_ok s) as Htext.
  { intros s. apply pg_texts_ok. rewrite Ha, Hb in Ht. exact Ht. }
  unfold user_text, user_of_row. cbn. rewrite Ha, Hb. cbn.
  repeat split; try (apply Htext; rewrite !elem_of_cons; tauto).
  eapply enum_ok; [|exact Hs]. by repeat constructor.
Qed.

Lemma pg_chat_text id r d : holds (pg_chat_checks r d) -> chat_text (chat_of_row id r).
Proof.
  unfold pg_chat_checks. rewrite !holds_cons. intros (Ht & Hs & _).
  assert (forall o, o ∈ [cr_name r; cr_avatar_url r; cr_description r] -> text_ok (default "" o)) as Htext.
  { intros [s|] Ho; [|done]. apply (pg_texts_ok _ s Ht). by apply elem_of_texts. }
  unfold chat_text, chat_of_row. cbn [chat_Type chat_Name chat_AvatarURL chat_Description].
  split; [|repeat split; apply Htext; rewrite !elem_of_cons; auto].
  eapply enum_ok; [|exact Hs]. by repeat constructor.
Qed.

#[export] Instance postgres_laws : DialectLaws postgres.
Proof.
  split; cbn [driver_error dl_precision dl_text_eq user_ok chat_checks member_fk message_checks postgres].
  - by intros [].
  - by intros [].
  - intros a b. unfold same_text; cbn. by apply bool_decide_ext.
  - intros a b c. unfold same_text; cbn. rewrite !bool_decide_eq_true. congruence.
  - intros t. unfold stamp; cbn. unfold pg_stamp. by rewrite Z.div_mul.
  - intros r d d' (Hu & _ & _). unfold pg_chat_checks. intros H. regrow H.
  - intros c u d d' (Hu & Hc & _). unfold pg_member_fk. intros H. regrow H.
  - intros r d d' (Hu & Hc & Hm). unfold pg_message_checks.
    destruct (mr_reply_to_id r); intros H; regrow H.
  - intros c u d. unfold pg_member_fk. rewrite holds_cons. cbn. intros [Hc _]. by bool_prop.
  - intros r d. unfold pg_message_checks. rewrite !holds_cons. cbn [fst].
    intros (_ & _ & _ & _ & _ & Hs & _). by apply bool_decide_eq_true_1 in Hs.
  - apply pg_user_text.
  - apply pg_chat_text.
Qed.

#[export] Instance postgres_strict : Strict.
Proof. by intros []. Qed.

(** ** The contracts *)
Lemma pg_counts {R} : counts (fun _ _ : R => 1).
Proof. done. Qed.

Lemma pg_maps_constraints : maps_constraints mapUserConstraintErr pg_user_checks.
Proof.
  split.
  - by intros t s.
  - intros [ix e|ix| | | | | |] Hv; try (by intros s).
    by destruct Hv as [-> | ->].
  - done.
  - intros n. by left.
  - intros r v Hv%violated_In. unfold pg_user_checks, pg_texts in Hv. rewrite !elem_of_cons in Hv.
    destruct_or! Hv; try by injection Hv as _ ->. by apply not_elem_of_nil in Hv.
Qed.

Lemma pg_scanUser id r : user_ok r -> scanUser (id, r) = Ok (user_of_row id r).
Proof. intros (_ & [a Ha] & [b Hb]). unfold scanUser, user_of_row. by rewrite Ha, Hb. Qed.

Lemma pg_scanUserPublic id r : user_ok r -> scanUserPublic (id, r) = Ok (public (user_of_row id r)).
Proof. intros (_ & [a Ha] & [b Hb]). unfold scanUserPublic, public, user_of_row. by rewrite Ha, Hb. Qed.

Lemma pg_scanMember j : user_ok j.2 -> scanMemberWithUser j = Ok (member_of_join j).
Proof.
  destruct j as [[[c u] [role t]] ur]. intros Hok. unfold scanMemberWithUser. by rewrite pg_scanUser.
Qed.

Lemma pg_scanJoined row : user_ok row.2.2 -> scanMessageWithSender row = Ok (joined_message row).
Proof.
  destruct row as [[id r] [k ur]]. intros Hok. unfold scanMessageWithSender. by rewrite pg_scanUserPublic.
Qed.

Lemma pg_scanReaction row : user_ok row.2 -> scan_reaction row = Ok (reaction_of_join row).
Proof.
  destruct row as [[[[m u] e] t] ur]. intros (_ & [a Ha] & _). unfold scan_reaction, reaction_of_join.
  cbn in Ha. by rewrite Ha.
Qed.

Section spec.
Context `{E : Env, C : Collation}.
Abbreviation inv := (over_db db_wf).

Lemma pg_looks_up p arg : looks_up (q_user_by p arg) p.
Proof using. intros now c d. unfold q_user_by. by destruct (violated _). Qed.

Lemma pg_nullable s : default "" (nullableStr s) = s.
Proof using. unfold nullableStr. by case_bool_decide. Qed.

(** The statements whose effect is the package's own. *)
Lemma pg_insert_chat c now ch d n d' :
  db_wf d -> q_insert_chat c now ch d = Ok (n, d') ->
  db_wf d' /\ t_chats d !! chat_ID c = None /\
  view_db d' = with_chats <[chat_ID c := stamp_chat c]> (view_db d).
Proof using.
  intros Hd (Hok & _ & ->)%checked_Ok. apply holds_pkey in Hok as [Hchat Hfresh]. bool_prop.
  split; [by apply wf_set_chat|]. split; [done|]. rewrite view_set_chat_live by done.
  unfold chat_of_row. cbn. by rewrite !pg_nullable.
Qed.

Lemma pg_insert_member m now ch d n d' :
  db_wf d -> q_insert_member m now ch d = Ok (n, d') ->
  db_wf d' /\ view_db d' = add_member (stamp_member m) (view_db d).
Proof using.
  intros Hd (Hok & _ & ->)%checked_Ok. rewrite holds_app, !holds_cons in Hok.
  destruct Hok as [(Hr & _ & _) Hfk]. split; [by apply wf_set_member|done].
Qed.

Lemma pg_AddMember m :
  honours inv view (chat_AddMember m)
    (fun d _ d' => ~ is_member d (cm_ChatID m) (cm_UserID m) /\ d' = add_member (stamp_member m) d)
    (already_member m).
Proof using.
  apply (affected_stmt _ _
    (fun d d' => ~ is_member d (cm_ChatID m) (cm_UserID m) /\ d' = add_member (stamp_member m) d)
    (fun d => is_member d (cm_ChatID m) (cm_UserID m) \/ _)). intros now ch d Hd.
  unfold q_chat_AddMember. case_bool_decide as Hm.
  - destruct (checked _ _ _) as [[n d']|v] eqn:Ek; [|done].
    apply checked_Ok in Ek as (_ & -> & ->). split; [done|]. split; [done|]. by left.
  - destruct (checked _ _ _) as [[n d']|v] eqn:Ek; [|done].
    apply checked_Ok in Ek as (Hok & -> & ->). rewrite holds_cons in Hok. destruct Hok.
    split; [by apply wf_set_member|]. done.
Qed.

Lemma pg_UpdateMemberRole c u r :
  honours inv view (chat_UpdateMemberRole c u r)
    (fun d _ d' => is_member d c u /\ d' = set_role c u r d) (role_unset c u r).
Proof using.
  apply (affected_stmt _ _ (fun d d' => is_member d c u /\ d' = set_role c u r d)
    (fun d => ~ is_member d c u \/ _)). intros now ch d Hd.
  unfold q_chat_UpdateMemberRole. destruct (violated _) as [v|] eqn:Hv; [done|].
  apply holds_cons in Hv as [Hr _]. destruct (t_members d !! (c, u)) as [m|] eqn:Hm.
  - destruct (set_role_row c u r m d Hd Hm Hr) as [Hwf Hview]. split; [done|]. split; [by eexists|done].
  - split; [done|]. split; [done|]. left. unfold is_member. cbn. rewrite Hm. by intros [].
Qed.

Lemma pg_AddReaction r :
  honours inv view (message_AddReaction r)
    (fun d _ d' => add_reaction (rx_MessageID r) (rx_UserID r) (rx_Emoji r) (stamp (rx_CreatedAt r)) d d') never.
Proof using.
  apply (exec_stmt _ (add_reaction (rx_MessageID r) (rx_UserID r) (rx_Emoji r) (stamp (rx_CreatedAt r)))).
  intros now c d Hd. unfold q_message_AddReaction. cbv zeta. case_bool_decide as Hk.
  - destruct (checked _ _ _) as [[n d']|v] eqn:Ek; [|done]. apply checked_Ok in Ek as (_ & _ & ->).
    split; [done|]. left. split; [|done]. exists (rx_Emoji r). split; [done|]. by apply bool_decide_eq_true_2.
  - destruct (checked _ _ _) as [[n d']|v] eqn:Ek; [|done]. apply checked_Ok in Ek as (Hok & _ & ->).
    rewrite holds_app, !holds_cons in Hok; cbn [fst] in Hok. destruct Hok as (_ & Hm & Hu & _).
    bool_prop. split; [by apply wf_set_reaction|]. right. left. split; [|done].
    intros (e' & Hin & ->%bool_decide_eq_true_1). done.
Qed.

Lemma pg_RemoveReaction m u e now (c : nat) d n d' :
  q_message_RemoveReaction m u e now c d = Ok (n, d') ->
  d' = set_reactions (filter (fun kt => ~ (kt.1.1 = (m, u) /\ same_text kt.1.2 e = true))) d.
Proof using.
  unfold q_message_RemoveReaction. destruct (violated _); [done|]. intros [= _ <-]. unfold set_reactions. f_equal.
  apply map_eq. intros [[m' u'] e']. rewrite lookup_delete, map_lookup_filter.
  case_decide as Ek.
  - simplify_eq. destruct (t_reactions d !! _); [|done]. cbn. rewrite option_guard_False; [done|].
    intros Hn. apply Hn. split; [done|]. by apply bool_decide_eq_true_2.
  - destruct (t_reactions d !! _); [|done]. cbn. rewrite option_guard_True; [done|].
    intros [E1 E2%bool_decide_eq_true_1]. simplify_eq/=.
Qed.

#[export] Instance pg_user_spec : UserRepositorySpec inv view NewUserRepository.
Proof using.
  split; cbn [users_Create users_GetByID users_GetByEmail users_GetByUsername users_Update users_UpdateStatus
    users_Search users_Delete NewUserRepository]; intros.
  - eapply (user_create_honours mapUserConstraintErr pg_user_checks pg_maps_constraints);
      [| | | |reflexivity]; [by left|done..|]. intros Hc. split; [exact Hc|]. by split; eexists.
  - apply (user_by_id scanUser pg_scanUser), pg_looks_up.
  - eapply (user_by_text scanUser pg_scanUser _ ur_email); [done|apply pg_looks_up].
  - eapply (user_by_text scanUser pg_scanUser _ ur_username); [done|apply pg_looks_up].
  - eapply (user_update_honours mapUserConstraintErr pg_user_checks pg_maps_constraints);
      [apply pg_counts| | | |reflexivity]; [done| |done].
    intros r. split; [done|]. intros _ Hc. split; [exact Hc|]. by split; eexists.
  - eapply (user_status_honours pg_user_checks id s t _ (fun _ _ => 1) _ stamp); [| |reflexivity]; [|done].
    intros now r. split; [done|]. by intros (_ & ? & ?) ?.
  - eapply (search_reads scanUserPublic pg_scanUserPublic); [by intros k r [_ ?]%andb_true_iff|].
    intros now c d. unfold q_user_Search. by destruct (violated _).
  - eapply (user_delete_honours pg_user_checks); [|reflexivity]. intros now r. split; [done|]. by intros (_ & ? & ?) ?.
Qed.

#[export] Instance pg_chat_spec : ChatRepositorySpec inv view NewChatRepository.
Proof using.
  split; cbn [chats_CreateWithMembers chats_GetByID chats_Update chats_Delete chats_AddMember chats_RemoveMember
    chats_GetMember chats_GetMembers chats_UpdateMemberRole chats_GetUserChats chats_GetDirectChat chats_IsMember
    NewChatRepository].
  - intros c ms _ _. apply create_with_members_honours; [by intros now ch d n d' Hd ?; apply (pg_insert_chat c now ch _ n)|].
    intros m now ch d n d' Hd ?. by apply (pg_insert_member m now ch _ n).
  - intros id. by apply chat_by_id.
  - intros c. eapply chat_update_honours; [apply pg_counts| | |reflexivity]; [done|].
    intros r. unfold chat_of_row, patch_chat, stamp_chat. cbn. by rewrite !pg_nullable.
  - intros id. eapply chat_delete_honours; [|reflexivity]. done.
  - intros m Hm. apply pg_AddMember.
  - intros c u. apply remove_member_honours.
  - intros c u. apply member_reads, pg_scanMember.
  - intros c. apply members_reads, pg_scanMember.
  - intros c u r. apply pg_UpdateMemberRole.
  - intros u. apply user_chats_reads.
  - intros a b. by apply direct_chat_reads.
  - intros c u. apply is_member_reads.
Qed.

#[export] Instance pg_message_spec : MessageRepositorySpec inv view NewMessageRepository.
Proof using.
  split; cbn [messages_Create messages_GetByID messages_GetChatMessages messages_Update messages_Delete
    messages_MarkRead messages_GetUnreadCount messages_AddReaction messages_RemoveReaction messages_GetReactions
    messages_GetReactionsBatch NewMessageRepository].
  - intros m. eapply message_create_honours; [|reflexivity]. done.
  - intros id. by apply message_by_id.
  - intros c cursor limit. apply history_reads, pg_scanJoined.
  - intros m. eapply message_update_honours; [apply pg_counts| | |reflexivity]; done.
  - intros id. eapply (message_delete_honours id _ (fun _ _ => 1) _ stamp); [| |reflexivity]; done.
  - intros c u. apply mark_read_honours. intros now ch d n d'. unfold q_message_MarkRead.
    by intros (_ & _ & ->)%checked_Ok.
  - intros c u. apply unread_reads.
  - intros r. apply pg_AddReaction.
  - intros m u e. apply remove_reaction_honours. apply pg_RemoveReaction.
  - intros m. apply reactions_reads, pg_scanReaction.
  - intros ids. apply batch_reads, pg_scanReaction.
Qed.
End spec.
