(* ===== verification/Mysql.v ===== *)
(** * Package storage/mysql

    [internal/infrastructure/storage/mysql/{user,chat,message}.go] over the schema
    of [migrations/mysql].  What differs from PostgreSQL: texts compare under the
    collation [utf8mb4_unicode_ci]; [DATETIME(6)] rounds to the microsecond;
    [RowsAffected] counts the rows an [UPDATE] changed, not the rows it matched;
    [INSERT IGNORE] skips the row it cannot insert, whatever the reason, and
    adjusts a text it cannot store.  The services never send a negative [LIMIT]
    or [OFFSET], which is taken here for an error of the server. *)
From S2P Require Import Prelude Utf8 Domain Validate Json Store Schema World Sql.
Open Scope Z_scope.

(** ** The server *)

(** The collation's equality, and what [INSERT IGNORE] makes of the text of an
    emoji: the server's implementation is not in the repository. *)
Class UnicodeCI : Type := {
  ci_same : string -> string -> bool;
  adjusted : string -> string }.

Class UnicodeCILaws (U : UnicodeCI) : Prop := {
  ci_sym a b : ci_same a b = ci_same b a;
  ci_trans a b c : ci_same a b = true -> ci_same b c = true -> ci_same a c = true;
  ci_refl a : ci_same a a = true;
  adjusted_ok s : ValidString s = true -> RuneCountInString s <= 10 -> adjusted s = s }.

(** The driver writes nanoseconds, the column rounds them. *)
Definition my_stamp (t : Time) : Time := (t + 500) / 1000 * 1000.

Definition my_texts (l : list string) : bool * violation := (forallb ValidString l, BadText).

(** [TEXT] holds 65,535 bytes. *)
Definition text_column (s : string) : bool := Z.of_nat (String.length s) <=? 65535.

Definition my_error (v : violation) : error :=
  match v with
  | Unique ix entry =>
    let m := "Duplicate entry '" +:+ entry +:+ "-1' for key 'users." +:+ ix +:+ "'" in MySQLError 1062 m m
  | DuplicateKey k => let m := "Duplicate entry for key '" +:+ k +:+ "'" in MySQLError 1062 m m
  | ForeignKey c => MySQLError 1452 c "Cannot add or update a child row: a foreign key constraint fails"
  | CheckFailed c => MySQLError 3819 c "Check constraint is violated."
  | TooLong c => MySQLError 1406 c "Data too long for column"
  | BadEnum c => MySQLError 1265 c "Data truncated for column"
  | BadText => MySQLError 1366 "" "Incorrect string value"
  | BadLimit => MySQLError 1064 "" "You have an error in your SQL syntax"
  end.

Definition my_user_checks (r : user_row) : list (bool * violation) :=
  [my_texts ([ur_username r; ur_email r; ur_password_hash r] ++ texts_of [ur_avatar_url r; ur_bio r]);
   (one_of user_status_enum (ur_status r), BadEnum "status");
   (varchar 50 (ur_username r), TooLong "username");
   (varchar 255 (ur_email r), TooLong "email");
   (text_column (ur_password_hash r), TooLong "password_hash");
   (nullable text_column (ur_avatar_url r), TooLong "avatar_url");
   (nullable (varchar 500) (ur_bio r), TooLong "bio");
   (InRange (RuneCountInString (ur_username r)) 3 50, CheckFailed "chk_users_username");
   (0 <? RuneCountInString (ur_email r), CheckFailed "chk_users_email")].

Definition my_chat_checks (r : chat_row) (d : db) : list (bool * violation) :=
  [my_texts (texts_of [cr_name r; cr_avatar_url r; cr_description r]);
   (one_of chat_type_enum (cr_type r), BadEnum "type");
   (nullable (varchar 100) (cr_name r), TooLong "name");
   (nullable text_column (cr_avatar_url r), TooLong "avatar_url");
   (nullable (varchar 500) (cr_description r), TooLong "description");
   (negb (bool_decide (cr_type r = "group")) || bool_decide (is_Some (cr_name r)),
    CheckFailed "chk_chats_group_name");
   (negb (bool_decide (cr_type r = "direct")) || negb (bool_decide (is_Some (cr_name r))),
    CheckFailed "chk_chats_direct_name");
   (bool_decide (is_Some (t_users d !! cr_created_by r)), ForeignKey "fk_chats_created_by")].

Definition my_member_fk (c u : uuid) (d : db) : list (bool * violation) :=
  [(bool_decide (is_Some (t_chats d !! c)), ForeignKey "fk_cm_chat");
   (bool_decide (is_Some (t_users d !! u)), ForeignKey "fk_cm_user")].

Definition my_message_checks (r : message_row) (d : db) : list (bool * violation) :=
  [my_texts [mr_content r];
   (one_of message_type_enum (mr_type r), BadEnum "type");
   (text_column (mr_content r), TooLong "content");
   (0 <? RuneCountInString (mr_content r), CheckFailed "chk_msg_content");
   (RuneCountInString (mr_content r) <=? 4096, CheckFailed "chk_msg_content_max");
   (bool_decide (is_Some (t_chats d !! mr_chat_id r)), ForeignKey "fk_msg_chat");
   (bool_decide (is_Some (t_users d !! mr_sender_id r)), ForeignKey "fk_msg_sender");
   (match mr_reply_to_id r with
    | None => true | Some m => bool_decide (is_Some (t_messages d !! m)) end,
    ForeignKey "fk_msg_reply")].

(** What [INSERT IGNORE] keeps of an emoji: the adjusted text, unless the check of
    its length drops the row. *)
Definition my_emoji `{UnicodeCI} (s : string) : option string :=
  if InRange (RuneCountInString (adjusted s)) 1 10 then Some (adjusted s) else None.

#[local] Instance mysql `{UnicodeCI} : Dialect := {|
  dl_precision := my_stamp;
  dl_text_eq := ci_same;
  dl_latitude := {| lenient := True; kept_emoji := my_emoji |};
  driver_error := my_error;
  user_ok := fun r => violated (my_user_checks r) = None;
  chat_checks := my_chat_checks;
  member_fk := my_member_fk;
  message_checks := my_message_checks |}.

#[local] Instance user_row_eq_dec : EqDecision user_row.
Proof. solve_decision. Defined.
#[local] Instance chat_row_eq_dec : EqDecision chat_row.
Proof. solve_decision. Defined.
#[local] Instance message_row_eq_dec : EqDecision message_row.
Proof. solve_decision. Defined.

(** The rows an [UPDATE] changed. *)
Definition changed {R} `{EqDecision R} (old new : R) : Z := if decide (new = old) then 0 else 1.

(** ** Scanning: [NULL] is the empty string *)
Definition my_scanUser (row : uuid * user_row) : res User :=
  let '(id, r) := row in
  Ok (mkUser id (ur_username r) (ur_email r) (ur_password_hash r) (default "" (ur_avatar_url r))
        (default "" (ur_bio r)) (ur_status r) (ur_last_seen r) (ur_created_at r) (ur_updated_at r)).

(** The select of [Search] leaves the hash out. *)
Definition my_scanUserPublic (row : uuid * user_row) : res User :=
  let '(id, r) := row in
  Ok (mkUser id (ur_username r) (ur_email r) "" (default "" (ur_avatar_url r))
        (default "" (ur_bio r)) (ur_status r) (ur_last_seen r) (ur_created_at r) (ur_updated_at r)).

(** [strings.Contains]. *)
Fixpoint Contains (s sub : string) : bool :=
  String.prefix sub s || match s with "" => false | String _ s' => Contains s' sub end.

(** ** user.go *)
Section UserRepo.
Context `{Env, UnicodeCI}.

Definition q_my_user_Create (u : User) : stmt Z := fun _ _ d =>
  let r := mkUserRow (user_Username u) (user_Email u) (user_PasswordHash u)
             (nullableStr (user_AvatarURL u)) (nullableStr (user_Bio u)) (user_Status u)
             (stamp (user_LastSeen u)) (stamp (user_CreatedAt u)) (stamp (user_UpdatedAt u)) None in
  checked (my_user_checks r
           ++ [(bool_decide (t_users d !! user_ID u = None), DuplicateKey "PRIMARY")]
           ++ user_unique (user_ID u) r d) 1
    (set_users <[user_ID u := r]> d).

(** [errors.As(err, &me)]. *)
Fixpoint as_MySQLError (e : error) : option (Z * string) :=
  match e with
  | MySQLError number message _ => Some (number, message)
  | Wrap _ e' _ => as_MySQLError e'
  | _ => None
  end.

Definition my_mapUserConstraintErr (e : error) : error :=
  match as_MySQLError e with
  | Some (number, msg) =>
    if number =? 1062 then
      if Contains msg "uidx_users_email" then Sentinel ErrEmailTaken
      else if Contains msg "uidx_users_username" then Sentinel ErrUsernameTaken
      else e
    else e
  | None => e
  end.

Definition my_map_constraint {A} (r : res A) : res unit :=
  match r with Ok _ => Ok tt | Err e => Err (my_mapUserConstraintErr e) end.

Definition my_user_Create (u : User) : ST world (res unit) :=
  let* r := db_Exec (q_my_user_Create u) in mret (my_map_constraint r).

Definition q_my_user_by (p : uuid -> user_row -> bool) : stmt (list (uuid * user_row)) := fun _ _ d =>
  Ok (select (fun id r => p id r && user_live r) (t_users d), d).

Definition my_scanOne (q : stmt (list (uuid * user_row))) : ST world (res User) :=
  let* row := db_QueryRow q in mret (row_or ErrUserNotFound (res_bind row my_scanUser)).

Definition my_user_GetByID (id : uuid) : ST world (res User) :=
  my_scanOne (q_my_user_by (fun k _ => bool_decide (k = id))).
Definition my_user_GetByEmail (email : string) : ST world (res User) :=
  my_scanOne (q_my_user_by (fun _ r => same_text (ur_email r) email)).
Definition my_user_GetByUsername (username : string) : ST world (res User) :=
  my_scanOne (q_my_user_by (fun _ r => same_text (ur_username r) username)).

Definition q_my_user_Update (u : User) : stmt Z := fun _ _ d =>
  update_counting changed user_live (user_ID u) (t_users d) (true, BadText)
    (fun r => mkUserRow (user_Username u) (user_Email u) (ur_password_hash r)
                (nullableStr (user_AvatarURL u)) (nullableStr (user_Bio u)) (ur_status r) (ur_last_seen r)
                (ur_created_at r) (stamp (user_UpdatedAt u)) (ur_deleted_at r))
    (fun r => my_user_checks r ++ user_unique (user_ID u) r d)
    (fun r => set_users <[user_ID u := r]> d) d.

Definition my_user_Update (u : User) : ST world (res unit) :=
  let* r := db_Exec (q_my_user_Update u) in
  match r with
  | Err e => mret (Err (my_mapUserConstraintErr e))
  | Ok n => if n =? 0 then mret (Fail ErrUserNotFound) else mret (Ok tt)
  end.

Definition q_my_user_UpdateStatus (id : uuid) (status : UserStatus) (lastSeen : Time) : stmt Z :=
  fun now _ d =>
  update_counting changed user_live id (t_users d) (true, BadText)
    (fun r => mkUserRow (ur_username r) (ur_email r) (ur_password_hash r) (ur_avatar_url r)
                (ur_bio r) status (stamp lastSeen) (ur_created_at r) (stamp now) (ur_deleted_at r))
    (fun r => my_user_checks r ++ user_unique id r d)
    (fun r => set_users <[id := r]> d) d.

Definition my_user_UpdateStatus (id : uuid) (status : UserStatus) (lastSeen : Time) :
    ST world (res unit) :=
  let? _ := db_Exec (q_my_user_UpdateStatus id status lastSeen) in mret (Ok tt).

(** The column [updated_at] follows every change of its row
    ([ON UPDATE CURRENT_TIMESTAMP]). *)
Definition q_my_user_Delete (id : uuid) : stmt Z := fun now _ d =>
  update_counting changed user_live id (t_users d) (true, BadText)
    (fun r => mkUserRow (ur_username r) (ur_email r) (ur_password_hash r) (ur_avatar_url r)
                (ur_bio r) (ur_status r) (ur_last_seen r) (ur_created_at r) (stamp now)
                (Some (stamp now)))
    (fun r => my_user_checks r) (fun r => set_users <[id := r]> d) d.

Definition my_user_Delete (id : uuid) : ST world (res unit) :=
  let? _ := db_Exec (q_my_user_Delete id) in mret (Ok tt).

Context `{Collation}.

Definition q_my_user_Search (query : string) (limit offset : Z) : stmt (list (uuid * user_row)) :=
  fun _ _ d =>
  let pattern := "%" +:+ query +:+ "%" in
  match violated [(0 <=? limit, BadLimit); (0 <=? offset, BadLimit)] with
  | Some v => Err v
  | None => Ok (page limit offset (merge_sort username_le
              (select (fun _ r => (ilike (ur_username r) pattern || ilike (ur_email r) pattern) && user_live r)
                 (t_users d))), d)
  end.

Definition my_user_Search (query : string) (limit offset : Z) : ST world (res (list User)) :=
  let? rows := db_Query (q_my_user_Search query limit offset) in
  mret (scan_rows my_scanUserPublic rows).

Definition my_NewUserRepository : UserRepository (ST world) := {|
  users_Create := my_user_Create;
  users_GetByID := my_user_GetByID;
  users_GetByEmail := my_user_GetByEmail;
  users_GetByUsername := my_user_GetByUsername;
  users_Update := my_user_Update;
  users_UpdateStatus := my_user_UpdateStatus;
  users_Search := my_user_Search;
  users_Delete := my_user_Delete |}.
End UserRepo.

(** ** chat.go *)
Definition my_scanChat (row : uuid * chat_row) : res Chat :=
  let '(id, r) := row in
  Ok (mkChat id (cr_type r) (default "" (cr_name r)) (default "" (cr_avatar_url r))
        (default "" (cr_description r)) (cr_created_by r) (cr_created_at r) (cr_updated_at r)).

Definition my_scanMemberWithUser (row : member_join) : res ChatMember :=
  let '((c, u), (role, joined), ur) := row in
  res_bind (my_scanUser (u, ur)) (fun user => Ok (mkChatMember c u role joined (Some user))).

Section ChatRepo.
Context `{Env, UnicodeCI}.

Definition q_my_insert_chat (c : Chat) : stmt Z := fun _ _ d =>
  let r := mkChatRow (chat_Type c) (nullableStr (chat_Name c)) (nullableStr (chat_AvatarURL c))
             (nullableStr (chat_Description c)) (chat_CreatedBy c)
             (stamp (chat_CreatedAt c)) (stamp (chat_UpdatedAt c)) None in
  checked (my_chat_checks r d ++ [(bool_decide (t_chats d !! chat_ID c = None), DuplicateKey "PRIMARY")]) 1
    (set_chats <[chat_ID c := r]> d).

Definition q_my_insert_member (m : ChatMember) : stmt Z := fun _ _ d =>
  let k := (cm_ChatID m, cm_UserID m) in
  checked ([(one_of member_role_enum (cm_Role m), BadEnum "role");
            (bool_decide (t_members d !! k = None), DuplicateKey "PRIMARY")]
           ++ my_member_fk (cm_ChatID m) (cm_UserID m) d) 1
    (set_members <[k := (cm_Role m, stamp (cm_JoinedAt m))]> d).

Definition my_chat_CreateWithMembers (c : Chat) (members : list ChatMember) : ST world (res unit) :=
  let? tx := tx_begin in
  let? r := tx_exec driver_error (q_my_insert_chat c) tx in
  let? tx := tx_for_each q_my_insert_member members r.2 in
  tx_commit tx.

Definition my_chat_GetByID (id : uuid) : ST world (res Chat) :=
  let* row := db_QueryRow (q_chat_GetByID id) in
  mret (row_or ErrChatNotFound (res_bind row my_scanChat)).

Definition q_my_chat_Update (c : Chat) : stmt Z := fun _ _ d =>
  update_counting changed chat_live (chat_ID c) (t_chats d) (true, BadText)
    (fun r => mkChatRow (cr_type r) (nullableStr (chat_Name c)) (nullableStr (chat_AvatarURL c))
                (nullableStr (chat_Description c)) (cr_created_by r) (cr_created_at r)
                (stamp (chat_UpdatedAt c)) (cr_deleted_at r))
    (fun r => my_chat_checks r d)
    (fun r => set_chats <[chat_ID c := r]> d) d.

Definition my_chat_Update (c : Chat) : ST world (res unit) :=
  let? n := db_Exec (q_my_chat_Update c) in affected ErrChatNotFound n.

Definition q_my_chat_Delete (id : uuid) : stmt Z := fun now _ d =>
  update_counting changed chat_live id (t_chats d) (true, BadText)
    (fun r => mkChatRow (cr_type r) (cr_name r) (cr_avatar_url r) (cr_description r)
                (cr_created_by r) (cr_created_at r) (stamp now) (Some (stamp now)))
    (fun r => my_chat_checks r d) (fun r => set_chats <[id := r]> d) d.

Definition my_chat_Delete (id : uuid) : ST world (res unit) :=
  let? _ := db_Exec (q_my_chat_Delete id) in mret (Ok tt).

(** [INSERT IGNORE]: a member that is there already, a chat or a user that is not,
    all skip the row; a role outside of the enumeration becomes the empty one. *)
Definition q_my_chat_AddMember (m : ChatMember) : stmt Z := fun _ _ d =>
  let k := (cm_ChatID m, cm_UserID m) in
  let role := if one_of member_role_enum (cm_Role m) then cm_Role m else "" in
  if bool_decide (is_Some (t_members d !! k)) then Ok (0, d) else
  match violated (my_member_fk (cm_ChatID m) (cm_UserID m) d) with
  | Some _ => Ok (0, d)
  | None => Ok (1, set_members <[k := (role, stamp (cm_JoinedAt m))]> d)
  end.

Definition my_chat_AddMember (m : ChatMember) : ST world (res unit) :=
  let? n := db_Exec (q_my_chat_AddMember m) in affected ErrAlreadyChatMember n.

Definition my_chat_RemoveMember (c u : uuid) : ST world (res unit) :=
  let? n := db_Exec (q_chat_RemoveMember c u) in affected ErrNotChatMember n.

Definition my_chat_GetMember (c u : uuid) : ST world (res ChatMember) :=
  let* row := db_QueryRow (fun _ _ d => Ok (q_members (fun k => bool_decide (k = (c, u))) d, d)) in
  mret (row_or ErrNotChatMember (res_bind row my_scanMemberWithUser)).

Definition my_chat_GetMembers (c : uuid) : ST world (res (list ChatMember)) :=
  let? rows := db_Query (q_chat_GetMembers c) in mret (scan_rows my_scanMemberWithUser rows).

(** The row is not counted when the member has the role already. *)
Definition q_my_chat_UpdateMemberRole (c u : uuid) (role : MemberRole) : stmt Z := fun _ _ d =>
  match t_members d !! (c, u) with
  | None => Ok (0, d)
  | Some m =>
    if one_of member_role_enum role then
      Ok (if bool_decide (m.1 = role) then 0 else 1, set_members <[(c, u) := (role, m.2)]> d)
    else Err (BadEnum "role")
  end.

Definition my_chat_UpdateMemberRole (c u : uuid) (role : MemberRole) : ST world (res unit) :=
  let? n := db_Exec (q_my_chat_UpdateMemberRole c u role) in affected ErrNotChatMember n.

Definition my_chat_GetUserChats (u : uuid) : ST world (res (list ChatPreview)) :=
  let? rows := db_Query (q_chat_GetUserChats u) in mret (scan_rows scan_preview rows).

Definition my_chat_GetDirectChat (u1 u2 : uuid) : ST world (res Chat) :=
  let* row := db_QueryRow (q_chat_GetDirectChat u1 u2) in
  mret (row_or ErrChatNotFound (res_bind row my_scanChat)).

(** [SELECT EXISTS(...)] scanned as an integer. *)
Definition my_chat_IsMember (c u : uuid) : ST world (res bool) :=
  let? exists_ := db_QueryRow (fun _ _ d => Ok ([if bool_decide (is_Some (t_members d !! (c, u))) then 1 else 0], d)) in
  mret (Ok (exists_ =? 1)).

Definition my_NewChatRepository : ChatRepository (ST world) := {|
  chats_CreateWithMembers := my_chat_CreateWithMembers;
  chats_GetByID := my_chat_GetByID;
  chats_Update := my_chat_Update;
  chats_Delete := my_chat_Delete;
  chats_AddMember := my_chat_AddMember;
  chats_RemoveMember := my_chat_RemoveMember;
  chats_GetMember := my_chat_GetMember;
  chats_GetMembers := my_chat_GetMembers;
  chats_UpdateMemberRole := my_chat_UpdateMemberRole;
  chats_GetUserChats := my_chat_GetUserChats;
  chats_GetDirectChat := my_chat_GetDirectChat;
  chats_IsMember := my_chat_IsMember |}.
End ChatRepo.

(** ** message.go *)
Definition my_scanMessage (row : uuid * message_row) : res Message :=
  let '(id, r) := row in
  Ok (mkMessage id (mr_chat_id r) (mr_sender_id r) (mr_content r) (mr_type r) (mr_reply_to_id r)
        (mr_edited_at r) (mr_deleted_at r) (mr_created_at r) (mr_updated_at r) None [] None).

Definition my_scanMessageWithSender (row : (uuid * message_row) * (uuid * user_row)) : res Message :=
  let '((id, r), u) := row in
  res_bind (my_scanUserPublic u) (fun sender =>
  Ok (mkMessage id (mr_chat_id r) (mr_sender_id r) (mr_content r) (mr_type r) (mr_reply_to_id r)
        (mr_edited_at r) (mr_deleted_at r) (mr_created_at r) (mr_updated_at r) (Some sender) [] None)).

Definition my_scan_reaction (row : reaction_join) : res Reaction :=
  let '((m, u, emoji), created, ur) := row in
  Ok (mkReaction m u emoji created
        (Some (mkUser u (ur_username ur) "" "" (default "" (ur_avatar_url ur)) "" ""
                 Json.zero_Time Json.zero_Time Json.zero_Time))).

Section MessageRepo.
Context `{Env, UnicodeCI, Collation}.

Definition q_my_message_Create (m : Message) : stmt Z := fun _ _ d =>
  let r := mkMessageRow (msg_ChatID m) (msg_SenderID m) (msg_Content m) (msg_Type m)
             (msg_ReplyToID m) None None (stamp (msg_CreatedAt m)) (stamp (msg_UpdatedAt m)) in
  checked (my_message_checks r d
           ++ [(bool_decide (t_messages d !! msg_ID m = None), DuplicateKey "PRIMARY")]) 1
    (set_messages <[msg_ID m := r]> d).

Definition my_message_Create (m : Message) : ST world (res unit) :=
  let? _ := db_Exec (q_my_message_Create m) in mret (Ok tt).

Definition my_message_GetByID (id : uuid) : ST world (res Message) :=
  let* row := db_QueryRow (fun _ _ d =>
                Ok (select (fun k _ => bool_decide (k = id)) (t_messages d), d)) in
  mret (row_or ErrMessageNotFound (res_bind row my_scanMessage)).

Definition my_message_GetChatMessages (c : uuid) (cursor : option MessageCursor) (limit : Z) :
    ST world (res (list Message)) :=
  let? rows := db_Query (q_message_GetChatMessages c cursor limit) in
  mret (scan_rows my_scanMessageWithSender rows).

Definition q_my_message_Update (m : Message) : stmt Z := fun _ _ d =>
  update_counting changed message_live (msg_ID m) (t_messages d) (true, BadText)
    (fun r => mkMessageRow (mr_chat_id r) (mr_sender_id r) (msg_Content m) (mr_type r)
                (mr_reply_to_id r) (stamp <$> msg_EditedAt m) (mr_deleted_at r) (mr_created_at r)
                (stamp (msg_UpdatedAt m)))
    (fun r => my_message_checks r d) (fun r => set_messages <[msg_ID m := r]> d) d.

Definition my_message_Update (m : Message) : ST world (res unit) :=
  let? n := db_Exec (q_my_message_Update m) in affected ErrMessageNotFound n.

Definition q_my_message_Delete (id : uuid) : stmt Z := fun now _ d =>
  update_counting changed message_live id (t_messages d) (true, BadText)
    (fun r => mkMessageRow (mr_chat_id r) (mr_sender_id r) (mr_content r) (mr_type r)
                (mr_reply_to_id r) (mr_edited_at r) (Some (stamp now)) (mr_created_at r) (stamp now))
    (fun r => my_message_checks r d) (fun r => set_messages <[id := r]> d) d.

Definition my_message_Delete (id : uuid) : ST world (res unit) :=
  let? n := db_Exec (q_my_message_Delete id) in affected ErrMessageNotFound n.

(** [ON DUPLICATE KEY UPDATE last_read_at = NOW(6)] *)
Definition q_my_message_MarkRead (c u : uuid) : stmt Z := fun now _ d =>
  checked [(bool_decide (is_Some (t_chats d !! c)), ForeignKey "fk_crr_chat");
           (bool_decide (is_Some (t_users d !! u)), ForeignKey "fk_crr_user")] 1
    (set_receipts <[(c, u) := stamp now]> d).

Definition my_message_MarkRead (c u : uuid) : ST world (res unit) :=
  let? _ := db_Exec (q_my_message_MarkRead c u) in mret (Ok tt).

Definition my_message_GetUnreadCount (c u : uuid) : ST world (res Z) :=
  db_QueryRow (fun _ _ d => Ok ([Z.of_nat (length (unread_messages c u d))], d)).

(** The primary key compares emojis under the collation. *)
Definition my_reacted (m u : uuid) (e : string) (d : db) : bool :=
  existsb (fun kt => bool_decide (kt.1.1 = (m, u)) && same_text kt.1.2 e) (map_to_list (t_reactions d)).

(** [INSERT IGNORE INTO message_reactions] *)
Definition q_my_message_AddReaction (rx : Reaction) : stmt Z := fun _ _ d =>
  match my_emoji (rx_Emoji rx) with
  | None => Ok (0, d)
  | Some e =>
    if my_reacted (rx_MessageID rx) (rx_UserID rx) e d then Ok (0, d) else
    match violated [(bool_decide (is_Some (t_messages d !! rx_MessageID rx)), ForeignKey "fk_rxn_message");
                    (bool_decide (is_Some (t_users d !! rx_UserID rx)), ForeignKey "fk_rxn_user")] with
    | Some _ => Ok (0, d)
    | None => Ok (1, set_reactions <[(rx_MessageID rx, rx_UserID rx, e) := stamp (rx_CreatedAt rx)]> d)
    end
  end.

Definition my_message_AddReaction (rx : Reaction) : ST world (res unit) :=
  let? _ := db_Exec (q_my_message_AddReaction rx) in mret (Ok tt).

Definition q_my_message_RemoveReaction (m u : uuid) (emoji : string) : stmt Z := fun _ _ d =>
  let gone := fun kt : (uuid * uuid * string) * Time => kt.1.1 = (m, u) /\ same_text kt.1.2 emoji = true in
  Ok (Z.of_nat (size (filter gone (t_reactions d))),
      set_reactions (filter (fun kt => ~ gone kt)) d).

Definition my_message_RemoveReaction (m u : uuid) (emoji : string) : ST world (res unit) :=
  let? _ := db_Exec (q_my_message_RemoveReaction m u emoji) in mret (Ok tt).

Definition my_message_GetReactions (m : uuid) : ST world (res (list Reaction)) :=
  let? rows := db_Query (fun _ _ d =>
                 Ok (merge_sort reaction_le (q_reactions (fun k => bool_decide (k = m)) d), d)) in
  mret (scan_rows my_scan_reaction rows).

(** The query lists one placeholder per identifier. *)
Definition my_message_GetReactionsBatch (ids : list uuid) : ST world (res (gmap uuid (list Reaction))) :=
  match ids with
  | [] => mret (Ok ∅)
  | _ =>
    let? rows := db_Query (fun _ _ d =>
                   Ok (merge_sort reaction_batch_le (q_reactions (fun k => bool_decide (k ∈ ids)) d), d)) in
    mret (res_bind (scan_rows my_scan_reaction rows) (fun l => Ok (foldl append_reaction ∅ l)))
  end.

Definition my_NewMessageRepository : MessageRepository (ST world) := {|
  messages_Create := my_message_Create;
  messages_GetByID := my_message_GetByID;
  messages_GetChatMessages := my_message_GetChatMessages;
  messages_Update := my_message_Update;
  messages_Delete := my_message_Delete;
  messages_MarkRead := my_message_MarkRead;
  messages_GetUnreadCount := my_message_GetUnreadCount;
  messages_AddReaction := my_message_AddReaction;
  messages_RemoveReaction := my_message_RemoveReaction;
  messages_GetReactions := my_message_GetReactions;
  messages_GetReactionsBatch := my_message_GetReactionsBatch |}.
End MessageRepo.
