(* ===== verification/MysqlSpec.v ===== *)
(** * The MySQL repositories honour their contracts

    With the latitude the contracts leave to a lenient storage: an update that
    changes nothing is answered as a missing row, an insertion that refers to
    missing rows as a duplicate, and emojis the collation confuses are one. *)
From S2P Require Import Prelude Utf8 Domain Validate Json Store Schema World Sql SqlWf SqlRules SqlReads SqlWrites.
From S2P Require Import Mysql.
Open Scope Z_scope.

#[local] Existing Instances mysql user_row_eq_dec chat_row_eq_dec message_row_eq_dec.

(** ** The laws of the dialect *)
Lemma my_texts_ok l s : (my_texts l).1 = true -> s ∈ l -> text_ok s.
Proof. cbn. rewrite forallb_forall. intros Hl Hs. apply Hl. by apply list_elem_of_In. Qed.

Lemma my_null_text l o : (my_texts (texts_of l)).1 = true -> o ∈ l -> text_ok (default "" o).
Proof. intros Ht Ho. destruct o as [s|]; [|done]. apply (my_texts_ok _ s Ht). by apply elem_of_texts. Qed.

Lemma my_user_text id r : holds (my_user_checks r) -> user_text (user_of_row id r).
Proof.
  unfold my_user_checks. rewrite !holds_cons. intros (Ht & Hs & _).
  assert ((my_texts [ur_username r; ur_email r; ur_password_hash r]).1 = true /\
          (my_texts (texts_of [ur_avatar_url r; ur_bio r])).1 = true) as [H1 H2].
  { revert Ht. unfold my_texts. cbn [fst]. rewrite forallb_app. by intros [? ?]%andb_true_iff. }
  unfold user_text, user_of_row. cbn [user_Username user_Email user_PasswordHash user_AvatarURL user_Bio user_Status].
  repeat split; try (apply (my_texts_ok _ _ H1); rewrite !elem_of_cons; tauto);
    try (apply (my_null_text _ _ H2); rewrite !elem_of_cons; tauto).
  eapply enum_ok; [|exact Hs]. by repeat constructor.
Qed.

Lemma my_chat_text id r d : holds (my_chat_checks r d) -> chat_text (chat_of_row id r).
Proof.
  unfold my_chat_checks. rewrite !holds_cons. intros (Ht & Hs & _).
  unfold chat_text, chat_of_row. cbn [chat_Type chat_Name chat_AvatarURL chat_Description].
  split; [|repeat split; apply (my_null_text _ _ Ht); rewrite !elem_of_cons; auto].
  eapply enum_ok; [|exact Hs]. by repeat constructor.
Qed.

#[export] Instance mysql_laws `{U : UnicodeCI, L : !UnicodeCILaws U} : DialectLaws mysql.
Proof.
  split; cbn [driver_error dl_precision dl_text_eq user_ok chat_checks member_fk message_checks mysql].
  - by intros [].
  - by intros [].
  - apply ci_sym.
  - apply ci_trans.
  - intros t. unfold stamp; cbn. unfold my_stamp. rewrite Z.div_add_l by done. by rewrite Z.add_0_r.
  - intros r d d' (Hu & _ & _). unfold my_chat_checks. intros H. regrow H.
  - intros c u d d' (Hu & Hc & _). unfold my_member_fk. intros H. regrow H.
  - intros r d d' (Hu & Hc & Hm). unfold my_message_checks.
    destruct (mr_reply_to_id r); intros H; regrow H.
  - intros c u d. unfold my_member_fk. rewrite holds_cons. cbn. intros [Hc _]. by bool_prop.
  - intros r d. unfold my_message_checks. rewrite !holds_cons. cbn [fst].
    intros (_ & _ & _ & _ & _ & _ & Hs & _). by apply bool_decide_eq_true_1 in Hs.
  - apply my_user_text.
  - apply my_chat_text.
Qed.

(** ** The message of a duplicate names its index *)
Lemma prefix_refl s t : String.prefix s (s +:+ t) = true.
Proof.
  induction s as [|c s IH]; [by destruct t|]. change (String c s +:+ t) with (String c (s +:+ t)).
  cbn [String.prefix]. by destruct (Ascii.ascii_dec c c).
Qed.

Lemma Contains_app a s b : Contains (a +:+ s +:+ b) s = true.
Proof.
  induction a as [|c a IH].
  - change ("" +:+ s +:+ b) with (s +:+ b). pose proof (prefix_refl s b) as Hp.
    destruct (s +:+ b); cbn [Contains]; by rewrite Hp.
  - change (String c a +:+ s +:+ b) with (String c (a +:+ s +:+ b)). cbn [Contains].
    by rewrite IH, orb_true_r.
Qed.

Lemma string_assoc (a b c : string) : a +:+ b +:+ c = (a +:+ b) +:+ c.
Proof.
  induction a as [|x a IH]; [done|].
  change (String x (a +:+ b +:+ c) = String x ((a +:+ b) +:+ c)). by rewrite IH.
Qed.

(** The driver's message for a duplicate of an index. *)
Lemma duplicate_text ix entry :
  let m := "Duplicate entry '" +:+ entry +:+ "-1' for key 'users." +:+ ix +:+ "'" in Contains m ix = true.
Proof.
  cbv zeta. rewrite (string_assoc "Duplicate entry '"), (string_assoc _ "-1' for key 'users.").
  apply Contains_app.
Qed.

Lemma my_maps_constraints `{UnicodeCI} : maps_constraints my_mapUserConstraintErr my_user_checks.
Proof.
  split.
  - by intros t s.
  - intros [ix e|ix| | | | | |] Hv; try (by intros s). by destruct Hv as [-> | ->].
  - intros e. unfold my_mapUserConstraintErr, driver_error. cbn [mysql my_error as_MySQLError].
    change (1062 =? 1062) with true. cbv iota. by rewrite duplicate_text.
  - intros n. unfold my_mapUserConstraintErr, driver_error. cbn [mysql my_error as_MySQLError].
    change (1062 =? 1062) with true. cbv iota zeta. rewrite duplicate_text.
    destruct (Contains _ "uidx_users_email"); [by right|by left].
  - intros r v Hv%violated_In. unfold my_user_checks, my_texts in Hv. rewrite !elem_of_cons in Hv.
    destruct_or! Hv; try by injection Hv as _ ->. by apply not_elem_of_nil in Hv.
Qed.

(** ** The contracts *)
Lemma my_counts `{UnicodeCI} {R} `{EqDecision R} : counts (changed (R := R)).
Proof. intros r r'. unfold changed. case_decide as E; [|done]. by split. Qed.

Lemma my_nullable s : default "" (nullableStr s) = s.
Proof. unfold nullableStr. by case_bool_decide. Qed.

Section spec.
Context `{E : Env, C : Collation, U : UnicodeCI, L : !UnicodeCILaws U}.
Abbreviation inv := (over_db db_wf).

(** The statements whose effect is the package's own. *)
Lemma my_insert_chat c now ch d n d' :
  db_wf d -> q_my_insert_chat c now ch d = Ok (n, d') ->
  db_wf d' /\ t_chats d !! chat_ID c = None /\
  view_db d' = with_chats <[chat_ID c := stamp_chat c]> (view_db d).
Proof using L.
  intros Hd (Hok & _ & ->)%checked_Ok. apply holds_pkey in Hok as [Hchat Hfresh]. bool_prop.
  split; [by apply wf_set_chat|]. split; [done|]. rewrite view_set_chat_live by done.
  unfold chat_of_row. cbn. by rewrite !my_nullable.
Qed.

Lemma my_insert_member m now ch d n d' :
  db_wf d -> q_my_insert_member m now ch d = Ok (n, d') ->
  db_wf d' /\ view_db d' = add_member (stamp_member m) (view_db d).
Proof using L.
  intros Hd (Hok & _ & ->)%checked_Ok. rewrite holds_app, !holds_cons in Hok.
  destruct Hok as [(Hr & _ & _) Hfk]. split; [by apply wf_set_member|done].
Qed.

(** A missing reference, in the view. *)
Lemma orphan_member c u d v :
  violated (my_member_fk c u d) = Some v -> st_chats (view_db d) !! c = None \/ st_users (view_db d) !! u = None.
Proof using.
  unfold my_member_fk. cbn [violated]. case_bool_decide as Hc.
  - case_bool_decide as Hu; [done|]. intros _. right. apply live_users_None. intros r Hr. destruct Hu. by eexists.
  - intros _. left. apply live_chats_None. intros r Hr. destruct Hc. by eexists.
Qed.

Lemma my_AddMember m :
  known_role (cm_Role m) ->
  honours inv view (my_chat_AddMember m)
    (fun d _ d' => ~ is_member d (cm_ChatID m) (cm_UserID m) /\ d' = add_member (stamp_member m) d)
    (already_member m).
Proof using L.
  intros Hrole. apply (affected_stmt _ _
    (fun d d' => ~ is_member d (cm_ChatID m) (cm_UserID m) /\ d' = add_member (stamp_member m) d)
    (fun d => is_member d (cm_ChatID m) (cm_UserID m) \/ (lenient /\ _))). intros now ch d Hd.
  unfold q_my_chat_AddMember. cbv zeta. case_bool_decide as Hm.
  - split; [done|]. split; [done|]. by left.
  - destruct (violated _) as [v|] eqn:Hfk.
    + split; [done|]. split; [done|]. right. split; [done|]. by eapply orphan_member.
    + assert (one_of member_role_enum (cm_Role m) = true) as Hr by exact (bool_decide_eq_true_2 _ Hrole).
      rewrite Hr. split; [by apply wf_set_member|]. done.
Qed.

Lemma my_UpdateMemberRole c u r :
  honours inv view (my_chat_UpdateMemberRole c u r)
    (fun d _ d' => is_member d c u /\ d' = set_role c u r d) (role_unset c u r).
Proof using L.
  apply (affected_stmt _ _ (fun d d' => is_member d c u /\ d' = set_role c u r d)
    (fun d => ~ is_member d c u \/ (lenient /\ _))). intros now ch d Hd.
  unfold q_my_chat_UpdateMemberRole. destruct (t_members d !! (c, u)) as [m|] eqn:Hm.
  2:{ split; [done|]. split; [done|]. left. unfold is_member. cbn. rewrite Hm. by intros []. }
  destruct (one_of _ _) eqn:Hr; [|done].
  destruct (set_role_row c u r m d Hd Hm Hr) as [Hwf Hview]. split; [done|]. case_bool_decide as Hs; cbn.
  - assert (set_members <[(c, u) := (r, m.2)]> d = d) as Hsame.
    { unfold set_members. rewrite insert_id; [by destruct d|]. rewrite Hm. by rewrite <- Hs, <- surjective_pairing. }
    split; [exact (f_equal view_db Hsame)|]. right. split; [done|]. rewrite <- Hview. exact (f_equal view_db Hsame).
  - split; [by eexists|done].
Qed.

Lemma my_reacted_spec m u e d : my_reacted m u e d = true <-> reacted (view_db d) m u e.
Proof using.
  unfold my_reacted, reacted. rewrite existsb_exists. split.
  - intros ([[k e'] t] & Hin%list_elem_of_In%elem_of_map_to_list & Hp). cbn in Hp. bool_prop. subst k.
    exists e'. split; [by eexists|done].
  - intros (e' & [t Ht] & Hs). exists (((m, u), e'), t).
    split; [by apply list_elem_of_In, elem_of_map_to_list|]. cbn. by rewrite bool_decide_eq_true_2.
Qed.

Lemma my_AddReaction r :
  honours inv view (my_message_AddReaction r)
    (fun d _ d' => add_reaction (rx_MessageID r) (rx_UserID r) (rx_Emoji r) (stamp (rx_CreatedAt r)) d d') never.
Proof using L.
  apply (exec_stmt _ (add_reaction (rx_MessageID r) (rx_UserID r) (rx_Emoji r) (stamp (rx_CreatedAt r)))).
  intros now c d Hd. unfold q_my_message_AddReaction, add_reaction.
  cbn [kept_emoji dl_latitude mysql]. destruct (my_emoji (rx_Emoji r)) as [e|]; [|done].
  destruct (my_reacted _ _ _ _) eqn:Hre.
  { split; [done|]. left. split; [by apply my_reacted_spec|done]. }
  assert (~ reacted (view_db d) (rx_MessageID r) (rx_UserID r) e) as Hno
    by (rewrite <- my_reacted_spec; congruence).
  cbn [violated]. case_bool_decide as Hm; [case_bool_decide as Hu|].
  - split; [by apply wf_set_reaction|]. right. by left.
  - split; [done|]. right. right. split; [done|]. split; [right|done]. apply live_users_None.
    intros ur Hr. destruct Hu. by eexists.
  - split; [done|]. right. right. split; [done|]. split; [left|done]. cbn. rewrite lookup_all_messages.
    by apply eq_None_not_Some in Hm as ->.
Qed.

Lemma my_IsMember c u :
  reads inv view (my_chat_IsMember c u) (fun d b => b = bool_decide (is_member d c u)) never.
Proof using L.
  change (reads inv view (let* rows := db_Query (fun _ _ d =>
      Ok ([if bool_decide (is_Some (t_members d !! (c, u))) then 1 else 0], d)) in
    match first_row rows with Ok n => mret (Ok (n =? 1)) | Err e => mret (Err e) end)
    (fun d b => b = bool_decide (is_member d c u)) never).
  apply reads_stmt; [|intros t; settle; split; [done|]; cbn; auto with vibe].
  intros now ch d Hd. split; [done|]. settle. split; [done|]. unfold is_member. cbn. by repeat case_bool_decide.
Qed.

Lemma my_scanUser_ok id r : user_ok r -> my_scanUser (id, r) = Ok (user_of_row id r).
Proof using. done. Qed.

Lemma my_looks_up p : looks_up (q_my_user_by p) p.
Proof using. by intros now c d. Qed.

#[export] Instance my_user_spec : UserRepositorySpec inv view my_NewUserRepository.
Proof using L.
  split; cbn [users_Create users_GetByID users_GetByEmail users_GetByUsername users_Update users_UpdateStatus
    users_Search users_Delete my_NewUserRepository]; intros.
  - eapply (user_create_honours my_mapUserConstraintErr my_user_checks my_maps_constraints);
      [| | | |reflexivity]; [by right|done| |done].
    unfold user_of_row. cbn. by rewrite !my_nullable.
  - apply (user_by_id my_scanUser my_scanUser_ok), my_looks_up.
  - eapply (user_by_text my_scanUser my_scanUser_ok _ ur_email); [done|apply my_looks_up].
  - eapply (user_by_text my_scanUser my_scanUser_ok _ ur_username); [done|apply my_looks_up].
  - eapply (user_update_honours my_mapUserConstraintErr my_user_checks my_maps_constraints);
      [apply my_counts| | | |reflexivity]; [done|done|].
    intros r. unfold user_of_row, patch_user, stamp_user. cbn. by rewrite !my_nullable.
  - eapply (user_status_honours my_user_checks id s t _ changed _ stamp); [| |reflexivity]; done.
  - eapply (search_reads my_scanUserPublic); [done|by intros k r [_ ?]%andb_true_iff|].
    intros now c d. unfold q_my_user_Search. by destruct (violated _).
  - eapply (user_delete_honours my_user_checks); [|reflexivity]. done.
Qed.

#[export] Instance my_chat_spec : ChatRepositorySpec inv view my_NewChatRepository.
Proof using L.
  split; cbn [chats_CreateWithMembers chats_GetByID chats_Update chats_Delete chats_AddMember chats_RemoveMember
    chats_GetMember chats_GetMembers chats_UpdateMemberRole chats_GetUserChats chats_GetDirectChat chats_IsMember
    my_NewChatRepository].
  - intros c ms _ _. apply create_with_members_honours; [by intros now ch d n d' Hd ?; apply (my_insert_chat c now ch _ n)|].
    intros m now ch d n d' Hd ?. by apply (my_insert_member m now ch _ n).
  - intros id. by apply chat_by_id.
  - intros c. eapply chat_update_honours; [apply my_counts| | |reflexivity]; [done|].
    intros r. unfold chat_of_row, patch_chat, stamp_chat. cbn. by rewrite !my_nullable.
  - intros id. eapply chat_delete_honours; [|reflexivity]. done.
  - apply my_AddMember.
  - intros c u. apply remove_member_honours.
  - intros c u. apply member_reads. by intros [[[? ?] [? ?]] ?] _.
  - intros c. apply members_reads. by intros [[[? ?] [? ?]] ?] _.
  - intros c u r. apply my_UpdateMemberRole.
  - intros u. apply user_chats_reads.
  - intros a b. by apply direct_chat_reads.
  - intros c u. apply my_IsMember.
Qed.

#[export] Instance my_message_spec : MessageRepositorySpec inv view my_NewMessageRepository.
Proof using L.
  split; cbn [messages_Create messages_GetByID messages_GetChatMessages messages_Update messages_Delete
    messages_MarkRead messages_GetUnreadCount messages_AddReaction messages_RemoveReaction messages_GetReactions
    messages_GetReactionsBatch my_NewMessageRepository].
  - intros m. eapply message_create_honours; [|reflexivity]. done.
  - intros id. apply message_by_id. by intros [? ?].
  - intros c cursor limit. apply history_reads. by intros [[? ?] [? ?]] _.
  - intros m. eapply message_update_honours; [apply my_counts| | |reflexivity]; done.
  - intros id. eapply (message_delete_honours id _ changed _ stamp); [| |reflexivity]; [|done].
    intros r r'. unfold changed. by case_decide as Er; [rewrite Er|].
  - intros c u. apply mark_read_honours. intros now ch d n d'. unfold q_my_message_MarkRead.
    by intros (_ & _ & ->)%checked_Ok.
  - intros c u. apply unread_reads.
  - intros r. apply my_AddReaction.
  - intros m u e. apply remove_reaction_honours. by intros now ch d n d' [= _ <-].
  - intros m. apply reactions_reads. by intros [[[[? ?] ?] ?] ?] _.
  - intros ids. apply batch_reads. by intros [[[[? ?] ?] ?] ?] _.
Qed.
End spec.
