(* ===== verification/Storage.v ===== *)
(** * The storage of the application

    [infrastructure/storage]: the repositories of whichever server the
    configuration names, and the contracts both implementations honour. *)
From S2P Require Import Prelude Domain Config Store Schema World.
From S2P Require Import Sql SqlWf Postgres PostgresSpec Mysql MysqlSpec.
Open Scope Z_scope.

(** ** storage.go *)

Record Storage : Type := mkStorage {
  Users : UserRepository (ST world);
  Chats : ChatRepository (ST world);
  Messages : MessageRepository (ST world);
  storage_Ping : ST world (res unit) }.

(** The state every theorem starts from: tables that satisfy their schema. *)
Abbreviation db_ok := (over_db db_wf).

#[export] Instance db_ok_env `{Env} (D : Dialect) : EnvSpec db_ok view := world_env_spec db_wf.

(** The drivers: whether a data source name can be opened. *)
Class Pools : Type := {
  pgxpool_ParseConfig : string -> res unit;
  pgxpool_NewWithConfig : string -> res unit;
  sql_Open : string -> res unit }.

Section storage.
Context `{E : Env, C : Collation, U : UnicodeCI}.

Definition dialect (t : Driver) : Dialect := match t with TypePostgres => postgres | TypeMySQL => mysql end.

(** An empty statement. *)
Definition ping (D : Dialect) : ST world (res unit) := run_stmt driver_error (fun _ _ d => Ok (tt, d)).

(** [fmt.Errorf("<name>: %w", err)]. *)
Definition named {A} (name : string) (r : res A) : res A :=
  match r with Ok a => Ok a | Err e => Err (Wrap (name +:+ ": ") e "") end.

(** The repositories over one pool of connections. *)
Definition storage_of (t : Driver) : Storage :=
  match t with
  | TypePostgres => mkStorage NewUserRepository NewChatRepository NewMessageRepository (ping postgres)
  | TypeMySQL => mkStorage my_NewUserRepository my_NewChatRepository my_NewMessageRepository (ping mysql)
  end.

Context `{Strconv, Pools}.

Definition postgres_NewPool (cfg : PostgresConfig) : ST world (res unit) :=
  let dsn := postgres_DSN cfg in
  let? _ := mret (named "postgres: parse config" (pgxpool_ParseConfig dsn)) in
  let? _ := mret (named "postgres: connect" (pgxpool_NewWithConfig dsn)) in
  let* r := ping postgres in
  mret (named "postgres: ping" r).

Definition mysql_NewDB (cfg : MysqlConfig) : ST world (res unit) :=
  let? _ := mret (named "mysql: open" (sql_Open (mysql_DSN cfg))) in
  let* r := ping mysql in
  mret (named "mysql: ping" r).

Definition storage_New (cfg : StorageConfig) : ST world (res Storage) :=
  match storage_driver cfg with
  | Some TypePostgres =>
    match storage_Postgres cfg with
    | None => mret (Err (Other ("storage: postgres config required for type " +:+ Quote (storage_Type cfg))))
    | Some p => let? _ := postgres_NewPool p in mret (Ok (storage_of TypePostgres))
    end
  | Some TypeMySQL =>
    match storage_MySQL cfg with
    | None => mret (Err (Other ("storage: mysql config required for type " +:+ Quote (storage_Type cfg))))
    | Some m => let? _ := mysql_NewDB m in mret (Ok (storage_of TypeMySQL))
    end
  | None => mret (Err (Other ("storage: unknown type " +:+ Quote (storage_Type cfg))))
  end.
End storage.

(** ** Both implementations honour the contracts *)
Section contracts.
Context `{E : Env, C : Collation, U : UnicodeCI} {UL : UnicodeCILaws U} (t : Driver).

#[local] Instance chosen : Dialect := dialect t.

#[export] Instance storage_laws : DialectLaws (dialect t).
Proof using UL. destruct t; apply _. Qed.

#[export] Instance storage_users : UserRepositorySpec db_ok view (Users (storage_of t)).
Proof using UL. unfold chosen. destruct t; apply _. Qed.

#[export] Instance storage_chats : ChatRepositorySpec db_ok view (Chats (storage_of t)).
Proof using UL. unfold chosen. destruct t; apply _. Qed.

#[export] Instance storage_messages : MessageRepositorySpec db_ok view (Messages (storage_of t)).
Proof using UL. unfold chosen. destruct t; apply _. Qed.
End contracts.
