(* ===== verification/ChatContract.v ===== *)
(** * What the chat service promises

    The membership protocol as a step relation on the abstract store: each
    constructor is one authorised change.  [ChatRefinement] proves that every
    call of the service, whatever fails underneath, is a sequence of such steps;
    this file proves the invariants of the protocol by induction on them. *)
From S2P Require Import Prelude Domain ChatUsecase Store.
Open Scope Z_scope.

(** A live chat that is not a direct one. *)
Definition live_group (d : store) (c : uuid) : Prop :=
  exists chat, st_chats d !! c = Some chat /\ IsDirect chat = false.

Definition manages (d : store) (c u : uuid) : Prop :=
  exists r, role_of d c u = Some r /\ CanManageMembers r = true.

(** A live direct chat the two users share. *)
Definition shares_direct (d : store) (a b c : uuid) : Prop :=
  exists chat, st_chats d !! c = Some chat /\ chat_Type chat = ChatTypeDirect /\
    is_member d c a /\ is_member d c b.

(** [ho] says whether the ownership may be in transit: with [ho = true] the steps
    of an owner who hands over and leaves are included. *)
Inductive chat_step (ho : bool) (caller : uuid) (d : store) : store -> Prop :=
| act_create_direct id target now :
    caller <> target -> is_Some (st_users d !! target) -> fresh_chat d id ->
    (forall c, ~ shares_direct d caller target c) ->
    chat_step ho caller d
      (create_chat (mkChat id ChatTypeDirect "" "" "" caller now now)
         [mkChatMember id caller MemberRoleMember now None;
          mkChatMember id target MemberRoleMember now None] d)
| act_create_group i id now :
    CreateGroupInput_Validate i = None ->
    (forall u, u ∈ cgi_MemberIDs i -> u <> caller -> is_Some (st_users d !! u)) ->
    fresh_chat d id ->
    chat_step ho caller d
      (create_chat (mkChat id ChatTypeGroup (cgi_Name i) "" (cgi_Description i) caller now now)
         (group_members id caller now (cgi_MemberIDs i)) d)
| act_update_group c chat i now :
    UpdateGroupInput_Validate i = None ->
    st_chats d !! c = Some chat -> IsDirect chat = false -> manages d c caller ->
    chat_step ho caller d (with_chats (alter (patch_chat (apply_update i now chat)) c) d)
| act_add_member c u now :
    live_group d c -> manages d c caller -> is_Some (st_users d !! u) -> ~ is_member d c u ->
    chat_step ho caller d (add_member (mkChatMember c u MemberRoleMember now None) d)
| act_remove_member c u rc ru :
    live_group d c -> role_of d c caller = Some rc -> CanManageMembers rc = true ->
    role_of d c u = Some ru -> ru <> MemberRoleOwner ->
    (ru = MemberRoleAdmin -> rc = MemberRoleOwner) ->
    chat_step ho caller d (remove_member c u d)
| act_change_role c u r :
    role_of d c caller = Some MemberRoleOwner -> u <> caller -> is_member d c u ->
    r ∈ [MemberRoleAdmin; MemberRoleMember] ->
    chat_step ho caller d (set_role c u r d)
| act_promote c u :
    ho = true ->
    live_group d c -> role_of d c caller = Some MemberRoleOwner -> u <> caller ->
    is_member d c u ->
    chat_step ho caller d (set_role c u MemberRoleOwner d)
| act_leave c r :
    live_group d c -> role_of d c caller = Some r ->
    (r = MemberRoleOwner -> ho = true /\
       exists u, u <> caller /\ role_of d c u = Some MemberRoleOwner) ->
    chat_step ho caller d (remove_member c caller d)
| act_close c :
    live_group d c -> role_of d c caller = Some MemberRoleOwner ->
    (forall u, u <> caller -> is_member d c u -> st_users d !! u = None) ->
    chat_step ho caller d (with_chats (delete c) d).

(** ** Lookups in the store after a step *)

Lemma role_of_is_member d c u r : role_of d c u = Some r -> is_member d c u.
Proof. unfold role_of, is_member. destruct (_ !! _); [eauto|done]. Qed.

Lemma is_member_role d c u : is_member d c u <-> exists r, role_of d c u = Some r.
Proof.
  unfold role_of, is_member. destruct (_ !! _) as [[r t]|]; cbn; split; intros [x Hx]; done || eauto.
Qed.

Lemma set_role_role c u r d c' u' :
  role_of (set_role c u r d) c' u' =
  if decide ((c, u) = (c', u')) then (fun _ => r) <$> role_of d c' u' else role_of d c' u'.
Proof.
  unfold role_of, set_role. cbn. rewrite lookup_alter. case_decide; [|done].
  simplify_eq. by destruct (_ !! _).
Qed.

Lemma remove_member_role c u d c' u' :
  role_of (remove_member c u d) c' u' =
  if decide ((c, u) = (c', u')) then None else role_of d c' u'.
Proof. unfold role_of, remove_member. cbn. rewrite lookup_delete. by case_decide. Qed.

Lemma add_member_role m d c' u' :
  role_of (add_member m d) c' u' =
  if decide ((cm_ChatID m, cm_UserID m) = (c', u')) then Some (cm_Role m) else role_of d c' u'.
Proof. unfold role_of, add_member. cbn. rewrite lookup_insert. by case_decide. Qed.

Lemma insert_members_cons m ms t :
  insert_members (m :: ms) t = insert_members ms (<[(member_row m).1 := (member_row m).2]> t).
Proof. done. Qed.

Lemma insert_members_other ms t k :
  k ∉ (fun m => (member_row m).1) <$> ms -> insert_members ms t !! k = t !! k.
Proof.
  revert t. induction ms as [|m ms IH]; intros t Hk; [done|].
  rewrite fmap_cons, not_elem_of_cons in Hk. destruct Hk as [Hne Hk].
  by rewrite insert_members_cons, IH, lookup_insert_ne.
Qed.

Lemma insert_members_in ms t m :
  NoDup ((fun m => (member_row m).1) <$> ms) -> m ∈ ms ->
  insert_members ms t !! (member_row m).1 = Some (member_row m).2.
Proof.
  revert t. induction ms as [|m' ms IH]; intros t Hnd Hin; [by apply not_elem_of_nil in Hin|].
  apply NoDup_cons in Hnd as [Hni Hnd]. rewrite insert_members_cons.
  apply elem_of_cons in Hin as [->|Hin]; [|by apply IH].
  rewrite insert_members_other by done. apply lookup_insert_eq.
Qed.

(** Members created for one chat: the keys are distinct when the users are. *)
Lemma member_keys_NoDup c ms :
  Forall (fun m => cm_ChatID m = c) ms -> NoDup (cm_UserID <$> ms) ->
  NoDup ((fun m => (member_row m).1) <$> ms).
Proof.
  intros Hc Hnd.
  assert ((fun m => (member_row m).1) <$> ms = pair c <$> (cm_UserID <$> ms)) as ->.
  { rewrite <- list_fmap_compose. apply list_fmap_ext. intros i m Hm. cbn.
    rewrite Forall_lookup in Hc. by rewrite (Hc i m Hm). }
  apply NoDup_fmap_2; [|done]. by intros u v [= ->].
Qed.

Lemma create_chat_role c ms d c' u' :
  Forall (fun m => cm_ChatID m = chat_ID c) ms -> NoDup (cm_UserID <$> ms) ->
  fresh_chat d (chat_ID c) ->
  role_of (create_chat c ms d) c' u' =
  if decide (c' = chat_ID c)
  then (fun p => cm_Role p.2) <$> list_find (fun m => cm_UserID m = u') ms
  else role_of d c' u'.
Proof.
  intros Hc Hnd [_ Hf]. unfold role_of, create_chat. cbn. case_decide as E.
  - subst c'. destruct (list_find _ ms) as [[i m]|] eqn:F; cbn.
    + apply list_find_Some in F as (Hi & Hu & _).
      assert (chat_ID c = cm_ChatID m) as Hcm.
      { rewrite Forall_lookup in Hc. by rewrite (Hc i m Hi). }
      rewrite Hcm, <- Hu. change (cm_ChatID m, cm_UserID m) with (member_row m).1.
      rewrite insert_members_in; [done|by eapply member_keys_NoDup|].
      by apply list_elem_of_lookup_2 in Hi.
    + apply list_find_None in F. rewrite insert_members_other; [by rewrite Hf|].
      intros (m & Hm & Hin)%list_elem_of_fmap. rewrite Forall_forall in F.
      cbn in Hm. simplify_eq. by apply (F m).
  - rewrite insert_members_other; [done|].
    intros (m & Hm & Hin)%list_elem_of_fmap. cbn in Hm. simplify_eq.
    rewrite Forall_forall in Hc. by rewrite (Hc m Hin) in E.
Qed.

(** ** The protocol invariant *)

Definition valid_role (r : MemberRole) : Prop :=
  r ∈ [MemberRoleOwner; MemberRoleAdmin; MemberRoleMember].

(** What holds of one chat: a live group has an owner; a live direct chat has
    exactly two members, both plain; every role is one of the three. *)
Record chat_ok (d : store) (c : uuid) : Prop := {
  ok_owner : live_group d c -> exists u, role_of d c u = Some MemberRoleOwner;
  ok_direct : forall chat, st_chats d !! c = Some chat -> chat_Type chat = ChatTypeDirect ->
    exists a b, a <> b /\
      forall u, role_of d c u = if decide (u = a \/ u = b) then Some MemberRoleMember else None;
  ok_roles : forall u r, role_of d c u = Some r -> valid_role r }.

Definition direct_unique (d : store) : Prop :=
  forall a b c1 c2, a <> b -> shares_direct d a b c1 -> shares_direct d a b c2 -> c1 = c2.

Definition chat_wf (d : store) : Prop := (forall c, chat_ok d c) /\ direct_unique d.

(** Everything outside chat [c0] is as before. *)
Definition only_chat (c0 : uuid) (d d' : store) : Prop :=
  (forall c, c <> c0 -> st_chats d' !! c = st_chats d !! c) /\
  (forall c u, c <> c0 -> role_of d' c u = role_of d c u).

Lemma shares_direct_role d a b c :
  shares_direct d a b c <->
  exists chat, st_chats d !! c = Some chat /\ chat_Type chat = ChatTypeDirect /\
    (exists r, role_of d c a = Some r) /\ (exists r, role_of d c b = Some r).
Proof. unfold shares_direct. by setoid_rewrite is_member_role. Qed.

Lemma only_chat_live c0 d d' c :
  only_chat c0 d d' -> c <> c0 -> live_group d' c <-> live_group d c.
Proof. intros [Hc _] Hne. unfold live_group. by rewrite Hc. Qed.

Lemma only_chat_shares c0 d d' a b c :
  only_chat c0 d d' -> c <> c0 -> shares_direct d' a b c <-> shares_direct d a b c.
Proof. intros [Hc Hr] Hne. by rewrite !shares_direct_role, Hc, !Hr. Qed.

(** The invariant has to be checked at the touched chat only. *)
Lemma chat_wf_local c0 d d' :
  chat_wf d -> only_chat c0 d d' -> chat_ok d' c0 ->
  (forall a b c, a <> b -> shares_direct d' a b c0 -> shares_direct d' a b c -> c = c0) ->
  chat_wf d'.
Proof.
  intros [Hok Huniq] Hloc H0 Hu0. split.
  - intros c. destruct (decide (c = c0)) as [->|Hne]; [done|].
    destruct (Hok c) as [Ho Hd Hr]. destruct Hloc as [Hc Hrole] eqn:E.
    split; [rewrite (only_chat_live c0) by done|rewrite Hc by done|];
      setoid_rewrite Hrole; done.
  - intros a b c1 c2 Hab H1 H2.
    destruct (decide (c1 = c0)) as [->|?]; [symmetry; by apply (Hu0 a b)|].
    destruct (decide (c2 = c0)) as [->|?]; [by apply (Hu0 a b)|].
    rewrite (only_chat_shares c0 d) in H1, H2 by done. by apply (Huniq a b).
Qed.

(** A step on a live group that keeps the chat row's type needs an owner and
    valid roles afterwards, nothing else. *)
Lemma chat_wf_group c0 chat d d' :
  chat_wf d -> only_chat c0 d d' ->
  st_chats d' !! c0 = Some chat -> IsDirect chat = false ->
  (exists u, role_of d' c0 u = Some MemberRoleOwner) ->
  (forall u r, role_of d' c0 u = Some r -> valid_role r) ->
  chat_wf d'.
Proof.
  intros Hwf Hloc Hc Ht Ho Hr. unfold IsDirect in Ht. bool_prop.
  apply (chat_wf_local c0 d); [done..| |].
  - split; [done|congruence|done].
  - intros a b c _ (chat' & Hc' & Ht' & _). congruence.
Qed.

Lemma valid_member : valid_role MemberRoleMember.
Proof. unfold valid_role. rewrite !elem_of_cons. auto. Qed.
Lemma valid_owner : valid_role MemberRoleOwner.
Proof. unfold valid_role. rewrite !elem_of_cons. auto. Qed.
#[export] Hint Resolve valid_member valid_owner : vibe.

Lemma only_chat_members c0 f d :
  (forall c u, c <> c0 -> f (st_members d) !! (c, u) = st_members d !! (c, u)) ->
  only_chat c0 d (with_members f d).
Proof. intros Hf. split; [done|]. intros c u Hne. unfold role_of. cbn. by rewrite Hf. Qed.

Lemma only_chat_remove c u d : only_chat c d (remove_member c u d).
Proof. apply only_chat_members. intros c' u' Hne. apply lookup_delete_ne. congruence. Qed.

Lemma only_chat_set_role c u r d : only_chat c d (set_role c u r d).
Proof. apply only_chat_members. intros c' u' Hne. apply lookup_alter_ne. congruence. Qed.

Lemma only_chat_add m d : only_chat (cm_ChatID m) d (add_member m d).
Proof. apply only_chat_members. intros c' u' Hne. apply lookup_insert_ne. cbn. congruence. Qed.

Lemma only_chat_update c f d : only_chat c d (with_chats (alter f c) d).
Proof. split; [|done]. intros c' Hne. by apply lookup_alter_ne. Qed.

Lemma only_chat_delete c d : only_chat c d (with_chats (delete c) d).
Proof. split; [|done]. intros c' Hne. by apply lookup_delete_ne. Qed.

Lemma only_chat_create c ms d :
  Forall (fun m => cm_ChatID m = chat_ID c) ms -> NoDup (cm_UserID <$> ms) ->
  fresh_chat d (chat_ID c) -> only_chat (chat_ID c) d (create_chat c ms d).
Proof.
  intros Hc Hnd Hf. split.
  - intros c' Hne. by apply lookup_insert_ne.
  - intros c' u Hne. rewrite create_chat_role by done. by rewrite decide_False.
Qed.
#[export] Hint Resolve only_chat_remove only_chat_set_role only_chat_update
  only_chat_delete : vibe.

(** ** The initial members of a group *)

Lemma dedup_members_users c now seen ids u :
  u ∈ cm_UserID <$> dedup_members c now seen ids <-> u ∈ ids /\ u ∉ seen.
Proof.
  revert seen. induction ids as [|x ids IH]; intros seen; cbn.
  - rewrite !elem_of_nil. tauto.
  - case_bool_decide as Hx; rewrite ?fmap_cons, !elem_of_cons, IH; cbn.
    + split; [tauto|]. intros [[->|?] ?]; tauto.
    + rewrite not_elem_of_union, not_elem_of_singleton. destruct (decide (u = x)) as [->|]; tauto.
Qed.

Lemma dedup_members_NoDup c now seen ids :
  NoDup (cm_UserID <$> dedup_members c now seen ids).
Proof.
  revert seen. induction ids as [|x ids IH]; intros seen; cbn; [constructor|].
  case_bool_decide; [apply IH|]. rewrite fmap_cons. constructor; [|apply IH].
  rewrite dedup_members_users, not_elem_of_union, not_elem_of_singleton. tauto.
Qed.

Lemma dedup_members_all c now seen ids :
  Forall (fun m => cm_ChatID m = c /\ cm_Role m = MemberRoleMember) (dedup_members c now seen ids).
Proof.
  revert seen. induction ids as [|x ids IH]; intros seen; cbn; [constructor|].
  case_bool_decide; [apply IH|]. by constructor.
Qed.

Lemma group_members_chat c caller now ids :
  Forall (fun m => cm_ChatID m = c) (group_members c caller now ids).
Proof.
  constructor; [done|]. eapply Forall_impl; [apply dedup_members_all|]. by intros m [].
Qed.

Lemma group_members_NoDup c caller now ids :
  NoDup (cm_UserID <$> group_members c caller now ids).
Proof.
  unfold group_members. rewrite fmap_cons. constructor; [|apply dedup_members_NoDup].
  rewrite dedup_members_users, not_elem_of_singleton. tauto.
Qed.

Lemma find_member_role (ms : list ChatMember) u (P : ChatMember -> Prop) :
  u ∈ cm_UserID <$> ms -> Forall P ms ->
  exists m, (fun p => cm_Role p.2) <$> list_find (fun m => cm_UserID m = u) ms = Some (cm_Role m)
    /\ P m.
Proof.
  intros Hu HP. destruct (list_find (fun m => cm_UserID m = u) ms) as [[i m]|] eqn:F.
  - apply list_find_Some in F as (Hi & _ & _). exists m. split; [done|].
    rewrite Forall_lookup in HP. by eapply HP.
  - apply list_find_None in F. apply list_elem_of_fmap in Hu as (m & -> & Hm).
    rewrite Forall_forall in F. by destruct (F m Hm).
Qed.

Lemma find_member_none (ms : list ChatMember) u :
  u ∉ cm_UserID <$> ms -> list_find (fun m => cm_UserID m = u) ms = None.
Proof.
  intros Hu. apply list_find_None, Forall_forall. intros m Hm <-. apply Hu.
  by apply list_elem_of_fmap_2.
Qed.

(** The roles of a freshly created group. *)
Definition group_role (caller : uuid) (ids : list uuid) (u : uuid) : option MemberRole :=
  if decide (u = caller) then Some MemberRoleOwner
  else if decide (u ∈ ids) then Some MemberRoleMember else None.

Lemma create_group_role chat caller now ids d u :
  fresh_chat d (chat_ID chat) ->
  role_of (create_chat chat (group_members (chat_ID chat) caller now ids) d) (chat_ID chat) u =
  group_role caller ids u.
Proof.
  intros Hf. rewrite create_chat_role;
    [|apply group_members_chat|apply group_members_NoDup|done].
  rewrite decide_True by done. unfold group_members, group_role. cbn [list_find cm_UserID].
  destruct (decide (u = caller)) as [->|Hne]; [by rewrite decide_True|].
  rewrite decide_False by congruence.
  destruct (decide (u ∈ ids)) as [Hin|Hni].
  - destruct (find_member_role (dedup_members (chat_ID chat) now {[caller]} ids) u
               (fun m => cm_Role m = MemberRoleMember)) as (m & E & Hm).
    + rewrite dedup_members_users, not_elem_of_singleton. tauto.
    + eapply Forall_impl; [apply dedup_members_all|]. by intros ? [].
    + rewrite <- Hm, <- E. by destruct (list_find _ _) as [[]|].
  - rewrite find_member_none; [done|]. rewrite dedup_members_users. tauto.
Qed.

Lemma create_direct_role chat a b now d u :
  a <> b -> fresh_chat d (chat_ID chat) ->
  role_of (create_chat chat
     [mkChatMember (chat_ID chat) a MemberRoleMember now None;
      mkChatMember (chat_ID chat) b MemberRoleMember now None] d) (chat_ID chat) u =
  if decide (u = a \/ u = b) then Some MemberRoleMember else None.
Proof.
  intros Hab Hf. rewrite create_chat_role; [|by repeat constructor| |done].
  - rewrite decide_True by done. cbn [list_find cm_UserID].
    destruct (decide (u = a)) as [->|Ha]; [by rewrite !decide_True by auto|].
    rewrite (decide_False (P := a = u)) by congruence.
    destruct (decide (u = b)) as [->|Hb]; [by rewrite !decide_True by auto|].
    rewrite (decide_False (P := b = u)) by congruence. by rewrite decide_False by tauto.
  - cbn. constructor; [by rewrite list_elem_of_singleton|]. apply NoDup_singleton.
Qed.

(** ** Every step keeps the invariant *)
Section step_wf.
Context (d : store) (Hwf : chat_wf d).

Lemma wf_owner c : live_group d c -> exists u, role_of d c u = Some MemberRoleOwner.
Proof using Hwf. apply (proj1 Hwf c). Qed.

Lemma wf_role c u r : role_of d c u = Some r -> valid_role r.
Proof using Hwf. apply (proj1 Hwf c). Qed.

Lemma wf_create_direct id a b now :
  a <> b -> fresh_chat d id -> (forall c, ~ shares_direct d a b c) ->
  chat_wf (create_chat (mkChat id ChatTypeDirect "" "" "" a now now)
     [mkChatMember id a MemberRoleMember now None;
      mkChatMember id b MemberRoleMember now None] d).
Proof using Hwf.
  intros Hab Hf Hno. set (chat := mkChat _ _ _ _ _ _ _ _). set (d' := create_chat _ _ d).
  assert (forall u, role_of d' id u = if decide (u = a \/ u = b) then Some MemberRoleMember else None)
    as Hrole by (intros u; by apply (create_direct_role chat)).
  assert (st_chats d' !! id = Some chat) as Hc
    by apply lookup_insert_eq.
  assert (only_chat id d d') as Hloc.
  { apply (only_chat_create chat); [by repeat constructor| |done]. cbn.
    constructor; [by rewrite list_elem_of_singleton|]. apply NoDup_singleton. }
  apply (chat_wf_local id d); [done..| |].
  - split.
    + intros (chat' & Hc' & Ht). by simplify_eq.
    + intros _ _ _. by exists a, b.
    + intros u r Hr. rewrite Hrole in Hr. case_decide; simplify_eq. auto with vibe.
  - intros x y c Hxy Hx Hy. destruct (decide (c = id)) as [|Hne]; [done|exfalso].
    rewrite (only_chat_shares id d) in Hy by done.
    rewrite shares_direct_role in Hx. destruct Hx as (_ & _ & _ & [rx Hx] & [ry Hy']).
    rewrite Hrole in Hx, Hy'. case_decide as Cx; [|done]. case_decide as Cy; [|done].
    apply (Hno c). destruct Hy as (chat' & ? & ? & ? & ?). exists chat'.
    destruct Cx as [-> | ->], Cy as [-> | ->]; done.
Qed.

Lemma wf_create_group id caller i now :
  fresh_chat d id ->
  chat_wf (create_chat (mkChat id ChatTypeGroup (cgi_Name i) "" (cgi_Description i) caller now now)
     (group_members id caller now (cgi_MemberIDs i)) d).
Proof using Hwf.
  intros Hf. set (chat := mkChat _ _ _ _ _ _ _ _). set (d' := create_chat _ _ d).
  assert (forall u, role_of d' id u = group_role caller (cgi_MemberIDs i) u) as Hrole
    by (intros u; by apply (create_group_role chat)).
  apply (chat_wf_group id chat d d'); [done| |by apply lookup_insert_eq|done| |].
  - by apply (only_chat_create chat); [apply group_members_chat|apply group_members_NoDup|].
  - exists caller. rewrite Hrole. unfold group_role. by rewrite decide_True.
  - intros u r. rewrite Hrole. unfold group_role.
    repeat case_decide; intros; simplify_eq; auto with vibe.
Qed.

(** A change of memberships that leaves an owner keeps the invariant. *)
Lemma wf_members c f :
  live_group d c -> only_chat c d (with_members f d) ->
  (exists u, role_of (with_members f d) c u = Some MemberRoleOwner) ->
  (forall u r, role_of (with_members f d) c u = Some r ->
     valid_role r \/ role_of d c u = Some r) ->
  chat_wf (with_members f d).
Proof using Hwf.
  intros (chat & Hc & Ht) Hloc Ho Hr. apply (chat_wf_group c chat d); [done..|].
  intros u r Hur. destruct (Hr u r Hur) as [|Hold]; [done|]. by eapply wf_role.
Qed.

Lemma wf_remove c u o :
  live_group d c -> role_of d c o = Some MemberRoleOwner -> o <> u ->
  chat_wf (remove_member c u d).
Proof using Hwf.
  intros Hl Ho Hne. apply (wf_members c); [done|apply only_chat_remove| |].
  - exists o. fold (remove_member c u d). rewrite remove_member_role, decide_False; congruence.
  - intros u' r. fold (remove_member c u d). rewrite remove_member_role.
    case_decide; [done|auto].
Qed.

Lemma wf_add c u now :
  live_group d c -> ~ is_member d c u ->
  chat_wf (add_member (mkChatMember c u MemberRoleMember now None) d).
Proof using Hwf.
  intros Hl Hni. destruct (wf_owner c Hl) as [o Ho].
  set (m := mkChatMember c u MemberRoleMember now None).
  apply (wf_members c); [done|apply (only_chat_add m)| |].
  - exists o. fold (add_member m d). rewrite add_member_role, decide_False; [done|].
    intros [= <-]. by apply Hni, (role_of_is_member _ _ _ _ Ho).
  - intros u' r. fold (add_member m d). rewrite add_member_role.
    case_decide; intros; simplify_eq; auto with vibe.
Qed.

Lemma set_role_valid c u r u' r' :
  valid_role r -> role_of (set_role c u r d) c u' = Some r' ->
  valid_role r' \/ role_of d c u' = Some r'.
Proof.
  intros Hr. rewrite set_role_role. case_decide; [|auto].
  destruct (role_of d c u'); intros; simplify_eq/=; auto.
Qed.

Lemma wf_promote c u :
  live_group d c -> is_member d c u -> chat_wf (set_role c u MemberRoleOwner d).
Proof using Hwf.
  intros Hl Hm. apply (wf_members c); [done|apply only_chat_set_role| |].
  - exists u. fold (set_role c u MemberRoleOwner d). rewrite set_role_role, decide_True by done.
    apply is_member_role in Hm as [r Hr]. by rewrite Hr.
  - intros u' r. apply set_role_valid. auto with vibe.
Qed.

(** [ChangeMemberRole] does not look at the chat: that only an owner gets
    through already excludes direct chats. *)
Lemma wf_change c u o r :
  role_of d c o = Some MemberRoleOwner -> u <> o -> valid_role r ->
  chat_wf (set_role c u r d).
Proof using Hwf.
  intros Ho Hne Hr.
  assert (forall chat, st_chats d !! c = Some chat -> chat_Type chat <> ChatTypeDirect) as Hnd.
  { intros chat Hc Ht. destruct (ok_direct _ _ (proj1 Hwf c) chat Hc Ht) as (a & b & _ & Hab).
    rewrite Hab in Ho. by case_decide. }
  apply (chat_wf_local c d); [done|auto with vibe| |].
  - split.
    + intros _. exists o. rewrite set_role_role, decide_False; congruence.
    + intros chat Hc Ht. by destruct (Hnd chat Hc).
    + intros u' r' Hu'. destruct (set_role_valid c u r u' r' Hr Hu'); [done|by eapply wf_role].
  - intros a b c' _ (chat & Hc & Ht & _). by destruct (Hnd chat Hc).
Qed.

Lemma wf_close c : chat_wf (with_chats (delete c) d).
Proof using Hwf.
  assert (forall chat, ~ st_chats (with_chats (delete c) d) !! c = Some chat) as Hnone.
  { intros chat. cbn. by rewrite lookup_delete_eq. }
  apply (chat_wf_local c d); [done|auto with vibe| |].
  - split; [by intros (? & []%Hnone & _)|by intros ? []%Hnone|by apply wf_role].
  - by intros a b c' _ (? & []%Hnone & _).
Qed.

Lemma wf_update c chat i now :
  st_chats d !! c = Some chat -> IsDirect chat = false ->
  chat_wf (with_chats (alter (patch_chat (apply_update i now chat)) c) d).
Proof using Hwf.
  intros Hc Ht. destruct (wf_owner c) as [o Ho]; [by exists chat|].
  apply (chat_wf_group c (patch_chat (apply_update i now chat) chat) d);
    [done|auto with vibe| |done|by exists o|by apply wf_role].
  cbn. by rewrite lookup_alter_eq, Hc.
Qed.
End step_wf.

Lemma chat_step_wf ho caller d d' : chat_wf d -> chat_step ho caller d d' -> chat_wf d'.
Proof.
  intros Hwf Hstep. destruct Hstep as
    [id target now Hne _ Hf Hno|i id now _ _ Hf|c chat i now _ Hc Ht _|c u now Hl _ _ Hni
    |c u rc ru Hl _ _ Hu Hno _|c u r Ho Hne Hm Hr|c u _ Hl Ho Hne Hm|c r Hl Hr Hnext|c Hl Ho _].
  - by apply wf_create_direct.
  - by apply wf_create_group.
  - by apply wf_update.
  - by apply wf_add.
  - destruct (wf_owner d Hwf c Hl) as [o Ho]. apply (wf_remove d Hwf c u o); congruence.
  - eapply wf_change; [done..|]. unfold valid_role. by right.
  - by apply wf_promote.
  - destruct (decide (r = MemberRoleOwner)) as [->|Hno].
    + destruct (Hnext eq_refl) as (_ & o & Hoc & Ho). by apply (wf_remove d Hwf c caller o).
    + destruct (wf_owner d Hwf c Hl) as [o Ho]. apply (wf_remove d Hwf c caller o); congruence.
  - by apply wf_close.
Qed.

Lemma chat_steps_wf ho caller d d' : chat_wf d -> rtc (chat_step ho caller) d d' -> chat_wf d'.
Proof. intros Hwf Hr. induction Hr; [done|]. by eapply IHHr, chat_step_wf. Qed.
