(* ===== verification/ChatRefinement.v ===== *)
(** * The chat service refines its contract

    For any state [W] whose repositories honour their contracts, every call of
    [usecase/chat] leaves the store along a path of authorised protocol steps of
    the caller, on success, on every domain error and on infrastructure failure
    alike. *)
From S2P Require Import Prelude Domain ChatUsecase Store ChatContract.
Open Scope Z_scope.

(** One call of the service; the reads are calls as well. *)
Inductive chat_call : Type :=
| CallCreateDirect (i : CreateDirectInput)
| CallCreateGroup (i : CreateGroupInput)
| CallGetChat (chatID : uuid)
| CallGetUserChats
| CallGetMembers (chatID : uuid)
| CallUpdateGroup (chatID : uuid) (i : UpdateGroupInput)
| CallAddMember (chatID : uuid) (i : AddMemberInput)
| CallRemoveMember (chatID targetID : uuid)
| CallChangeMemberRole (chatID : uuid) (i : ChangeMemberRoleInput)
| CallLeaveChat (chatID : uuid).

Definition discard {M : Type -> Type} `{MRet M, MBind M} {A : Type} (m : M (res A)) : M (res unit) :=
  let? _ := m in mret (Ok tt).

Definition run_call {M : Type -> Type} `{MRet M, MBind M, Clock M, UUIDSource M}
    `{CR : ChatRepository M, UR : UserRepository M} (caller : uuid) (c : chat_call) : M (res unit) :=
  match c with
  | CallCreateDirect i => discard (CreateDirect caller i)
  | CallCreateGroup i => discard (CreateGroup caller i)
  | CallGetChat c => discard (GetChat c caller)
  | CallGetUserChats => discard (GetUserChats caller)
  | CallGetMembers c => discard (GetMembers c caller)
  | CallUpdateGroup c i => discard (UpdateGroup c caller i)
  | CallAddMember c i => AddMember c caller i
  | CallRemoveMember c t => RemoveMember c caller t
  | CallChangeMemberRole c i => ChangeMemberRole c caller i
  | CallLeaveChat c => LeaveChat c caller
  end.

Section refinement.
Context {W : Type} (inv : W -> Prop) (view : W -> store).
Context `{CR : ChatRepository (ST W), UR : UserRepository (ST W)}.
Context `{CK : Clock (ST W), US : UUIDSource (ST W)}.
Context `{PR : Precision, TE : TextEq, LA : Latitude, LO : Loss} {HE : EnvSpec inv view} {HC : ChatRepositorySpec inv view CR}.
Context {HU : UserLookupSpec inv view UR}.

(** Started on store [d], the call ended along authorised steps of [caller]; if
    it answered an error and the infrastructure did not fail, it did nothing. *)
Definition authorised {A} (ho : bool) (caller : uuid) (d : store) (r : res A) (w : W) : Prop :=
  inv w /\ rtc (chat_step ho caller) d (view w) /\
  match r with Ok _ => True | Err e => infra e \/ view w = d end.

Lemma quiet {A} ho caller d (r : res A) w : inv w -> view w = d -> authorised ho caller d r w.
Proof. intros ? <-. split; [done|]. split; [apply rtc_refl|]. destruct r; auto. Qed.

Lemma one_step {A} ho caller d (r : res A) w :
  inv w -> chat_step ho caller d (view w) -> match r with Ok _ => True | Err e => infra e end ->
  authorised ho caller d r w.
Proof. intros. split; [done|]. split; [by apply rtc_once|]. destruct r; auto. Qed.

Lemma authorised_trans {A} ho caller d d' (r : res A) w :
  chat_step ho caller d d' -> authorised ho caller d' r w ->
  match r with Ok _ => True | Err e => infra e end -> authorised ho caller d r w.
Proof.
  intros Hs (? & Hr & _) ?. split; [done|]. split; [by eapply rtc_l|]. destruct r; auto.
Qed.

Tactic Notation "query" uconstr(spec) "as" simple_intropattern(a) simple_intropattern(H) :=
  eapply (wp_reads inv view); [apply spec|eassumption|eassumption
    |let w := fresh "w" in let Hi := fresh "Hi" in let Hv := fresh "Hv" in
     intros a w Hi Hv H
    |intros; by apply quiet].
Ltac query_last spec :=
  eapply (wp_reads_raw inv view); [apply spec|eassumption|eassumption
    |intros ? ? ? ? ?; by apply quiet|intros; by apply quiet].
Ltac stop := apply wp_ret; by apply quiet.
Ltac check := apply wp_check; [intros ?Hv|intros ? _; by apply quiet].

(** The last statement of an operation: whether it answers, fails, or was
    executed without an answer, the store moved by at most one step. *)
Lemma final_statement {A B} (m : ST W (res A)) (k : A -> ST W (res B)) post fail ho caller d w :
  honours inv view m post fail -> inv w -> view w = d ->
  (forall a d', post d a d' -> chat_step ho caller d d') ->
  (forall a w', wp (k a) (fun r w2 => w2 = w' /\ is_ok r = true) w') ->
  wp (try m k) (authorised ho caller d) w.
Proof using.
  intros Hm Hi Hv Hstep Hk. eapply (wp_exec inv view); [done..| | |].
  - intros a w' Hi' HP. eapply wp_mono; [apply Hk|]. intros [r|e] w2 [-> Hr]; [|done].
    apply one_step; [done|eauto|done].
  - intros e w' Hi' Hv' _. by apply quiet.
  - intros e a w' Hi' HP He. apply one_step; [done|eauto|done].
Qed.

Lemma stamp_group_members id c now ids :
  stamp_member <$> group_members id c now ids = group_members id c (stamp now) ids.
Proof using.
  unfold group_members. rewrite fmap_cons. f_equal. generalize ({[c]} : gset uuid).
  induction ids as [|x ids IH]; intros seen; cbn [dedup_members]; [done|].
  case_bool_decide; [apply IH|]. rewrite fmap_cons. f_equal. apply IH.
Qed.

Lemma GetChat_refines ho c caller w d :
  inv w -> view w = d -> wp (GetChat c caller) (authorised ho caller d) w.
Proof using All.
  intros Hi Hd. unfold GetChat, assertMember.
  apply wp_try. query (spec_IsMember (CR := CR)) as b _. wp_case; apply wp_ret; [by apply quiet|].
  query_last (spec_GetByID (CR := CR)).
Qed.

Lemma GetMembers_refines ho c caller w d :
  inv w -> view w = d -> wp (GetMembers c caller) (authorised ho caller d) w.
Proof using All.
  intros Hi Hd. unfold GetMembers, assertMember.
  apply wp_try. query (spec_IsMember (CR := CR)) as b _. wp_case; apply wp_ret; [by apply quiet|].
  query_last (spec_GetMembers (CR := CR)).
Qed.

Lemma GetUserChats_refines ho caller w d :
  inv w -> view w = d -> wp (GetUserChats caller) (authorised ho caller d) w.
Proof using All.
  intros Hi Hd. unfold GetUserChats. query_last (spec_GetUserChats (CR := CR)).
Qed.

Lemma CreateDirect_refines ho caller i w d :
  inv w -> view w = d -> wp (CreateDirect caller i) (authorised ho caller d) w.
Proof using All.
  intros Hi Hd. unfold CreateDirect. check. wp_case; [stop|]. bool_prop.
  query (spec_FindUser (UR := UR)) as u (_ & u' & Hu & _).
  apply wp_bind. eapply (wp_reads_raw inv view);
    [apply (spec_GetDirectChat (CR := CR))|done|done|intros; stop|].
  intros e we Hie Hve Hno. wp_case; [stop|]. bool_prop.
  destruct Hno as [[-> Hno]|Hinf]; [|by rewrite Hinf in C0].
  eapply (wp_now inv view); [done..|]. intros now wt Hit Hvt.
  eapply (wp_uuid inv view); [done..|]. intros id wi Hii Hvi.
  eapply final_statement; [apply (spec_CreateWithMembers (CR := CR))|done|done| |done].
  - by repeat constructor.
  - cbn. constructor; [|apply NoDup_singleton]. by rewrite list_elem_of_singleton.
  - intros _ d' [Hf ->]. apply (act_create_direct _ _ _ _ _ (stamp now)); [done|by exists u'|done|].
    intros c (chat & Hc & Ht & Ha & Hb). by apply (Hno c chat).
Qed.

Lemma CreateGroup_refines ho caller i w d :
  inv w -> view w = d -> wp (CreateGroup caller i) (authorised ho caller d) w.
Proof using All.
  intros Hi Hd. unfold CreateGroup. check.
  eapply (wp_now inv view); [done..|]. intros now wt Hit Hvt.
  eapply (wp_uuid inv view); [done..|]. intros id wi Hii Hvi.
  apply wp_try. apply (wp_for_each _ _ (fun l w' => inv w' /\ view w' = d /\
    forall u, u ∈ l -> u <> caller -> is_Some (st_users d !! u))).
  - repeat split; [done..|]. by intros u ?%not_elem_of_nil.
  - intros pre u post wl _ (Hil & Hvl & Hl). wp_case; bool_prop.
    + apply wp_ret. repeat split; [done..|].
      intros v [?| ->%list_elem_of_singleton]%elem_of_app ?; [by apply Hl|done].
    + query (spec_FindUser (UR := UR)) as u' (_ & u'' & Hu & _). apply wp_ret.
      repeat split; [done..|].
      intros v [?| ->%list_elem_of_singleton]%elem_of_app ?; [by apply Hl|by exists u''].
  - intros wl (Hil & Hvl & Hl).
    eapply final_statement; [apply (spec_CreateWithMembers (CR := CR))|done|done| |done].
    + apply group_members_chat.
    + apply group_members_NoDup.
    + intros _ d' [Hf ->]. rewrite stamp_group_members. by apply act_create_group.
Qed.

Lemma UpdateGroup_refines ho c caller i w d :
  inv w -> view w = d -> wp (UpdateGroup c caller i) (authorised ho caller d) w.
Proof using All.
  intros Hi Hd. unfold UpdateGroup. check.
  query (spec_GetByID (CR := CR)) as chat [Hc Hid]. wp_case; [stop|].
  query (spec_GetMember (CR := CR)) as m (_ & _ & Hm). wp_case; [stop|]. bool_prop.
  eapply (wp_now inv view); [done..|]. intros now wt Hit Hvt.
  eapply final_statement; [apply (spec_Update (CR := CR))|done|done| |done].
  intros _ d' [_ ->]. unfold update_chat. cbn. rewrite Hid.
  apply (act_update_group _ _ _ _ _ _ (stamp now)); [done..|]. by exists (cm_Role m).
Qed.

Lemma AddMember_refines ho c caller i w d :
  inv w -> view w = d -> wp (AddMember c caller i) (authorised ho caller d) w.
Proof using All.
  intros Hi Hd. unfold AddMember. check.
  query (spec_GetByID (CR := CR)) as chat [Hc Hid]. wp_case; [stop|].
  query (spec_GetMember (CR := CR)) as m (_ & _ & Hm). wp_case; [stop|]. bool_prop.
  query (spec_FindUser (UR := UR)) as u (_ & u' & Hu & _).
  query (spec_IsMember (CR := CR)) as b Hb. wp_case; [stop|]. symmetry in Hb. bool_prop.
  eapply (wp_now inv view); [done..|]. intros now wt Hit Hvt.
  eapply final_statement; [apply (spec_AddMember (CR := CR)), member_role_known|done|done| |done].
  intros _ d' [_ ->]. apply (act_add_member _ _ _ c (ami_UserID i) (stamp now)); [by exists chat| |by exists u'|done].
  by exists (cm_Role m).
Qed.

Lemma RemoveMember_refines ho c caller t w d :
  inv w -> view w = d -> wp (RemoveMember c caller t) (authorised ho caller d) w.
Proof using All.
  intros Hi Hd. unfold RemoveMember.
  query (spec_GetByID (CR := CR)) as chat [Hc Hid]. wp_case; [stop|].
  query (spec_GetMember (CR := CR)) as m (_ & _ & Hm). wp_case; [stop|]. bool_prop.
  query (spec_GetMember (CR := CR)) as n (_ & _ & Hn). wp_case; [stop|]. wp_case; [stop|].
  eapply final_statement; [apply (spec_RemoveMember (CR := CR))|done|done| |done].
  intros _ d' [_ ->]. bool_prop.
  apply (act_remove_member _ _ _ c t (cm_Role m) (cm_Role n)); [by exists chat|done..|].
  intros Ha. by destruct C2; bool_prop.
Qed.

Lemma ChangeMemberRole_refines ho c caller i w d :
  inv w -> view w = d -> wp (ChangeMemberRole c caller i) (authorised ho caller d) w.
Proof using All.
  intros Hi Hd. unfold ChangeMemberRole. check. wp_case; [stop|].
  query (spec_GetMember (CR := CR)) as m (_ & _ & Hm). wp_case; [stop|]. bool_prop.
  query (spec_GetMember (CR := CR)) as n (_ & _ & Hn).
  eapply final_statement; [apply (spec_UpdateMemberRole (CR := CR))|done|done| |done].
  intros _ d' [Ht ->]. apply act_change_role; [|done|done|].
  - by rewrite Hm, C0.
  - by apply (ChangeMemberRole_valid i).
Qed.

(** The owner hands over, then leaves; anyone else just leaves.  The one domain
    error of the deletion, a caller who is no member, is excluded. *)
Lemma leave_refines c caller r w d :
  inv w -> view w = d -> live_group d c -> role_of d c caller = Some r ->
  (r = MemberRoleOwner -> exists u, u <> caller /\ role_of d c u = Some MemberRoleOwner) ->
  wp (let? _ := chats_RemoveMember c caller in mret (Ok tt))
    (fun r w' => authorised true caller d r w' /\ match r with Ok _ => True | Err e => infra e end) w.
Proof using All.
  intros Hi Hd Hl Hr Hnext.
  assert (chat_step true caller d (remove_member c caller d)) as Hstep.
  { eapply act_leave; [done..|]. auto. }
  eapply (wp_exec inv view); [apply (spec_RemoveMember (CR := CR))|done|done| | |].
  - intros _ w' Hi' [_ Hv]. apply wp_ret. split; [|done]. apply one_step; [done|by rewrite Hv|done].
  - intros e w' Hi' Hv [[_ []]|?]; [by eapply role_of_is_member|]. split; [by apply quiet|done].
  - intros e _ w' Hi' [_ Hv] ?. split; [|done]. apply one_step; [done|by rewrite Hv|done].
Qed.

Lemma LeaveChat_refines c caller w d :
  inv w -> view w = d -> wp (LeaveChat c caller) (authorised true caller d) w.
Proof using All.
  intros Hi Hd. unfold LeaveChat.
  query (spec_GetByID (CR := CR)) as chat [Hc Hid]. wp_case; [stop|].
  assert (live_group d c) as Hl by by exists chat.
  query (spec_GetMember (CR := CR)) as m (_ & _ & Hr). cbv zeta.
  wp_case; bool_prop; [|eapply wp_mono; [by eapply leave_refines|by intros ? ? []]].
  query (spec_GetMembers (CR := CR)) as ms (Hnd & _ & Hsay & Hall). rewrite C0 in Hr.
  wp_case.
  - apply nextOwner_other in C1 as [Hin Hne]. rewrite Forall_forall in Hsay.
    destruct (Hsay _ Hin) as (_ & _ & Hnext).
    assert (is_member d c (cm_UserID c0)) as Hmem by by eexists.
    eapply (wp_exec inv view); [apply (spec_UpdateMemberRole (CR := CR))|done|done| | |].
    + intros _ wu Hiu [_ Hu]. eapply wp_mono.
      { apply (leave_refines c caller MemberRoleOwner wu _ Hiu Hu); [done| |].
        - rewrite set_role_role, decide_False; [done|congruence].
        - intros _. exists (cm_UserID c0). split; [done|].
          rewrite set_role_role, decide_True by done. unfold role_of. by rewrite Hnext. }
      intros r wl [Ha Hr']. eapply authorised_trans; [by apply act_promote|exact Ha|exact Hr'].
    + intros. by apply quiet.
    + intros e _ wu Hiu [_ Hu] ?. apply one_step; [done| |done]. rewrite Hu. by apply act_promote.
  - eapply (wp_honours inv view); [apply (spec_Delete (CR := CR))|done|].
    intros r wd Hid' Hans. rewrite Hv1 in Hans.
    assert (chat_step true caller d (with_chats (delete c) d)) as Hclose.
    { apply act_close; [done..|]. intros u Hu Hmu.
      destruct (st_users d !! u) as [x|] eqn:Eu; [exfalso|done].
      specialize (Hall u Hmu). rewrite Eu in Hall.
      apply list_elem_of_fmap in Hall as (n & -> & Hn); [|by eexists].
      by apply Hu, (nextOwner_nobody ms). }
    destruct r as [[]|e]; cbn in Hans.
    + apply one_step; [done|by rewrite Hans|done].
    + destruct Hans as [[[] _]|[? [Hsame|(_ & _ & Hdel)]]]; [by apply quiet|].
      apply one_step; [done|by rewrite Hdel|done].
Qed.

Lemma discard_refines {A} ho (m : ST W (res A)) caller d w :
  wp m (authorised ho caller d) w -> wp (discard m) (authorised ho caller d) w.
Proof using.
  intros Hm. apply wp_try. eapply wp_mono; [exact Hm|]. intros [a|e] w' Ha; [|done].
  apply wp_ret. destruct Ha as (? & ? & _). by split.
Qed.

Lemma run_call_refines caller call w :
  inv w -> wp (run_call caller call) (authorised true caller (view w)) w.
Proof using All.
  intros Hi. destruct call; cbn [run_call]; try apply discard_refines.
  - by apply CreateDirect_refines.
  - by apply CreateGroup_refines.
  - by apply GetChat_refines.
  - by apply GetUserChats_refines.
  - by apply GetMembers_refines.
  - by apply UpdateGroup_refines.
  - by apply AddMember_refines.
  - by apply RemoveMember_refines.
  - by apply ChangeMemberRole_refines.
  - by apply LeaveChat_refines.
Qed.
End refinement.
