(* ===== verification/ChatPolicy.v ===== *)
(** * Who may do what in a chat

    The exact behaviour of the membership operations, read as a policy: ranks
    for removal, ownership for roles, the line of succession for leaving; and
    the uniqueness of the owner. *)
From S2P Require Import Prelude Domain Validate ChatUsecase Store ChatContract ChatRefinement.
Open Scope Z_scope.

(** ** The owner is unique while no hand-over is in transit *)

Definition sole_owner (d : store) (c u : uuid) : Prop :=
  forall x, role_of d c x = Some MemberRoleOwner <-> x = u.

Definition one_owner (d : store) : Prop := forall c, live_group d c -> exists u, sole_owner d c u.

Lemma one_owner_local c0 d d' :
  one_owner d -> only_chat c0 d d' -> (live_group d' c0 -> exists u, sole_owner d' c0 u) -> one_owner d'.
Proof.
  intros Ho Hloc H0 c Hl. destruct (decide (c = c0)) as [->|Hne]; [by apply H0|].
  rewrite (only_chat_live c0 d d' c) in Hl by done. destruct (Ho c Hl) as [u Hu]. exists u.
  intros x. destruct Hloc as [_ Hr]. by rewrite Hr.
Qed.

Lemma sole_owner_is d c u o : sole_owner d c u -> role_of d c o = Some MemberRoleOwner -> o = u.
Proof. intros Hu. apply Hu. Qed.

Lemma only_chat_create_direct caller target id now d :
  caller <> target -> fresh_chat d id ->
  only_chat id d (create_chat (mkChat id ChatTypeDirect "" "" "" caller now now)
     [mkChatMember id caller MemberRoleMember now None;
      mkChatMember id target MemberRoleMember now None] d).
Proof.
  intros Hne Hf. apply (only_chat_create (mkChat id ChatTypeDirect "" "" "" caller now now));
    [by repeat constructor| |done].
  cbn. constructor; [by rewrite list_elem_of_singleton|apply NoDup_singleton].
Qed.

(** A membership write that neither makes nor unmakes an owner. *)
Lemma one_owner_members c f d :
  one_owner d -> only_chat c d (with_members f d) ->
  (forall u, sole_owner d c u -> sole_owner (with_members f d) c u) ->
  one_owner (with_members f d).
Proof.
  intros Ho Hloc Hs. apply (one_owner_local c d); [done..|]. intros Hl.
  destruct (Ho c Hl) as [u Hu]. exists u. by apply Hs.
Qed.

Lemma one_owner_step caller d d' : chat_step false caller d d' -> one_owner d -> one_owner d'.
Proof.
  destruct 1 as
    [id target now Hne _ Hf Hno|i id now _ _ Hf|c chat i now _ Hc Ht _|c u now Hl _ _ Hni
    |c u rc ru Hl _ _ Hu Hno _|c u r Ho Hne Hm Hr|c u Habs Hl Ho Hne Hm|c r Hl Hr Hnext|c Hl Ho _];
    intros Hone.
  - apply (one_owner_local id d); [done|by apply only_chat_create_direct|].
    intros (chat & Hc & Ht). cbn in Hc. rewrite lookup_insert_eq in Hc. by simplify_eq.
  - set (chat := mkChat id ChatTypeGroup (cgi_Name i) "" (cgi_Description i) caller now now).
    apply (one_owner_local id d); [done| |].
    + by apply (only_chat_create chat); [apply group_members_chat|apply group_members_NoDup|].
    + intros _. exists caller. intros x. rewrite (create_group_role chat) by done.
      unfold group_role. repeat case_decide; split; intros; simplify_eq; done.
  - apply (one_owner_local c d); [done|auto with vibe|]. intros _.
    destruct (Hone c) as [u Hu]; [by exists chat|]. by exists u.
  - apply (one_owner_members c); [done|apply (only_chat_add (mkChatMember c u MemberRoleMember now None))|].
    intros o Ho x. fold (add_member (mkChatMember c u MemberRoleMember now None) d).
    rewrite add_member_role. cbn. case_decide as E; [|apply Ho]. simplify_eq. split; [done|].
    intros ->. exfalso. apply Hni. eapply role_of_is_member. by apply Ho.
  - apply (one_owner_members c); [done|apply only_chat_remove|].
    intros o Ho x. fold (remove_member c u d). rewrite remove_member_role. case_decide as E; [|apply Ho].
    simplify_eq. split; [done|]. intros ->. pose proof (proj2 (Ho o) eq_refl). congruence.
  - apply (one_owner_members c); [done|apply only_chat_set_role|].
    intros o Hso x. fold (set_role c u r d). rewrite set_role_role. case_decide as E; [|apply Hso].
    simplify_eq. apply is_member_role in Hm as [rx Hx]. rewrite Hx. cbn. split.
    + intros [= ->]. rewrite !elem_of_cons in Hr. by destruct Hr as [|[|?%not_elem_of_nil]].
    + intros ->. by apply sole_owner_is with (o := caller) in Hso.
  - done.
  - apply (one_owner_members c); [done|apply only_chat_remove|].
    intros o Hso x. fold (remove_member c caller d). rewrite remove_member_role. case_decide as E; [|apply Hso].
    simplify_eq. split; [done|]. intros ->. pose proof (proj2 (Hso o) eq_refl) as Hoo.
    rewrite Hr in Hoo. injection Hoo as ->. by destruct (Hnext eq_refl).
  - apply (one_owner_local c d); [done|auto with vibe|].
    intros (chat & Hc & _). cbn in Hc. by rewrite lookup_delete_eq in Hc.
Qed.

Lemma only_chat_trans c d1 d2 d3 : only_chat c d1 d2 -> only_chat c d2 d3 -> only_chat c d1 d3.
Proof.
  intros [H1 H2] [H3 H4]. split; [intros x Hx; by rewrite H3, H1|intros x u Hx; by rewrite H4, H2].
Qed.

(** The new owner's promotion and the old one's departure, together. *)
Definition hand_over (d : store) (c u n : uuid) : store :=
  remove_member c u (set_role c n MemberRoleOwner d).

Lemma hand_over_role d c u n x :
  n <> u ->
  role_of (hand_over d c u n) c x =
  if decide (x = u) then None
  else if decide (x = n) then (fun _ => MemberRoleOwner) <$> role_of d c n else role_of d c x.
Proof.
  intros Hne. unfold hand_over. rewrite remove_member_role, set_role_role.
  repeat case_decide; simplify_eq; done.
Qed.

Lemma hand_over_sole d c u n :
  sole_owner d c u -> n <> u -> is_member d c n -> sole_owner (hand_over d c u n) c n.
Proof.
  intros Hu Hne [r Hr]%is_member_role x. rewrite hand_over_role by done.
  case_decide; [split; congruence|]. case_decide; [subst; by rewrite Hr|].
  split; [intros Hx%Hu; congruence|congruence].
Qed.

Lemma one_owner_hand_over d c u n :
  one_owner d -> role_of d c u = Some MemberRoleOwner -> n <> u -> is_member d c n ->
  one_owner (hand_over d c u n).
Proof.
  intros Hone Hu Hne Hm. apply (one_owner_local c d); [done| |].
  - eapply only_chat_trans; [apply only_chat_set_role|apply only_chat_remove].
  - intros Hl. destruct (Hone c) as [o Ho]; [done|]. assert (u = o) as -> by by eapply sole_owner_is.
    exists n. by apply hand_over_sole.
Qed.

(** ** The line of succession *)

(** [n] comes before [x]: admins before the others, then by seniority. *)
Definition precedes (d : store) (c n x : uuid) : Prop :=
  exists rn tn rx tx, st_members d !! (c, n) = Some (rn, tn) /\ st_members d !! (c, x) = Some (rx, tx) /\
    ((rn = MemberRoleAdmin /\ rx <> MemberRoleAdmin) \/
     ((rn = MemberRoleAdmin <-> rx = MemberRoleAdmin) /\ (tn < tx \/ (tn = tx /\ (n <= x)%N)))).

(** The heir of [leaver]: another member, before every other one with an account. *)
Record heir (d : store) (c leaver n : uuid) : Prop := {
  heir_other : n <> leaver;
  heir_member : is_member d c n;
  heir_first : forall x, x <> leaver -> is_member d c x -> is_Some (st_users d !! x) -> precedes d c n x }.

Lemma head_sorted {A} (R : A -> A -> Prop) l m x :
  StronglySorted R l -> head l = Some m -> x ∈ l -> x = m \/ R m x.
Proof.
  intros Hs Hh Hx. destruct l as [|y l]; [done|]. injection Hh as ->.
  apply StronglySorted_cons in Hs as [Hall _]. apply elem_of_cons in Hx as [->|Hx]; [by left|right].
  rewrite Forall_forall in Hall. auto.
Qed.

Lemma nextOwner_heir d c ms leaver n :
  members_listing d c ms -> nextOwner ms leaver = Some n -> heir d c leaver (cm_UserID n).
Proof.
  intros (Hnd & Hsort & Hsay & Hall) Hn. rewrite Forall_forall in Hsay.
  pose proof (nextOwner_other _ _ _ Hn) as [Hin Hne].
  destruct (Hsay n Hin) as (_ & _ & Hrow).
  split; [done|by eexists|]. intros x Hx Hmem Hlive.
  specialize (Hall x Hmem Hlive). apply list_elem_of_fmap in Hall as (m & -> & Hm).
  destruct (Hsay m Hm) as (_ & _ & Hmrow). exists (cm_Role n), (cm_JoinedAt n), (cm_Role m), (cm_JoinedAt m).
  split; [done|]. split; [done|].
  assert (m ∈ others leaver ms) as Hmo by by apply list_elem_of_filter.
  assert (m = n \/ member_le n m -> cm_JoinedAt n < cm_JoinedAt m \/
    (cm_JoinedAt n = cm_JoinedAt m /\ (cm_UserID n <= cm_UserID m)%N)) as Hle.
  { unfold member_le. intros [->|]; [right; split; [done|lia]|done]. }
  assert (StronglySorted member_le (others leaver ms)) as Hso by by apply StronglySorted_filter.
  rewrite nextOwner_first in Hn. destruct (head (other_admins leaver ms)) as [a|] eqn:Ha.
  - injection Hn as ->. pose proof (head_Some_elem_of _ _ Ha) as Hna.
    apply list_elem_of_filter in Hna as [Hadm _].
    destruct (decide (cm_Role m = MemberRoleAdmin)) as [Hma|]; [right|by left].
    split; [done|]. apply Hle, (head_sorted _ (other_admins leaver ms)); [|done|].
    + by apply StronglySorted_filter.
    + by apply list_elem_of_filter.
  - assert (forall y, y ∈ others leaver ms -> cm_Role y <> MemberRoleAdmin) as Hno.
    { intros y Hy Hadm. assert (y ∈ other_admins leaver ms) as Hy' by by apply list_elem_of_filter.
      destruct (other_admins leaver ms); [by apply not_elem_of_nil in Hy'|done]. }
    right. split; [split; intros ?; exfalso; eapply Hno; [|done| |done]; [|done]; by apply head_Some_elem_of|].
    by apply Hle, (head_sorted _ (others leaver ms)).
Qed.

(** ** Ranks *)
Definition rank (r : MemberRole) : nat :=
  if bool_decide (r = MemberRoleOwner) then 2
  else if bool_decide (r = MemberRoleAdmin) then 1 else 0.

Lemma rank_max r : (rank r <= rank MemberRoleOwner)%nat.
Proof. unfold rank. repeat case_bool_decide; done || lia. Qed.

Definition outranks (d : store) (c a b : uuid) : Prop :=
  exists ra rb, role_of d c a = Some ra /\ role_of d c b = Some rb /\ (rank rb < rank ra)%nat.

Section policy.
Context {W : Type} (inv : W -> Prop) (view : W -> store).
Context `{CR : ChatRepository (ST W), UR : UserRepository (ST W)}.
Context `{CK : Clock (ST W), US : UUIDSource (ST W)}.
Context `{PR : Precision, TE : TextEq, LA : Latitude, LO : Loss} {HE : EnvSpec inv view} {HC : ChatRepositorySpec inv view CR}.
Context {HU : UserLookupSpec inv view UR} {NL : Strict}.

(** An operation that, unless the infrastructure fails, succeeds exactly when
    [ok] and then has the effect [post]. *)
Definition decides {A} (ok : Prop) (post : store -> Prop) (d : store) (r : res A) (w : W) : Prop :=
  inv w /\ match r with
  | Ok _ => ok /\ post (view w)
  | Err e => infra e \/ (view w = d /\ ~ ok) end.

(** A query whose domain error contradicts [ok]. *)
Lemma wp_need {A B} (m : ST W (res A)) (k : A -> ST W (res B)) P fail ok post w d :
  reads inv view m P fail -> inv w -> view w = d ->
  (forall e, fail d e -> ~ ok) ->
  (forall a w', inv w' -> view w' = d -> P d a -> wp (k a) (decides ok post d) w') ->
  wp (try m k) (decides ok post d) w.
Proof using.
  intros Hm Hi Hv Hno Hk. eapply (wp_reads inv view); [done..|].
  intros e w' Hi' Hv' [Hf|Hinf]; (split; [done|]); [right|by left]. split; [done|by eapply Hno].
Qed.

Lemma decides_no {A} ok post d e w :
  inv w -> view w = d -> ~ ok -> decides (A:=A) ok post d (Err e) w.
Proof using. intros. split; [done|]. by right. Qed.

Lemma wp_do {A} (m : ST W (res unit)) (k : unit -> ST W (res A)) (post : store -> store -> Prop) fail ok w d :
  honours inv view m (fun d _ d' => post d d') fail -> inv w -> view w = d -> ok ->
  (forall e, fail d e -> ~ ok) ->
  (forall w', wp (k tt) (fun r w2 => w2 = w' /\ is_ok r = true) w') ->
  wp (try m k) (decides ok (post d) d) w.
Proof using.
  intros Hm Hi Hv Hok Hno Hk. eapply (wp_exec inv view); [done..| | |].
  - intros [] w' Hi' HP. eapply wp_mono; [apply Hk|]. intros [a|e] w2 [-> Hr]; [|done]. by split.
  - intros e w' Hi' Hv' [Hf|Hinf]; (split; [done|]); [right|by left]. split; [done|by eapply Hno].
  - intros e [] w' Hi' HP Hinf. split; [done|]. by left.
Qed.

(** Removal: the caller must outrank the target, in a live group. *)
Lemma RemoveMember_policy c caller t w d :
  inv w -> view w = d ->
  is_Some (st_users d !! caller) -> is_Some (st_users d !! t) ->
  wp (RemoveMember c caller t)
    (decides (live_group d c /\ outranks d c caller t) (fun d' => d' = remove_member c t d) d) w.
Proof using All.
  intros Hi Hv [xc Hxc] [xt Hxt]. unfold RemoveMember.
  eapply wp_need; [apply (spec_GetByID (CR := CR))|done|done| |].
  { intros e [_ Hn] [(chat & Hc & _) _]. congruence. }
  intros chat w1 Hi1 Hv1 [Hc _]. wp_case.
  { apply wp_ret, decides_no; [done..|]. intros [(chat' & Hc' & Ht) _]. congruence. }
  eapply wp_need; [apply (spec_GetMember (CR := CR))|done|done| |].
  { intros e [_ [Hn|Hn]] [_ (ra & rb & Ha & _)]; [|congruence].
    by apply Hn, (role_of_is_member _ _ _ ra). }
  intros m w2 Hi2 Hv2 (_ & _ & Hm). wp_case.
  { apply wp_ret, decides_no; [done..|]. intros [_ (ra & rb & Ha & _ & Hlt)].
    rewrite Hm in Ha. injection Ha as <-. unfold CanManageMembers, rank in *. bool_prop.
    repeat case_bool_decide; try done; lia. }
  eapply wp_need; [apply (spec_GetMember (CR := CR))|done|done| |].
  { intros e [_ [Hn|Hn]] [_ (ra & rb & _ & Hb & _)]; [|congruence].
    by apply Hn, (role_of_is_member _ _ _ rb). }
  intros n w3 Hi3 Hv3 (_ & _ & Hn). 
  assert ((live_group d c /\ outranks d c caller t) <-> (rank (cm_Role n) < rank (cm_Role m))%nat) as Hiff.
  { split.
    - intros [_ (ra & rb & Ha & Hb & Hlt)]. congruence.
    - intros Hlt. split; [by exists chat|]. by exists (cm_Role m), (cm_Role n). }
  unfold CanManageMembers in C0. apply negb_false_iff, orb_true_iff in C0.
  rewrite !bool_decide_eq_true in C0.
  wp_case; [bool_prop; apply wp_ret, decides_no; [done..|]; rewrite Hiff, C1;
            pose proof (rank_max (cm_Role m)); lia|].
  wp_case; bool_prop.
  { apply wp_ret, decides_no; [done..|]. rewrite Hiff. unfold rank.
    repeat case_bool_decide; try done; lia. }
  eapply (wp_do _ _ (fun d d' => d' = remove_member c t d)); [| | | | |done].
  - eapply honours_weaken; [apply (spec_RemoveMember (CR := CR))|]. by intros ? ? ? [_ ->].
  - done.
  - done.
  - rewrite Hiff. unfold rank. destruct C0 as [C0|C0], C2 as [C2|C2]; bool_prop;
      repeat case_bool_decide; try done; try lia; congruence.
  - intros e [_ Hno] _. by eapply Hno, role_of_is_member.
Qed.

(** The prefix [AddMember] and [UpdateGroup] share: a live group, and a caller
    who manages it. *)
Lemma wp_manager {A} c caller (k : Chat -> ST W (res A)) ok post w d :
  inv w -> view w = d -> is_Some (st_users d !! caller) ->
  (ok -> live_group d c /\ manages d c caller) ->
  (forall chat w', inv w' -> view w' = d -> st_chats d !! c = Some chat -> chat_ID chat = c ->
     IsDirect chat = false -> manages d c caller -> wp (k chat) (decides ok post d) w') ->
  wp (let? chat := chats_GetByID c in
      if IsDirect chat then mret (Fail ErrForbidden) else
      let? caller := chats_GetMember c caller in
      if negb (CanManageMembers (cm_Role caller)) then mret (Fail ErrInsufficientRights) else k chat)
    (decides ok post d) w.
Proof using HC.
  intros Hi Hv [x Hx] Hok Hk.
  eapply wp_need; [apply (spec_GetByID (CR := CR))|done|done| |].
  { intros e [_ Hn] Ho. destruct (Hok Ho) as [(chat & Hc & _) _]. congruence. }
  intros chat w1 Hi1 Hv1 [Hc Hid]. wp_case.
  { apply wp_ret, decides_no; [done..|]. intros Ho. destruct (Hok Ho) as [(chat' & Hc' & Ht) _]. congruence. }
  eapply wp_need; [apply (spec_GetMember (CR := CR))|done|done| |].
  { intros e [_ [Hn|Hn]] Ho; [|congruence]. destruct (Hok Ho) as [_ (r & Hr & _)].
    by eapply Hn, role_of_is_member. }
  intros m w2 Hi2 Hv2 (_ & _ & Hm). wp_case; bool_prop.
  - apply wp_ret, decides_no; [done..|]. intros Ho. destruct (Hok Ho) as [_ (r & Hr & Hcan)]. congruence.
  - apply Hk; [done..|]. by exists (cm_Role m).
Qed.

Lemma AddMember_policy c caller i w d :
  inv w -> view w = d -> is_Some (st_users d !! caller) ->
  wp (AddMember c caller i)
    (decides (AddMemberInput_Validate i = None /\ (live_group d c /\ manages d c caller) /\
              is_Some (st_users d !! ami_UserID i) /\ ~ is_member d c (ami_UserID i))
       (fun d' => exists now, d' = add_member (mkChatMember c (ami_UserID i) MemberRoleMember now None) d) d) w.
Proof using All.
  intros Hi Hv Hc. unfold AddMember. apply wp_check.
  2:{ intros e He. apply decides_no; [done..|]. intros [? _]. congruence. }
  intros Hval. apply wp_manager; [done..|tauto|]. intros chat w1 Hi1 Hv1 Hch _ Hdir Hman.
  assert (live_group d c) as Hl by by exists chat.
  eapply wp_need; [apply (spec_FindUser (UR := UR))|done|done| |].
  { intros e [_ Hn] (_ & _ & [x Hx] & _). congruence. }
  intros u w2 Hi2 Hv2 (_ & u' & Hu & _).
  eapply wp_need; [apply (spec_IsMember (CR := CR))|done|done|by intros ? []|].
  intros b w3 Hi3 Hv3 ->. wp_case; bool_prop; [apply wp_ret, decides_no; [done..|]; tauto|].
  eapply (wp_now inv view); [done..|]. intros now w4 Hi4 Hv4.
  eapply (wp_do _ _ (fun d d' => exists now, d' = add_member (mkChatMember c (ami_UserID i) MemberRoleMember now None) d));
    [| | | | |done].
  - eapply honours_weaken; [apply (spec_AddMember (CR := CR)), member_role_known|]. intros ? ? ? [_ ->]. by exists (stamp now).
  - done.
  - done.
  - repeat split; [done..|by exists u'|done].
  - by intros e [_ Hyes%strictly] (_ & _ & _ & Hno).
Qed.

Lemma UpdateGroup_policy c caller i w d :
  inv w -> view w = d -> is_Some (st_users d !! caller) ->
  wp (UpdateGroup c caller i)
    (decides (UpdateGroupInput_Validate i = None /\ live_group d c /\ manages d c caller)
       (fun d' => exists now chat, st_chats d !! c = Some chat /\
          d' = with_chats (<[c := apply_update i now chat]>) d) d) w.
Proof using All.
  intros Hi Hv Hc. unfold UpdateGroup. apply wp_check.
  2:{ intros e He. apply decides_no; [done..|]. intros [? _]. congruence. }
  intros Hval. apply wp_manager; [done..|tauto|]. intros chat w1 Hi1 Hv1 Hch Hid Hdir Hman.
  assert (live_group d c) as Hl by by exists chat.
  eapply (wp_now inv view); [done..|]. intros now w4 Hi4 Hv4.
  eapply (wp_exec inv view); [apply (spec_Update (CR := CR))|done|done| | |].
  - intros _ w' Hi' [_ Hd']. apply wp_ret. split; [done|]. split; [done|]. exists (stamp now), chat.
    split; [done|]. rewrite Hd'. unfold update_chat. cbn. rewrite Hid. unfold with_chats. f_equal. apply map_eq. intros k.
    rewrite lookup_alter, lookup_insert. case_decide; [subst k|done]. rewrite Hch. cbn. by destruct chat.
  - intros e w' Hi' Hv' [[_ Hno%strictly]|?]; (split; [done|]); [|by left]. cbn in Hno. congruence.
  - intros e _ w' Hi' _ ?. split; [done|by left].
Qed.

(** Roles: the owner, and nobody else, gives another member one of the two lower
    roles. *)
Lemma ChangeMemberRole_policy c caller i w d :
  inv w -> view w = d ->
  is_Some (st_users d !! caller) -> is_Some (st_users d !! cmri_UserID i) ->
  wp (ChangeMemberRole c caller i)
    (decides (ChangeMemberRoleInput_Validate i = None /\ cmri_UserID i <> caller /\
              role_of d c caller = Some MemberRoleOwner /\ is_member d c (cmri_UserID i))
       (fun d' => d' = set_role c (cmri_UserID i) (cmri_Role i) d) d) w.
Proof using All.
  intros Hi Hv [xc Hxc] [xt Hxt]. unfold ChangeMemberRole. apply wp_check.
  2:{ intros e He. apply decides_no; [done..|]. intros [? _]. congruence. }
  intros Hval. wp_case; bool_prop; [apply wp_ret, decides_no; [done..|]; tauto|].
  eapply wp_need; [apply (spec_GetMember (CR := CR))|done|done| |].
  { intros e [_ [Hn|Hn]] (_ & _ & Ho & _); [|congruence]. by eapply Hn, role_of_is_member. }
  intros m w2 Hi2 Hv2 (_ & _ & Hm).
  wp_case; bool_prop; [apply wp_ret, decides_no; [done..|]; intros (_ & _ & Ho & _); congruence|].
  eapply wp_need; [apply (spec_GetMember (CR := CR))|done|done| |].
  { intros e [_ [Hn|Hn]] (_ & _ & _ & Hmem); [done|congruence]. }
  intros n w3 Hi3 Hv3 (_ & _ & Hn).
  eapply (wp_do _ _ (fun d d' => d' = set_role c (cmri_UserID i) (cmri_Role i) d)); [| | | | |done].
  - eapply honours_weaken; [apply (spec_UpdateMemberRole (CR := CR))|]. by intros ? ? ? [_ ->].
  - done.
  - done.
  - repeat split; [done..|congruence|by eapply role_of_is_member].
  - by intros e [_ Hno%strictly] (_ & _ & _ & Hmem).
Qed.

(** Leaving.  A plain member or an admin just goes.  The owner hands the group
    over to the heir and goes; with no other account left, the group is closed. *)
Definition departs (d : store) (c caller : uuid) (d' : store) : Prop :=
  exists r, role_of d c caller = Some r /\
    (r <> MemberRoleOwner -> d' = remove_member c caller d) /\
    (r = MemberRoleOwner ->
       (exists n, heir d c caller n /\ d' = hand_over d c caller n) \/
       ((forall u, u <> caller -> is_member d c u -> st_users d !! u = None) /\
        d' = with_chats (delete c) d)).

Lemma no_heir d c ms leaver :
  members_listing d c ms -> nextOwner ms leaver = None ->
  forall u, u <> leaver -> is_member d c u -> st_users d !! u = None.
Proof using.
  intros (_ & _ & _ & Hall) Hn u Hu Hm. destruct (st_users d !! u) as [x|] eqn:Ex; [exfalso|done].
  specialize (Hall u Hm). rewrite Ex in Hall. apply list_elem_of_fmap in Hall as (n & -> & Hin); [|by eexists].
  by apply Hu, (nextOwner_nobody ms).
Qed.

(** The answer of a call that [ok] permits: [post] on success; on an error, the
    infrastructure failed, or nothing happened because [ok] does not hold. *)
Lemma leave_settles c caller (ok : Prop) (post : store -> Prop) w d d1 :
  inv w -> view w = d1 -> ok -> is_member d1 c caller -> post (remove_member c caller d1) ->
  wp (let? _ := chats_RemoveMember c caller in mret (Ok tt)) (decides (A:=unit) ok post d) w.
Proof using HC.
  intros Hi Hv Hok Hm Hp. eapply (wp_exec inv view); [apply (spec_RemoveMember (CR := CR))|done|done| | |].
  - intros _ w' Hi' [_ Hv']. apply wp_ret. split; [done|]. by rewrite Hv'.
  - intros e w' Hi' Hv' [[_ []]|?]; [done|]. split; [done|by left].
  - intros e _ w' Hi' _ ?. split; [done|by left].
Qed.

Lemma LeaveChat_policy c caller w d :
  inv w -> view w = d -> is_Some (st_users d !! caller) ->
  wp (LeaveChat c caller) (decides (live_group d c /\ is_member d c caller) (departs d c caller) d) w.
Proof using All.
  intros Hi Hv [xc Hxc]. unfold LeaveChat.
  eapply wp_need; [apply (spec_GetByID (CR := CR))|done|done| |].
  { intros e [_ Hn] [(chat & Hc & _) _]. congruence. }
  intros chat w1 Hi1 Hv1 [Hc _]. wp_case.
  { apply wp_ret, decides_no; [done..|]. intros [(chat' & Hc' & Ht) _]. congruence. }
  assert (live_group d c) as Hl by by exists chat.
  eapply wp_need; [apply (spec_GetMember (CR := CR))|done|done| |].
  { intros e [_ [Hn|Hn]] [_ Hm]; [done|congruence]. }
  intros m w2 Hi2 Hv2 (_ & _ & Hm). cbv zeta. pose proof (role_of_is_member _ _ _ _ Hm) as Hmem.
  wp_case; bool_prop.
  2:{ apply (leave_settles _ _ _ _ _ d d); [done..|]. exists (cm_Role m). split; [done|]. by split; [|congruence]. }
  rewrite C0 in Hm.
  eapply wp_need; [apply (spec_GetMembers (CR := CR))|done|done|by intros ? []|].
  intros ms w3 Hi3 Hv3 Hms. wp_case.
  - pose proof (nextOwner_heir _ _ _ _ _ Hms C1) as Hh.
    eapply (wp_exec inv view); [apply (spec_UpdateMemberRole (CR := CR))|done|done| | |].
    + intros _ w4 Hi4 [_ Hv4]. apply (leave_settles _ _ _ _ _ d _ Hi4 Hv4); [done| |].
      * apply is_member_role. exists MemberRoleOwner. rewrite set_role_role, decide_False; [done|].
        intros [= E]. by apply (heir_other _ _ _ _ Hh).
      * exists MemberRoleOwner. split; [done|]. split; [done|]. intros _. left. by eexists.
    + intros e w4 Hi4 Hv4 [[_ []%strictly]|?]; [by destruct Hh|]. split; [done|by left].
    + intros e _ w4 Hi4 _ ?. split; [done|by left].
  - eapply (wp_honours inv view); [apply (spec_Delete (CR := CR))|done|].
    intros [[]|e] w4 Hi4; cbn; rewrite Hv3.
    + intros Hv4. split; [done|]. split; [done|]. exists MemberRoleOwner. split; [done|]. split; [by intros []|].
      intros _. right. split; [exact (no_heir d c ms caller Hms C1)|done].
    + intros [[[] _]|[? _]]. split; [done|by left].
Qed.

Lemma one_owner_departs d c caller d' :
  one_owner d -> live_group d c -> departs d c caller d' -> one_owner d'.
Proof using.
  intros Ho Hl (r & Hr & Hplain & Howner). destruct (decide (r = MemberRoleOwner)) as [->|Hne].
  - destruct (Howner eq_refl) as [(n & [Hno Hmn _] & ->)|[Hnone ->]].
    + by apply one_owner_hand_over.
    + eapply one_owner_step; [|done]. by apply (act_close false caller).
  - rewrite Hplain by done. eapply one_owner_step; [|done]. by apply (act_leave false caller d c r).
Qed.

(** Every call but leaving keeps the owner unique whatever fails; leaving keeps
    it unless the infrastructure failed half-way. *)
Lemma run_call_single caller call w :
  inv w -> (forall c, call <> CallLeaveChat c) ->
  wp (run_call caller call) (authorised inv view false caller (view w)) w.
Proof using All.
  intros Hi Hno. destruct call; cbn [run_call]; try apply discard_refines.
  - by apply (CreateDirect_refines inv view).
  - by apply (CreateGroup_refines inv view).
  - by apply (GetChat_refines inv view).
  - by apply (GetUserChats_refines inv view).
  - by apply (GetMembers_refines inv view).
  - by apply (UpdateGroup_refines inv view).
  - by apply (AddMember_refines inv view).
  - by apply (RemoveMember_refines inv view).
  - by apply (ChangeMemberRole_refines inv view).
  - by destruct (Hno chatID).
Qed.

Lemma one_owner_steps caller d d' : rtc (chat_step false caller) d d' -> one_owner d -> one_owner d'.
Proof using. induction 1; [done|]. intros Ho. apply IHrtc. by eapply one_owner_step. Qed.

Lemma run_call_one_owner caller call w :
  inv w -> one_owner (view w) -> is_Some (st_users (view w) !! caller) ->
  wp (run_call caller call) (fun r w' => one_owner (view w') \/
    (exists c e, call = CallLeaveChat c /\ r = Err e /\ infra e)) w.
Proof using All.
  intros Hi Ho Hu.
  assert ((exists c, call = CallLeaveChat c) \/ forall c, call <> CallLeaveChat c) as [[c ->]|Hno].
  { destruct call; try (by right); by left; eexists. }
  - cbn [run_call]. eapply wp_mono; [by apply LeaveChat_policy|]. intros [a|e] w' [_ Hr].
    + left. destruct Hr as [[Hl _] Hd]. by eapply one_owner_departs.
    + destruct Hr as [?|[-> _]]; [right; by exists c, e|by left].
  - eapply wp_mono; [by apply run_call_single|]. intros r w' (_ & Hr & _). left. by eapply one_owner_steps.
Qed.

(** ** Creating *)

(** A new group has the caller as its owner and the listed accounts as members. *)
Lemma CreateGroup_creates caller i w d :
  inv w -> view w = d ->
  wp (CreateGroup caller i) (fun r w' => match r with
    | Ok chat =>
      CreateGroupInput_Validate i = None /\
      (forall u, u ∈ cgi_MemberIDs i -> u <> caller -> is_Some (st_users d !! u)) /\
      fresh_chat d (chat_ID chat) /\
      st_chats (view w') !! chat_ID chat = Some (stamp_chat chat) /\
      chat_Type chat = ChatTypeGroup /\ chat_Name chat = cgi_Name i /\
      chat_Description chat = cgi_Description i /\ chat_CreatedBy chat = caller /\
      (forall u, role_of (view w') (chat_ID chat) u = group_role caller (cgi_MemberIDs i) u) /\
      only_chat (chat_ID chat) d (view w')
    | Err e => infra e \/ view w' = d end) w.
Proof using All.
  intros Hi Hd. unfold CreateGroup. apply wp_check; [intros Hval|by right].
  eapply (wp_now inv view); [done..|]. intros now wt Hit Hvt.
  eapply (wp_uuid inv view); [done..|]. intros id wi Hii Hvi.
  apply wp_try. apply (wp_for_each _ _ (fun l w' => inv w' /\ view w' = d /\
    forall u, u ∈ l -> u <> caller -> is_Some (st_users d !! u))).
  - repeat split; [done..|]. by intros u ?%not_elem_of_nil.
  - intros pre u post wl _ (Hil & Hvl & Hl). wp_case; bool_prop.
    + apply wp_ret. repeat split; [done..|].
      intros v [?| ->%list_elem_of_singleton]%elem_of_app ?; [by apply Hl|done].
    + eapply (wp_reads inv view); [apply (spec_FindUser (UR := UR))|done|done| |by right].
      intros u' w3 Hi3 Hv3 (_ & u'' & Hu & _). apply wp_ret.
      repeat split; [done..|].
      intros v [?| ->%list_elem_of_singleton]%elem_of_app ?; [by apply Hl|by exists u''].
  - intros wl (Hil & Hvl & Hl).
    eapply (wp_exec inv view); [apply (spec_CreateWithMembers (CR := CR))|done|done| | |].
    + apply group_members_chat.
    + apply group_members_NoDup.
    + intros _ w' Hi' [Hf Hv']. apply wp_ret. rewrite Hv', stamp_group_members. cbn in Hf.
      set (chat := mkChat id ChatTypeGroup (cgi_Name i) "" (cgi_Description i) caller (stamp now) (stamp now)).
      split; [done|]. split; [done|]. split; [done|]. split; [apply lookup_insert_eq|].
      do 4 (split; [done|]). split.
      * intros u. by apply (create_group_role chat).
      * by apply (only_chat_create chat); [apply group_members_chat|apply group_members_NoDup|].
    + by right.
    + by left.
Qed.

(** Two users share at most one direct chat: asking again returns it. *)
Lemma CreateDirect_finds caller i w d :
  inv w -> view w = d ->
  wp (CreateDirect caller i) (fun r w' => match r with
    | Ok (chat, created) =>
      caller <> cdi_TargetUserID i /\
      shares_direct (view w') caller (cdi_TargetUserID i) (chat_ID chat) /\
      (created = true <-> forall c, ~ shares_direct d caller (cdi_TargetUserID i) c) /\
      (created = false -> view w' = d)
    | Err e => infra e \/ view w' = d end) w.
Proof using All.
  intros Hi Hd. unfold CreateDirect. apply wp_check; [intros _|by right].
  wp_case; bool_prop; [apply wp_ret; by right|].
  eapply (wp_reads inv view); [apply (spec_FindUser (UR := UR))|done|done| |by right].
  intros u wu Hiu Hvu _. apply wp_bind.
  eapply (wp_reads_raw inv view); [apply (spec_GetDirectChat (CR := CR))|done|done| |].
  - intros chat wc Hic Hvc (Hc & Ht & Ha & Hb). apply wp_ret. rewrite Hvc.
    assert (shares_direct d caller (cdi_TargetUserID i) (chat_ID chat)) as Hs by by exists chat.
    repeat split; [congruence|done|done|]. intros Hno. by destruct (Hno (chat_ID chat)).
  - intros e we Hie Hve Hno. wp_case; [apply wp_ret; by right|]. bool_prop.
    destruct Hno as [[-> Hno]|Hinf]; [|by rewrite Hinf in C0].
    eapply (wp_now inv view); [done..|]. intros now wt Hit Hvt.
    eapply (wp_uuid inv view); [done..|]. intros id wi Hii Hvi.
    eapply (wp_exec inv view); [apply (spec_CreateWithMembers (CR := CR))|done|done| | |].
    + by repeat constructor.
    + cbn. constructor; [|apply NoDup_singleton]. by rewrite list_elem_of_singleton.
    + intros _ w' Hi' [Hf Hv']. apply wp_ret. rewrite Hv'. cbn in Hf.
      set (chat := mkChat id ChatTypeDirect "" "" "" caller (stamp now) (stamp now)).
      split; [congruence|]. split; [|split; [|done]].
      * apply shares_direct_role. exists chat. split; [apply lookup_insert_eq|]. split; [done|].
        pose proof (create_direct_role chat caller (cdi_TargetUserID i) (stamp now) d) as Hrole.
        split; eexists; (rewrite Hrole by (done || congruence)); rewrite decide_True by auto; done.
      * split; [|done]. intros _ c (chat' & Hc & Ht & Ha & Hb). by apply (Hno c chat').
    + by right.
    + by left.
Qed.
End policy.
