(* ===== verification/MessageRefinement.v ===== *)
(** * The message service: contract and refinement

    The changes a message service may make, as a step relation on the store; the
    proof that every call is at most one such step, authorised for its caller;
    and what the steps preserve. *)
From S2P Require Import Prelude Utf8 Domain Validate ChatUsecase MessageUsecase Store.
Open Scope Z_scope.

(** The row after an edit. *)
Definition edit_text (content : string) (now : Time) (m : Message) : Message :=
  mkMessage (msg_ID m) (msg_ChatID m) (msg_SenderID m) content (msg_Type m) (msg_ReplyToID m)
    (Some now) (msg_DeletedAt m) (msg_CreatedAt m) now None [] None.

Definition sent (id caller : uuid) (i : SendInput) (now : Time) : Message :=
  mkMessage id (si_ChatID i) caller (si_Content i) (si_Type i) (si_ReplyToID i)
    None None now now None [] None.

Inductive message_step `{TextEq, Latitude} (caller : uuid) (d : store) : store -> Prop :=
| act_send id i now :
    SendInput_Validate i = None -> is_member d (si_ChatID i) caller ->
    (forall r, si_ReplyToID i = Some r ->
       exists m, st_messages d !! r = Some m /\ msg_ChatID m = si_ChatID i) ->
    st_messages d !! id = None ->
    message_step caller d (with_messages <[id := sent id caller i now]> d)
| act_edit id m i now :
    EditInput_Validate i = None -> live_message d id m -> msg_SenderID m = caller ->
    is_member d (msg_ChatID m) caller ->
    message_step caller d (with_messages (alter (edit_text (ei_Content i) now) id) d)
| act_delete id m now :
    live_message d id m -> msg_SenderID m = caller -> is_member d (msg_ChatID m) caller ->
    message_step caller d (with_messages (alter (mark_deleted now) id) d)
| act_read c now :
    is_member d c caller -> message_step caller d (with_receipts <[(c, caller) := now]> d)
| act_react id m i now d' :
    ReactInput_Validate i = None -> live_message d id m -> is_member d (msg_ChatID m) caller ->
    add_reaction id caller (ri_Emoji i) now d d' -> message_step caller d d'
| act_unreact id m i :
    ReactInput_Validate i = None -> live_message d id m -> is_member d (msg_ChatID m) caller ->
    message_step caller d (remove_reaction id caller (ri_Emoji i) d).

(** The writes alone: what a request may still do when other requests came between
    its checks and its statement. *)
Inductive message_write `{TextEq, Latitude} (caller : uuid) (d : store) : store -> Prop :=
| write_send id i now :
    SendInput_Validate i = None ->
    (forall r, si_ReplyToID i = Some r ->
       exists m, st_messages d !! r = Some m /\ msg_ChatID m = si_ChatID i) ->
    st_messages d !! id = None ->
    message_write caller d (with_messages <[id := sent id caller i now]> d)
| write_edit id m i now :
    EditInput_Validate i = None -> live_message d id m -> msg_SenderID m = caller ->
    message_write caller d (with_messages (alter (edit_text (ei_Content i) now) id) d)
| write_delete id m now :
    live_message d id m -> msg_SenderID m = caller ->
    message_write caller d (with_messages (alter (mark_deleted now) id) d)
| write_read c now :
    message_write caller d (with_receipts <[(c, caller) := now]> d)
| write_react id emoji now d' :
    is_Some (st_messages d !! id) -> add_reaction id caller emoji now d d' -> message_write caller d d'
| write_unreact id emoji :
    message_write caller d (remove_reaction id caller emoji d).

Lemma message_step_write `{TextEq, Latitude} caller d d' : message_step caller d d' -> message_write caller d d'.
Proof.
  destruct 1 as [|id m i now Hv Hl Hs _|id m now Hl Hs _| |id m i now d' _ [Hm _] _ Hr|].
  - by apply write_send.
  - by apply (write_edit _ _ id m).
  - by apply (write_delete _ _ id m).
  - apply write_read.
  - apply (write_react _ _ id (ri_Emoji i) now); [by eexists|done].
  - apply write_unreact.
Qed.

(** ** Calls *)
Inductive message_call : Type :=
| CallSend (i : SendInput)
| CallEdit (id : uuid) (i : EditInput)
| CallDelete (id : uuid)
| CallMarkRead (c : uuid)
| CallGetHistory (i : ListInput)
| CallAddReaction (id : uuid) (i : ReactInput)
| CallRemoveReaction (id : uuid) (i : ReactInput).

Definition run_message_call {M : Type -> Type} `{MRet M, MBind M, Clock M, UUIDSource M}
    `{MessageRepository M, ChatRepository M} (caller : uuid) (c : message_call) : M (res unit) :=
  match c with
  | CallSend i => let? _ := Send caller i in mret (Ok tt)
  | CallEdit id i => let? _ := Edit id caller i in mret (Ok tt)
  | CallDelete id => Delete id caller
  | CallMarkRead c => MarkRead c caller
  | CallGetHistory i => let? _ := GetHistory caller i in mret (Ok tt)
  | CallAddReaction id i => AddReaction id caller i
  | CallRemoveReaction id i => RemoveReaction id caller i
  end.

Section refinement.
Context {W : Type} (inv : W -> Prop) (view : W -> store).
Context `{CR : ChatRepository (ST W), MR : MessageRepository (ST W)}.
Context `{CK : Clock (ST W), US : UUIDSource (ST W)}.
Context `{PR : Precision, TE : TextEq, LA : Latitude, LO : Loss} {HE : EnvSpec inv view} {HC : ChatRepositorySpec inv view CR}.
Context {HM : MessageRepositorySpec inv view MR}.

(** Started on store [d], the call answered [r]: a success satisfies [Q]; an
    error, unless the infrastructure failed, left the store alone; and whatever
    happened is at most one authorised step. *)
Definition outcome {A} (caller : uuid) (Q : A -> store -> Prop) (d : store) (r : res A) (w : W) : Prop :=
  inv w /\ (view w = d \/ message_step caller d (view w)) /\
  match r with Ok a => Q a (view w) | Err e => infra e \/ view w = d end.

Lemma outcome_quiet {A} caller (Q : A -> store -> Prop) d e w :
  inv w -> view w = d -> outcome caller Q d (Err e) w.
Proof using. intros ? <-. repeat split; auto. Qed.

Tactic Notation "query" uconstr(spec) "as" simple_intropattern(a) simple_intropattern(H) :=
  eapply (wp_reads inv view); [apply spec|eassumption|eassumption
    |let w := fresh "w" in let Hi := fresh "Hi" in let Hv := fresh "Hv" in
     intros a w Hi Hv H
    |intros; by apply outcome_quiet].
Ltac stop := apply wp_ret; by apply outcome_quiet.
Ltac check := apply wp_check; [intros ?Hv|intros ? _; by apply outcome_quiet].

(** The membership test in front of every operation. *)
Lemma wp_member {A} c caller (k : unit -> ST W (res A)) (P : res A -> W -> Prop) w d :
  inv w -> view w = d ->
  (forall w', inv w' -> view w' = d -> is_member d c caller -> wp (k tt) P w') ->
  (forall e w', inv w' -> view w' = d -> P (Err e) w') ->
  wp (try (assertMember c caller) k) P w.
Proof using All.
  intros Hi Hd Hk He. unfold assertMember. apply wp_try.
  eapply (wp_reads inv view); [apply (spec_IsMember (CR := CR))|done|done| |].
  - intros b w' Hi' Hd' Hb. destruct b; apply wp_ret; [|by apply He].
    apply Hk; [done..|]. symmetry in Hb. by bool_prop.
  - intros e w' Hi' Hd' _. by apply He.
Qed.

Lemma message_statement {A B} (m : ST W (res A)) (k : A -> ST W (res B)) post fail caller Q d w :
  honours inv view m post fail -> inv w -> view w = d ->
  (forall a d', post d a d' -> message_step caller d d') ->
  (forall a w', inv w' -> post d a (view w') ->
     wp (k a) (fun r w2 => w2 = w' /\ match r with Ok b => Q b (view w') | Err _ => False end) w') ->
  wp (try m k) (outcome caller Q d) w.
Proof using.
  intros Hm Hi Hv Hstep Hk. eapply (wp_exec inv view); [done..| | |].
  - intros a w' Hi' HP. eapply wp_mono; [by apply Hk|]. intros [b|e] w2 [-> HQ]; [|done].
    repeat split; [done|right; eauto|done].
  - intros e w' Hi' Hv' _. by apply outcome_quiet.
  - intros e a w' Hi' HP He. repeat split; [done|right; eauto|by left].
Qed.

Definition done_ : unit -> store -> Prop := fun _ _ => True.

(** [Send] stores the message it returns, at the precision of the column. *)
Lemma Send_outcome caller i w d :
  inv w -> view w = d ->
  wp (Send caller i) (outcome caller (fun m d' =>
    m = sent (msg_ID m) caller i (msg_CreatedAt m) /\ st_messages d !! msg_ID m = None /\
    d' = with_messages <[msg_ID m := sent (msg_ID m) caller i (stamp (msg_CreatedAt m))]> d) d) w.
Proof using All.
  intros Hi Hd. unfold Send. check.
  eapply wp_member; [done..| |intros; by apply outcome_quiet].
  intros wm Him Hvm Hmem. apply wp_try.
  eapply (wp_mono _ (fun r w' => inv w' /\ view w' = d /\ match r with
    | Ok _ => forall r, si_ReplyToID i = Some r ->
                exists m, st_messages d !! r = Some m /\ msg_ChatID m = si_ChatID i
    | Err _ => True end)).
  { destruct (si_ReplyToID i) as [r|]; [|by apply wp_ret].
    eapply (wp_reads inv view); [apply (spec_MessageGetByID (MR := MR))|done|done| |done].
    intros m wr Hir Hvr [Hr _]. wp_case; apply wp_ret; repeat split; [done..|].
    bool_prop. intros ? [= <-]. eauto. }
  intros [u|e] wr (Hir & Hvr & Hreply); [|by apply outcome_quiet].
  apply wp_bind. eapply wp_mono; [by apply spec_now|]. intros now wt [Hit Hvt].
  apply wp_bind. eapply wp_mono; [by apply spec_uuid|]. intros id wi [Hii Hvi].
  eapply message_statement; [apply (spec_MessageCreate (MR := MR))|done|congruence| |].
  - intros _ d' [Hf ->]. by apply act_send.
  - intros _ w' Hi' [Hf ->]. by apply wp_ret.
Qed.

(** The checks [Edit], [Delete] and the reactions share. *)
Lemma wp_message {A} id (k : Message -> ST W (res A)) (Q : A -> store -> Prop) caller w d :
  inv w -> view w = d ->
  (forall m w', inv w' -> view w' = d -> live_message d id m -> msg_ID m = id -> wp (k m) (outcome caller Q d) w') ->
  wp (try (messages_GetByID id) (fun m => if IsDeleted m then mret (Fail ErrMessageDeleted) else k m))
     (outcome caller Q d) w.
Proof using All.
  intros Hi Hd Hk. query (spec_MessageGetByID (MR := MR)) as m [Hm Hid]. wp_case; [stop|].
  by apply Hk.
Qed.

Lemma Edit_outcome id caller i w d :
  inv w -> view w = d ->
  wp (Edit id caller i) (outcome caller (fun m d' =>
    exists old now, live_message d id old /\ m = edited (ei_Content i) now old /\
      d' = with_messages (alter (edit_text (ei_Content i) (stamp now)) id) d) d) w.
Proof using All.
  intros Hi Hd. unfold Edit. check. apply wp_message; [done..|].
  intros m wm Him Hvm Hm Hid. unfold IsAuthoredBy. wp_case; [stop|]. bool_prop.
  eapply wp_member; [done..| |intros; by apply outcome_quiet]. intros w2 Hi2 Hv2 Hmem.
  apply wp_bind. eapply wp_mono; [by apply spec_now|]. intros now wt [Hit Hvt].
  eapply message_statement; [apply (spec_MessageUpdate (MR := MR))|done|congruence| |].
  - intros _ d' [_ ->]. unfold update_message. cbn. rewrite Hid. by eapply act_edit.
  - intros _ w' Hi' [_ ->]. apply wp_ret. split; [done|]. unfold update_message. cbn. rewrite Hid. by exists m, now.
Qed.

Lemma Delete_outcome id caller w d :
  inv w -> view w = d -> wp (Delete id caller) (outcome caller (fun _ d' =>
    exists old now, live_message d id old /\ msg_SenderID old = caller /\
      d' = with_messages (alter (mark_deleted now) id) d) d) w.
Proof using All.
  intros Hi Hd. unfold Delete. apply wp_message; [done..|].
  intros m wm Him Hvm Hm Hid. unfold IsAuthoredBy. wp_case; [stop|]. bool_prop.
  eapply wp_member; [done..| |intros; by apply outcome_quiet]. intros w2 Hi2 Hv2 Hmem.
  eapply message_statement; [apply (spec_MessageDelete (MR := MR))|done|done| |].
  - intros _ d' [_ [now ->]]. by eapply act_delete.
  - intros _ w' Hi' [_ [now ->]]. apply wp_ret. split; [done|]. by exists m, now.
Qed.

Lemma MarkRead_outcome c caller w d :
  inv w -> view w = d -> wp (MarkRead c caller) (outcome caller (fun _ d' =>
    exists now, d' = with_receipts <[(c, caller) := now]> d) d) w.
Proof using All.
  intros Hi Hd. unfold MarkRead.
  eapply wp_member; [done..| |intros; by apply outcome_quiet]. intros w2 Hi2 Hv2 Hmem.
  eapply message_statement; [apply (spec_MarkRead (MR := MR))|done|done| |].
  - intros _ d' [now ->]. by apply act_read.
  - intros _ w' Hi' [now Hd']. apply wp_ret. split; [done|]. by exists now.
Qed.

Lemma AddReaction_outcome id caller i w d :
  inv w -> view w = d -> wp (AddReaction id caller i) (outcome caller (fun _ d' =>
    exists now, add_reaction id caller (ri_Emoji i) now d d') d) w.
Proof using All.
  intros Hi Hd. unfold AddReaction. check. apply wp_message; [done..|].
  intros m wm Him Hvm Hm Hid.
  eapply wp_member; [done..| |intros; by apply outcome_quiet]. intros w2 Hi2 Hv2 Hmem.
  apply wp_bind. eapply wp_mono; [by apply spec_now|]. intros now wt [Hit Hvt].
  eapply message_statement; [apply (spec_AddReaction (MR := MR))|done|congruence| |].
  - intros a d' Hadd. cbn in Hadd. by eapply act_react.
  - intros [] w' Hi' Hd'. apply wp_ret. split; [done|]. by exists (stamp now).
Qed.

Lemma RemoveReaction_outcome id caller i w d :
  inv w -> view w = d -> wp (RemoveReaction id caller i) (outcome caller (fun _ d' =>
    d' = remove_reaction id caller (ri_Emoji i) d) d) w.
Proof using All.
  intros Hi Hd. unfold RemoveReaction. check. apply wp_message; [done..|].
  intros m wm Him Hvm Hm Hid.
  eapply wp_member; [done..| |intros; by apply outcome_quiet]. intros w2 Hi2 Hv2 Hmem.
  eapply message_statement; [apply (spec_RemoveReaction (MR := MR))|done|done| |].
  - intros _ d' ->. by eapply act_unreact.
  - intros [] w' Hi' Hd'. by apply wp_ret.
Qed.

(** ** Reading *)

(** What [GetHistory] returns: the page of the abstract history, decorated with
    the reactions, and the cursor of a full page. *)
Definition page_ok (d : store) (i : ListInput) (p : PageResult) : Prop :=
  bare <$> page_Messages p = history_page d (li_ChatID i) (li_Cursor i) (Z.to_nat (li_Limit i)) /\
  Forall (fun m => reactions_listing d (msg_ID m) (msg_Reactions m)) (page_Messages p) /\
  nextCursor (page_Messages p) (li_Limit i) = Ok (page_NextCursor p).

Lemma GetHistory_outcome caller i w d :
  inv w -> view w = d ->
  wp (GetHistory caller i) (fun r w' => inv w' /\ view w' = d /\
    match r with Ok p => is_member d (li_ChatID i) caller /\ page_ok d i p | Err _ => True end) w.
Proof using All.
  intros Hi Hd. unfold GetHistory.
  eapply wp_member; [done..| |done]. intros w2 Hi2 Hv2 Hmem.
  eapply (wp_reads inv view); [apply (spec_GetChatMessages (MR := MR))|done|done| |done].
  intros msgs w3 Hi3 Hv3 [_ Hpage]. apply wp_try.
  eapply (wp_mono _ (fun r w' => inv w' /\ view w' = d /\ match r with
    | Ok ms => bare <$> ms = bare <$> msgs /\
               Forall (fun m => reactions_listing d (msg_ID m) (msg_Reactions m)) ms
    | Err _ => True end)).
  { destruct msgs as [|m0 msgs']; [by apply wp_ret|]. remember (m0 :: msgs') as msgs.
    eapply (wp_reads inv view); [apply (spec_GetReactionsBatch (MR := MR))|done|done| |done].
    intros t wr Hir Hvr Ht. apply wp_ret. repeat split; [done..| |].
    - rewrite <- list_fmap_compose. by apply list_fmap_ext.
    - apply Forall_fmap, Forall_forall. intros m Hm. cbn. apply Ht.
      by apply list_elem_of_fmap_2. }
  intros [ms|e] wr (Hir & Hvr & Hms); [|done]. destruct Hms as [Hb Hrx].
  apply wp_ret. split; [done|]. split; [done|]. unfold buildPageResult.
  destruct (nextCursor ms (li_Limit i)) as [c|e] eqn:Hc; [|done]. split; [done|].
  split; [|by split]. cbn. by rewrite Hb.
Qed.

Lemma run_message_call_outcome caller call w :
  inv w -> wp (run_message_call caller call) (outcome caller done_ (view w)) w.
Proof using All.
  intros Hi.
  assert (forall A (m : ST W (res A)) Q, wp m (outcome caller Q (view w)) w ->
    wp (let? _ := m in mret (Ok tt)) (outcome caller done_ (view w)) w) as Hdisc.
  { intros A m Q Hm. apply wp_try. eapply wp_mono; [exact Hm|].
    intros [a|e] w' (? & ? & ?); [apply wp_ret|]; by repeat split. }
  assert (forall (m : ST W (res unit)) Q, wp m (outcome caller Q (view w)) w ->
    wp m (outcome caller done_ (view w)) w) as Hweak.
  { intros m Q Hm. eapply wp_mono; [exact Hm|]. intros [a|e] w' (? & ? & ?); by repeat split. }
  destruct call; cbn [run_message_call].
  - eapply Hdisc. by apply Send_outcome.
  - eapply Hdisc. by apply Edit_outcome.
  - eapply Hweak. by apply Delete_outcome.
  - eapply Hweak. by apply MarkRead_outcome.
  - apply wp_try. eapply wp_mono; [by apply GetHistory_outcome|].
    intros [p|e] w' (Hi' & Hv & _); [apply wp_ret|]; (split; [done|split; [by left|]]); [done|by right].
  - eapply Hweak. by apply AddReaction_outcome.
  - eapply Hweak. by apply RemoveReaction_outcome.
Qed.
End refinement.

(** With a positive limit the history never panics: the handler clamps it. *)
Lemma nextCursor_total msgs limit : 0 < limit -> exists c, nextCursor msgs limit = Ok c.
Proof.
  intros Hl. unfold nextCursor. destruct (_ <? _) eqn:E; [by eexists|].
  destruct (last msgs) eqn:El; [by eexists|]. apply last_None in El. subst. apply Z.ltb_ge in E. cbn in E. lia.
Qed.
(** ** What the steps preserve *)

Lemma add_reaction_others `{TextEq, Latitude} m u e now d d' :
  add_reaction m u e now d d' ->
  d' = d \/ exists e', d' = with_reactions <[(m, u, e') := now]> d.
Proof.
  unfold add_reaction. destruct (kept_emoji e) as [e'|]; [|by left].
  intros [[_ ->]|[[_ ->]|(_ & _ & ->)]]; [by left| |by left]. right. by exists e'.
Qed.

(** A stored message: its key is its id, its text was validated, its reply target
    is a message of the same chat; reactions hang on messages. *)
Record message_wf (d : store) : Prop := {
  mw_id : forall id m, st_messages d !! id = Some m -> msg_ID m = id /\ bare m = m;
  mw_content : forall id m, st_messages d !! id = Some m ->
    1 <= RuneCountInString (msg_Content m) <= 4096;
  mw_reply : forall id m r, st_messages d !! id = Some m -> msg_ReplyToID m = Some r ->
    exists m', st_messages d !! r = Some m' /\ msg_ChatID m' = msg_ChatID m;
  mw_reaction : forall m u e, is_Some (st_reactions d !! (m, u, e)) -> is_Some (st_messages d !! m) }.

(** What never changes about a message. *)
Definition same_identity (m m' : Message) : Prop :=
  msg_ID m' = msg_ID m /\ msg_ChatID m' = msg_ChatID m /\ msg_SenderID m' = msg_SenderID m /\
  msg_Type m' = msg_Type m /\ msg_ReplyToID m' = msg_ReplyToID m /\ msg_CreatedAt m' = msg_CreatedAt m.

Definition messages_kept (caller : uuid) (d d' : store) : Prop :=
  forall id m, st_messages d !! id = Some m ->
    exists m', st_messages d' !! id = Some m' /\ same_identity m m' /\
      (IsDeleted m = true -> m' = m) /\ (msg_SenderID m <> caller -> m' = m).

Lemma SendInput_checks i : SendInput_Validate i = None ->
  1 <= RuneCountInString (si_Content i) <= 4096 /\ OneOf (si_Type i) ["text"; "image"; "file"] = true.
Proof.
  intros H. assert (first_failure
    [(negb (bool_decide (si_ChatID i = Nil)), "chat_id is required");
     (MinLen (si_Content i) 1, "content must not be empty");
     (MaxLen (si_Content i) 4096, "content must be at most 4096 characters");
     (OneOf (si_Type i) ["text"; "image"; "file"], "type must be one of: text, image, file")] = None)
    as Hf by (rewrite <- checks_first_failure; exact H).
  rewrite first_failure_None, !Forall_cons in Hf. cbn [fst] in Hf. destruct Hf as (_ & H1 & H2 & H3 & _).
  apply Z.leb_le in H1, H2. split; [lia|done].
Qed.

Lemma SendInput_valid i : SendInput_Validate i = None -> 1 <= RuneCountInString (si_Content i) <= 4096.
Proof. apply SendInput_checks. Qed.

Lemma EditInput_valid i : EditInput_Validate i = None -> 1 <= RuneCountInString (ei_Content i) <= 4096.
Proof.
  intros H. assert (first_failure
    [(MinLen (ei_Content i) 1, "content must not be empty");
     (MaxLen (ei_Content i) 4096, "content must be at most 4096 characters")] = None)
    as Hf by (rewrite <- checks_first_failure; exact H).
  rewrite first_failure_None, !Forall_cons in Hf. cbn [fst] in Hf. destruct Hf as (H1 & H2 & _).
  apply Z.leb_le in H1, H2. lia.
Qed.

Lemma same_identity_refl m : same_identity m m.
Proof. by repeat split. Qed.
#[export] Hint Resolve same_identity_refl : vibe.

(** Rewriting one live message in a way that keeps its identity. *)
Lemma kept_alter caller d id m f :
  st_messages d !! id = Some m -> IsDeleted m = false -> msg_SenderID m = caller ->
  same_identity m (f m) -> messages_kept caller d (with_messages (alter f id) d).
Proof.
  intros Hm Hl Hs Hf k n Hk. cbn. rewrite lookup_alter. case_decide as E; [subst k|].
  - rewrite Hk. assert (n = m) as -> by congruence. cbn. exists (f m). repeat split; try apply Hf.
    + congruence.
    + done.
  - exists n. repeat split; done.
Qed.

Lemma kept_refl caller d d' : st_messages d' = st_messages d -> messages_kept caller d d'.
Proof. intros E id m Hm. rewrite E. exists m. by repeat split. Qed.

Lemma message_write_kept `{TextEq, Latitude} caller d d' : message_write caller d d' -> messages_kept caller d d'.
Proof.
  destruct 1 as [id i now Hv Hr Hf|id m i now Hv [Hm Hl] Hs|id m now [Hm Hl] Hs
    |c now|id e now d' _ Hr|id e]; try by apply kept_refl.
  - intros k m Hk. exists m. cbn. rewrite lookup_insert_ne by congruence. by repeat split.
  - by apply (kept_alter _ _ _ m).
  - by apply (kept_alter _ _ _ m).
  - apply kept_refl. by apply add_reaction_others in Hr as [->|[e' ->]].
Qed.

Lemma message_step_kept `{TextEq, Latitude} caller d d' : message_step caller d d' -> messages_kept caller d d'.
Proof. intros Hs. by apply message_write_kept, message_step_write. Qed.

Lemma wf_alter d id m f :
  message_wf d -> st_messages d !! id = Some m -> same_identity m (f m) -> bare (f m) = f m ->
  1 <= RuneCountInString (msg_Content (f m)) <= 4096 ->
  message_wf (with_messages (alter f id) d).
Proof.
  intros [Hid Hc Hr Hx] Hm (? & Hchat & _ & _ & Hreply & _) Hb Hlen.
  assert (forall k n, alter f id (st_messages d) !! k = Some n ->
    (k = id /\ n = f m) \/ st_messages d !! k = Some n) as Hcase.
  { intros k n. rewrite lookup_alter. case_decide; [subst|by right]. rewrite Hm. cbn.
    intros [= <-]. by left. }
  split; cbn.
  - intros k n [[-> ->]|Hk]%Hcase; [|by apply Hid]. destruct (Hid _ _ Hm). split; congruence.
  - intros k n [[-> ->]|Hk]%Hcase; [done|by eapply Hc].
  - intros k n r Hn Hrn.
    assert (exists m', st_messages d !! r = Some m' /\ msg_ChatID m' = msg_ChatID n) as (m' & Hm' & Hc').
    { apply Hcase in Hn as [[-> ->]|Hk]; [rewrite Hreply in Hrn; rewrite Hchat|]; by eapply Hr. }
    rewrite lookup_alter. case_decide as E; [subst r|by exists m'].
    rewrite Hm. cbn. exists (f m). split; [done|]. congruence.
  - intros k u e Hk. destruct (Hx k u e Hk) as [n Hn]. rewrite lookup_alter. case_decide; [subst|by eexists].
    rewrite Hn. by eexists.
Qed.

Lemma message_write_wf `{TextEq, Latitude} caller d d' : message_wf d -> message_write caller d d' -> message_wf d'.
Proof.
  intros Hwf Hstep.
  destruct Hstep as [id i now Hv Hr Hf|id m i now Hv [Hm Hl] Hs|id m now [Hm Hl] Hs
    |c now|id emoji now d' [m Hm] Hadd|id emoji].
  - pose proof Hwf as [Hid Hc Hrep Hx]. split; cbn.
    + intros k n [[<- <-]|[_ Hk]]%lookup_insert_Some; [done|by apply Hid].
    + intros k n [[<- <-]|[_ Hk]]%lookup_insert_Some; [by apply SendInput_valid|by eapply Hc].
    + intros k n r [[<- <-]|[_ Hk]]%lookup_insert_Some Hrn.
      * destruct (Hr r Hrn) as (m' & Hm' & ?). exists m'. by rewrite lookup_insert_ne by congruence.
      * destruct (Hrep k n r Hk Hrn) as (m' & Hm' & ?). exists m'. by rewrite lookup_insert_ne by congruence.
    + intros k u e Hk. rewrite lookup_insert_is_Some'. right. by eapply Hx.
  - apply (wf_alter _ _ m); [done..|]. by apply EditInput_valid.
  - apply (wf_alter _ _ m); [done..|]. exact (mw_content d Hwf id m Hm).
  - by destruct Hwf.
  - apply add_reaction_others in Hadd as [->|[e' ->]]; [done|].
    destruct Hwf as [Hid Hc Hrep Hx]. split; [done..|]. cbn. intros k u e.
    rewrite lookup_insert_is_Some'. intros [E|Hk]; [|by eapply Hx]. simplify_eq. by eexists.
  - destruct Hwf as [Hid Hc Hrep Hx]. split; [done..|]. cbn. intros k u e [x Hk].
    apply map_lookup_filter_Some in Hk as [Hk _]. apply (Hx k u e). by eexists.
Qed.

Lemma message_step_wf `{TextEq, Latitude} caller d d' : message_wf d -> message_step caller d d' -> message_wf d'.
Proof. intros Hwf Hs. by eapply message_write_wf, message_step_write. Qed.

(** ** What a write leaves to the other users *)
Lemma message_write_frame `{TextEq, Latitude} caller d d' :
  message_write caller d d' ->
  st_users d' = st_users d /\ st_chats d' = st_chats d /\ st_members d' = st_members d.
Proof.
  destruct 1 as [| | | |id e now d' _ Ha|]; try done. by apply add_reaction_others in Ha as [->|[e' ->]].
Qed.

Lemma message_write_new `{TextEq, Latitude} caller d d' id m :
  message_write caller d d' -> st_messages d' !! id = Some m -> st_messages d !! id = None ->
  msg_SenderID m = caller.
Proof.
  intros Hs Hm Hn. destruct Hs as [k i now _ _ _|k n i now _ _ _|k n now _ _|c now|k e now d' _ Ha|k e]; cbn in Hm.
  - apply lookup_insert_Some in Hm as [[_ <-]|[_ Hm]]; [done|congruence].
  - rewrite lookup_alter in Hm. case_decide; [subst; by rewrite Hn in Hm|congruence].
  - rewrite lookup_alter in Hm. case_decide; [subst; by rewrite Hn in Hm|congruence].
  - congruence.
  - apply add_reaction_others in Ha as [->|[e' ->]]; cbn in Hm; congruence.
  - congruence.
Qed.

Lemma message_write_marks `{TextEq, Latitude} caller d d' u :
  message_write caller d d' -> u <> caller ->
  (forall c, st_receipts d' !! (c, u) = st_receipts d !! (c, u)) /\
  (forall m e, st_reactions d' !! (m, u, e) = st_reactions d !! (m, u, e)).
Proof.
  intros Hs Hu. destruct Hs as [| | |c now|k e now d' _ Ha|k e]; try done.
  - split; [|done]. intros c'. cbn. apply lookup_insert_ne. congruence.
  - apply add_reaction_others in Ha as [->|[e' ->]]; [done|]. split; [done|].
    intros m e2. cbn. apply lookup_insert_ne. congruence.
  - split; [done|]. intros m e2. cbn. apply option_eq. intros t. rewrite map_lookup_filter_Some. cbn.
    split; [tauto|]. intros Hk. split; [done|]. intros [? _]. congruence.
Qed.
