(* ===== verification/MessagePolicy.v ===== *)
(** * Who may do what with a message

    The exact behaviour of the message operations: when each succeeds, and what
    it then changes. *)
From S2P Require Import Prelude Utf8 Domain Validate ChatUsecase MessageUsecase Store.
From S2P Require Import ChatContract ChatRefinement ChatPolicy MessageRefinement.
Open Scope Z_scope.

(** The target of a reply is a message of the same chat. *)
Definition reply_ok (d : store) (i : SendInput) : Prop :=
  forall r, si_ReplyToID i = Some r -> exists m, st_messages d !! r = Some m /\ msg_ChatID m = si_ChatID i.

(** A live message [m] of a chat the caller is in. *)
Definition reachable (d : store) (id caller : uuid) (m : Message) : Prop :=
  live_message d id m /\ is_member d (msg_ChatID m) caller.

Section policy.
Context {W : Type} (inv : W -> Prop) (view : W -> store).
Context `{CR : ChatRepository (ST W), MR : MessageRepository (ST W)}.
Context `{CK : Clock (ST W), US : UUIDSource (ST W)}.
Context `{PR : Precision, TE : TextEq, LA : Latitude, LO : Loss} {HE : EnvSpec inv view} {HC : ChatRepositorySpec inv view CR}.
Context {HM : MessageRepositorySpec inv view MR} {NL : Strict}.

Abbreviation decided := (decides inv view).

Lemma need_member {A} c caller (k : unit -> ST W (res A)) ok post w d :
  inv w -> view w = d -> (ok -> is_member d c caller) ->
  (forall w', inv w' -> view w' = d -> is_member d c caller -> wp (k tt) (decided ok post d) w') ->
  wp (try (assertMember c caller) k) (decided ok post d) w.
Proof using HC.
  intros Hi Hv Hok Hk. unfold assertMember. apply wp_try.
  eapply (wp_reads inv view); [apply (spec_IsMember (CR := CR))|done|done| |].
  - intros b w' Hi' Hv' ->. wp_case; bool_prop; apply wp_ret; [|by apply Hk].
    apply decides_no; [done..|]. tauto.
  - intros e w' Hi' Hv' [[]|?]. split; [done|by left].
Qed.

Lemma need_message {A} id (k : Message -> ST W (res A)) ok post w d :
  inv w -> view w = d -> (ok -> exists m, live_message d id m) ->
  (forall m w', inv w' -> view w' = d -> live_message d id m -> msg_ID m = id ->
     wp (k m) (decided ok post d) w') ->
  wp (try (messages_GetByID id) (fun m => if IsDeleted m then mret (Fail ErrMessageDeleted) else k m))
     (decided ok post d) w.
Proof using HM.
  intros Hi Hv Hok Hk.
  eapply (wp_need inv view); [apply (spec_MessageGetByID (MR := MR))|done|done| |].
  { intros e [_ Hn] Ho. destruct (Hok Ho) as (m & Hm & _). congruence. }
  intros m w1 Hi1 Hv1 [Hm Hid]. wp_case; [|by apply Hk].
  apply wp_ret, decides_no; [done..|]. intros Ho. destruct (Hok Ho) as (m' & Hm' & Hl). congruence.
Qed.

Ltac invalid := let e := fresh "e" in let He := fresh "He" in
  intros e He; apply decides_no; [done..|]; intros [? _]; congruence.

Lemma Send_policy caller i w d :
  inv w -> view w = d ->
  wp (Send caller i)
    (decided (SendInput_Validate i = None /\ is_member d (si_ChatID i) caller /\ reply_ok d i)
       (fun d' => exists id now, st_messages d !! id = None /\
          d' = with_messages <[id := sent id caller i now]> d) d) w.
Proof using All.
  intros Hi Hv. unfold Send. apply wp_check; [intros Hval|invalid].
  apply need_member; [done..|tauto|]. intros w1 Hi1 Hv1 Hm. apply wp_try.
  eapply (wp_mono _ (fun r w' => match r with
    | Ok _ => inv w' /\ view w' = d /\ reply_ok d i
    | Err e => inv w' /\ (infra e \/ (view w' = d /\ ~ reply_ok d i)) end)).
  { unfold reply_ok. destruct (si_ReplyToID i) as [r|]; [|by apply wp_ret].
    eapply (wp_reads inv view); [apply (spec_MessageGetByID (MR := MR))|done|done| |].
    - intros m w2 Hi2 Hv2 [Hr _]. wp_case; bool_prop; apply wp_ret.
      + split; [done|right]. split; [done|]. intros Hok. destruct (Hok r eq_refl) as (m' & ? & ?). congruence.
      + split; [done|]. split; [done|]. intros ? [= <-]. by exists m.
    - intros e w2 Hi2 Hv2 [[_ Hn]|?]; (split; [done|]); [right|by left]. split; [done|].
      intros Hok. destruct (Hok r eq_refl) as (m' & ? & ?). congruence. }
  intros [u|e] w2 H2.
  2:{ destruct H2 as [Hi2 [?|[Hv2 Hno]]]; (split; [done|]); [by left|right]. split; [done|tauto]. }
  destruct H2 as (Hi2 & Hv2 & Hr).
  eapply (wp_now inv view); [done..|]. intros now w3 Hi3 Hv3.
  eapply (wp_uuid inv view); [done..|]. intros id w4 Hi4 Hv4.
  eapply (wp_exec inv view); [apply (spec_MessageCreate (MR := MR))|done|done| | |].
  - intros _ w5 Hi5 [Hf Hd5]. apply wp_ret. split; [done|]. split; [done|].
    exists id, (stamp now). by rewrite Hd5.
  - intros e w5 Hi5 Hv5 [[]|?]. split; [done|by left].
  - intros e _ w5 Hi5 _ ?. split; [done|by left].
Qed.

Lemma Edit_policy id caller i w d :
  inv w -> view w = d ->
  wp (Edit id caller i)
    (decided (EditInput_Validate i = None /\
        exists m, reachable d id caller m /\ msg_SenderID m = caller)
       (fun d' => exists now, d' = with_messages (alter (edit_text (ei_Content i) now) id) d) d) w.
Proof using All.
  intros Hi Hv. unfold Edit. apply wp_check; [intros Hval|invalid].
  apply need_message; [done..|intros (_ & m & [? _] & _); by exists m|].
  intros m w1 Hi1 Hv1 Hm Hid. unfold IsAuthoredBy. wp_case; bool_prop.
  { apply wp_ret, decides_no; [done..|]. intros (_ & m' & [[Hm' _] _] & Hs). destruct Hm. congruence. }
  apply need_member; [done..| |].
  { intros (_ & m' & [[Hm' _] Hmem] & _). destruct Hm. congruence. }
  intros w2 Hi2 Hv2 Hmem. eapply (wp_now inv view); [done..|]. intros now w3 Hi3 Hv3.
  eapply (wp_exec inv view); [apply (spec_MessageUpdate (MR := MR))|done|done| | |].
  - intros _ w5 Hi5 [_ Hd5]. apply wp_ret. split; [done|]. split; [split; [done|by exists m]|].
    exists (stamp now). rewrite Hd5. unfold update_message. cbn. by rewrite Hid.
  - intros e w5 Hi5 Hv5 [[_ Hno%strictly]|?]; (split; [done|]); [|by left]. cbn in Hno. rewrite Hid in Hno.
    by destruct (Hno m).
  - intros e _ w5 Hi5 _ ?. split; [done|by left].
Qed.

Lemma Delete_policy id caller w d :
  inv w -> view w = d ->
  wp (Delete id caller)
    (decided (exists m, reachable d id caller m /\ msg_SenderID m = caller)
       (fun d' => exists now, d' = with_messages (alter (mark_deleted now) id) d) d) w.
Proof using All.
  intros Hi Hv. unfold Delete.
  apply need_message; [done..|intros (m & [? _] & _); by exists m|].
  intros m w1 Hi1 Hv1 Hm Hid. unfold IsAuthoredBy. wp_case; bool_prop.
  { apply wp_ret, decides_no; [done..|]. intros (m' & [[Hm' _] _] & Hs). destruct Hm. congruence. }
  apply need_member; [done..| |].
  { intros (m' & [[Hm' _] Hmem] & _). destruct Hm. congruence. }
  intros w2 Hi2 Hv2 Hmem.
  eapply (wp_do inv view _ _ (fun d d' => exists now, d' = with_messages (alter (mark_deleted now) id) d)).
  - eapply honours_weaken; [apply (spec_MessageDelete (MR := MR))|]. by intros ? ? ? [_ ?].
  - done.
  - done.
  - by exists m.
  - intros e [_ Hno]. by destruct (Hno m).
  - done.
Qed.

Lemma MarkRead_policy c caller w d :
  inv w -> view w = d ->
  wp (MarkRead c caller)
    (decided (is_member d c caller) (fun d' => exists now, d' = with_receipts <[(c, caller) := now]> d) d) w.
Proof using All.
  intros Hi Hv. unfold MarkRead. apply need_member; [done..|]. intros w2 Hi2 Hv2 Hmem.
  eapply (wp_do inv view _ _ (fun d d' => exists now, d' = with_receipts <[(c, caller) := now]> d));
    [apply (spec_MarkRead (MR := MR))|done|done|done|by intros ? []|done].
Qed.

Lemma AddReaction_policy id caller i w d :
  inv w -> view w = d ->
  wp (AddReaction id caller i)
    (decided (ReactInput_Validate i = None /\ exists m, reachable d id caller m)
       (fun d' => exists now, add_reaction id caller (ri_Emoji i) now d d') d) w.
Proof using All.
  intros Hi Hv. unfold AddReaction. apply wp_check; [intros Hval|invalid].
  apply need_message; [done..|intros (_ & m & [? _]); by exists m|].
  intros m w1 Hi1 Hv1 Hm Hid. apply need_member; [done..| |].
  { intros (_ & m' & [[Hm' _] Hmem]). destruct Hm. congruence. }
  intros w2 Hi2 Hv2 Hmem. eapply (wp_now inv view); [done..|]. intros now w3 Hi3 Hv3.
  eapply (wp_do inv view _ _ (fun d d' => exists now, add_reaction id caller (ri_Emoji i) now d d')).
  - eapply honours_weaken; [apply (spec_AddReaction (MR := MR))|]. intros d1 a d2 Ha. by exists (stamp now).
  - done.
  - done.
  - split; [done|by exists m].
  - by intros ? [].
  - done.
Qed.

Lemma RemoveReaction_policy id caller i w d :
  inv w -> view w = d ->
  wp (RemoveReaction id caller i)
    (decided (ReactInput_Validate i = None /\ exists m, reachable d id caller m)
       (fun d' => d' = remove_reaction id caller (ri_Emoji i) d) d) w.
Proof using All.
  intros Hi Hv. unfold RemoveReaction. apply wp_check; [intros Hval|invalid].
  apply need_message; [done..|intros (_ & m & [? _]); by exists m|].
  intros m w1 Hi1 Hv1 Hm Hid. apply need_member; [done..| |].
  { intros (_ & m' & [[Hm' _] Hmem]). destruct Hm. congruence. }
  intros w2 Hi2 Hv2 Hmem.
  eapply (wp_do inv view _ _ (fun d d' => d' = remove_reaction id caller (ri_Emoji i) d));
    [apply (spec_RemoveReaction (MR := MR))|done|done|split; [done|by exists m]|by intros ? []|done].
Qed.
End policy.
