(* ===== verification/Pagination.v ===== *)
(** * Keyset pagination

    A client that follows the [next_cursor] of [GetHistory] reads the whole
    history: every live message once, newest first, in finitely many pages. *)
From S2P Require Import Prelude Domain ChatUsecase MessageUsecase Store MessageRefinement.
Open Scope Z_scope.

(** The client: request pages until there is no cursor.  A walk whose fuel runs out
    before a page comes without a cursor is an error, never an answer. *)
Fixpoint walk {M : Type -> Type} `{MRet M, MBind M, MessageRepository M, ChatRepository M}
    (fuel : nat) (callerID chatID : uuid) (limit : Z) (cursor : option MessageCursor) :
    M (res (list Message)) :=
  match fuel with
  | O => mret (Err (Other "out of fuel"))
  | S fuel =>
    let? page := GetHistory callerID (mkListInput chatID cursor limit) in
    match page_NextCursor page with
    | None => mret (Ok (page_Messages page))
    | Some c =>
      let? rest := walk fuel callerID chatID limit (Some c) in
      mret (Ok (page_Messages page ++ rest))
    end
  end.

Definition cursor_of (m : Message) : MessageCursor := mkMessageCursor (msg_CreatedAt m) (msg_ID m).

(** Stored instants are unchanged by the precision of the column. *)
Definition stamped `{Precision} (d : store) : Prop :=
  forall id m, st_messages d !! id = Some m -> stamp (msg_CreatedAt m) = msg_CreatedAt m.

Lemma history_sorted d c : StronglySorted newer_message (history d c).
Proof. unfold history. apply StronglySorted_merge_sort; apply _. Qed.

Lemma elem_of_history d c m :
  message_wf d -> m ∈ history d c <->
  st_messages d !! msg_ID m = Some m /\ msg_ChatID m = c /\ IsDeleted m = false.
Proof.
  intros Hwf. unfold history. rewrite merge_sort_Permutation, list_elem_of_filter, list_elem_of_fmap. split.
  - intros ([? ?] & [k x] & -> & Hin%elem_of_map_to_list). cbn. by destruct (mw_id d Hwf k x Hin) as [-> _].
  - intros (Hm & ? & ?). split; [done|]. exists (msg_ID m, m). split; [done|]. by apply elem_of_map_to_list.
Qed.

Lemma history_ids d c : message_wf d -> NoDup (msg_ID <$> history d c).
Proof.
  intros Hwf. unfold history.
  rewrite (NoDup_Permutation_proper _ _ (fmap_Permutation _ _ _ (merge_sort_Permutation newer_message _))).
  apply (sublist_NoDup _ (msg_ID <$> (map_to_list (st_messages d)).*2)).
  - assert (msg_ID <$> (map_to_list (st_messages d)).*2 = (map_to_list (st_messages d)).*1) as ->;
      [|apply NoDup_fst_map_to_list].
    rewrite <- list_fmap_compose. apply list_fmap_ext. intros i [k m] Hi.
    apply list_elem_of_lookup_2, elem_of_map_to_list in Hi. cbn. by destruct (mw_id d Hwf k m Hi).
  - apply fmap_sublist, sublist_filter.
Qed.

(** The cursor of a message selects exactly what follows it in the history. *)
Lemma older_than_split `{Precision} pre m rest :
  StronglySorted newer_message (pre ++ m :: rest) -> NoDup (msg_ID <$> pre ++ m :: rest) ->
  stamp (msg_CreatedAt m) = msg_CreatedAt m ->
  filter (older_than (Some (cursor_of m))) (pre ++ m :: rest) = rest.
Proof.
  intros Hs Hnd Hst. apply StronglySorted_app in Hs as (Hpre & _ & Hrest).
  apply StronglySorted_cons in Hrest as [Hm _].
  rewrite fmap_app, fmap_cons in Hnd. apply NoDup_app in Hnd as (_ & _ & Hnd).
  apply NoDup_cons in Hnd as [Hni _].
  rewrite filter_app, filter_none, filter_cons, decide_False.
  - apply filter_every, Forall_forall. intros x Hx. rewrite Forall_forall in Hm. specialize (Hm x Hx).
    assert (msg_ID x <> msg_ID m) by (intros E; apply Hni; rewrite <- E; by apply list_elem_of_fmap_2).
    unfold older_than, newer_message in *. cbn. rewrite Hst. lia.
  - unfold older_than. cbn. rewrite Hst. lia.
  - apply Forall_forall. intros x Hx. specialize (Hpre x m Hx (list_elem_of_here m rest)).
    unfold older_than, newer_message in *. cbn. rewrite Hst. lia.
Qed.

(** Where a reader is: it has seen [pre], its cursor is the last message seen. *)
Definition at_cursor (pre : list Message) (cursor : option MessageCursor) : Prop :=
  cursor = cursor_of <$> last pre.

Lemma history_page_from `{Precision} d c pre rest cursor limit :
  message_wf d -> stamped d -> history d c = pre ++ rest -> at_cursor pre cursor ->
  history_page d c cursor limit = take limit rest.
Proof.
  intros Hwf Hst Hh ->. unfold history_page. destruct (last pre) as [m|] eqn:Hl; cbn.
  - apply last_Some in Hl as [pre' ->]. rewrite Hh, <- app_assoc. cbn. f_equal. apply older_than_split.
    + pose proof (history_sorted d c) as Hs. by rewrite Hh, <- app_assoc in Hs.
    + pose proof (history_ids d c Hwf) as Hnd. by rewrite Hh, <- app_assoc in Hnd.
    + assert (m ∈ history d c) as Hin by (rewrite Hh, <- app_assoc; set_solver).
      apply elem_of_history in Hin as [Hm _]; [|done]. by eapply Hst.
  - apply last_None in Hl. subst pre. rewrite Hh. f_equal. apply filter_every.
    by apply Forall_forall.
Qed.

Section walk.
Context {W : Type} (inv : W -> Prop) (view : W -> store).
Context `{CR : ChatRepository (ST W), MR : MessageRepository (ST W)}.
Context `{CK : Clock (ST W), US : UUIDSource (ST W)}.
Context `{PR : Precision, TE : TextEq, LA : Latitude, LO : Loss} {HE : EnvSpec inv view} {HC : ChatRepositorySpec inv view CR}.
Context {HM : MessageRepositorySpec inv view MR}.

(** The pages asked for are answered: no statement is lost. *)
Context (answered : forall caller i w, inv w -> is_member (view w) (li_ChatID i) caller ->
  0 < li_Limit i -> wp (GetHistory caller i) (fun r _ => is_ok r = true) w).

Lemma walk_reads fuel caller c limit cursor pre rest d w :
  message_wf d -> stamped d -> is_member d c caller -> 0 < limit ->
  inv w -> view w = d -> history d c = pre ++ rest -> at_cursor pre cursor ->
  (length rest < fuel)%nat ->
  wp (walk fuel caller c limit cursor)
     (fun r w' => inv w' /\ view w' = d /\ exists ms, r = Ok ms /\ bare <$> ms = rest) w.
Proof using All.
  intros Hwf Hst Hmem Hlim. revert cursor pre rest w.
  induction fuel as [|fuel IH]; intros cursor pre rest w Hi Hv Hh Hc Hf; [lia|]. cbn [walk].
  apply wp_try. eapply wp_mono.
  { apply wp_and; [by apply (GetHistory_outcome inv view)|]. apply answered; [done| |done]. by rewrite Hv. }
  intros [p|e] w1 [(Hi1 & Hv1 & Hp) Hok]; [|done]. destruct Hp as (_ & Hpage & _ & Hnext). cbn in Hpage, Hnext.
  rewrite (history_page_from d c pre rest) in Hpage by done.
  assert (length (page_Messages p) = Nat.min (Z.to_nat limit) (length rest)) as Hlen.
  { rewrite <- (length_fmap bare), Hpage, length_take. done. }
  unfold nextCursor in Hnext. destruct (Z.of_nat (length (page_Messages p)) <? limit) eqn:E.
  - injection Hnext as <-. apply wp_ret. split; [done|]. split; [done|]. eexists. split; [done|].
    rewrite Hpage. apply take_ge. lia.
  - destruct (last (page_Messages p)) as [m|] eqn:Hl; [|done]. injection Hnext as <-.
    assert (length (page_Messages p) = Z.to_nat limit) as Hfull by lia.
    apply wp_try. eapply wp_mono.
    { apply (IH _ (pre ++ take (Z.to_nat limit) rest) (drop (Z.to_nat limit) rest)); [done|done| | |].
      - by rewrite <- app_assoc, take_drop.
      - unfold at_cursor. rewrite <- Hpage, last_app.
        assert (cursor_of <$> last (bare <$> page_Messages p) = Some (cursor_of m)) as Hlast.
        { rewrite fmap_last, Hl. done. }
        destruct (last (bare <$> page_Messages p)); [|done]. by rewrite Hlast.
      - rewrite length_drop. lia. }
    intros [ms|e] w2 (Hi2 & Hv2 & ms' & Hr & Hb); simplify_eq. apply wp_ret.
    split; [done|]. split; [done|]. eexists. split; [done|].
    by rewrite fmap_app, Hpage, Hb, take_drop.
Qed.
End walk.
