(* ===== verification/UserRefinement.v ===== *)
(** * The user service: contract and refinement

    Accounts as the services may change them, the proof that every call is at
    most one such change, and the uniqueness of addresses and names. *)
From S2P Require Import Prelude Utf8 Domain Validate UserUsecase Store.
Open Scope Z_scope.

(** The account a registration creates. *)
Definition registered (id : uuid) (i : RegisterInput) (hash : string) (now : Time) : User :=
  mkUser id (reg_Username i) (reg_Email i) hash "" "" UserStatusOffline now now now.

(** The row after a profile update: the hash, the address and the presence stay. *)
Definition profile_row (username : string) (i : UpdateProfileInput) (now : Time) (old : User) : User :=
  mkUser (user_ID old) username (user_Email old) (user_PasswordHash old)
    (default (user_AvatarURL old) (upi_AvatarURL i)) (default (user_Bio old) (upi_Bio i))
    (user_Status old) (user_LastSeen old) (user_CreatedAt old) now.

Inductive user_step `{TextEq} (d : store) : store -> Prop :=
| act_register id i hash now :
    RegisterInput_Validate i = None -> st_users d !! id = None ->
    email_free d id (reg_Email i) -> username_free d id (reg_Username i) ->
    user_step d (with_users <[id := registered id i hash now]> d)
| act_profile id old name i now :
    UpdateProfileInput_Validate i = None -> st_users d !! id = Some old ->
    name = default (user_Username old) (upi_Username i) -> username_free d id name ->
    user_step d (with_users (alter (profile_row name i now) id) d)
| act_presence id s seen now :
    s ∈ [UserStatusOnline; UserStatusOffline] ->
    user_step d (with_users (alter (set_status s seen now) id) d).

Inductive user_call : Type :=
| CallRegister (i : RegisterInput)
| CallLogin (i : LoginInput)
| CallRefreshToken (t : string)
| CallGetProfile (id : uuid)
| CallUpdateProfile (id : uuid) (i : UpdateProfileInput)
| CallSearch (i : SearchInput)
| CallSetOnline (id : uuid)
| CallSetOffline (id : uuid).

Definition run_user_call {M : Type -> Type} `{MRet M, MBind M, Clock M, UUIDSource M}
    `{UserRepository M, tokenManager M, passwordHasher M} (c : user_call) : M (res unit) :=
  match c with
  | CallRegister i => let? _ := Register i in mret (Ok tt)
  | CallLogin i => let? _ := Login i in mret (Ok tt)
  | CallRefreshToken t => let? _ := RefreshToken t in mret (Ok tt)
  | CallGetProfile id => let? _ := GetProfile id in mret (Ok tt)
  | CallUpdateProfile id i => let? _ := UpdateProfile id i in mret (Ok tt)
  | CallSearch i => let? _ := Search i in mret (Ok tt)
  | CallSetOnline id => SetOnline id
  | CallSetOffline id => SetOffline id
  end.

(** The token manager and the hasher keep the store. *)
Class TokenSpec {W} (inv : W -> Prop) (view : W -> store)
    (TM : tokenManager (ST W)) (PH : passwordHasher (ST W)) : Prop := {
  spec_access id w : inv w -> wp (GenerateAccessToken id) (fun _ w' => inv w' /\ view w' = view w) w;
  spec_refresh id w : inv w -> wp (GenerateRefreshToken id) (fun _ w' => inv w' /\ view w' = view w) w;
  spec_validate t w : inv w -> wp (ValidateRefreshToken t) (fun _ w' => inv w' /\ view w' = view w) w;
  spec_hash p w : inv w -> wp (Hash p) (fun _ w' => inv w' /\ view w' = view w) w }.

Section refinement.
Context {W : Type} (inv : W -> Prop) (view : W -> store).
Context `{UR : UserRepository (ST W), TM : tokenManager (ST W), PH : passwordHasher (ST W)}.
Context `{CK : Clock (ST W), US : UUIDSource (ST W)}.
Context `{PR : Precision, TE : TextEq, LA : Latitude, LO : Loss} {HE : EnvSpec inv view}.
Context {HU : UserRepositorySpec inv view UR} {HT : TokenSpec inv view TM PH}.

(** At most one account change; a success satisfies [Q], and an error changed
    nothing unless the server is at fault. *)
Definition user_outcome {A} (Q : A -> store -> Prop) (d : store) (r : res A) (w : W) : Prop :=
  inv w /\ (view w = d \/ user_step d (view w)) /\
  match r with Ok a => Q a (view w) | Err e => server_fault e \/ view w = d end.

Lemma outcome_same {A} (Q : A -> store -> Prop) d e w :
  inv w -> view w = d -> user_outcome Q d (Err e) w.
Proof using. intros ? <-. repeat split; auto. Qed.

Tactic Notation "query" uconstr(spec) "as" simple_intropattern(a) simple_intropattern(H) :=
  eapply (wp_reads inv view); [apply spec|eassumption|eassumption
    |let w := fresh "w" in let Hi := fresh "Hi" in let Hv := fresh "Hv" in
     intros a w Hi Hv H
    |intros; by apply outcome_same].
Ltac check := apply wp_check; [intros ?Hv|intros ? _; by apply outcome_same].

Lemma issueTokens_quiet id w d :
  inv w -> view w = d ->
  wp (issueTokens id) (fun r w' => inv w' /\ view w' = d /\
    match r with Ok _ => True | Err e => e = Sentinel ErrInternal end) w.
Proof using All.
  intros Hi Hd. unfold issueTokens. apply wp_bind.
  eapply wp_mono; [by apply spec_access|]. intros [a|e] w1 [Hi1 Hv1]; [|apply wp_ret; by subst].
  apply wp_bind. eapply wp_mono; [by apply spec_refresh|].
  intros [b|e] w2 [Hi2 Hv2]; apply wp_ret; subst; by rewrite Hv2.
Qed.

(** A name or an address found free stays free until the statement that claims
    it: the calls are run one at a time. *)
Lemma assertFree_quiet {A} s (lookup : ST W (res User)) P fail (k : unit -> ST W (res A)) Q w d :
  reads inv view lookup P fail -> inv w -> view w = d ->
  (forall e w', inv w' -> view w' = d -> fail d e \/ infra e -> errors_Is e ErrUserNotFound = true ->
     wp (k tt) (user_outcome Q d) w') ->
  wp (try (assertFree s lookup) k) (user_outcome Q d) w.
Proof using.
  intros Hl Hi Hd Hk. unfold assertFree. apply wp_try, wp_bind.
  eapply (wp_reads_raw inv view); [done..| |].
  - intros u w' Hi' Hv' _. apply wp_ret. by apply outcome_same.
  - intros e w' Hi' Hv' Hf. destruct (errors_Is e ErrUserNotFound) eqn:E; cbn [negb]; apply wp_ret.
    + by eapply Hk.
    + by apply outcome_same.
Qed.

(** The tail of [Register]: the tokens, or the account taken back. *)
Lemma register_tail u w d d1 :
  inv w -> view w = d1 -> st_users d !! user_ID u = None ->
  (exists u', d1 = with_users <[user_ID u := u']> d) -> user_step d d1 ->
  wp (let* tokens := issueTokens (user_ID u) in
      match tokens with
      | Err e => let* _ := users_Delete (user_ID u) in mret (Err e)
      | Ok tokens => mret (Ok (u, tokens))
      end) (user_outcome (fun r d' => d' = d1 /\ r.1 = u) d) w.
Proof using All.
  intros Hi Hv Hfresh [u' Hd1] Hstep. apply wp_bind.
  eapply wp_mono; [by apply issueTokens_quiet|]. intros [tk|e] w1 (Hi1 & Hv1 & He).
  - apply wp_ret. repeat split; [done|right|done]. by rewrite Hv1.
  - apply wp_bind. eapply (wp_honours inv view); [apply (spec_UserDelete (UR := UR))|done|].
    intros r w2 Hi2 Hans. apply wp_ret. split; [done|]. split; [|left; right; by rewrite He].
    assert (with_users (delete (user_ID u)) (view w1) = d) as Hback.
    { rewrite Hv1, Hd1. unfold with_users. destruct d; cbn. f_equal. cbn in Hfresh.
      by rewrite delete_insert_id. }
    destruct r as [a|e2]; cbn in Hans.
    + left. congruence.
    + destruct Hans as [[[] _]|[_ [Hsame|(_ & a & Hdel)]]]; [right|left; congruence].
      by rewrite Hsame, Hv1.
Qed.

(** [Register]: on success the account exists exactly as returned, at the
    precision of the columns. *)
Lemma Register_outcome i w d :
  inv w -> view w = d ->
  wp (Register i) (user_outcome (fun r d' => exists id hash now,
    r.1 = registered id i hash now /\ (exists w0, (Hash (reg_Password i) w0).1 = Ok hash) /\
    st_users d !! id = None /\ email_free d id (reg_Email i) /\ username_free d id (reg_Username i) /\
    d' = with_users <[id := registered id i hash (stamp now)]> d) d) w.
Proof using All.
  intros Hi Hd. unfold Register. check.
  eapply assertFree_quiet; [apply (spec_UserGetByEmail (UR := UR))|done|done|].
  intros _ w1 Hi1 Hv1 _ _.
  eapply assertFree_quiet; [apply (spec_UserGetByUsername (UR := UR))|done|done|].
  intros _ w2 Hi2 Hv2 _ _. apply wp_bind. eapply wp_mono.
  { refine (wp_and _ _ _ _ (spec_hash (reg_Password i) w2 Hi2)
      (wp_intro _ (fun r _ => (Hash (reg_Password i) w2).1 = r) _ _)). by intros r w' ->. }
  intros [hash|e] w3 [[Hi3 Hv3] Hhash]; [|apply wp_ret; apply outcome_same; [done|congruence]].
  apply wp_bind. eapply wp_mono; [by apply spec_now|]. intros now w4 [Hi4 Hv4].
  apply wp_bind. eapply wp_mono; [by apply spec_uuid|]. intros id w5 [Hi5 Hv5].
  assert (view w5 = d) as Hvd by congruence.
  assert (forall d', (st_users d !! id = None /\ email_free d id (reg_Email i) /\
      username_free d id (reg_Username i) /\
      d' = with_users <[id := registered id i hash (stamp now)]> d) -> user_step d d') as Hstep.
  { intros d' (Hf & He & Hn & ->). by apply act_register. }
  eapply (wp_exec inv view); [apply (spec_UserCreate (UR := UR))|done|done| | |].
  - intros [] w6 Hi6 (Hf & He & Hn & Hd6). cbn in *.
    eapply wp_mono; [apply (register_tail (registered id i hash now) w6 d (view w6)); [done..| |]|].
    + by eexists.
    + apply Hstep. repeat split; done.
    + intros [[u tk]|e] w7 (Hi7 & Hs7 & Hq); [|by repeat split].
      split; [done|]. split; [done|]. destruct Hq as [Hq ->]. exists id, hash, now.
      rewrite Hq. split; [done|]. split; [by exists w2|]. by repeat split.
  - intros e w6 Hi6 Hv6 _. by apply outcome_same.
  - intros e [] w6 Hi6 (Hf & He & Hn & Hd6) Hinf. split; [done|].
    split; [right; by apply Hstep|left; by left].
Qed.

(** [Login] writes nothing; it answers the account whose address and password
    were given. *)
Lemma Login_outcome i w d :
  inv w -> view w = d ->
  wp (Login i) (fun r w' => inv w' /\ view w' = d /\ match r with
    | Ok (u, _) => st_users d !! user_ID u = Some u /\ same_text (user_Email u) (log_Email i) = true /\
        hasher_Check (log_Password i) (user_PasswordHash u) = true
    | Err e => errors_Is e ErrUserNotFound = false end) w.
Proof using All.
  intros Hi Hd. unfold Login. apply wp_check.
  2:{ intros e He. repeat split; [done..|]. rewrite LoginInput_checks in He.
      apply first_failure_validation in He. apply not_true_iff_false. intros Hnf.
      by pose proof (errors_Is_inj _ _ _ He Hnf). }
  intros _. apply wp_bind.
  eapply (wp_reads_raw inv view); [apply (spec_UserGetByEmail (UR := UR))|done|done| |].
  - intros u w1 Hi1 Hv1 [Hu He]. wp_case; [by apply wp_ret|]. bool_prop. apply wp_try.
    eapply wp_mono; [by apply issueTokens_quiet|].
    intros [tk|e] w2 (Hi2 & Hv2 & Htk); [apply wp_ret|subst e]; by repeat split.
  - intros e w1 Hi1 Hv1 _. wp_case; apply wp_ret; by repeat split.
Qed.

Lemma RefreshToken_quiet t w d :
  inv w -> view w = d -> wp (RefreshToken t) (fun _ w' => inv w' /\ view w' = d) w.
Proof using All.
  intros Hi Hd. unfold RefreshToken. apply wp_try. eapply wp_mono; [by apply spec_validate|].
  intros [id|e] w1 [Hi1 Hv1]; [|by subst].
  eapply (wp_reads inv view); [apply (spec_UserGetByID (UR := UR))|done|by rewrite Hv1| |done].
  intros u w2 Hi2 Hv2 _. eapply wp_mono; [by apply issueTokens_quiet|]. by intros r w3 (? & ? & _).
Qed.

(** A user value from the repository or its cache patches the row it describes. *)
Lemma patch_profile d id u name i now old :
  user_says d id u -> st_users d !! id = Some old ->
  with_users (alter (patch_user (stamp_user (apply_profile name i now u))) id) d =
  with_users (alter (profile_row name i (stamp now)) id) d.
Proof using.
  intros (_ & old' & Ho & Hp) Hold. unfold with_users. f_equal. apply map_eq. intros k.
  rewrite !lookup_alter. case_decide; [subst k|done].
  assert (old' = old) as -> by congruence. rewrite Hold. cbn. f_equal.
  unfold public in Hp. injection Hp as ? ? He Ha Hb _ _ _.
  unfold patch_user, profile_row. cbn. rewrite He, Ha, Hb. done.
Qed.

Lemma claimUsername_quiet id u i w d :
  inv w -> view w = d ->
  wp (claimUsername id u i) (fun r w' => inv w' /\ view w' = d /\
    match r with Ok n => n = default (user_Username u) (upi_Username i) | Err _ => True end) w.
Proof using All.
  intros Hi Hd. unfold claimUsername. destruct (upi_Username i) as [n|]; [|by apply wp_ret].
  wp_case; [apply wp_ret; by bool_prop|]. apply wp_bind.
  eapply (wp_reads_raw inv view); [apply (spec_UserGetByUsername (UR := UR))|done|done| |].
  - intros x w1 Hi1 Hv1 _. wp_case; by apply wp_ret.
  - intros e w1 Hi1 Hv1 _. wp_case; by apply wp_ret.
Qed.

Lemma UpdateProfile_outcome id i w d :
  inv w -> view w = d ->
  wp (UpdateProfile id i) (user_outcome (fun u d' => exists old now,
    st_users d !! id = Some old /\
    public u = public (profile_row (default (user_Username old) (upi_Username i)) i now old) /\
    d' = with_users (alter (profile_row (default (user_Username old) (upi_Username i)) i (stamp now)) id) d)
    d) w.
Proof using All.
  intros Hi Hd. unfold UpdateProfile. check.
  query (spec_UserGetByID (UR := UR)) as u Hsays.
  apply wp_try. eapply wp_mono; [by apply claimUsername_quiet|].
  intros [name|e] w1 (Hi1 & Hv1 & Hn); [|by apply outcome_same].
  apply wp_bind. eapply wp_mono; [by apply spec_now|]. intros now w2 [Hi2 Hv2].
  pose proof Hsays as (Hid & old & Hold & Hp).
  assert (user_Username old = user_Username u) as Hun by (unfold public in Hp; congruence).
  assert (forall d', (is_Some (st_users d !! id) /\ email_free d id (user_Email u) /\
      username_free d id name /\
      d' = with_users (alter (patch_user (stamp_user (apply_profile name i now u))) id) d) ->
      user_step d d') as Hstep.
  { intros d' (_ & _ & Hfree & ->). rewrite (patch_profile d id u name i now old) by done.
    apply (act_profile d id old); [done..|by rewrite Hun|done]. }
  eapply (wp_exec inv view); [apply (spec_UserUpdate (UR := UR))|done|by rewrite Hv2| | |].
  - intros [] w3 Hi3 Hpost. unfold update_user in Hpost. cbn in Hpost. rewrite Hid in Hpost. apply wp_ret. split; [done|].
    split; [right; by apply Hstep|]. exists old, now. split; [done|].
    destruct Hpost as (_ & _ & _ & ->). rewrite (patch_profile d id u name i now old) by done.
    rewrite Hn, Hun. split; [|done].
    unfold public in *. injection Hp as ? ? ? ? ? ? ? ? ?. cbn. congruence.
  - intros e w3 Hi3 Hv3 _. by apply outcome_same.
  - intros e [] w3 Hi3 Hpost Hinf. unfold update_user in Hpost. cbn in Hpost. rewrite Hid in Hpost. split; [done|].
    split; [right; by apply Hstep|left; by left].
Qed.

Lemma presence_outcome id s w d :
  s ∈ [UserStatusOnline; UserStatusOffline] -> inv w -> view w = d ->
  wp (let* now := time_Now in users_UpdateStatus id s now) (user_outcome (fun _ d' =>
    exists seen now, d' = with_users (alter (set_status s seen now) id) d) d) w.
Proof using All.
  intros Hs Hi Hd. apply wp_bind. eapply wp_mono; [by apply spec_now|]. intros t w1 [Hi1 Hv1].
  eapply (wp_honours inv view); [apply (spec_UserUpdateStatus (UR := UR))|done|].
  intros r w2 Hi2 Hans. rewrite Hv1, Hd in Hans. split; [done|]. destruct r as [[]|e]; cbn in Hans.
  - destruct Hans as [now Hd2]. split; [right; rewrite Hd2; by apply act_presence|]. by exists (stamp t), now.
  - destruct Hans as [[[] _]|[Hinf [Hsame|(_ & _ & now & Hd2)]]]; (split; [|left; by left]); [by left|right].
    rewrite Hd2. by apply act_presence.
Qed.

Lemma run_user_call_outcome call w :
  inv w -> wp (run_user_call call) (user_outcome (fun _ _ => True) (view w)) w.
Proof using All.
  intros Hi.
  assert (forall A (m : ST W (res A)) Q, wp m (user_outcome Q (view w)) w ->
    wp (let? _ := m in mret (Ok tt)) (user_outcome (fun _ _ => True) (view w)) w) as Hdisc.
  { intros A m Q Hm. apply wp_try. eapply wp_mono; [exact Hm|].
    intros [a|e] w' (? & ? & ?); [apply wp_ret|]; by repeat split. }
  assert (forall A (m : ST W (res A)), wp m (fun _ w' => inv w' /\ view w' = view w) w ->
    wp m (user_outcome (fun _ _ => True) (view w)) w) as Hread.
  { intros A m Hm. eapply wp_mono; [exact Hm|]. intros [a|e] w' [? ?]; (split; [done|]; split; auto). }
  destruct call; cbn [run_user_call].
  - eapply Hdisc. by apply Register_outcome.
  - eapply Hdisc, Hread. eapply wp_mono; [by apply Login_outcome|]. by intros r w' (? & ? & _).
  - eapply Hdisc, Hread. by apply RefreshToken_quiet.
  - eapply Hdisc, Hread. unfold GetProfile.
    eapply (wp_reads_raw inv view); [apply (spec_UserGetByID (UR := UR))|done|done|done|done].
  - eapply Hdisc. by apply UpdateProfile_outcome.
  - eapply Hdisc, Hread. unfold Search. apply wp_check; [intros _|done].
    eapply (wp_reads_raw inv view); [apply (spec_UserSearch (UR := UR))|done|done|done|done].
  - eapply wp_mono; [apply presence_outcome; [|done|done]|].
    + rewrite !elem_of_cons. auto.
    + intros [a|e] w' (? & ? & ?); by repeat split.
  - eapply wp_mono; [apply presence_outcome; [|done|done]|].
    + rewrite !elem_of_cons. auto.
    + intros [a|e] w' (? & ? & ?); by repeat split.
Qed.
End refinement.

(** ** What the steps preserve *)
Section accounts.
Context `{TextEq} (same_sym : forall a b, same_text a b = same_text b a).

Definition accounts_wf (d : store) : Prop :=
  (forall k u, st_users d !! k = Some u -> user_ID u = k) /\
  (forall k u, st_users d !! k = Some u -> email_free d k (user_Email u)) /\
  (forall k u, st_users d !! k = Some u -> username_free d k (user_Username u)).

(** The uniqueness of addresses and names, in one line. *)
Lemma accounts_unique d :
  accounts_wf d -> forall k1 k2 u1 u2, st_users d !! k1 = Some u1 -> st_users d !! k2 = Some u2 ->
    same_text (user_Email u1) (user_Email u2) = true \/
    same_text (user_Username u1) (user_Username u2) = true -> k1 = k2.
Proof using.
  intros (_ & He & Hn) k1 k2 u1 u2 H1 H2 Hsame. destruct (decide (k1 = k2)) as [|Hne]; [done|exfalso].
  destruct Hsame as [E|E].
  - pose proof (He _ _ H2 _ _ H1 Hne). congruence.
  - pose proof (Hn _ _ H2 _ _ H1 Hne). congruence.
Qed.

Lemma accounts_write d id u :
  accounts_wf d -> user_ID u = id -> email_free d id (user_Email u) -> username_free d id (user_Username u) ->
  accounts_wf (with_users <[id := u]> d).
Proof using same_sym.
  intros (Hid & He & Hn) Hu Hfe Hfn. unfold accounts_wf, email_free, username_free in *. cbn.
  repeat split.
  - intros k x [[<- <-]|[_ Hk]]%lookup_insert_Some; auto.
  - intros k x Hx j y Hy Hne.
    apply lookup_insert_Some in Hx as [[<- <-]|[? Hx]]; apply lookup_insert_Some in Hy as [[<- <-]|[? Hy]];
      [done|by eapply Hfe|rewrite same_sym; by eapply (Hfe k)|by eapply He].
  - intros k x Hx j y Hy Hne.
    apply lookup_insert_Some in Hx as [[<- <-]|[? Hx]]; apply lookup_insert_Some in Hy as [[<- <-]|[? Hy]];
      [done|by eapply Hfn|rewrite same_sym; by eapply (Hfn k)|by eapply Hn].
Qed.

Lemma alter_is_insert `{Countable K} {A} (f : A -> A) k a (t : gmap K A) :
  t !! k = Some a -> alter f k t = <[k := f a]> t.
Proof using.
  intros Hk. apply map_eq. intros j. rewrite lookup_alter, lookup_insert.
  case_decide; [subst; by rewrite Hk|done].
Qed.

Lemma alter_absent `{Countable K} {A} (f : A -> A) k (t : gmap K A) :
  t !! k = None -> alter f k t = t.
Proof using.
  intros Hk. apply map_eq. intros j. rewrite lookup_alter.
  case_decide; [subst; by rewrite Hk|done].
Qed.

Lemma user_step_wf d d' : accounts_wf d -> user_step d d' -> accounts_wf d'.
Proof using same_sym.
  intros Hwf. destruct 1 as [id i hash now _ Hf He Hn|id old name i now _ Hold Hname Hn|id s seen now _].
  - by apply accounts_write.
  - pose proof Hwf as (Hid & He & _).
    replace (with_users (alter (profile_row name i now) id) d)
      with (with_users <[id := profile_row name i now old]> d)
      by (unfold with_users; by rewrite (alter_is_insert _ _ old)).
    apply accounts_write; [done|exact (Hid id old Hold)|exact (He id old Hold)|done].
  - destruct (st_users d !! id) as [old|] eqn:Hold.
    + replace (with_users (alter (set_status s seen now) id) d)
        with (with_users <[id := set_status s seen now old]> d)
        by (unfold with_users; by rewrite (alter_is_insert _ _ old)).
      pose proof Hwf as (Hid & He & Hn).
      apply accounts_write; [done|exact (Hid id old Hold)|exact (He id old Hold)|exact (Hn id old Hold)].
    + unfold with_users. rewrite alter_absent by done. by destruct d.
Qed.

(** Accounts never disappear, and their hash and address never change. *)
Lemma user_step_kept d d' id u :
  user_step d d' -> st_users d !! id = Some u ->
  exists u', st_users d' !! id = Some u' /\ user_PasswordHash u' = user_PasswordHash u /\
    user_Email u' = user_Email u.
Proof using.
  intros Hs Hu. destruct Hs as [k i hash now _ Hf _ _|k old name i now _ _ _ _|k s seen now _]; cbn.
  - exists u. rewrite lookup_insert_ne by congruence. done.
  - rewrite lookup_alter. case_decide; [subst|by exists u]. rewrite Hu. by eexists.
  - rewrite lookup_alter. case_decide; [subst|by exists u]. rewrite Hu. by eexists.
Qed.
End accounts.
