(* ===== verification/Jwt.v ===== *)
(** * Packages utils/jwt and utils/hasher

    The token manager over [golang-jwt] and the password hasher over [bcrypt].
    The two libraries are parameters: the classes say what the code calls, the
    [...Laws] what it relies on. *)
From S2P Require Import Prelude Domain Config Store World UserUsecase UserRefinement.
Open Scope Z_scope.

(** ** golang-jwt *)
(** [NewNumericDate] truncates to seconds. *)
Definition NewNumericDate (t : Time) : Time := t / second * second.

Record claims : Type := mkClaims {
  claims_UserID : uuid; claims_ExpiresAt : Time; claims_IssuedAt : Time; claims_ID : string }.

#[export] Instance claims_eq_dec : EqDecision claims.
Proof. solve_decision. Defined.

Inductive signing_method : Type := SigningMethodHMAC | OtherSigningMethod.

Inductive parse_error : Type := ErrTokenExpired | ErrTokenOther.

Class GoJWT : Type := {
  (** [NewWithClaims(SigningMethodHS256, c).SignedString(key)] *)
  SignedString : claims -> string -> res string;
  (** [ParseWithClaims(tokenStr, &claims{}, keyfunc)] at an instant; [keyfunc]
      answers [None] for an error. *)
  ParseWithClaims : string -> (signing_method -> option string) -> Time -> parse_error + claims }.

(** What the documentation promises: a token parses with the key that signed it
    until it expires, and is refused as expired from then on.  Nothing is assumed
    of other keys. *)
Class GoJWTLaws (J : GoJWT) : Prop := {
  jwt_signs c key : exists t, SignedString c key = Ok t;
  jwt_parses c key t keyfunc now :
    SignedString c key = Ok t -> keyfunc SigningMethodHMAC = Some key -> now < claims_ExpiresAt c ->
    ParseWithClaims t keyfunc now = inr c;
  jwt_expires c key t keyfunc now :
    SignedString c key = Ok t -> keyfunc SigningMethodHMAC = Some key -> claims_ExpiresAt c <= now ->
    ParseWithClaims t keyfunc now = inl ErrTokenExpired }.

(** ** jwt.go *)
Section Manager.
Context {M : Type -> Type} `{MRet M, MBind M, Clock M, UUIDSource M} `{GoJWT, UUIDText} (cfg : jwt_Config).

Definition sign (userID : uuid) (secret : string) (ttl : Duration) : M (res string) :=
  let* now1 := time_Now in
  let* now2 := time_Now in
  let* id := uuid_New in
  let c := mkClaims userID (NewNumericDate (now1 + ttl)) (NewNumericDate now2) (uuid_String id) in
  mret (match SignedString c secret with
        | Ok token => Ok token
        | Err e => Err (Wrap "jwt: sign: " e "")
        end).

Definition jwt_parse (tokenStr secret : string) : M (res uuid) :=
  let* now := time_Now in
  mret (match ParseWithClaims tokenStr
                (fun m => match m with SigningMethodHMAC => Some secret | _ => None end) now with
        | inl ErrTokenExpired => Fail ErrExpiredToken
        | inl ErrTokenOther => Fail ErrInvalidToken
        | inr c => Ok (claims_UserID c)
        end).

Definition jwt_GenerateAccessToken (userID : uuid) : M (res string) :=
  sign userID (jwt_AccessSecret cfg) (jwt_AccessTokenTTL cfg).
Definition jwt_GenerateRefreshToken (userID : uuid) : M (res string) :=
  sign userID (jwt_RefreshSecret cfg) (jwt_RefreshTokenTTL cfg).
Definition ValidateAccessToken (token : string) : M (res uuid) :=
  jwt_parse token (jwt_AccessSecret cfg).
Definition jwt_ValidateRefreshToken (token : string) : M (res uuid) :=
  jwt_parse token (jwt_RefreshSecret cfg).

#[export] Instance JWTManager : tokenManager M := {|
  GenerateAccessToken := jwt_GenerateAccessToken;
  GenerateRefreshToken := jwt_GenerateRefreshToken;
  ValidateRefreshToken := jwt_ValidateRefreshToken |}.
End Manager.

(** ** hasher.go *)
Class Bcrypt : Type := {
  GenerateFromPassword : string -> Z -> res string;
  CompareHashAndPassword : string -> string -> bool }.

(** bcrypt refuses passwords longer than 72 bytes; a hash verifies the password
    it was made from. *)
Class BcryptLaws (B : Bcrypt) : Prop := {
  bcrypt_too_long p cost : 72 < Z.of_nat (String.length p) -> exists e, GenerateFromPassword p cost = Err e;
  bcrypt_verifies p cost h : GenerateFromPassword p cost = Ok h -> CompareHashAndPassword h p = true }.

Section Hasher.
Context {M : Type -> Type} `{MRet M} `{Bcrypt} (cost : Z).

Definition hasher_Hash (password : string) : M (res string) := mret (GenerateFromPassword password cost).

#[export] Instance Hasher : passwordHasher M := {|
  Hash := hasher_Hash;
  hasher_Check := fun password hash => CompareHashAndPassword hash password |}.
End Hasher.

(** ** The manager and the hasher touch nothing but the clocks *)
Section spec.
Context `{Env, GoJWT, UUIDText, Bcrypt} (cfg : jwt_Config) (cost : Z) (wf : Schema.db -> Prop).

#[export] Instance jwt_token_spec : TokenSpec (over_db wf) view (JWTManager cfg) (Hasher cost).
Proof using. by split. Qed.
End spec.

(** ** Tokens *)
Section tokens.
Context `{E : Env, J : GoJWT, UT : UUIDText} {L : GoJWTLaws J} (cfg : jwt_Config).

(** A token signed at tick [k] and the claims inside it. *)
Lemma sign_run id secret ttl (w : world) :
  exists t, wp (sign id secret ttl) (fun r w' => r = Ok t /\ w_tick w' = (w_tick w + 3)%nat) w /\
    SignedString (mkClaims id (NewNumericDate (env_now (w_tick w) + ttl))
      (NewNumericDate (env_now (S (w_tick w)))) (uuid_String (env_uuid (S (S (w_tick w)))))) secret = Ok t.
Proof using L.
  destruct (jwt_signs (mkClaims id (NewNumericDate (env_now (w_tick w) + ttl))
    (NewNumericDate (env_now (S (w_tick w)))) (uuid_String (env_uuid (S (S (w_tick w)))))) secret) as [t Ht].
  exists t. split; [|done]. unfold sign. do 3 apply wp_bind. cbn. unfold wp. cbn. rewrite Ht.
  split; [done|lia].
Qed.

Lemma parse_fresh id secret ttl (w : world) w2 t :
  wp (sign id secret ttl) (fun r _ => r = Ok t) w ->
  env_now (w_tick w2) < NewNumericDate (env_now (w_tick w) + ttl) ->
  wp (jwt_parse t secret) (fun r _ => r = Ok id) w2.
Proof using L.
  intros Hs Hlt. destruct (sign_run id secret ttl w) as (t' & Hr & Ht).
  assert (t' = t) as -> by (unfold wp in *; destruct Hr; congruence).
  unfold jwt_parse. apply wp_bind. cbn. unfold wp. cbn.
  erewrite jwt_parses by (done || exact Hlt). done.
Qed.

Lemma parse_expired id secret ttl (w : world) w2 t :
  wp (sign id secret ttl) (fun r _ => r = Ok t) w ->
  NewNumericDate (env_now (w_tick w) + ttl) <= env_now (w_tick w2) ->
  wp (jwt_parse t secret) (fun r _ => r = Fail ErrExpiredToken) w2.
Proof using L.
  intros Hs Hlt. destruct (sign_run id secret ttl w) as (t' & Hr & Ht).
  assert (t' = t) as -> by (unfold wp in *; destruct Hr; congruence).
  unfold jwt_parse. apply wp_bind. cbn. unfold wp. cbn.
  erewrite jwt_expires by (done || exact Hlt). done.
Qed.

(** A signed token names its account until the second it expires. *)
Lemma parse_signed id secret ttl (w : world) w2 t :
  wp (sign id secret ttl) (fun r _ => r = Ok t) w ->
  wp (jwt_parse t secret) (fun r _ =>
    r = if env_now (w_tick w2) <? NewNumericDate (env_now (w_tick w) + ttl)
        then Ok id else Fail ErrExpiredToken) w2.
Proof using L.
  intros Hs. destruct (_ <? _) eqn:Ht; [apply Z.ltb_lt in Ht; by eapply parse_fresh|].
  apply Z.ltb_ge in Ht. by eapply parse_expired.
Qed.

End tokens.
