(* ===== verification/System.v ===== *)
(** * The services together

    Any sequence of calls to the three services, by any callers, on one state:
    the run is a path of authorised changes, and the invariants of the chats,
    the messages and the accounts hold at its end, whatever failed underneath. *)
From S2P Require Import Prelude Domain ChatUsecase MessageUsecase UserUsecase Store.
From S2P Require Import ChatContract ChatRefinement MessageRefinement UserRefinement.
Open Scope Z_scope.

Inductive api_call : Type :=
| ChatCall (caller : uuid) (c : chat_call)
| MessageCall (caller : uuid) (c : message_call)
| UserCall (c : user_call).

(** The wiring: the chat service may be given another user repository than the
    user service (with a cache it is the uncached one). *)
Section serve.
Context {M : Type -> Type} `{MRet M, MBind M, Clock M, UUIDSource M}.
Context (chat_users : UserRepository M).
Context `{UserRepository M, ChatRepository M, MessageRepository M, tokenManager M, passwordHasher M}.

Definition serve (c : api_call) : M (res unit) :=
  match c with
  | ChatCall caller c => run_call (UR := chat_users) caller c
  | MessageCall caller c => run_message_call caller c
  | UserCall c => run_user_call c
  end.

(** The calls one after the other, the answers dropped. *)
Fixpoint serve_all (cs : list api_call) : M unit :=
  match cs with
  | [] => mret tt
  | c :: rest => let* _ := serve c in serve_all rest
  end.
End serve.

Section safety.
Context `{TextEq, Latitude}.

Inductive api_step (d : store) : store -> Prop :=
| step_chat caller d' : chat_step true caller d d' -> api_step d d'
| step_message caller d' : message_step caller d d' -> api_step d d'
| step_user d' : user_step d d' -> api_step d d'.

Definition system_wf (d : store) : Prop := chat_wf d /\ message_wf d /\ accounts_wf d.

(** Each service writes its own tables. *)
Lemma chat_step_frame ho caller d d' :
  chat_step ho caller d d' ->
  st_users d' = st_users d /\ st_messages d' = st_messages d /\ st_reactions d' = st_reactions d /\
  st_receipts d' = st_receipts d.
Proof using. by destruct 1. Qed.

Lemma message_step_frame caller d d' :
  message_step caller d d' ->
  st_users d' = st_users d /\ st_chats d' = st_chats d /\ st_members d' = st_members d.
Proof using. intros Hs. by eapply message_write_frame, message_step_write. Qed.

Lemma user_step_frame d d' :
  user_step d d' ->
  st_chats d' = st_chats d /\ st_members d' = st_members d /\ st_messages d' = st_messages d /\
  st_reactions d' = st_reactions d.
Proof using. by destruct 1. Qed.

Lemma chat_wf_ext d d' :
  st_chats d' = st_chats d -> st_members d' = st_members d -> chat_wf d -> chat_wf d'.
Proof using.
  intros Ec Em [Hok Hu].
  assert (forall c u, role_of d' c u = role_of d c u) as Er by (intros; unfold role_of; by rewrite Em).
  assert (forall c, live_group d' c <-> live_group d c) as El by (intros; unfold live_group; by rewrite Ec).
  assert (forall a b c, shares_direct d' a b c <-> shares_direct d a b c) as Es.
  { intros. unfold shares_direct, is_member. by rewrite Ec, Em. }
  split.
  - intros c. destruct (Hok c) as [Ho Hd Hr]. split; [rewrite El|rewrite Ec|]; by setoid_rewrite Er.
  - intros a b c1 c2. rewrite !Es. apply Hu.
Qed.

Lemma message_wf_ext d d' :
  st_messages d' = st_messages d -> st_reactions d' = st_reactions d -> message_wf d -> message_wf d'.
Proof using. intros Em Er [H1 H2 H3 H4]. split; rewrite ?Em, ?Er; done. Qed.

Lemma accounts_wf_ext d d' : st_users d' = st_users d -> accounts_wf d -> accounts_wf d'.
Proof using. unfold accounts_wf, email_free, username_free. by intros ->. Qed.

Lemma api_step_wf (same_sym : forall a b, same_text a b = same_text b a) d d' :
  system_wf d -> api_step d d' -> system_wf d'.
Proof using.
  intros (Hc & Hm & Hu) Hs. destruct Hs as [caller d' Hs|caller d' Hs|d' Hs].
  - pose proof (chat_step_frame _ _ _ _ Hs) as (Eu & Em & Er & _). split; [by eapply chat_step_wf|].
    split; [by eapply message_wf_ext|by eapply accounts_wf_ext].
  - pose proof (message_step_frame _ _ _ Hs) as (Eu & Ec & Em). split; [by eapply chat_wf_ext|].
    split; [by eapply message_step_wf|by eapply accounts_wf_ext].
  - pose proof (user_step_frame _ _ Hs) as (Ec & Em & Emsg & Er). split; [by eapply chat_wf_ext|].
    split; [by eapply message_wf_ext|by eapply user_step_wf].
Qed.

Lemma empty_system_wf : system_wf empty_store.
Proof using.
  split; [split|split].
  - intros c. split.
    + by intros (chat & Hc & _).
    + done.
    + done.
  - by intros a b c1 c2 _ (chat & Hc & _).
  - split; try done. by intros m u e [].
  - by repeat split.
Qed.
End safety.

Section runs.
Context {W : Type} (inv : W -> Prop) (view : W -> store).
Context (CU : UserRepository (ST W)) `{UR : UserRepository (ST W), CR : ChatRepository (ST W), MR : MessageRepository (ST W)}.
Context `{TM : tokenManager (ST W), PH : passwordHasher (ST W)}.
Context `{CK : Clock (ST W), US : UUIDSource (ST W)}.
Context `{PR : Precision, TE : TextEq, LA : Latitude, LO : Loss} {HE : EnvSpec inv view}.
Context {HCU : UserLookupSpec inv view CU} {HU : UserRepositorySpec inv view UR} {HC : ChatRepositorySpec inv view CR}.
Context {HM : MessageRepositorySpec inv view MR} {HT : TokenSpec inv view TM PH}.

Lemma rtc_chat caller d d' : rtc (chat_step true caller) d d' -> rtc api_step d d'.
Proof using. apply rtc_subrel. intros x y. apply step_chat. Qed.

(** One call: authorised changes, none of them if it answers an error that is
    not the server's fault. *)
Lemma serve_outcome c w :
  inv w -> wp (serve CU c) (fun r w' => inv w' /\ rtc api_step (view w) (view w') /\
    match r with Ok _ => True | Err e => server_fault e \/ view w' = view w end) w.
Proof using All.
  intros Hi. destruct c as [caller c|caller c|c]; cbn [serve].
  - eapply wp_mono; [by apply (run_call_refines inv view)|]. intros r w' (Hi' & Hr & He).
    split; [done|]. split; [by eapply rtc_chat|]. destruct r; [done|].
    destruct He as [He|He]; [left; by left|by right].
  - eapply wp_mono; [by apply (run_message_call_outcome inv view)|]. intros r w' (Hi' & Hs & He).
    split; [done|]. split; [destruct Hs as [->|Hs]; [apply rtc_refl|by eapply rtc_once, step_message]|].
    destruct r; [done|]. destruct He as [He|He]; [left; by left|by right].
  - eapply wp_mono; [by apply (run_user_call_outcome inv view)|]. intros r w' (Hi' & Hs & He).
    split; [done|]. split; [destruct Hs as [->|Hs]; [apply rtc_refl|by eapply rtc_once, step_user]|].
    by destruct r.
Qed.

Lemma serve_steps c w :
  inv w -> wp (serve CU c) (fun _ w' => inv w' /\ rtc api_step (view w) (view w')) w.
Proof using All.
  intros Hi. eapply wp_mono; [by apply serve_outcome|]. by intros r w' (? & ? & _).
Qed.

Lemma serve_all_steps cs w :
  inv w -> wp (serve_all CU cs) (fun _ w' => inv w' /\ rtc api_step (view w) (view w')) w.
Proof using All.
  revert w. induction cs as [|c cs IH]; intros w Hi; cbn [serve_all].
  - apply wp_ret. split; [done|apply rtc_refl].
  - apply wp_bind. eapply wp_mono; [by apply serve_steps|]. intros _ w1 [Hi1 Hr1].
    eapply wp_mono; [by apply IH|]. intros _ w2 [Hi2 Hr2]. split; [done|]. by etransitivity.
Qed.

Lemma serve_all_safe (same_sym : forall a b, same_text a b = same_text b a) cs w :
  inv w -> system_wf (view w) ->
  wp (serve_all CU cs) (fun _ w' => inv w' /\ rtc api_step (view w) (view w') /\ system_wf (view w')) w.
Proof using All.
  intros Hi Hwf. eapply wp_mono; [by apply serve_all_steps|]. intros _ w' [Hi' Hr].
  split; [done|]. split; [done|]. clear Hi Hi'.
  induction Hr as [|d1 d2 d3 Hs Hr IH]; [done|]. apply IH. by eapply api_step_wf.
Qed.
End runs.
