(* ===== verification/Writes.v ===== *)
(** * What one statement of a request may write

    When other requests come between the checks of a request and its statement,
    the statement may no longer be authorised by the store it meets: the caller may
    have lost the rank the request saw.  [granted] is what remains true of it:
    whose request it is, which rows it touches, that it never touches a direct
    chat, and the constraints of the storage.  This file proves what such writes
    preserve, in any order. *)
From S2P Require Import Prelude Utf8 Domain ChatUsecase MessageUsecase UserUsecase Store.
From S2P Require Import ChatContract ChatRefinement MessageRefinement UserRefinement System.
Open Scope Z_scope.

(** The entity carries what the input sets. *)
Definition takes_profile (i : UpdateProfileInput) (u : User) : Prop :=
  (forall n, upi_Username i = Some n -> user_Username u = n) /\
  (forall b, upi_Bio i = Some b -> user_Bio u = b) /\
  (forall a, upi_AvatarURL i = Some a -> user_AvatarURL u = a).
Definition takes_update (i : UpdateGroupInput) (c : Chat) : Prop :=
  (forall n, ugi_Name i = Some n -> chat_Name c = n) /\
  (forall s, ugi_Description i = Some s -> chat_Description c = s) /\
  (forall a, ugi_AvatarURL i = Some a -> chat_AvatarURL c = a).

(** The chats and the members two calls create. *)
Definition direct_chat (id caller : uuid) (now : Time) : Chat :=
  mkChat id ChatTypeDirect "" "" "" caller now now.
Definition direct_members (id a b : uuid) (now : Time) : list ChatMember :=
  [mkChatMember id a MemberRoleMember now None; mkChatMember id b MemberRoleMember now None].
Definition group_chat (id caller : uuid) (i : CreateGroupInput) (now : Time) : Chat :=
  mkChat id ChatTypeGroup (cgi_Name i) "" (cgi_Description i) caller now now.

(** [direct c]: the chat [c] is, or was, a direct one. *)
Inductive chat_write (direct : uuid -> Prop) (caller : uuid) (call : chat_call) (d : store) : store -> Prop :=
| write_direct i id now :
    call = CallCreateDirect i -> cdi_TargetUserID i <> caller -> fresh_chat d id ->
    chat_write direct caller call d
      (create_chat (direct_chat id caller now) (direct_members id caller (cdi_TargetUserID i) now) d)
| write_group i id now :
    call = CallCreateGroup i -> CreateGroupInput_Validate i = None -> fresh_chat d id ->
    chat_write direct caller call d
      (create_chat (group_chat id caller i now) (group_members id caller now (cgi_MemberIDs i)) d)
| write_update id i chat :
    call = CallUpdateGroup id i -> UpdateGroupInput_Validate i = None -> takes_update i chat -> ~ direct id ->
    chat_write direct caller call d (with_chats (alter (patch_chat chat) id) d)
| write_member id i now :
    call = CallAddMember id i -> ~ direct id -> ~ is_member d id (ami_UserID i) ->
    chat_write direct caller call d
      (add_member (mkChatMember id (ami_UserID i) MemberRoleMember now None) d)
| write_removal id u :
    call = CallRemoveMember id u \/ (call = CallLeaveChat id /\ u = caller) -> ~ direct id ->
    chat_write direct caller call d (remove_member id u d)
| write_role id u r :
    (exists i, call = CallChangeMemberRole id i /\ u = cmri_UserID i /\ u <> caller /\
       r ∈ [MemberRoleAdmin; MemberRoleMember]) \/
    (call = CallLeaveChat id /\ u <> caller /\ r = MemberRoleOwner) ->
    ~ direct id -> chat_write direct caller call d (set_role id u r d)
| write_close id :
    call = CallLeaveChat id -> ~ direct id -> chat_write direct caller call d (with_chats (delete id) d).

Inductive user_write `{TextEq} (call : user_call) (d : store) : store -> Prop :=
| write_account i id hash now :
    call = CallRegister i -> RegisterInput_Validate i = None -> st_users d !! id = None ->
    email_free d id (reg_Email i) -> username_free d id (reg_Username i) ->
    user_write call d (with_users <[id := registered id i hash now]> d)
| write_withdrawal i id :
    call = CallRegister i -> (forall u, st_users d !! id = Some u -> user_Email u = reg_Email i) ->
    user_write call d (with_users (delete id) d)
| write_profile id i u :
    call = CallUpdateProfile id i -> UpdateProfileInput_Validate i = None -> takes_profile i u ->
    (forall old, st_users d !! id = Some old -> user_Email u = user_Email old) ->
    username_free d id (user_Username u) ->
    user_write call d (with_users (alter (patch_user u) id) d)
| write_presence id s seen now :
    (call = CallSetOnline id /\ s = UserStatusOnline) \/ (call = CallSetOffline id /\ s = UserStatusOffline) ->
    user_write call d (with_users (alter (set_status s seen now) id) d).

Inductive granted `{TextEq, Latitude} (direct : uuid -> Prop) (c : api_call) (d : store) : store -> Prop :=
| granted_nothing : granted direct c d d
| granted_chat caller call d' : c = ChatCall caller call -> chat_write direct caller call d d' -> granted direct c d d'
| granted_message caller call d' : c = MessageCall caller call -> message_write caller d d' -> granted direct c d d'
| granted_user call d' : c = UserCall call -> user_write call d d' -> granted direct c d d'.

Lemma granted_mono `{TextEq, Latitude} (P Q : uuid -> Prop) c d d' :
  (forall id, Q id -> P id) -> granted P c d d' -> granted Q c d d'.
Proof.
  intros HPQ [|caller call d1 -> Hw|caller call d1 -> Hw|call d1 -> Hw].
  - apply granted_nothing.
  - eapply granted_chat; [done|]. destruct Hw; econstructor; eauto.
  - by eapply granted_message.
  - by eapply granted_user.
Qed.

(** A live direct chat. *)
Definition live_direct (d : store) (c : uuid) : Prop :=
  exists chat, st_chats d !! c = Some chat /\ chat_Type chat = ChatTypeDirect.

(** One write, granted to one of the requests [cs]. *)
Definition written `{TextEq, Latitude} (cs : list api_call) (d d' : store) : Prop :=
  exists c, c ∈ cs /\ granted (live_direct d) c d d'.

(** ** What the writes preserve *)

(** Exactly two members, plain ones. *)
Definition pair_in (d : store) (c : uuid) : Prop :=
  exists a b, a <> b /\
    forall u, role_of d c u = if decide (u = a \/ u = b) then Some MemberRoleMember else None.

(** The request is one of the account's own. *)
Definition account_call (c : api_call) (id : uuid) : Prop :=
  (exists i, c = UserCall (CallUpdateProfile id i)) \/ c = UserCall (CallSetOnline id) \/
  c = UserCall (CallSetOffline id).

Lemma chat_write_frame P caller call d d' :
  chat_write P caller call d d' ->
  st_users d' = st_users d /\ st_messages d' = st_messages d /\ st_reactions d' = st_reactions d /\
  st_receipts d' = st_receipts d.
Proof. by destruct 1. Qed.

Lemma user_write_frame `{TextEq} call d d' :
  user_write call d d' ->
  st_chats d' = st_chats d /\ st_members d' = st_members d /\ st_messages d' = st_messages d /\
  st_reactions d' = st_reactions d /\ st_receipts d' = st_receipts d.
Proof. by destruct 1. Qed.

Lemma direct_members_chat id a b now : Forall (fun m => cm_ChatID m = id) (direct_members id a b now).
Proof. by repeat constructor. Qed.
Lemma direct_members_NoDup id a b now : a <> b -> NoDup (cm_UserID <$> direct_members id a b now).
Proof. intros Hab. cbn. rewrite !NoDup_cons, !elem_of_cons, !elem_of_nil. split; [tauto|]. split; [tauto|constructor]. Qed.
#[export] Hint Resolve direct_members_chat direct_members_NoDup group_members_chat group_members_NoDup : vibe.

Lemma create_chat_elsewhere ch ms d c u :
  Forall (fun m => cm_ChatID m = chat_ID ch) ms -> NoDup (cm_UserID <$> ms) ->
  fresh_chat d (chat_ID ch) -> is_member d c u ->
  forall v, role_of (create_chat ch ms d) c v = role_of d c v.
Proof.
  intros Hc Hnd Hf Hu v. rewrite create_chat_role by done. apply decide_False. intros ->.
  destruct Hf as [_ Hnone]. unfold is_member in Hu. rewrite Hnone in Hu. by destruct Hu.
Qed.

(** A direct chat keeps its members. *)
Lemma chat_write_direct (P : uuid -> Prop) caller call d d' c u :
  chat_write P caller call d d' -> P c -> is_member d c u -> forall v, role_of d' c v = role_of d c v.
Proof.
  intros Hw HP Hu v.
  destruct Hw as [i id now _ Hne Hf|i id now _ _ Hf|id i chat _ _ _ _|id i now _ Hid _|id w _ Hid|id w r _ Hid|id _ _].
  - eapply create_chat_elsewhere; [apply direct_members_chat|apply direct_members_NoDup; congruence|done|done].
  - eapply create_chat_elsewhere; [apply group_members_chat|apply group_members_NoDup|done|done].
  - done.
  - rewrite add_member_role. apply decide_False. cbn. congruence.
  - rewrite remove_member_role. apply decide_False. congruence.
  - rewrite set_role_role. apply decide_False. congruence.
  - done.
Qed.

(** A direct chat begins with two members. *)
Lemma chat_write_new (P : uuid -> Prop) caller call d d' c chat :
  chat_write P caller call d d' -> st_chats d' !! c = Some chat -> st_chats d !! c = None ->
  chat_Type chat = ChatTypeDirect -> pair_in d' c.
Proof.
  intros Hw Hc Hn Ht.
  destruct Hw as [i id now _ Hne Hf|i id now _ _ Hf|id i ch _ _ _ _|id i now _ Hid _|id w _ Hid|id w r _ Hid|id _ _];
    cbn in Hc; try congruence.
  - destruct (decide (c = id)) as [->|Hid]; [|rewrite lookup_insert_ne in Hc by (cbn; congruence); congruence].
    exists caller, (cdi_TargetUserID i). split; [congruence|]. intros v.
    rewrite create_chat_role; [|apply direct_members_chat|apply direct_members_NoDup; congruence|done].
    rewrite decide_True by done. cbn [direct_members list_find cm_UserID].
    repeat case_decide; subst; cbn; first [reflexivity|exfalso; intuition congruence].
  - destruct (decide (c = id)) as [->|Hid].
    + rewrite lookup_insert_eq in Hc. injection Hc as <-. discriminate Ht.
    + rewrite lookup_insert_ne in Hc by (cbn; congruence). congruence.
  - rewrite lookup_alter in Hc. case_decide; [subst; by rewrite Hn in Hc|congruence].
  - apply lookup_delete_Some in Hc as [_ Hc]. congruence.
Qed.

Section accounts.
Context `{TextEq} (same_sym : forall a b, same_text a b = same_text b a).

Lemma user_write_wf call d d' : accounts_wf d -> user_write call d d' -> accounts_wf d'.
Proof using same_sym.
  intros Hwf [i id hash now _ _ Hf He Hn|i id _ _|id i u _ _ _ He Hn|id s seen now Hcall].
  - by apply (accounts_write same_sym).
  - destruct Hwf as (Hid & He & Hn). unfold accounts_wf, email_free, username_free in *. cbn.
    repeat split; setoid_rewrite lookup_delete_Some.
    + intros k u [_ Hk]. auto.
    + intros k u [_ Hk] j v [_ Hj]. by apply (He k u).
    + intros k u [_ Hk] j v [_ Hj]. by apply (Hn k u).
  - destruct (st_users d !! id) as [old|] eqn:Hold.
    + unfold with_users. rewrite (alter_is_insert _ _ old) by done. pose proof Hwf as (Hid & He' & _).
      apply (accounts_write same_sym); [done|exact (Hid id old Hold)| |done]. cbn. rewrite (He old eq_refl).
      exact (He' id old Hold).
    + unfold with_users. rewrite alter_absent by done. by destruct d.
  - eapply (user_step_wf same_sym); [done|]. apply act_presence. rewrite !elem_of_cons. tauto.
Qed.

Lemma user_write_account call d d' id u :
  user_write call d d' -> st_users d !! id = Some u ->
  (exists u', st_users d' !! id = Some u' /\ user_PasswordHash u' = user_PasswordHash u /\
     user_Email u' = user_Email u /\ (~ account_call (UserCall call) id -> u' = u)) \/
  (st_users d' !! id = None /\ exists i, call = CallRegister i /\ reg_Email i = user_Email u).
Proof using.
  intros Hw Hu. destruct Hw as [i k hash now -> _ Hf _ _|i k -> He|k i w -> _ _ He _|k s seen now Hcall]; cbn.
  - left. exists u. rewrite lookup_insert_ne by congruence. by split_and!.
  - destruct (decide (id = k)) as [->|Hne].
    + right. split; [apply lookup_delete_eq|]. exists i. by rewrite (He u Hu).
    + left. exists u. rewrite lookup_delete_ne by congruence. by split_and!.
  - left. rewrite lookup_alter. case_decide as E; [subst k|by exists u]. rewrite Hu. cbn. eexists. split; [done|].
    cbn. split_and!; [done|by apply He|]. intros []. left. by exists i.
  - left. rewrite lookup_alter. case_decide as E; [subst k|by exists u]. rewrite Hu. cbn. eexists. split; [done|].
    cbn. split_and!; [done..|]. intros []. right. destruct Hcall as [[-> _]|[-> _]]; auto.
Qed.
End accounts.

(** ** The same, for a granted write *)
Section granted.
Context `{TextEq, Latitude}.

(** A message stays, with its identity; a deleted one never changes; and only a
    request of its author changes it. *)
Lemma granted_message_kept P c d d' id m :
  granted P c d d' -> st_messages d !! id = Some m ->
  exists m', st_messages d' !! id = Some m' /\ same_identity m m' /\ (IsDeleted m = true -> m' = m) /\
    ((forall call, c <> MessageCall (msg_SenderID m) call) -> m' = m).
Proof using.
  intros [|caller call d2 -> Hw|caller call d2 -> Hw|call d2 -> Hw] Hm.
  - exists m. by split_and!; auto with vibe.
  - exists m. apply chat_write_frame in Hw as (_ & -> & _). by split_and!; auto with vibe.
  - destruct (message_write_kept _ _ _ Hw id m Hm) as (m' & Hm' & Hs & Hd & Ha). exists m'. split_and!; [done..|].
    intros Hne. apply Ha. intros <-. by apply (Hne call).
  - exists m. apply user_write_frame in Hw as (_ & _ & -> & _). by split_and!; auto with vibe.
Qed.

Lemma granted_message_new P c d d' id m :
  granted P c d d' -> st_messages d' !! id = Some m -> st_messages d !! id = None ->
  exists call, c = MessageCall (msg_SenderID m) call.
Proof using.
  intros [|caller call d2 -> Hw|caller call d2 -> Hw|call d2 -> Hw] Hm Hn.
  - congruence.
  - apply chat_write_frame in Hw as (_ & E & _). congruence.
  - exists call. by rewrite (message_write_new _ _ _ _ _ Hw Hm Hn).
  - apply user_write_frame in Hw as (_ & _ & E & _). congruence.
Qed.

Lemma granted_message_wf P c d d' : granted P c d d' -> message_wf d -> message_wf d'.
Proof using.
  intros [|caller call d2 -> Hw|caller call d2 -> Hw|call d2 -> Hw] Hwf.
  - done.
  - apply chat_write_frame in Hw as (_ & ? & ? & _). by eapply message_wf_ext.
  - by eapply message_write_wf.
  - apply user_write_frame in Hw as (_ & _ & ? & ? & _). by eapply message_wf_ext.
Qed.

Lemma granted_accounts_wf (same_sym : forall a b, same_text a b = same_text b a) P c d d' :
  granted P c d d' -> accounts_wf d -> accounts_wf d'.
Proof using.
  intros [|caller call d2 -> Hw|caller call d2 -> Hw|call d2 -> Hw] Hwf.
  - done.
  - apply chat_write_frame in Hw as (? & _). by eapply accounts_wf_ext.
  - apply message_write_frame in Hw as (? & _). by eapply accounts_wf_ext.
  - by eapply user_write_wf.
Qed.

Lemma granted_account P c d d' id u :
  granted P c d d' -> st_users d !! id = Some u ->
  (exists u', st_users d' !! id = Some u' /\ user_PasswordHash u' = user_PasswordHash u /\
     user_Email u' = user_Email u /\ (~ account_call c id -> u' = u)) \/
  (st_users d' !! id = None /\ exists i, c = UserCall (CallRegister i) /\ reg_Email i = user_Email u).
Proof using.
  intros [|caller call d2 -> Hw|caller call d2 -> Hw|call d2 -> Hw] Hu.
  - left. by exists u.
  - left. exists u. apply chat_write_frame in Hw as (-> & _). done.
  - left. exists u. apply message_write_frame in Hw as (-> & _). done.
  - destruct (user_write_account _ _ _ _ _ Hw Hu) as [?|(? & i & -> & ?)]; [by left|right; eauto].
Qed.

Lemma granted_direct (P : uuid -> Prop) c d d' id u :
  granted P c d d' -> P id -> is_member d id u -> forall v, role_of d' id v = role_of d id v.
Proof using.
  intros [|caller call d2 -> Hw|caller call d2 -> Hw|call d2 -> Hw] HP Hu v.
  - done.
  - by eapply chat_write_direct.
  - apply message_write_frame in Hw as (_ & _ & E). unfold role_of. by rewrite E.
  - apply user_write_frame in Hw as (_ & E & _). unfold role_of. by rewrite E.
Qed.

Lemma granted_new (P : uuid -> Prop) c d d' id chat :
  granted P c d d' -> st_chats d' !! id = Some chat -> st_chats d !! id = None ->
  chat_Type chat = ChatTypeDirect -> pair_in d' id.
Proof using.
  intros [|caller call d2 -> Hw|caller call d2 -> Hw|call d2 -> Hw] Hc Hn Ht.
  - congruence.
  - by eapply chat_write_new.
  - apply message_write_frame in Hw as (_ & E & _). congruence.
  - apply user_write_frame in Hw as (E & _). congruence.
Qed.

Lemma granted_marks P c d d' u :
  granted P c d d' -> (forall call, c <> MessageCall u call) ->
  (forall ch, st_receipts d' !! (ch, u) = st_receipts d !! (ch, u)) /\
  (forall m e, st_reactions d' !! (m, u, e) = st_reactions d !! (m, u, e)).
Proof using.
  intros [|caller call d2 -> Hw|caller call d2 -> Hw|call d2 -> Hw] Hu.
  - done.
  - by apply chat_write_frame in Hw as (_ & _ & -> & ->).
  - eapply message_write_marks; [done|]. intros ->. by apply (Hu call).
  - by apply user_write_frame in Hw as (_ & _ & _ & -> & ->).
Qed.

Lemma written_messages cs d d' id m :
  rtc (written cs) d d' -> st_messages d !! id = Some m ->
  exists m', st_messages d' !! id = Some m' /\ same_identity m m' /\ (IsDeleted m = true -> m' = m) /\
    ((forall call, MessageCall (msg_SenderID m) call ∉ cs) -> m' = m).
Proof using.
  intros Hr. revert m. induction Hr as [|d1 d2 d3 (c & Hc & Hg) Hr IH]; intros m Hm.
  - exists m. by split_and!; auto with vibe.
  - destruct (granted_message_kept _ _ _ _ _ _ Hg Hm) as (m2 & Hm2 & Hs2 & Hd2 & Ha2).
    destruct (IH m2 Hm2) as (m3 & Hm3 & Hs3 & Hd3 & Ha3). exists m3.
    assert (msg_SenderID m2 = msg_SenderID m) as Hsender by apply Hs2. split_and!; [done| | |].
    + unfold same_identity in *. intuition congruence.
    + intros Hd. specialize (Hd2 Hd). subst m2. auto.
    + intros Hnone. rewrite Ha3 by (by rewrite Hsender). apply Ha2. intros call ->. by apply (Hnone call).
Qed.

Lemma written_message_wf cs d d' : rtc (written cs) d d' -> message_wf d -> message_wf d'.
Proof using. induction 1 as [|d1 d2 d3 (c & _ & Hg) _ IH]; [done|]. intros Hwf. by eapply IH, granted_message_wf. Qed.

Lemma written_accounts_wf (same_sym : forall a b, same_text a b = same_text b a) cs d d' :
  rtc (written cs) d d' -> accounts_wf d -> accounts_wf d'.
Proof using.
  induction 1 as [|d1 d2 d3 (c & _ & Hg) _ IH]; [done|]. intros Hwf. by eapply IH, granted_accounts_wf.
Qed.

(** New messages are their author's. *)
Lemma written_new cs d d' id m :
  rtc (written cs) d d' -> st_messages d' !! id = Some m -> st_messages d !! id = None ->
  exists call, MessageCall (msg_SenderID m) call ∈ cs.
Proof using.
  intros Hr Hm Hn. revert Hn. induction Hr as [|d1 d2 d3 (c & Hc & Hg) Hr IH]; intros Hn; [congruence|].
  destruct (st_messages d2 !! id) as [m2|] eqn:Hm2; [|by apply IH].
  destruct (written_messages _ _ _ _ _ Hr Hm2) as (m3 & Hm3 & Hs & _).
  assert (msg_SenderID m = msg_SenderID m2) as -> by (destruct Hs as (_ & _ & ? & _); congruence).
  destruct (granted_message_new _ _ _ _ _ _ Hg Hm2 Hn) as [call ->]. by exists call.
Qed.

(** The reactions and the read marks of a user are changed by the user's own
    requests. *)
Lemma written_marks cs d d' u :
  rtc (written cs) d d' -> (forall call, MessageCall u call ∉ cs) ->
  (forall ch, st_receipts d' !! (ch, u) = st_receipts d !! (ch, u)) /\
  (forall m e, st_reactions d' !! (m, u, e) = st_reactions d !! (m, u, e)).
Proof using.
  intros Hr Hu. induction Hr as [|d1 d2 d3 (c & Hc & Hg) Hr [IH1 IH2]]; [done|].
  destruct (granted_marks _ _ _ _ u Hg) as [H1 H2]; [by intros call ->; apply (Hu call)|].
  split; intros; [by rewrite IH1|by rewrite IH2].
Qed.
End granted.
