(* ===== verification/Requests.v ===== *)
(** * Requests as trees, and schedules

    A request as a tree of the operations it asks of its environment, whatever the
    family [O] of operations is, and a server that runs any number of requests,
    one operation of one of them at a time. *)
From S2P Require Import Prelude Domain System.

Section trees.
Context {O : Type -> Type}.

Inductive tree (A : Type) : Type :=
| Ret (a : A)
| Act {B : Type} (o : O B) (k : B -> tree A).
#[global] Arguments Ret {A} a.
#[global] Arguments Act {A B} o k.

Fixpoint tree_bind {A B} (k : A -> tree B) (p : tree A) : tree B :=
  match p with
  | Ret a => k a
  | Act o f => Act o (fun b => tree_bind k (f b))
  end.

#[export] Instance tree_ret : MRet tree := fun A a => Ret a.
#[export] Instance tree_mbind : MBind tree := fun A B k p => tree_bind k p.
End trees.
Arguments tree O A : clear implicits.

(** What an operation does, and the request that answers a call. *)
Class Performs (O : Type -> Type) (W : Type) : Type := perform_op : forall B, O B -> ST W B.
Arguments perform_op {O W _ B} o.
Class Server (O : Type -> Type) : Type := start : api_call -> tree O (res unit).

(** The server: a request arrives, or one of the requests under way, the [i]th to
    arrive, takes its next operation. *)
Inductive event : Type := Arrives (c : api_call) | Turn (i : nat).

Definition arrival (e : event) : option api_call := match e with Arrives c => Some c | Turn _ => None end.

(** ** Running *)
Section running.
Context {O : Type -> Type} {W : Type} `{Performs O W}.

(** A request on its own. *)
Fixpoint alone {A} (p : tree O A) : ST W A :=
  match p with
  | Ret a => mret a
  | Act o k => fun w => let r := perform_op o w in alone (k r.1) r.2
  end.

Definition requests : Type := list (tree O (res unit)).

Context `{Server O}.

Definition server_step (e : event) (st : requests * W) : requests * W :=
  match e with
  | Arrives c => (st.1 ++ [start c], st.2)
  | Turn i =>
    match st.1 !! i with
    | Some (Act o k) => let r := perform_op o st.2 in (<[i := k r.1]> st.1, r.2)
    | _ => st
    end
  end.

Fixpoint interleave (es : list event) (st : requests * W) : requests * W :=
  match es with
  | [] => st
  | e :: rest => interleave rest (server_step e st)
  end.

Lemma interleave_app es es' st : interleave (es ++ es') st = interleave es' (interleave es st).
Proof using. revert st. induction es as [|e es IH]; intros st; [done|]. apply IH. Qed.

End running.
Arguments requests O : clear implicits.

(** ** A tree agrees with a computation *)
Section agreement.
Context {O : Type -> Type} {W : Type} `{Performs O W}.

Definition agrees {A} (p : tree O A) (m : ST W A) : Prop := forall w, alone p w = m w.

Lemma agrees_ret {A} (a : A) : agrees (mret a) (mret a).
Proof using. done. Qed.

Lemma agrees_op {B} (o : O B) : agrees (Act o Ret) (perform_op o).
Proof using. intros w. cbn. by destruct (perform_op o w). Qed.

Lemma agrees_bind {A B} p m (k : A -> tree O B) (k' : A -> ST W B) :
  agrees p m -> (forall a, agrees (k a) (k' a)) -> agrees (mbind k p) (mbind k' m).
Proof using.
  intros Hp Hk w. unfold mbind, ST_bind, tree_mbind. rewrite <- Hp. clear Hp m. revert w.
  induction p as [a|C o f IH]; intros w; cbn; [apply Hk|]. by rewrite IH.
Qed.

Lemma agrees_try {E A B} p m (k : A -> tree O (result E B)) (k' : A -> ST W (result E B)) :
  agrees p m -> (forall a, agrees (k a) (k' a)) -> agrees (try p k) (try m k').
Proof using. intros Hp Hk. apply agrees_bind; [done|]. intros [a|e]; [apply Hk|apply agrees_ret]. Qed.

Lemma agrees_for_each {E A} (l : list A) (body : A -> tree O (result E unit)) body' :
  (forall a, agrees (body a) (body' a)) -> agrees (for_each l body) (for_each l body').
Proof using.
  intros Hb. induction l as [|a l IH]; [apply agrees_ret|]. cbn [for_each]. by apply agrees_try.
Qed.
End agreement.

Ltac agree :=
  repeat first
    [ apply agrees_ret
    | apply agrees_try; [|intros ?]
    | apply agrees_bind; [|intros ?]
    | apply agrees_for_each; intros ?
    | match goal with |- agrees (match ?here with _ => _ end) (match ?there with _ => _ end) =>
        change here with there; destruct there end
    | exact (agrees_op _)
    | progress cbv zeta
    | match goal with |- agrees ?p _ => let h := head_of p in progress unfold h end ].

(** ** Trees end

    [takes p Q n]: with [n] operations left, [p] comes to an answer, with enough of
    them left for [Q]. *)
Section ends.
Context {O : Type -> Type}.

Fixpoint takes {A} (p : tree O A) (Q : A -> nat -> Prop) (n : nat) : Prop :=
  match p with
  | Ret a => Q a n
  | Act o k => match n with 0%nat => False | S n' => forall b, takes (k b) Q n' end
  end.

Lemma takes_ret {A} (a : A) (Q : A -> nat -> Prop) n : Q a n -> takes (mret a) Q n.
Proof using. done. Qed.

Lemma takes_op {B} (o : O B) (Q : B -> nat -> Prop) n : (forall b, Q b n) -> takes (Act o Ret) Q (S n).
Proof using. done. Qed.

Lemma takes_bind {A B} (p : tree O A) (k : A -> tree O B) Q n :
  takes p (fun a n' => takes (k a) Q n') n -> takes (mbind k p) Q n.
Proof using.
  revert n. induction p as [a|C o f IH]; intros n Hp; [done|]. cbn. destruct n as [|n]; [done|].
  intros b. by apply IH.
Qed.

Lemma takes_mono {A} (p : tree O A) (P Q : A -> nat -> Prop) n :
  takes p P n -> (forall a n', P a n' -> Q a n') -> takes p Q n.
Proof using.
  intros Hp HPQ. revert n Hp. induction p as [a|C o f IH]; intros n Hp; [by apply HPQ|]. cbn in *.
  destruct n as [|n]; [done|]. intros b. by apply IH.
Qed.

Lemma takes_try {E A B} (p : tree O (result E A)) (k : A -> tree O (result E B)) Q n :
  takes p (fun r n' => match r with Ok a => takes (k a) Q n' | Err e => Q (Err e) n' end) n -> takes (try p k) Q n.
Proof using. intros Hp. apply takes_bind. eapply takes_mono; [exact Hp|]. by intros [a|e] n'. Qed.

Lemma takes_for_each {E A} (l : list A) (body : A -> tree O (result E unit)) (Q : result E unit -> nat -> Prop) n :
  (forall a m, takes (body a) (fun _ m' => (m <= m')%nat) (S m)) ->
  (forall r m, (n <= m)%nat -> Q r m) -> takes (for_each l body) Q (length l + n).
Proof using.
  intros Hb HQ. cut (forall m, (length l + n <= m)%nat -> takes (for_each l body) Q m).
  { intros Hm. by apply Hm. }
  induction l as [|a l IH]; intros m Hm; [by apply HQ|]. cbn [for_each]. cbn in Hm.
  destruct m as [|m]; [lia|]. apply takes_try. eapply takes_mono; [apply Hb|].
  intros [[]|e] m' Hm'; [apply IH; lia|apply HQ; lia].
Qed.

Context {W : Type} `{Performs O W, Server O}.

(** Given nothing but its own turns, it ends where it would alone. *)
Lemma run_to_end i p n (st : requests O * W) :
  st.1 !! i = Some p -> takes p (fun _ _ => True) n ->
  interleave (replicate n (Turn i)) st = (<[i := Ret (alone p st.2).1]> st.1, (alone p st.2).2).
Proof using.
  revert p st. induction n as [|n IH]; intros p [ps w] Hp Ht; cbn [replicate interleave].
  - destruct p as [r|B o k]; [|done]. cbn in *. f_equal. symmetry. by apply list_insert_id.
  - cbn in Hp. cbn [server_step fst]. rewrite Hp. destruct p as [r|B o k].
    + exact (IH (Ret r) (ps, w) Hp I).
    + rewrite (IH (k (perform_op o w).1)); [|eapply list_lookup_insert_eq; by eapply lookup_lt_Some|apply Ht].
      cbn. f_equal. apply list_insert_insert_eq.
Qed.
End ends.

(** Count the operations on every path. *)
Ltac count :=
  cbv zeta;
  repeat match goal with
  | |- True => exact I
  | |- (_ <= _)%nat => lia
  | |- takes (mret _) _ _ => apply takes_ret
  | |- takes (check_err ?o) _ _ => apply takes_ret; destruct o
  | |- takes (try _ _) _ _ => apply takes_try
  | |- takes (mbind _ _) _ _ => apply takes_bind
  | |- takes (for_each _ _) _ (_ + _) => apply takes_for_each; [intros ? ?|intros ? ? ?]
  | |- takes (match ?x with _ => _ end) _ _ => destruct x
  | |- match ?x with Ok _ => _ | Err _ => _ end => destruct x
  | H : (1 <= ?m)%nat |- takes _ _ ?m => destruct m; [lia|clear H]
  | |- takes _ _ _ => apply takes_op; intros ?
  end.
