(* ===== verification/Rely.v ===== *)
(** * Rely and guarantee

    A request among others, whatever the operations are: [later] is what it may
    rely on between two of its operations, [sound] the invariant all requests keep
    together, [allowed] what its next operation guarantees to the others, [learns]
    what it knows from the answer on. *)
From S2P Require Import Prelude Domain Store System Writes Requests.

Section rely.
Context {O : Type -> Type} {W : Type} (later : relation W) (sound : W -> Prop).
Context (allowed : forall B, api_call -> W -> O B -> Prop) (learns : forall B, O B -> B -> W -> Prop).

(** Whatever the others do between its operations, the request keeps its guarantee
    and ends with [Q]. *)
Fixpoint guards {A} (c : api_call) (p : tree O A) (Q : A -> W -> Prop) (w : W) : Prop :=
  match p with
  | Ret a => Q a w
  | Act o k => forall w1, later w w1 -> sound w1 ->
      allowed _ c w1 o /\
      forall b w2, later w1 w2 -> sound w2 -> learns _ o b w2 -> guards c (k b) Q w2
  end.

Lemma guards_ret {A} c (a : A) (Q : A -> W -> Prop) w : Q a w -> guards c (mret a) Q w.
Proof using. done. Qed.

Lemma guards_bind {A B} c (p : tree O A) (k : A -> tree O B) Q w :
  guards c p (fun a w' => guards c (k a) Q w') w -> guards c (mbind k p) Q w.
Proof using.
  revert w. induction p as [a|C o f IH]; intros w Hp; [done|]. cbn. intros w1 Hl Hs.
  destruct (Hp w1 Hl Hs) as [Ha Hk]. split; [done|]. intros b w2 Hl2 Hs2 Hb. apply IH. exact (Hk b w2 Hl2 Hs2 Hb).
Qed.

Lemma guards_mono {A} c (p : tree O A) (P Q : A -> W -> Prop) w :
  guards c p P w -> (forall a w', P a w' -> Q a w') -> guards c p Q w.
Proof using.
  intros Hp HPQ. revert w Hp. induction p as [a|C o f IH]; intros w Hp; cbn in *; [auto|].
  intros w1 Hl Hs. destruct (Hp w1 Hl Hs) as [Ha Hk]. split; [done|]. eauto.
Qed.

Lemma guards_try {E A B} c (p : tree O (result E A)) (k : A -> tree O (result E B)) Q w :
  guards c p (fun r w' => match r with Ok a => guards c (k a) Q w' | Err e => Q (Err e) w' end) w ->
  guards c (try p k) Q w.
Proof using. intros Hp. apply guards_bind. eapply guards_mono; [exact Hp|]. by intros [a|e]. Qed.

Lemma guards_check {A} c (o : option error) (k : unit -> tree O (res A)) (Q : res A -> W -> Prop) w :
  (forall e, Q (Err e) w) -> (o = None -> guards c (k tt) Q w) -> guards c (try (check_err o) k) Q w.
Proof using. intros He Hk. apply guards_try, guards_ret. destruct o; auto. Qed.

Lemma guards_for_each {E A} c (l : list A) (body : A -> tree O (result E unit)) (P : W -> Prop)
    (Q : result E unit -> W -> Prop) w :
  P w ->
  (forall a w', a ∈ l -> P w' -> guards c (body a) (fun r w2 => P w2) w') -> (forall r w', P w' -> Q r w') ->
  guards c (for_each l body) Q w.
Proof using.
  intros Hw Hb HQ. revert w Hw. induction l as [|a l IH]; intros w Hw; [by apply HQ|]. cbn [for_each].
  apply guards_try. eapply guards_mono; [apply Hb; [by left|done]|].
  intros [[]|e] w' Hw'; [apply IH; [|done]|by apply HQ]. intros b w2 Hin. apply Hb. by right.
Qed.

Context {HL : PreOrder later}.

(** An operation: what it must guarantee, at any later moment, and what it teaches. *)
Lemma guards_op {B} c (o : O B) (Q : B -> W -> Prop) w :
  (forall w1, later w w1 -> sound w1 -> allowed _ c w1 o) ->
  (forall b w2, later w w2 -> sound w2 -> learns _ o b w2 -> Q b w2) -> guards c (Act o Ret) Q w.
Proof using HL.
  intros Ha HQ w1 Hl Hs. split; [by apply Ha|]. intros b w2 Hl2 Hs2 Hb. apply HQ; [by etransitivity|done..].
Qed.

(** What holds where it starts, and later, holds where it ends. *)
Lemma guards_since {A} c (p : tree O A) (Q : A -> W -> Prop) w :
  sound w -> guards c p Q w -> guards c p (fun a w' => later w w' /\ sound w' /\ Q a w') w.
Proof using HL.
  intros Hs Hp. assert (forall w0, later w w0 -> sound w0 -> guards c p Q w0 ->
    guards c p (fun a w' => later w w' /\ sound w' /\ Q a w') w0) as Hall; [|by apply Hall].
  clear Hp. induction p as [a|B o k IH]; intros w0 Hl0 Hs0 Hp; [done|].
  intros w1 Hl1 Hs1. destruct (Hp w1 Hl1 Hs1) as [Ha Hk]. split; [done|]. intros b w2 Hl2 Hs2 Hb.
  apply IH; [|done|by apply Hk]. transitivity w0; [done|]. by transitivity w1.
Qed.

Lemma guards_later {A} c (p : tree O A) w w' :
  later w w' -> guards c p (fun _ _ => True) w -> guards c p (fun _ _ => True) w'.
Proof using HL.
  intros Hl. destruct p as [a|B o k]; [done|]. intros Hp w1 Hl1 Hs. apply Hp; [by etransitivity|done].
Qed.

(** ** The server *)
Context `{Performs O W, Server O} (view : W -> store) `{TE : TextEq, LA : Latitude}.

(** Every operation keeps its guarantee and teaches what it should, and every request
    asks only for what it may. *)
Class Guarantee : Prop := {
  performed {B} (o : O B) c w : sound w -> allowed _ c w o ->
    let '(b, w') := perform_op o w in
    sound w' /\ later w w' /\ learns _ o b w' /\ granted (live_direct (view w)) c (view w) (view w');
  started_sound c w : sound w -> guards c (start c) (fun _ _ => True) w }.
Context {HG : Guarantee}.

(** The requests under way, each with the call it answers, can all go on. *)
Definition serving (cs : list api_call) (st : requests O * W) : Prop :=
  sound st.2 /\ Forall2 (fun c p => guards c p (fun _ _ => True) st.2) cs st.1.

Lemma start_serving w : sound w -> serving [] ([], w).
Proof using. intros Hs. by split; [|constructor]. Qed.

Lemma serving_later cs st w' :
  later st.2 w' -> sound w' -> serving cs st -> serving cs (st.1, w').
Proof using HL.
  intros Hl Hs [_ Hp]. split; [done|]. eapply Forall2_impl; [exact Hp|]. intros c p. by apply guards_later.
Qed.

Lemma server_step_serves e cs st :
  serving cs st ->
  serving (cs ++ omap arrival [e]) (server_step e st) /\ later st.2 (server_step e st).2 /\
  (view (server_step e st).2 = view st.2 \/ written cs (view st.2) (view (server_step e st).2)).
Proof using HL HG.
  intros Hst. pose proof Hst as [Hs Hp]. destruct e as [c|i]; cbn [server_step omap list_omap arrival].
  - split; [|by split; [reflexivity|left]]. split; [done|]. apply Forall2_app; [done|].
    constructor; [by apply started_sound|constructor].
  - rewrite app_nil_r.
    destruct (st.1 !! i) as [[r|B o k]|] eqn:Hi;
      [by split_and!; [|reflexivity|left]| |by split_and!; [|reflexivity|left]].
    cbn [snd]. destruct (Forall2_lookup_r _ _ _ _ _ Hp Hi) as (c & Hc & Hg).
    destruct (Hg st.2 ltac:(reflexivity) Hs) as [Ha Hk]. pose proof (performed o c _ Hs Ha) as Hperf.
    destruct (perform_op o st.2) as [b w']. destruct Hperf as (Hs' & Hl & Hlearn & Hw).
    destruct (serving_later cs st _ Hl Hs' Hst) as [_ Hp']. split_and!; [|done|].
    + split; [done|]. rewrite <- (list_insert_id cs i c) by done. apply Forall2_insert; [done|].
      exact (Hk _ _ Hl Hs' Hlearn).
    + right. exists c. split; [by apply list_elem_of_lookup_2 in Hc|done].
Qed.
End rely.
Arguments guards {O W} later sound allowed learns {A} c p Q w.
Arguments serving {O W} later sound allowed learns cs st.
Arguments Guarantee {O W} later sound allowed learns {_ _} view {_ _}.
