(* ===== verification/Concurrent.v ===== *)
(** * Requests side by side

    A request as a tree of the operations it asks of the repositories, the clock
    and the token library, and a server that runs any number of requests, one
    operation of one of them at a time.  An operation is one statement, or one
    transaction, of the storage: the granularity at which requests on a database
    interleave. *)
From S2P Require Import Prelude Domain ChatUsecase MessageUsecase UserUsecase Store.
From S2P Require Import ChatContract ChatRefinement MessageRefinement UserRefinement System Requests.
Open Scope Z_scope.

(** ** Operations *)
Inductive op : Type -> Type :=
| Op_Now : op Time
| Op_UUID : op uuid
| Op_AccessToken (id : uuid) : op (res string)
| Op_RefreshToken (id : uuid) : op (res string)
| Op_ValidateRefresh (token : string) : op (res uuid)
| Op_Hash (password : string) : op (res string)
| Op_UserCreate (u : User) : op (res unit)
| Op_UserGetByID (id : uuid) : op (res User)
| Op_UserGetByEmail (email : string) : op (res User)
| Op_UserGetByUsername (name : string) : op (res User)
| Op_UserUpdate (u : User) : op (res unit)
| Op_UserUpdateStatus (id : uuid) (s : UserStatus) (t : Time) : op (res unit)
| Op_UserSearch (q : string) (limit offset : Z) : op (res (list User))
| Op_UserDelete (id : uuid) : op (res unit)
| Op_ChatCreate (c : Chat) (ms : list ChatMember) : op (res unit)
| Op_ChatGetByID (id : uuid) : op (res Chat)
| Op_ChatUpdate (c : Chat) : op (res unit)
| Op_ChatDelete (id : uuid) : op (res unit)
| Op_AddMember (m : ChatMember) : op (res unit)
| Op_RemoveMember (c u : uuid) : op (res unit)
| Op_GetMember (c u : uuid) : op (res ChatMember)
| Op_GetMembers (c : uuid) : op (res (list ChatMember))
| Op_UpdateMemberRole (c u : uuid) (r : MemberRole) : op (res unit)
| Op_GetUserChats (u : uuid) : op (res (list ChatPreview))
| Op_GetDirectChat (a b : uuid) : op (res Chat)
| Op_IsMember (c u : uuid) : op (res bool)
| Op_MessageCreate (m : Message) : op (res unit)
| Op_MessageGetByID (id : uuid) : op (res Message)
| Op_GetChatMessages (c : uuid) (cursor : option MessageCursor) (limit : Z) : op (res (list Message))
| Op_MessageUpdate (m : Message) : op (res unit)
| Op_MessageDelete (id : uuid) : op (res unit)
| Op_MarkRead (c u : uuid) : op (res unit)
| Op_GetUnreadCount (c u : uuid) : op (res Z)
| Op_AddReaction (r : Reaction) : op (res unit)
| Op_RemoveReaction (m u : uuid) (emoji : string) : op (res unit)
| Op_GetReactions (m : uuid) : op (res (list Reaction))
| Op_GetReactionsBatch (ids : list uuid) : op (res (gmap uuid (list Reaction))).

(** ** Requests *)
Abbreviation proc := (tree op).

#[export] Instance proc_clock : Clock proc := Act Op_Now Ret.
#[export] Instance proc_uuid : UUIDSource proc := Act Op_UUID Ret.

#[export] Instance proc_users : UserRepository proc := {|
  users_Create u := Act (Op_UserCreate u) Ret;
  users_GetByID id := Act (Op_UserGetByID id) Ret;
  users_GetByEmail e := Act (Op_UserGetByEmail e) Ret;
  users_GetByUsername n := Act (Op_UserGetByUsername n) Ret;
  users_Update u := Act (Op_UserUpdate u) Ret;
  users_UpdateStatus id s t := Act (Op_UserUpdateStatus id s t) Ret;
  users_Search q l o := Act (Op_UserSearch q l o) Ret;
  users_Delete id := Act (Op_UserDelete id) Ret |}.

#[export] Instance proc_chats : ChatRepository proc := {|
  chats_CreateWithMembers c ms := Act (Op_ChatCreate c ms) Ret;
  chats_GetByID id := Act (Op_ChatGetByID id) Ret;
  chats_Update c := Act (Op_ChatUpdate c) Ret;
  chats_Delete id := Act (Op_ChatDelete id) Ret;
  chats_AddMember m := Act (Op_AddMember m) Ret;
  chats_RemoveMember c u := Act (Op_RemoveMember c u) Ret;
  chats_GetMember c u := Act (Op_GetMember c u) Ret;
  chats_GetMembers c := Act (Op_GetMembers c) Ret;
  chats_UpdateMemberRole c u r := Act (Op_UpdateMemberRole c u r) Ret;
  chats_GetUserChats u := Act (Op_GetUserChats u) Ret;
  chats_GetDirectChat a b := Act (Op_GetDirectChat a b) Ret;
  chats_IsMember c u := Act (Op_IsMember c u) Ret |}.

#[export] Instance proc_messages : MessageRepository proc := {|
  messages_Create m := Act (Op_MessageCreate m) Ret;
  messages_GetByID id := Act (Op_MessageGetByID id) Ret;
  messages_GetChatMessages c cursor l := Act (Op_GetChatMessages c cursor l) Ret;
  messages_Update m := Act (Op_MessageUpdate m) Ret;
  messages_Delete id := Act (Op_MessageDelete id) Ret;
  messages_MarkRead c u := Act (Op_MarkRead c u) Ret;
  messages_GetUnreadCount c u := Act (Op_GetUnreadCount c u) Ret;
  messages_AddReaction r := Act (Op_AddReaction r) Ret;
  messages_RemoveReaction m u e := Act (Op_RemoveReaction m u e) Ret;
  messages_GetReactions m := Act (Op_GetReactions m) Ret;
  messages_GetReactionsBatch ids := Act (Op_GetReactionsBatch ids) Ret |}.

#[export] Instance proc_tokens : tokenManager proc := {|
  GenerateAccessToken id := Act (Op_AccessToken id) Ret;
  GenerateRefreshToken id := Act (Op_RefreshToken id) Ret;
  ValidateRefreshToken t := Act (Op_ValidateRefresh t) Ret |}.

(** The comparison of a password with its hash has no effect. *)
Definition proc_hasher (check : string -> string -> bool) : passwordHasher proc := {|
  Hash p := Act (Op_Hash p) Ret; hasher_Check := check |}.

(** ** Running them *)

(** An operation in terms of any repositories. *)
Section anywhere.
Context {M : Type -> Type} `{UR : UserRepository M, CR : ChatRepository M, MR : MessageRepository M}.
Context `{TM : tokenManager M, PH : passwordHasher M, CK : Clock M, US : UUIDSource M}.

Definition perform_in {B} (o : op B) : M B :=
  match o with
  | Op_Now => time_Now
  | Op_UUID => uuid_New
  | Op_AccessToken id => GenerateAccessToken id
  | Op_RefreshToken id => GenerateRefreshToken id
  | Op_ValidateRefresh t => ValidateRefreshToken t
  | Op_Hash p => Hash p
  | Op_UserCreate u => users_Create u
  | Op_UserGetByID id => users_GetByID id
  | Op_UserGetByEmail e => users_GetByEmail e
  | Op_UserGetByUsername n => users_GetByUsername n
  | Op_UserUpdate u => users_Update u
  | Op_UserUpdateStatus id s t => users_UpdateStatus id s t
  | Op_UserSearch q l o => users_Search q l o
  | Op_UserDelete id => users_Delete id
  | Op_ChatCreate c ms => chats_CreateWithMembers c ms
  | Op_ChatGetByID id => chats_GetByID id
  | Op_ChatUpdate c => chats_Update c
  | Op_ChatDelete id => chats_Delete id
  | Op_AddMember m => chats_AddMember m
  | Op_RemoveMember c u => chats_RemoveMember c u
  | Op_GetMember c u => chats_GetMember c u
  | Op_GetMembers c => chats_GetMembers c
  | Op_UpdateMemberRole c u r => chats_UpdateMemberRole c u r
  | Op_GetUserChats u => chats_GetUserChats u
  | Op_GetDirectChat a b => chats_GetDirectChat a b
  | Op_IsMember c u => chats_IsMember c u
  | Op_MessageCreate m => messages_Create m
  | Op_MessageGetByID id => messages_GetByID id
  | Op_GetChatMessages c cursor l => messages_GetChatMessages c cursor l
  | Op_MessageUpdate m => messages_Update m
  | Op_MessageDelete id => messages_Delete id
  | Op_MarkRead c u => messages_MarkRead c u
  | Op_GetUnreadCount c u => messages_GetUnreadCount c u
  | Op_AddReaction r => messages_AddReaction r
  | Op_RemoveReaction m u e => messages_RemoveReaction m u e
  | Op_GetReactions m => messages_GetReactions m
  | Op_GetReactionsBatch ids => messages_GetReactionsBatch ids
  end.
End anywhere.

Section running.
Context {W : Type} `{UR : UserRepository (ST W), CR : ChatRepository (ST W), MR : MessageRepository (ST W)}.
Context `{TM : tokenManager (ST W), PH : passwordHasher (ST W), CK : Clock (ST W), US : UUIDSource (ST W)}.

Definition perform {B} (o : op B) : ST W B := perform_in o.

#[export] Instance performs_op : Performs op W := @perform.

(** The request of a call. *)
Definition request_of (c : api_call) : proc (res unit) :=
  serve (M := proc) proc_users (H7 := proc_hasher hasher_Check) c.

#[export] Instance serves_op : Server op := request_of.
End running.

(** ** A request on its own is the request of the sequential server *)
Section adequacy.
Context {W : Type} `{UR : UserRepository (ST W), CR : ChatRepository (ST W), MR : MessageRepository (ST W)}.
Context `{TM : tokenManager (ST W), PH : passwordHasher (ST W), CK : Clock (ST W), US : UUIDSource (ST W)}.

#[local] Instance here_hasher : passwordHasher proc := proc_hasher hasher_Check.

Lemma chat_agrees caller c : agrees (run_call caller c) (run_call caller c).
Proof using. destruct c; agree. Qed.

Lemma message_agrees caller c : agrees (run_message_call caller c) (run_message_call caller c).
Proof using. destruct c; agree. Qed.

Lemma user_agrees c : agrees (run_user_call c) (run_user_call c).
Proof using. destruct c; agree. Qed.

Lemma request_agrees c : agrees (request_of c) (serve UR c).
Proof using. destruct c; [apply chat_agrees|apply message_agrees|apply user_agrees]. Qed.
End adequacy.

(** ** How many operations a request takes *)

(** Enough operations for any call: eleven, and for a new group three and one for
    each of its members. *)
Definition budget (c : api_call) : nat :=
  match c with
  | ChatCall _ (CallCreateGroup i) => 2 + (length (cgi_MemberIDs i) + 1)
  | _ => 11
  end.

Section ends.
Context {W : Type} `{PH : passwordHasher (ST W)}.

Lemma request_ends c : takes (request_of c) (fun _ _ => True) (budget c).
Proof using.
  destruct c as [caller call|caller call|call]; destruct call; cbn [budget plus]; unfold request_of, serve,
    run_call, discard, CreateDirect, CreateGroup, GetChat, GetUserChats, GetMembers,
    UpdateGroup, AddMember, RemoveMember, ChangeMemberRole, LeaveChat,
    run_message_call, Send, Edit, Delete, MarkRead, GetHistory, AddReaction, RemoveReaction, assertMember,
    run_user_call, Register, Login, RefreshToken, GetProfile, UpdateProfile, Search, SetOnline,
    SetOffline, assertFree, claimUsername, issueTokens; count.
Qed.
End ends.

(** ** One request after the other

    The sequential server is one of the schedules: every request is given its turns
    before the next one arrives. *)
Fixpoint in_turn (k : nat) (cs : list api_call) : list event :=
  match cs with
  | [] => []
  | c :: rest => Arrives c :: replicate (budget c) (Turn k) ++ in_turn (S k) rest
  end.

Section sequential.
Context {W : Type} `{UR : UserRepository (ST W), CR : ChatRepository (ST W), MR : MessageRepository (ST W)}.
Context `{TM : tokenManager (ST W), PH : passwordHasher (ST W), CK : Clock (ST W), US : UUIDSource (ST W)}.

Lemma in_turn_serves cs k (st : requests op * W) :
  length st.1 = k -> (interleave (in_turn k cs) st).2 = (serve_all UR cs st.2).2.
Proof using.
  revert k st. induction cs as [|c cs IH]; intros k [ps w] Hk; [done|]. cbn [in_turn interleave server_step fst snd].
  rewrite interleave_app.
  rewrite (run_to_end k (request_of c) (budget c)); [|by subst; apply list_lookup_middle|apply request_ends].
  cbn [fst snd]. rewrite (IH (S k)).
  - cbn [snd]. rewrite request_agrees. done.
  - cbn [fst]. transitivity (length (ps ++ [request_of c])); [apply length_insert|]. rewrite length_app. cbn in *. lia.
Qed.
End sequential.
