(* ===== verification/Permanence.v ===== *)
(** * What no statement ever takes back

    No row of [chats] or [users] is removed, and no statement of either storage
    changes the type of a chat or the hash of an account; only [UPDATE users] of a
    profile sets an address.  A request that has seen that a chat is a group, or
    whose account it handles, may rely on it whatever other requests do meanwhile.
    [Permanent] states this of a state type; the tables of both storages satisfy
    it. *)
From S2P Require Import Prelude Domain Config ChatUsecase MessageUsecase UserUsecase Store Schema.
From S2P Require Import World Sql SqlWf SqlRules Postgres Mysql MysqlSpec Storage Jwt Requests Concurrent.
Open Scope Z_scope.

(** ** The interface *)

(** The operation sets the address of the account. *)
Definition sets_address {B} (o : op B) (id : uuid) (e : string) : Prop :=
  match o with Op_UserUpdate u => user_ID u = id /\ user_Email u = e | _ => False end.

Class Permanent {W : Type} (inv : W -> Prop) (view : W -> store)
    (kind : W -> uuid -> option ChatType) (account : W -> uuid -> option (string * string))
    (UR : UserRepository (ST W)) (CR : ChatRepository (ST W)) (MR : MessageRepository (ST W))
    (TM : tokenManager (ST W)) (PH : passwordHasher (ST W)) (CK : Clock (ST W)) (US : UUIDSource (ST W)) :
    Prop := {
  kind_live w c chat : st_chats (view w) !! c = Some chat -> kind w c = Some (chat_Type chat);
  kind_member w c u : inv w -> is_member (view w) c u -> is_Some (kind w c);
  kind_kept {B} (o : op B) w c k : kind w c = Some k -> kind (perform o w).2 c = Some k;
  kind_new {B} (o : op B) w c k : kind (perform o w).2 c = Some k ->
    kind w c = Some k \/ is_Some (st_chats (view (perform o w).2) !! c);
  account_live w id u : st_users (view w) !! id = Some u ->
    account w id = Some (user_Email u, user_PasswordHash u);
  account_kept {B} (o : op B) w id e h : account w id = Some (e, h) ->
    exists e', account (perform o w).2 id = Some (e', h) /\ (e' = e \/ sets_address o id e');
  account_gone {B} (o : op B) w id : is_Some (account w id) -> st_users (view w) !! id = None ->
    st_users (view (perform o w).2) !! id = None }.

(** ** What a statement may do to the two tables *)
Inductive chats_move (d d' : db) : Prop :=
| chats_same : t_chats d' = t_chats d -> chats_move d d'
| chats_row id r r' :
    t_chats d !! id = Some r -> cr_type r' = cr_type r -> t_chats d' = <[id := r']> (t_chats d) ->
    chats_move d d'
| chats_new id r' :
    t_chats d !! id = None -> chat_live r' = true -> t_chats d' = <[id := r']> (t_chats d) ->
    chats_move d d'.

Inductive users_move (set : uuid -> string -> Prop) (d d' : db) : Prop :=
| users_same : t_users d' = t_users d -> users_move set d d'
| users_row id r r' :
    t_users d !! id = Some r -> user_live r = true -> ur_password_hash r' = ur_password_hash r ->
    ur_email r' = ur_email r \/ set id (ur_email r') -> t_users d' = <[id := r']> (t_users d) ->
    users_move set d d'
| users_new id r' :
    t_users d !! id = None -> t_users d' = <[id := r']> (t_users d) -> users_move set d d'.

Definition rows_move (set : uuid -> string -> Prop) (d d' : db) : Prop :=
  chats_move d d' /\ users_move set d d'.

Definition moves {A} (set : uuid -> string -> Prop) (m : ST world A) : Prop :=
  forall w, rows_move set (w_db w) (w_db (m w).2).

Definition kind_of (w : world) (c : uuid) : option ChatType := cr_type <$> t_chats (w_db w) !! c.
Definition account_of (w : world) (id : uuid) : option (string * string) :=
  (fun r => (ur_email r, ur_password_hash r)) <$> t_users (w_db w) !! id.

Lemma chats_move_kept d d' c k :
  chats_move d d' -> cr_type <$> t_chats d !! c = Some k -> cr_type <$> t_chats d' !! c = Some k.
Proof.
  intros [->|id r r' Hr Ht ->|id r' Hr _ ->] Hk; [done|..]; rewrite lookup_insert; case_decide as E; try done.
  - subst. rewrite Hr in Hk. cbn in *. congruence.
  - subst. by rewrite Hr in Hk.
Qed.

Lemma chats_move_new d d' c k :
  chats_move d d' -> cr_type <$> t_chats d' !! c = Some k ->
  cr_type <$> t_chats d !! c = Some k \/ is_Some (live_chats (t_chats d') !! c).
Proof.
  intros [->|id r r' Hr Ht ->|id r' Hr Hl ->] Hk; [by left|..]; rewrite lookup_insert in Hk;
    case_decide as E; try by left.
  - subst. left. rewrite Hr. cbn in *. congruence.
  - subst. right. eexists. apply live_chats_Some. exists r'. by rewrite lookup_insert_eq.
Qed.

Lemma users_move_kept set w w' id e h :
  users_move set (w_db w) (w_db w') -> account_of w id = Some (e, h) ->
  exists e', account_of w' id = Some (e', h) /\ (e' = e \/ set id e').
Proof.
  unfold account_of. intros [->|k r r' Hr _ Hh He ->|k r' Hr ->] Hk; [by exists e; auto|..];
    rewrite lookup_insert; case_decide as E; try (by exists e; auto); subst; rewrite Hr in Hk; [|done].
  cbn in *. injection Hk as <- <-. exists (ur_email r'). by rewrite Hh.
Qed.

Lemma users_move_gone set d d' id :
  users_move set d d' -> is_Some (t_users d !! id) -> live_users (t_users d) !! id = None ->
  live_users (t_users d') !! id = None.
Proof.
  rewrite !live_users_None. intros [->|k r r' Hr Hl _ _ ->|k r' Hr ->] [x Hx] Hdead; [done|..];
    intros y [[-> <-]|[_ Hy]]%lookup_insert_Some; auto.
  - by rewrite (Hdead r Hr) in Hl.
  - congruence.
Qed.

(** ** Rules *)
Section rules.
Context `{Env}.

Lemma rows_same set d : rows_move set d d.
Proof using. by split; [apply chats_same|apply users_same]. Qed.

Lemma moves_same {A} set (m : ST world A) : (forall w, w_db (m w).2 = w_db w) -> moves set m.
Proof using. intros Hm w. rewrite Hm. apply rows_same. Qed.

Lemma moves_stmt {A B} set err (q : stmt A) (k : res A -> ST world B) :
  (forall now ch d a d', q now ch d = Ok (a, d') -> rows_move set d d') ->
  (forall r w, w_db (k r w).2 = w_db w) -> moves set (mbind k (run_stmt err q)).
Proof using.
  intros Hq Hk w. unfold mbind, ST_bind, run_stmt. rewrite Hk.
  destruct (q _ _ _) as [[a d']|v] eqn:E; [apply Hq in E|];
    destruct (env_fault _); cbn; done || apply rows_same.
Qed.

Lemma moves_query {D : Dialect} {A} set (q : stmt (list A)) :
  (forall now ch d a d', q now ch d = Ok (a, d') -> rows_move set d d') -> moves set (db_QueryRow q).
Proof using. intros Hq. unfold db_QueryRow, db_Query. by apply moves_stmt. Qed.

Lemma moves_row {D : Dialect} {A B} set (q : stmt (list A)) (k : res A -> ST world B) :
  (forall now ch d a d', q now ch d = Ok (a, d') -> rows_move set d d') ->
  (forall r w, w_db (k r w).2 = w_db w) -> moves set (mbind k (db_QueryRow q)).
Proof using. intros Hq Hk w. unfold mbind, ST_bind. rewrite Hk. by apply moves_query. Qed.

Lemma rewrite_chat set count id params f ok d a d' :
  update_counting count chat_live id (t_chats d) params f ok (fun r => set_chats <[id := r]> d) d = Ok (a, d') ->
  (forall r, cr_type (f r) = cr_type r) -> rows_move set d d'.
Proof using.
  intros [_ [(r & Hr & _ & _ & _ & ->)|(_ & -> & _)]]%update_counting_Ok Hf; [|apply rows_same].
  by split; [apply (chats_row _ _ id r (f r))|apply users_same].
Qed.

Lemma rewrite_user (set : uuid -> string -> Prop) count id params f ok d a d' :
  update_counting count user_live id (t_users d) params f ok (fun r => set_users <[id := r]> d) d = Ok (a, d') ->
  (forall r, ur_password_hash (f r) = ur_password_hash r) ->
  (forall r, ur_email (f r) = ur_email r \/ set id (ur_email (f r))) -> rows_move set d d'.
Proof using.
  intros [_ [(r & Hr & Hl & _ & _ & ->)|(_ & -> & _)]]%update_counting_Ok Hh He; [|apply rows_same].
  by split; [apply chats_same|apply (users_row _ _ _ id r (f r))].
Qed.

Lemma insert_user set checks id key rest r d n d' :
  checked (checks ++ [(bool_decide (t_users d !! id = None), key)] ++ rest) 1 (set_users <[id := r]> d) = Ok (n, d') ->
  rows_move set d d'.
Proof using.
  intros [Hh [_ ->]]%checked_Ok. rewrite !holds_app, holds_cons in Hh. destruct Hh as (_ & [Hnew _] & _).
  cbn in Hnew. bool_prop. by split; [apply chats_same|apply (users_new _ _ _ id r)].
Qed.

Lemma insert_chat checks id key r d n d' :
  checked (checks ++ [(bool_decide (t_chats d !! id = None), key)]) 1 (set_chats <[id := r]> d) = Ok (n, d') ->
  chat_live r = true ->
  t_chats d !! id = None /\ exists r, chat_live r = true /\ d' = set_chats <[id := r]> d.
Proof using. intros [[_ Hnew]%holds_pkey [_ ->]]%checked_Ok Hl. bool_prop. by split; [|exists r]. Qed.

Lemma insert_member l k m d n d' :
  checked l 1 (set_members <[k := m]> d) = Ok (n, d') -> t_chats d' = t_chats d /\ t_users d' = t_users d.
Proof using. by intros [_ [_ ->]]%checked_Ok. Qed.

Lemma tx_for_each_rows {D : Dialect} (q : ChatMember -> stmt Z) ms tx w :
  (forall m now ch d n d', q m now ch d = Ok (n, d') -> t_chats d' = t_chats d /\ t_users d' = t_users d) ->
  wp (tx_for_each q ms tx) (fun r w' => w_db w' = w_db w /\
    match r with Ok tx' => t_chats tx' = t_chats tx /\ t_users tx' = t_users tx | Err _ => True end) w.
Proof using.
  intros Hq. revert tx w. induction ms as [|m ms IH]; intros tx w; cbn [tx_for_each]; [by apply wp_ret|].
  apply wp_try. unfold wp at 1, tx_exec. destruct (env_fault _); cbn; [|done..].
  destruct (q m _ _ _) as [[n tx']|v] eqn:E; cbn; [|done]. apply Hq in E as [E1 E2].
  eapply wp_mono; [apply IH|]. intros [tx2|e] w2 [Hw2 Hr2]; (split; [done|]); [|done].
  by rewrite <- E1, <- E2.
Qed.

Lemma moves_create {D : Dialect} set id (qc : stmt Z) (qm : ChatMember -> stmt Z) ms :
  (forall now ch d n d', qc now ch d = Ok (n, d') -> t_chats d !! id = None /\
     exists r, chat_live r = true /\ d' = set_chats <[id := r]> d) ->
  (forall m now ch d n d', qm m now ch d = Ok (n, d') -> t_chats d' = t_chats d /\ t_users d' = t_users d) ->
  moves set (let? tx := tx_begin in let? r := tx_exec driver_error qc tx in
             let? tx := tx_for_each qm ms r.2 in tx_commit tx).
Proof using.
  intros Hqc Hqm w. enough (forall m, m = (let? tx := tx_begin in let? r := tx_exec driver_error qc tx in
    let? tx := tx_for_each qm ms r.2 in tx_commit tx) -> wp m (fun _ w' => rows_move set (w_db w) (w_db w')) w)
    as Hm by by apply Hm.
  intros m ->. apply wp_try. unfold wp at 1, tx_begin.
  destruct (env_fault _); cbn [fst snd]; [|apply rows_same..]. apply wp_try. unfold wp at 1, tx_exec.
  destruct (env_fault _); cbn [fst snd]; [|apply rows_same..].
  destruct (qc _ _ _) as [[n tx]|v] eqn:E; cbn [fst snd]; [|apply rows_same].
  apply Hqc in E as (Hnone & r & Hl & ->). apply wp_try. eapply wp_mono; [by apply tx_for_each_rows|].
  intros [tx2|e] w1 [Hw1 Htx]; [|cbn; rewrite Hw1; apply rows_same]. destruct Htx as [Hc Hu].
  assert (rows_move set (w_db w) tx2) by by split; [apply (chats_new _ _ id r)|apply users_same].
  unfold wp, tx_commit. destruct (env_fault _); cbn [fst snd w_db next put_db]; [done| |done].
  rewrite Hw1. apply rows_same.
Qed.
End rules.

(** ** Both storages *)

(** A statement on other tables. *)
Ltac quiet_stmt :=
  let E := fresh "E" in
  intros ? ? ? ? ? E; revert E;
  repeat match goal with |- ?q _ _ _ = _ -> _ => let h := head_of q in progress unfold h end;
  unfold checked; cbn [violated]; repeat case_match; intros; simplify_eq/=;
  by split; [apply chats_same|apply users_same].

(** A statement on [users] or [chats]. *)
Ltac table_stmt :=
  intros;
  match goal with H : ?q _ _ _ = Ok _ |- _ => let h := head_of q in unfold h, update_live in H end;
  first [by eapply insert_user|by eapply rewrite_chat|eapply rewrite_user; [eassumption|done|by intros; cbn; auto]].

(** The rest of a method does not touch the world. *)
Ltac pure_rest := let w := fresh "w" in intros ? w; unfold affected; cbn; repeat case_match; done.

Ltac moves_op :=
  first
    [ apply moves_same; intros ?; reflexivity
    | match goal with |- moves _ ?m => let h := head_of m in unfold h end;
      unfold user_scanOne, my_scanOne, db_Query, db_Exec, try;
      first [apply moves_row|apply moves_stmt|apply moves_query]; [first [table_stmt|quiet_stmt]|pure_rest] ].

Section storages.
Context `{E : Env, C : Collation, U : UnicodeCI}.
Context `{J : GoJWT, UT : UUIDText, BC : Bcrypt} (cfg : jwt_Config) (cost : Z).
#[local] Instance kept_tokens : tokenManager (ST world) := JWTManager cfg.
#[local] Instance kept_hasher : passwordHasher (ST world) := Hasher cost.

Lemma storage_moves t {B} (o : op B) :
  moves (sets_address o)
    (perform (UR := Users (storage_of t)) (CR := Chats (storage_of t)) (MR := Messages (storage_of t)) o).
Proof using.
  destruct t, o; cbn; try moves_op.
  - apply (moves_create _ (chat_ID c)); intros; [by eapply insert_chat|by eapply insert_member].
  - destruct ids; [by apply moves_same|]. apply moves_stmt; [quiet_stmt|pure_rest].
  - apply (moves_create _ (chat_ID c)); intros; [by eapply insert_chat|by eapply insert_member].
  - destruct ids; [by apply moves_same|]. apply moves_stmt; [quiet_stmt|pure_rest].
Qed.

Context {UL : UnicodeCILaws U} (t : Driver).

#[export] Instance storage_permanent :
  Permanent (over_db (@db_wf (dialect t))) view kind_of account_of
    (Users (storage_of t)) (Chats (storage_of t)) (Messages (storage_of t))
    kept_tokens kept_hasher world_clock world_uuid.
Proof using UL.
  split.
  - intros w c chat (r & Hr & _ & ->)%live_chats_Some. unfold kind_of. by rewrite Hr.
  - intros w c u Hw [m Hm]. destruct (wf_member (H := dialect t) _ Hw _ _ Hm) as [_ Hfk].
    apply law_member_chat in Hfk as [r Hr]. unfold kind_of. cbn in Hr. rewrite Hr. by eexists.
  - intros B o w c k. apply chats_move_kept, storage_moves.
  - intros B o w c k. apply chats_move_new, storage_moves.
  - intros w id u (r & Hr & _ & ->)%live_users_Some. unfold account_of. by rewrite Hr.
  - intros B o w id e h. apply users_move_kept, storage_moves.
  - intros B o w id Ha. eapply users_move_gone; [apply storage_moves|]. unfold account_of in Ha.
    by rewrite fmap_is_Some in Ha.
Qed.
End storages.
