(* ===== verification/Interleaving.v ===== *)
(** * Requests side by side, safely

    Rely and guarantee for the requests of [Concurrent].  [later] is what a request
    may rely on between two of its operations; [allowed] is what its next operation
    guarantees to the others; [guards] runs a request against any interference.
    Every request of the application keeps its guarantee, so that any
    interleaving of any requests moves the store by granted writes only. *)
From S2P Require Import Prelude Utf8 Domain ChatUsecase MessageUsecase UserUsecase Store.
From S2P Require Import ChatContract ChatRefinement MessageRefinement UserRefinement System.
From S2P Require Import Writes Requests Rely Concurrent Permanence.
Open Scope Z_scope.

Section guards.
Context {W : Type} (inv : W -> Prop) (view : W -> store).
Context (kind : W -> uuid -> option ChatType) (account : W -> uuid -> option (string * string)).
Context `{UR : UserRepository (ST W), CR : ChatRepository (ST W), MR : MessageRepository (ST W)}.
Context `{TM : tokenManager (ST W), PH : passwordHasher (ST W), CK : Clock (ST W), US : UUIDSource (ST W)}.
Context `{PR : Precision, TE : TextEq, LA : Latitude, LO : Loss} {HE : EnvSpec inv view}.
Context {HU : UserRepositorySpec inv view UR} {HC : ChatRepositorySpec inv view CR}.
Context {HM : MessageRepositorySpec inv view MR} {HT : TokenSpec inv view TM PH}.
Context {HP : Permanent inv view kind account UR CR MR TM PH CK US}.

(** ** Rely *)

(** The chat is, or was, a direct one. *)
Definition was_direct (w : W) (c : uuid) : Prop := kind w c = Some ChatTypeDirect.

(** The invariant all requests keep together. *)
Definition sound (w : W) : Prop := inv w /\ forall c, was_direct w c -> pair_in (view w) c.

Record later (w w' : W) : Prop := {
  later_kind c k : kind w c = Some k -> kind w' c = Some k;
  later_account id a : account w id = Some a -> account w' id = Some a;
  later_message id m : st_messages (view w) !! id = Some m ->
    exists m', st_messages (view w') !! id = Some m' /\ same_identity m m';
  later_gone id : is_Some (account w id) -> st_users (view w) !! id = None -> st_users (view w') !! id = None }.

#[export] Instance later_preorder : PreOrder later.
Proof using.
  split.
  - intros w. split; [done..| |done]. intros id m Hm. exists m. auto with vibe.
  - intros w1 w2 w3 [K1 A1 M1 G1] [K2 A2 M2 G2]. split; [by eauto..| |].
    + intros id m (m' & (m2 & ? & Hs2)%M2 & Hs1)%M1. exists m2. split; [done|].
      unfold same_identity in *. intuition congruence.
    + intros id [a Ha] Hn. apply G2; [exists a; auto|]. apply G1; [by exists a|done].
Qed.

(** What is known of a message once it was read. *)
Definition knows_message (w : W) (id : uuid) (m : Message) : Prop :=
  exists m', st_messages (view w) !! id = Some m' /\ same_identity m m'.

(** ** Guarantee *)
Definition knows_group (w : W) (c : uuid) : Prop := exists k, kind w c = Some k /\ k <> ChatTypeDirect.
Definition authored (w : W) (id v : uuid) : Prop :=
  exists m, knows_message w id m /\ msg_SenderID m = v.
Definition reply_in_chat (w : W) (i : SendInput) : Prop :=
  forall r, si_ReplyToID i = Some r -> exists m, knows_message w r m /\ msg_ChatID m = si_ChatID i.

Definition allowed {B} (c : api_call) (w : W) (o : op B) : Prop :=
  match o with
  | Op_UserCreate u => exists i id hash now,
      c = UserCall (CallRegister i) /\ RegisterInput_Validate i = None /\ u = registered id i hash now
  | Op_UserDelete id => exists i h, c = UserCall (CallRegister i) /\ account w id = Some (reg_Email i, h)
  | Op_UserUpdate u => exists i h, c = UserCall (CallUpdateProfile (user_ID u) i) /\
      UpdateProfileInput_Validate i = None /\ takes_profile i u /\ account w (user_ID u) = Some (user_Email u, h)
  | Op_UserUpdateStatus id s t =>
      (c = UserCall (CallSetOnline id) /\ s = UserStatusOnline) \/
      (c = UserCall (CallSetOffline id) /\ s = UserStatusOffline)
  | Op_ChatCreate ch ms =>
      (exists v i id now, c = ChatCall v (CallCreateDirect i) /\ cdi_TargetUserID i <> v /\
         ch = direct_chat id v now /\ ms = direct_members id v (cdi_TargetUserID i) now) \/
      (exists v i id now, c = ChatCall v (CallCreateGroup i) /\ CreateGroupInput_Validate i = None /\
         ch = group_chat id v i now /\ ms = group_members id v now (cgi_MemberIDs i))
  | Op_ChatUpdate ch => exists v i, c = ChatCall v (CallUpdateGroup (chat_ID ch) i) /\
      UpdateGroupInput_Validate i = None /\ takes_update i ch /\ knows_group w (chat_ID ch)
  | Op_ChatDelete id => exists v, c = ChatCall v (CallLeaveChat id) /\ knows_group w id
  | Op_AddMember m => exists v id i now, c = ChatCall v (CallAddMember id i) /\
      m = mkChatMember id (ami_UserID i) MemberRoleMember now None /\ knows_group w id
  | Op_RemoveMember id u => exists v, (c = ChatCall v (CallRemoveMember id u) \/
      (c = ChatCall v (CallLeaveChat id) /\ u = v)) /\ knows_group w id
  | Op_UpdateMemberRole id u r => exists v,
      ((exists i, c = ChatCall v (CallChangeMemberRole id i) /\ u = cmri_UserID i /\ u <> v /\
          r ∈ [MemberRoleAdmin; MemberRoleMember]) \/
       (c = ChatCall v (CallLeaveChat id) /\ u <> v /\ r = MemberRoleOwner)) /\ knows_group w id
  | Op_MessageCreate m => exists v i id now, c = MessageCall v (CallSend i) /\ SendInput_Validate i = None /\
      m = sent id v i now /\ reply_in_chat w i
  | Op_MessageUpdate m => exists v i now, c = MessageCall v (CallEdit (msg_ID m) i) /\
      EditInput_Validate i = None /\ msg_Content m = ei_Content i /\ msg_EditedAt m = Some now /\
      msg_UpdatedAt m = now /\ authored w (msg_ID m) v
  | Op_MessageDelete id => exists v, c = MessageCall v (CallDelete id) /\ authored w id v
  | Op_MarkRead ch u => c = MessageCall u (CallMarkRead ch)
  | Op_AddReaction r => exists i, c = MessageCall (rx_UserID r) (CallAddReaction (rx_MessageID r) i) /\
      exists m, knows_message w (rx_MessageID r) m
  | Op_RemoveReaction m u e => exists i, c = MessageCall u (CallRemoveReaction m i)
  | _ => True
  end.

(** A statement whose effect is granted. *)
Lemma honours_granted {A} (m : ST W (res A)) post fail (G : store -> store -> Prop) w :
  honours inv view m post fail -> inv w -> (forall d, G d d) ->
  (forall a d', post (view w) a d' -> G (view w) d') ->
  inv (m w).2 /\ G (view w) (view (m w).2).
Proof using.
  intros Hm Hw Hsame HG. destruct (Hm w Hw) as [Hi Ha]. split; [done|].
  destruct (m w) as [[a|e] w']; cbn in *; [by eapply HG|].
  destruct Ha as [[_ ->]|[_ [->|(_ & a & Ha)]]]; [apply Hsame..|by eapply HG].
Qed.

Lemma reads_same {A} (m : ST W (res A)) Q fail w :
  reads inv view m Q fail -> inv w -> inv (m w).2 /\ view (m w).2 = view w.
Proof using.
  intros Hm Hw. apply (honours_granted m _ _ (fun d d' => d' = d) w Hm); [done..|]. by intros a d' [-> _].
Qed.

Lemma knows_not_direct w c : knows_group w c -> ~ was_direct w c.
Proof using. unfold was_direct. intros (k & Hk & Hne) Hd. congruence. Qed.

Abbreviation ok_after o w c := (inv (perform o w).2 /\ granted (was_direct w) c (view w) (view (perform o w).2)).

Ltac quiet spec := destruct (reads_same _ _ _ _ spec ltac:(eassumption)) as [? E]; split; [done|];
  cbn; rewrite E; apply granted_nothing.
Ltac env spec := destruct spec as [? E]; split; [done|]; cbn; rewrite E; apply granted_nothing.

Lemma read_granted {B} (o : op B) c w :
  inv w ->
  match o with
  | Op_UserCreate _ | Op_UserUpdate _ | Op_UserUpdateStatus _ _ _ | Op_UserDelete _ | Op_ChatCreate _ _
  | Op_ChatUpdate _ | Op_ChatDelete _ | Op_AddMember _ | Op_RemoveMember _ _ | Op_UpdateMemberRole _ _ _
  | Op_MessageCreate _ | Op_MessageUpdate _ | Op_MessageDelete _ | Op_MarkRead _ _ | Op_AddReaction _
  | Op_RemoveReaction _ _ _ => True
  | _ => ok_after o w c
  end.
Proof using HE HU HC HM HT.
  intros Hw. destruct o; try done.
  - env (spec_now w Hw).
  - env (spec_uuid w Hw).
  - env (spec_access id w Hw).
  - env (spec_refresh id w Hw).
  - env (spec_validate token w Hw).
  - env (spec_hash password w Hw).
  - quiet (spec_UserGetByID id).
  - quiet (spec_UserGetByEmail email).
  - quiet (spec_UserGetByUsername name).
  - quiet (spec_UserSearch q limit offset).
  - quiet (spec_GetByID id).
  - quiet (spec_GetMember c0 u).
  - quiet (spec_GetMembers c0).
  - quiet (spec_GetUserChats u).
  - quiet (spec_GetDirectChat a b).
  - quiet (spec_IsMember c0 u).
  - quiet (spec_MessageGetByID id).
  - quiet (spec_GetChatMessages c0 cursor limit).
  - quiet (spec_GetUnreadCount c0 u).
  - quiet (spec_GetReactions m).
  - quiet (spec_GetReactionsBatch ids).
Qed.

Lemma user_write_granted {B} (o : op B) c w :
  inv w -> allowed c w o ->
  match o with
  | Op_UserCreate _ | Op_UserUpdate _ | Op_UserUpdateStatus _ _ _ | Op_UserDelete _ => ok_after o w c
  | _ => True
  end.
Proof using HU HP.
  intros Hw Ha. destruct o; try done; cbn in Ha.
  - destruct Ha as (i & id & hash & now & -> & Hv & ->).
    eapply honours_granted; [apply (spec_UserCreate (UR := UR))|done|intros; apply granted_nothing|].
    intros _ d' (Hf & He & Hn & ->). eapply granted_user; [done|]. by apply (write_account _ _ i id hash).
  - destruct Ha as (i & h & -> & Hv & Ht & Hacc).
    eapply honours_granted; [apply (spec_UserUpdate (UR := UR))|done|intros; apply granted_nothing|].
    intros _ d' (_ & _ & Hn & ->). eapply granted_user; [done|].
    apply (write_profile _ _ (user_ID u) i (stamp_user u)); [done..| |done].
    intros old Hold%account_live. cbn. congruence.
  - eapply honours_granted; [apply (spec_UserUpdateStatus (UR := UR))|done|intros; apply granted_nothing|].
    intros _ d' [now ->]. destruct Ha as [[-> ->]|[-> ->]]; (eapply granted_user; [done|]); apply write_presence; auto.
  - destruct Ha as (i & h & -> & Hacc).
    eapply honours_granted; [apply (spec_UserDelete (UR := UR))|done|intros; apply granted_nothing|].
    intros _ d' ->. eapply granted_user; [done|]. eapply write_withdrawal; [done|].
    intros u Hu%account_live. congruence.
Qed.

Lemma chat_write_granted {B} (o : op B) c w :
  inv w -> allowed c w o ->
  match o with
  | Op_ChatCreate _ _ | Op_ChatUpdate _ | Op_ChatDelete _ | Op_AddMember _ | Op_RemoveMember _ _
  | Op_UpdateMemberRole _ _ _ => ok_after o w c
  | _ => True
  end.
Proof using HC.
  intros Hw Ha. destruct o; try done; cbn in Ha.
  - destruct Ha as [(v & i & id & now & -> & Hne & -> & ->)|(v & i & id & now & -> & Hv & -> & ->)].
    + eapply honours_granted; [apply (spec_CreateWithMembers (CR := CR)); eauto with vibe|done
        |intros; apply granted_nothing|].
      intros _ d' [Hf ->]. eapply granted_chat; [done|]. by apply (write_direct _ _ _ _ i id (stamp now)).
    + eapply honours_granted; [apply (spec_CreateWithMembers (CR := CR)); eauto with vibe|done
        |intros; apply granted_nothing|].
      intros _ d' [Hf ->]. eapply granted_chat; [done|]. rewrite stamp_group_members.
      by apply (write_group _ _ _ _ i id (stamp now)).
  - destruct Ha as (v & i & -> & Hv & Ht & Hg).
    eapply honours_granted; [apply (spec_Update (CR := CR))|done|intros; apply granted_nothing|].
    intros _ d' [_ ->]. eapply granted_chat; [done|].
    apply (write_update _ _ _ _ _ i (stamp_chat c0)); [done..|by apply knows_not_direct].
  - destruct Ha as (v & -> & Hg).
    eapply honours_granted; [apply (spec_Delete (CR := CR))|done|intros; apply granted_nothing|].
    intros _ d' ->. eapply granted_chat; [done|]. by apply write_close; [|apply knows_not_direct].
  - destruct Ha as (v & id & i & now & -> & -> & Hg).
    eapply honours_granted; [apply (spec_AddMember (CR := CR)), member_role_known|done|intros; apply granted_nothing|].
    intros _ d' [Hn ->]. eapply granted_chat; [done|].
    by apply (write_member _ _ _ _ id i (stamp now)); [|apply knows_not_direct|].
  - destruct Ha as (v & Hcall & Hg).
    eapply honours_granted; [apply (spec_RemoveMember (CR := CR))|done|intros; apply granted_nothing|].
    intros _ d' [_ ->]. destruct Hcall as [->|[-> ->]]; (eapply granted_chat; [done|]);
      apply write_removal; auto using knows_not_direct.
  - destruct Ha as (v & Hcall & Hg).
    eapply honours_granted; [apply (spec_UpdateMemberRole (CR := CR))|done|intros; apply granted_nothing|].
    intros _ d' [_ ->]. destruct Hcall as [(i & -> & -> & Hu & Hr)|(-> & Hu & ->)];
      (eapply granted_chat; [done|]); apply write_role; eauto 10 using knows_not_direct.
Qed.

Lemma message_write_granted {B} (o : op B) c w :
  inv w -> allowed c w o ->
  match o with
  | Op_MessageCreate _ | Op_MessageUpdate _ | Op_MessageDelete _ | Op_MarkRead _ _ | Op_AddReaction _
  | Op_RemoveReaction _ _ _ => ok_after o w c
  | _ => True
  end.
Proof using HM.
  intros Hw Ha. destruct o; try done; cbn in Ha.
  - destruct Ha as (v & i & id & now & -> & Hv & -> & Hr).
    eapply honours_granted; [apply (spec_MessageCreate (MR := MR))|done|intros; apply granted_nothing|].
    intros _ d' [Hf ->]. eapply granted_message; [done|]. apply (write_send _ _ id i (stamp now)); [done| |done].
    intros r Hre. destruct (Hr r Hre) as (m & (m' & Hm' & Hid) & Hc). exists m'. split; [done|].
    destruct Hid as (_ & -> & _). done.
  - destruct Ha as (v & i & now & -> & Hv & Hc & He & Hu & a & (a' & Hm & Hid) & Hs).
    eapply honours_granted; [apply (spec_MessageUpdate (MR := MR))|done|intros; apply granted_nothing|].
    intros _ d' [[old [Hold Hl]] ->]. eapply granted_message; [done|].
    replace (update_message m (view w)) with
      (with_messages (alter (edit_text (ei_Content i) (stamp now)) (msg_ID m)) (view w))
      by (unfold update_message, patch_message, edit_text; by rewrite Hc, He, Hu).
    apply (write_edit _ _ _ old); [done|done|]. destruct Hid as (_ & _ & ? & _). congruence.
  - destruct Ha as (v & -> & a & (a' & Hm & Hid) & Hs).
    eapply honours_granted; [apply (spec_MessageDelete (MR := MR))|done|intros; apply granted_nothing|].
    intros _ d' [[old [Hold Hl]] [now ->]]. eapply granted_message; [done|].
    apply (write_delete _ _ _ old); [done|]. destruct Hid as (_ & _ & ? & _). congruence.
  - subst. eapply honours_granted; [apply (spec_MarkRead (MR := MR))|done|intros; apply granted_nothing|].
    intros _ d' [now ->]. eapply granted_message; [done|]. apply write_read.
  - destruct Ha as (i & -> & a & a' & Hm & _).
    eapply honours_granted; [apply (spec_AddReaction (MR := MR))|done|intros; apply granted_nothing|].
    intros ? d2 Hadd. eapply granted_message; [done|]. exact (write_react _ _ _ _ _ _ (mk_is_Some _ _ Hm) Hadd).
  - destruct Ha as (i & ->).
    eapply honours_granted; [apply (spec_RemoveReaction (MR := MR))|done|intros; apply granted_nothing|].
    intros _ d' ->. eapply granted_message; [done|]. apply write_unreact.
Qed.

Lemma perform_granted {B} (o : op B) c w : inv w -> allowed c w o -> ok_after o w c.
Proof using All.
  intros Hw Ha. pose proof (read_granted o c w Hw) as Hr. pose proof (user_write_granted o c w Hw Ha) as Hu.
  pose proof (chat_write_granted o c w Hw Ha) as Hc. pose proof (message_write_granted o c w Hw Ha) as Hm.
  destruct o; done.
Qed.

(** ** What an operation leaves behind *)

Lemma account_later {B} (o : op B) c w id a :
  allowed c w o -> account w id = Some a -> account (perform o w).2 id = Some a.
Proof using HP.
  intros Ha Hk. destruct a as [e h]. destruct (account_kept o w id e h Hk) as (e' & Hk' & [->|Hset]); [done|].
  destruct o; try done; cbn in Ha, Hset. destruct Hset as [<- <-]. destruct Ha as (i & h' & _ & _ & _ & Hu).
  rewrite Hk in Hu. injection Hu as -> _. exact Hk'.
Qed.

Lemma perform_later {B} (o : op B) c w : inv w -> allowed c w o -> later w (perform o w).2.
Proof using All.
  intros Hw Ha. split.
  - intros ch k. apply kind_kept.
  - intros id a. by apply (account_later o c).
  - intros id m Hm. destruct (perform_granted o c w Hw Ha) as [_ Hg].
    destruct (granted_message_kept _ _ _ _ id m Hg Hm) as (m' & Hm' & Hs & _). by exists m'.
  - intros id. apply account_gone.
Qed.

Lemma pair_in_roles d d' c :
  (forall u, is_member d c u -> forall v, role_of d' c v = role_of d c v) -> pair_in d c -> pair_in d' c.
Proof using.
  intros Hrole (a & b & Hab & Hr). exists a, b. split; [done|]. intros v. rewrite <- Hr.
  apply (Hrole a). apply is_member_role. exists MemberRoleMember. rewrite Hr. by rewrite decide_True by auto.
Qed.

Lemma perform_sound {B} (o : op B) c w : sound w -> allowed c w o -> sound (perform o w).2.
Proof using All.
  intros [Hw Hd] Ha. destruct (perform_granted o c w Hw Ha) as [Hw' Hg]. split; [done|]. intros ch Hk.
  assert (was_direct w ch -> pair_in (view (perform o w).2) ch) as Hold.
  { intros Hch. eapply pair_in_roles; [|by apply Hd]. intros u Hu. by eapply granted_direct. }
  destruct (kind_new o w ch _ Hk) as [|[chat Hchat]]; [by apply Hold|].
  destruct (st_chats (view w) !! ch) as [chat0|] eqn:Hch.
  - apply Hold. unfold was_direct in *. apply kind_live in Hch as Hk0. rewrite Hk0.
    apply (kind_kept o) in Hk0. congruence.
  - eapply granted_new; [done..|]. apply kind_live in Hchat. unfold was_direct in Hk. congruence.
Qed.

(** What a request learns from an answer, and may rely on from then on. *)
Definition learns {B} (o : op B) : B -> W -> Prop :=
  match o in op B return B -> W -> Prop with
  | Op_UserGetByID id => fun r w => forall u, r = Ok u ->
      user_ID u = id /\ exists h, account w id = Some (user_Email u, h)
  | Op_UserCreate u => fun r w => forall x, r = Ok x -> account w (user_ID u) = Some (user_Email u, user_PasswordHash u)
  | Op_ChatCreate ch _ => fun r w => forall x, r = Ok x -> kind w (chat_ID ch) = Some (chat_Type ch)
  | Op_ChatGetByID id => fun r w => forall ch, r = Ok ch -> chat_ID ch = id /\ kind w id = Some (chat_Type ch)
  | Op_GetMember c u => fun r w => forall m, r = Ok m -> cm_Role m = MemberRoleOwner -> knows_group w c
  | Op_MessageGetByID id => fun r w => forall m, r = Ok m -> msg_ID m = id /\ knows_message w id m
  | _ => fun _ _ => True
  end.

Lemma owner_group w c u : sound w -> role_of (view w) c u = Some MemberRoleOwner -> knows_group w c.
Proof using HP.
  intros [Hw Hd] Hr. destruct (kind_member w c u Hw) as [k Hk]; [by eapply role_of_is_member|].
  exists k. split; [done|]. intros ->. destruct (Hd c Hk) as (a & b & _ & Hab). rewrite Hab in Hr. by case_decide.
Qed.

Lemma reads_answer {A} (m : ST W (res A)) Q fail w a :
  reads inv view m Q fail -> inv w -> (m w).1 = Ok a -> Q (view (m w).2) a.
Proof using.
  intros Hm Hw Ha. destruct (Hm w Hw) as [_ Hans]. rewrite Ha in Hans. destruct Hans as [E HQ]. by rewrite E.
Qed.

Lemma allowed_members c w ch ms :
  allowed c w (Op_ChatCreate ch ms) -> Forall (fun m => cm_ChatID m = chat_ID ch) ms /\ NoDup (cm_UserID <$> ms).
Proof using.
  intros [(v & i & id & now & -> & Hne & -> & ->)|(v & i & id & now & -> & Hv & -> & ->)]; split; eauto with vibe.
Qed.

Lemma perform_learns {B} (o : op B) c w :
  sound w -> allowed c w o -> learns o (perform o w).1 (perform o w).2.
Proof using All.
  intros Hs Ha. pose proof Hs as [Hw _]. pose proof (perform_sound o c w Hs Ha) as Hs'.
  destruct o; cbn [learns]; try done.
  - intros x Hr. destruct (spec_UserCreate u w Hw) as [_ Hans]. cbn in *. rewrite Hr in Hans.
    destruct Hans as (_ & _ & _ & E). apply (account_live _ _ (stamp_user u)). rewrite E. apply lookup_insert_eq.
  - intros u Hr. apply (reads_answer _ _ _ _ _ (spec_UserGetByID id) Hw) in Hr as [Hid (u' & Hu' & Hpub)].
    split; [done|]. exists (user_PasswordHash u'). apply account_live in Hu'. etransitivity; [exact Hu'|]. do 2 f_equal.
    injection Hpub. congruence.
  - intros x Hr. apply allowed_members in Ha as [Hall Hnd].
    destruct (spec_CreateWithMembers c0 ms Hall Hnd w Hw) as [_ Hans]. cbn in *. rewrite Hr in Hans.
    destruct Hans as (_ & E). apply (kind_live _ _ (stamp_chat c0)). rewrite E. apply lookup_insert_eq.
  - intros ch Hr. apply (reads_answer _ _ _ _ _ (spec_GetByID id) Hw) in Hr as [Hch Hid].
    split; [done|]. by apply kind_live.
  - intros m Hr Hrole. apply (reads_answer _ _ _ _ _ (spec_GetMember c0 u) Hw) in Hr as (_ & _ & Hrole').
    eapply (owner_group _ _ u); [done|]. etransitivity; [exact Hrole'|]. by rewrite Hrole.
  - intros m Hr. apply (reads_answer _ _ _ _ _ (spec_MessageGetByID id) Hw) in Hr as [? ?].
    split; [done|]. exists m. auto with vibe.
Qed.

(** ** The requests of the application *)
Abbreviation guards := (Rely.guards later sound (@allowed) (@learns)).

Lemma knows_later w w' id m : later w w' -> knows_message w id m -> knows_message w' id m.
Proof using.
  intros [_ _ Hm _] (m1 & (m2 & ? & Hs2)%Hm & Hs1). exists m2. split; [done|].
  unfold same_identity in *. intuition congruence.
Qed.

Lemma group_later w w' c : later w w' -> knows_group w c -> knows_group w' c.
Proof using. intros Hl (k & ? & ?). exists k. split; [by eapply later_kind|done]. Qed.

Lemma not_direct_group w ch : IsDirect ch = false -> kind w (chat_ID ch) = Some (chat_Type ch) -> knows_group w (chat_ID ch).
Proof using. unfold IsDirect. intros Hd Hk. bool_prop. by exists (chat_Type ch). Qed.

(** Bring what is known to the present. *)
Ltac carry Hl :=
  match type of Hl with later ?w ?w' =>
    repeat match goal with
    | H : kind w _ = Some _ |- _ => apply (later_kind _ _ Hl) in H
    | H : account w _ = Some _ |- _ => apply (later_account _ _ Hl) in H
    | H : knows_group w _ |- _ => apply (group_later _ _ _ Hl) in H
    | H : ?P -> knows_group w ?c |- _ =>
      let H' := fresh in assert (P -> knows_group w' c) as H' by (intros ?; apply (group_later w); auto); clear H
    | H : knows_message w _ _ |- _ => apply (knows_later _ _ _ _ Hl) in H
    end
  end.

Ltac operation :=
  refine (guards_op later sound (@allowed) (@learns) _ (_ : op _) _ _ _ _);
  [ let Hl := fresh "Hl" in intros ? Hl _; carry Hl; clear Hl; try exact I
  | let Hl := fresh "Hl" in let Hk := fresh "Hk" in
    intros ? ? Hl _ Hk; carry Hl; clear Hl; cbn [learns] in Hk; cbv beta ].

Ltac walk :=
  cbv zeta;
  repeat match goal with
  | |- True => exact I
  | H : forall _, Ok _ = Ok _ -> _ |- _ => specialize (H _ eq_refl)
  | H : forall _, Err _ = Ok _ -> _ |- _ => clear H
  | H : _ /\ _ |- _ => destruct H
  | H : exists _, account _ _ = Some _ |- _ => destruct H
  | |- guards _ (mret _) _ _ => apply guards_ret
  | |- guards _ (try (check_err _) _) _ _ => apply guards_check; [intros ?; exact I|intros ?]
  | |- guards _ (try _ _) _ _ => apply guards_try
  | |- guards _ (mbind _ _) _ _ => apply guards_bind
  | |- guards _ (match ?x with _ => _ end) _ _ => let E := fresh "E" in destruct x eqn:E
  | |- match ?x with Ok _ => _ | Err _ => _ end => destruct x
  | |- guards _ (for_each _ _) _ _ =>
    apply (guards_for_each _ _ _ _ _ _ _ (fun _ => True)); [exact I|intros ? ? _ _|intros ? ? _]
  | |- guards _ _ _ _ => operation
  end.

#[local] Instance proc_checks : passwordHasher proc := proc_hasher hasher_Check.

Lemma chat_guards caller call w :
  guards (ChatCall caller call) (run_call (M := proc) caller call) (fun _ _ => True) w.
Proof using All.
  destruct call; unfold run_call, discard, CreateDirect, CreateGroup, GetChat, GetUserChats, GetMembers,
    UpdateGroup, AddMember, RemoveMember, ChangeMemberRole, LeaveChat, assertMember;
    walk; bool_prop; destruct_and?; subst.
  all: repeat match goal with H : kind _ _ = Some _, Hd : IsDirect _ = false |- _ =>
         apply (not_direct_group _ _ Hd) in H end.
  - left. by exists caller, i, b1, b0.
  - right. by exists caller, i, b0, b.
  - exists caller, i. split_and!; [done|done| |done]. unfold apply_update. repeat split; cbn; by intros ? ->.
  - by exists caller, (chat_ID a), i, b.
  - exists caller. auto.
  - exists caller. pose proof (ChangeMemberRole_valid i ltac:(done)) as [_ Hr]. split; [left; by exists i|auto].
  - exists caller. pose proof (nextOwner_other _ _ _ ltac:(eassumption)) as [_ Hn]. split; [right; by split_and!|done].
  - exists caller. auto.
  - by exists caller.
  - exists caller. auto.
Qed.

Lemma message_guards caller call w :
  guards (MessageCall caller call) (run_message_call (M := proc) caller call) (fun _ _ => True) w.
Proof using All.
  destruct call; unfold run_message_call, Send, Edit, Delete, MarkRead, GetHistory, AddReaction, RemoveReaction,
    assertMember; walk; unfold IsAuthoredBy in *; bool_prop; destruct_and?; subst.
  - exists caller, i, b0, b. split_and!; [done|done|unfold sent; congruence|]. intros r Hr.
    replace r with (msg_ID a0) by congruence. by exists a0.
  - exists caller, i, b0, b. split_and!; [done|done|unfold sent; congruence|]. intros r Hr. congruence.
  - exists (msg_SenderID a), i, b. split_and!; [done..|]. by exists a.
  - exists (msg_SenderID a). split; [done|]. by exists a.
  - done.
  - exists i. split; [done|]. by exists a.
  - by exists i.
Qed.

Lemma apply_profile_takes name i now u :
  (forall n, upi_Username i = Some n -> name = n) -> takes_profile i (apply_profile name i now u).
Proof using. intros Hn. unfold apply_profile. split_and!; cbn; [done|by intros ? ->..]. Qed.

Lemma user_guards call w : guards (UserCall call) (run_user_call (M := proc) call) (fun _ _ => True) w.
Proof using All.
  destruct call; unfold run_user_call, Register, Login, RefreshToken, GetProfile, UpdateProfile, Search, SetOnline,
    SetOffline, assertFree, claimUsername, issueTokens; walk; bool_prop; destruct_and?; subst.
  all: try (eexists i, _; split_and!; [done|done|apply apply_profile_takes; congruence|eassumption]).
  - by exists i, b3, a, b2.
  - by exists i, a.
  - by exists i, a.
  - by left.
  - by right.
Qed.

(** Every request keeps its guarantee, whatever the others do. *)
Lemma request_guards c w : guards c (request_of c) (fun _ _ => True) w.
Proof using All. destruct c; [apply chat_guards|apply message_guards|apply user_guards]. Qed.

Lemma was_direct_live w id : live_direct (view w) id -> was_direct w id.
Proof using HP. intros (chat & Hc & Ht). unfold was_direct. rewrite <- Ht. by apply kind_live. Qed.

#[export] Instance op_guarantee : Guarantee later sound (@allowed) (@learns) view.
Proof using All.
  split; [|intros; apply request_guards]. intros B o c w Hs Ha.
  pose proof (perform_learns o c w Hs Ha) as Hlearn. destruct (perform_granted o c w (proj1 Hs) Ha) as [_ Hw].
  pose proof (perform_later o c w (proj1 Hs) Ha) as Hl. pose proof (perform_sound o c w Hs Ha) as Hs'.
  change (perform_op o w) with (perform o w). destruct (perform o w) as [b w']. split_and!; [done..|].
  eapply granted_mono; [|exact Hw]. intros id. apply was_direct_live.
Qed.
End guards.

(** ** What every server that steps so keeps

    [serving] is any invariant of a server whose steps are [later] and granted: of
    the server above, or of one whose operations are finer. *)
Section kept.
Context {O : Type -> Type} {W : Type} `{Performs O W, Server O}.
Context (view : W -> store) (kind : W -> uuid -> option ChatType) (account : W -> uuid -> option (string * string)).
Context `{TE : TextEq, LA : Latitude}.
Context (serving : list api_call -> requests O * W -> Prop).

Abbreviation later := (later view kind account).

Class Steps : Prop := {
  step_serves e cs st : serving cs st ->
    serving (cs ++ omap arrival [e]) (server_step e st) /\ later st.2 (server_step e st).2 /\
    (view (server_step e st).2 = view st.2 \/ written cs (view st.2) (view (server_step e st).2));
  live_account w id u : st_users (view w) !! id = Some u -> account w id = Some (user_Email u, user_PasswordHash u) }.
Context {HS : Steps}.

(** A fact about the state that every write, and what is later, preserves. *)
Lemma interleave_keeps (P : list api_call -> W -> Prop) es cs st :
  (forall cs cs' w, P cs w -> P (cs ++ cs') w) ->
  (forall cs w w', P cs w -> later w w' -> view w' = view w \/ written cs (view w) (view w') -> P cs w') ->
  serving cs st -> P cs st.2 ->
  serving (cs ++ omap arrival es) (interleave es st) /\ P (cs ++ omap arrival es) (interleave es st).2.
Proof using All.
  intros Hmono Hstep. revert cs st. induction es as [|e es IH]; intros cs st Hst HP0.
  - by rewrite app_nil_r.
  - destruct (step_serves e cs st Hst) as (Hst1 & Hl1 & Hw1). cbn [interleave].
    replace (cs ++ omap arrival (e :: es)) with ((cs ++ omap arrival [e]) ++ omap arrival es)
      by (rewrite <- app_assoc; cbn; by destruct (arrival e)).
    apply IH; [done|]. apply Hmono. by apply (Hstep _ st.2).
Qed.

Lemma written_mono cs cs' d d' : written cs d d' -> written (cs ++ cs') d d'.
Proof using. intros (c & Hc & Hg). exists c. split; [|done]. apply elem_of_app. by left. Qed.

(** The store moves by writes granted to the requests that arrived. *)
Lemma interleave_writes es cs st :
  serving cs st ->
  serving (cs ++ omap arrival es) (interleave es st) /\
  rtc (written (cs ++ omap arrival es)) (view st.2) (view (interleave es st).2).
Proof using All.
  intros Hst. apply (interleave_keeps (fun cs w => rtc (written cs) (view st.2) (view w))); [| |done|apply rtc_refl].
  - intros cs1 cs2 w Hr. eapply rtc_subrel; [|exact Hr]. intros d d'. apply written_mono.
  - intros cs1 w w' Hr _ [E|Hw]; [by rewrite E|]. by eapply rtc_r.
Qed.

(** What becomes of an account. *)
Definition account_lives (id : uuid) (u : User) (cs : list api_call) (w : W) : Prop :=
  (exists u', st_users (view w) !! id = Some u' /\ user_PasswordHash u' = user_PasswordHash u /\
     user_Email u' = user_Email u /\ ((forall c, c ∈ cs -> ~ account_call c id) -> u' = u)) \/
  (st_users (view w) !! id = None /\ is_Some (account w id) /\
   exists i, UserCall (CallRegister i) ∈ cs /\ reg_Email i = user_Email u).

Lemma account_lives_step id u cs w w' :
  account_lives id u cs w -> later w w' -> view w' = view w \/ written cs (view w) (view w') ->
  account_lives id u cs w'.
Proof using HS.
  intros [(u1 & Hu1 & Hh & He & Hc)|(Hn & [a Ha] & Hi)] Hl Hw.
  - destruct Hw as [E|(c & Hin & Hg)]; [left; exists u1; by rewrite E|].
    destruct (granted_account _ _ _ _ id u1 Hg Hu1) as [(u2 & Hu2 & Hh2 & He2 & Hc2)|(Hn & i & -> & Hi)].
    + left. exists u2. split_and!; [done|congruence|congruence|]. intros Hnone.
      rewrite Hc2 by auto. auto.
    + right. split_and!; [done| |exists i; by rewrite Hi].
      exists (user_Email u1, user_PasswordHash u1). by apply (later_account view kind account w w' Hl), live_account.
  - right. split_and!; [|exists a; by apply (later_account view kind account w w' Hl)|done]. by eapply later_gone.
Qed.

Lemma interleave_account es cs st id u :
  serving cs st -> st_users (view st.2) !! id = Some u ->
  account_lives id u (cs ++ omap arrival es) (interleave es st).2.
Proof using All.
  intros Hst Hu. apply (interleave_keeps (account_lives id u)); [|intros; by eapply account_lives_step|done|].
  - intros cs1 cs2 w [(u1 & ? & ? & ? & Hc)|(? & ? & i & ? & ?)].
    + left. exists u1. split_and!; [done..|]. intros Hnone. apply Hc. intros c Hin. apply Hnone, elem_of_app. by left.
    + right. split_and!; [done..|]. exists i. rewrite elem_of_app. auto.
  - left. exists u. by split_and!.
Qed.

End kept.

(** Requests that keep a guarantee step so. *)
Lemma guarantee_steps {O : Type -> Type} {W : Type} `{Performs O W, Server O} (view : W -> store)
    (kind : W -> uuid -> option ChatType) (account : W -> uuid -> option (string * string)) `{TE : TextEq, LA : Latitude}
    (sound : W -> Prop) (allowed : forall B, api_call -> W -> O B -> Prop) (learns : forall B, O B -> B -> W -> Prop) :
  Guarantee (later view kind account) sound allowed learns view ->
  (forall w id u, st_users (view w) !! id = Some u -> account w id = Some (user_Email u, user_PasswordHash u)) ->
  Steps view kind account (serving (later view kind account) sound allowed learns).
Proof. intros HG Hlive. split; [|done]. intros e cs st. by apply server_step_serves; [apply later_preorder|]. Qed.
