(* ===== verification/HttpRefinement.v ===== *)
(** * What a request does

    [requested] is the API as its documentation tells it: the service call a
    route, a request and a caller ask for.  Every handler runs exactly that call,
    or answers 400 without running anything. *)
From S2P Require Import Prelude Utf8 Domain GoStd Json ChatUsecase MessageUsecase UserUsecase Store.
From S2P Require Import ChatContract ChatRefinement MessageRefinement UserRefinement System.
From S2P Require Import Http Handlers Middleware Router.
Open Scope Z_scope.

Section requested.
Context `{UP : UUIDParse}.

Definition ok {A} (a : res A) : option A := match a with Ok x => Some x | Err _ => None end.
Definition path_id (r : request) (key : string) : option uuid := uuid_Parse (PathValue r key).

Definition requested (x : route) (r : request) (me : uuid) : option api_call :=
  match x with
  | R_Health => None
  | R_WS => Some (ChatCall me CallGetUserChats)
  | R_Register => i ← ok (Decode decode_RegisterInput r); Some (UserCall (CallRegister i))
  | R_Login => i ← ok (Decode decode_LoginInput r); Some (UserCall (CallLogin i))
  | R_RefreshToken =>
    t ← ok (Decode decode_refresh r);
    if bool_decide (t = "") then None else Some (UserCall (CallRefreshToken t))
  | R_GetMe => Some (UserCall (CallGetProfile me))
  | R_UpdateMe => i ← ok (Decode decode_UpdateProfileInput r); Some (UserCall (CallUpdateProfile me i))
  | R_Search => Some (UserCall (CallSearch (search_input r)))
  | R_GetProfile => id ← path_id r "user_id"; Some (UserCall (CallGetProfile id))
  | R_GetUserChats => Some (ChatCall me CallGetUserChats)
  | R_CreateDirect => i ← ok (Decode decode_CreateDirectInput r); Some (ChatCall me (CallCreateDirect i))
  | R_CreateGroup => i ← ok (Decode decode_CreateGroupInput r); Some (ChatCall me (CallCreateGroup i))
  | R_GetChat => c ← path_id r "chat_id"; Some (ChatCall me (CallGetChat c))
  | R_UpdateGroup =>
    c ← path_id r "chat_id"; i ← ok (Decode decode_UpdateGroupInput r); Some (ChatCall me (CallUpdateGroup c i))
  | R_GetMembers => c ← path_id r "chat_id"; Some (ChatCall me (CallGetMembers c))
  | R_AddMember =>
    c ← path_id r "chat_id"; i ← ok (Decode decode_AddMemberInput r); Some (ChatCall me (CallAddMember c i))
  | R_LeaveChat => c ← path_id r "chat_id"; Some (ChatCall me (CallLeaveChat c))
  | R_RemoveMember =>
    c ← path_id r "chat_id"; u ← path_id r "user_id"; Some (ChatCall me (CallRemoveMember c u))
  | R_ChangeMemberRole =>
    c ← path_id r "chat_id"; u ← path_id r "user_id"; i ← ok (Decode decode_ChangeMemberRoleInput r);
    Some (ChatCall me (CallChangeMemberRole c (mkChangeMemberRoleInput u (cmri_Role i))))
  | R_Send =>
    c ← path_id r "chat_id"; b ← ok (Decode decode_send r); Some (MessageCall me (CallSend (send_input c b)))
  | R_GetHistory =>
    c ← path_id r "chat_id"; cur ← ok (history_cursor r);
    Some (MessageCall me (CallGetHistory (mkListInput c cur (history_limit r))))
  | R_MarkRead => c ← path_id r "chat_id"; Some (MessageCall me (CallMarkRead c))
  | R_Edit =>
    m ← path_id r "msg_id"; i ← ok (Decode decode_EditInput r); Some (MessageCall me (CallEdit m i))
  | R_Delete => m ← path_id r "msg_id"; Some (MessageCall me (CallDelete m))
  | R_AddReaction =>
    m ← path_id r "msg_id"; i ← ok (Decode decode_ReactInput r); Some (MessageCall me (CallAddReaction m i))
  | R_RemoveReaction =>
    m ← path_id r "msg_id";
    if bool_decide (query r "emoji" = "") then None
    else Some (MessageCall me (CallRemoveReaction m (mkReactInput (query r "emoji"))))
  end.
End requested.

(** ** Handlers and calls *)
Section handlers.
Context {W : Type}.

(** [m] does what the call does: the same final state, the same error. *)
Definition same_effect {A} (m : ST W (res A)) (c : ST W (res unit)) : Prop :=
  forall w, (c w).2 = (m w).2 /\ match (m w).1 with Ok _ => (c w).1 = Ok tt | Err e => (c w).1 = Err e end.

Lemma same_effect_refl (m : ST W (res unit)) : same_effect m m.
Proof. intros w. split; [done|]. by destruct ((m w).1) as [[]|]. Qed.

Lemma same_effect_try {A} (m : ST W (res A)) : same_effect m (try m (fun _ => mret (Ok tt))).
Proof. intros w. unfold try, mbind, ST_bind. by destruct (m w) as [[a|e] w']. Qed.

(** The handler refuses the request, or runs the call and answers its outcome. *)
Definition runs (h : ST W served) (c : option (ST W (res unit))) : Prop :=
  match c with
  | None => h = mret (Ok BadRequest)
  | Some c => exists A (m : ST W (res A)) k, h = or_Err m k /\ same_effect m c /\
      forall a, 200 <= rs_Status (k a) < 300
  end.

Lemma runs_bad {A} (a : res A) (k : A -> ST W served) (c : A -> option api_call) (run : api_call -> ST W (res unit)) :
  (forall x, a = Ok x -> runs (k x) (run <$> c x)) ->
  runs (or_BadRequest a k) (run <$> (ok a ≫= c)).
Proof. intros Hk. destruct a as [x|e]; [by apply Hk|done]. Qed.

Lemma runs_path `{UUIDParse} r key (k : uuid -> ST W served) (c : uuid -> option api_call) (run : api_call -> ST W (res unit)) :
  (forall u, runs (k u) (run <$> c u)) ->
  runs (or_BadRequest (parseUUID r key) k) (run <$> (path_id r key ≫= c)).
Proof. intros Hk. unfold parseUUID, path_id. destruct (uuid_Parse _) as [u|]; [apply Hk|done]. Qed.

Lemma runs_call {A} (m : ST W (res A)) k c :
  same_effect m c -> (forall a, 200 <= rs_Status (k a) < 300) -> runs (or_Err m k) (Some c).
Proof. intros Hm Hk. by exists A, m, k. Qed.

(** The protected handlers find their user. *)
Lemma UserID_bound {A} r u (k : uuid -> ST W (result panic A)) :
  rq_UserID r = Some u -> (let? me := UserID r in k me) = k u.
Proof. intros Hu. unfold UserID. by rewrite Hu. Qed.
End handlers.

Section routes.
Context {W : Type} (chat_users : UserRepository (ST W)).
Context `{UR : UserRepository (ST W), CR : ChatRepository (ST W), MR : MessageRepository (ST W)}.
Context `{TM : tokenManager (ST W), PH : passwordHasher (ST W), CK : Clock (ST W), US : UUIDSource (ST W)}.
Context `{UP : UUIDParse, UG : Upgrader} (health : ST W (res unit)) (allowedOrigins : list string).

(** The use cases the handlers are given: the wiring of [newApplication]. *)
#[local] Instance app_chat : chat_UseCase (ST W) := chat_New (UR := chat_users).
#[local] Instance app_message : message_UseCase (ST W) := message_New.
#[local] Instance app_user : user_UseCase (ST W) := user_New.

Abbreviation handle := (route_handler health allowedOrigins).
Abbreviation served_by := (serve chat_users).

Ltac route_step :=
  first [ apply runs_path; intros ?
        | apply runs_bad; intros ? _
        | progress rewrite ?(UserID_bound _ _ _ ltac:(eassumption))
        | case_bool_decide; [reflexivity|] ].

Lemma public_runs x w r me :
  route_access x = RateLimited -> runs (handle x w r) (served_by <$> requested x r me).
Proof using.
  destruct x; try discriminate; intros _; cbn [route_handler requested]; unfold h_Register, h_Login, h_RefreshToken;
    repeat route_step; (apply runs_call; [apply same_effect_try|done]).
Qed.

Lemma protected_runs x w r me :
  route_access x = Protected -> x <> R_WS -> rq_UserID r = Some me ->
  runs (handle x w r) (served_by <$> requested x r me).
Proof using.
  intros Hx Hws Hu. destruct x; try discriminate; try done; cbn [route_handler requested];
    unfold h_GetMe, h_UpdateMe, h_Search, h_GetProfile, h_GetUserChats, h_CreateDirect, h_CreateGroup,
      h_GetChat, h_UpdateGroup, h_GetMembers, h_AddMember, h_LeaveChat, h_RemoveMember,
      h_ChangeMemberRole, h_Send, h_GetHistory, h_MarkRead, h_Edit, h_Delete, h_AddReaction, h_RemoveReaction;
    repeat route_step;
    (apply runs_call; [first [apply same_effect_try|apply same_effect_refl]|try done]).
  all: match goal with |- forall a, 200 <= rs_Status _ < 300 => intros [? []]; done end.
Qed.
End routes.

(** ** The whole server *)

Lemma best_fmap {A B} (f : A -> B) m path (l : mux A) :
  best m path ((fun '(p, x) => (p, f x)) <$> l) = (fun '(p, x, vs) => (p, f x, vs)) <$> best m path l.
Proof.
  induction l as [|[p x] l IH]; [done|]. cbn. rewrite IH.
  destruct (match_method (pt_Method p) m), (match_path (pt_Path p) path) as [vs|],
    (best m path l) as [[[q y] ws]|]; try done.
  cbn. by destruct (covers (pt_Path p) (pt_Path q)).
Qed.

Lemma allowed_fmap {A B} (f : A -> B) path (l : mux A) :
  allowed path ((fun '(p, x) => (p, f x)) <$> l) = allowed path l.
Proof. unfold allowed. induction l as [|[p x] l IH]; [done|]. cbn in *. by rewrite IH. Qed.

(** How a request ends: an answer of the server itself, the outcome of a call, or
    a WebSocket handshake that fails. *)
Inductive verdict : Type :=
| Answered (status : Z)
| Ran (o : res unit)
| NoSocket.

Definition fits (v : verdict) (status : Z) : Prop :=
  match v with
  | Answered n => status = n
  | Ran (Ok _) => 200 <= status < 300
  | Ran (Err e) => status = statusCode e
  | NoSocket => 400 <= status
  end.

Section server.
Context {W : Type} (chat_users : UserRepository (ST W)).
Context `{UR : UserRepository (ST W), CR : ChatRepository (ST W), MR : MessageRepository (ST W)}.
Context `{TM : tokenManager (ST W), PH : passwordHasher (ST W), CK : Clock (ST W), US : UUIDSource (ST W)}.
Context `{UT : UUIDText, UP : UUIDParse, UG : Upgrader} {UL : UpgraderLaws UG}.
Context (TV : TokenValidator (ST W)) (health : ST W (res unit)) (cfg : http_Config).

#[local] Existing Instances app_chat app_message app_user.
#[local] Instance app_chat_here : chat_UseCase (ST W) := app_chat chat_users.

(** The server of [newApplication]. *)
Definition server : Handler (ST (clients * W)) := httpHandler health cfg.

(** The state once the request has its identifier. *)
Definition started (r : request) (s : W) : W :=
  if bool_decide (header r "X-Request-Id" = "") then (uuid_New s).2 else s.

(** The request as the handler of a route gets it. *)
Definition received (vs : list (string * string)) (r : request) : request :=
  with_values vs (with_body (limited (hc_MaxBodyBytes cfg) (rq_Body r)) r).

Definition run_asked (o : option api_call) (s : W) : verdict * W :=
  match o with
  | None => (Answered 400, s)
  | Some c => let '(a, s') := serve chat_users c s in (Ran a, s')
  end.

(** The API: the verdict on a request, and the state it leaves. *)
Definition api_spec (r : request) (st : clients * W) : verdict * (clients * W) :=
  let '(cl, s) := st in
  let s := started r s in
  if bool_decide (rq_Method r = "OPTIONS") then (Answered 204, (cl, s)) else
  match best (rq_Method r) (rq_Path r) (table cfg) with
  | None => (Answered (match allowed (rq_Path r) (table cfg) with [] => 404 | _ => 405 end), (cl, s))
  | Some (_, x, vs) =>
    match route_access x with
    | Open_ => let '(h, s) := health s in (Answered (if is_ok h then 200 else 503), (cl, s))
    | RateLimited =>
      let '(now, s) := time_Now s in
      let '(admitted, cl) := allow (hc_MaxRequests cfg) (hc_Window cfg) now (clientIP r) cl in
      if admitted then (let '(v, s) := run_asked (requested x (received vs r) Nil) s in (v, (cl, s)))
      else (Answered 429, (cl, s))
    | Protected =>
      match bearer r with
      | None => (Answered 401, (cl, s))
      | Some token =>
        match tv_ValidateAccessToken token s with
        | (Err _, s) => (Answered 401, (cl, s))
        | (Ok me, s) =>
          let '(v, s) := run_asked (requested x (received vs r) me) s in
          (if bool_decide (x = R_WS) then NoSocket else v, (cl, s))
        end
      end
    end
  end.

(** A served request has the status of the verdict; a panic only comes from a
    call, and is answered 500. *)
Definition served_as (a : served) (v : verdict) : Prop :=
  match a with
  | Ok rs => fits v (rs_Status rs)
  | Err _ => exists t, v = Ran (Err (GoPanic t)) \/ v = NoSocket
  end.

Lemma runs_served (h : ST W served) (o : option api_call) s :
  runs h (serve chat_users <$> o) ->
  (h s).2 = (run_asked o s).2 /\ served_as (h s).1 (run_asked o s).1.
Proof using.
  destruct o as [c|]; cbn; [|by intros ->]. intros (A & m & k & -> & Hm & Hk). specialize (Hm s) as [Hs Hv].
  unfold or_Err, mbind, ST_bind, mret, ST_ret. cbn.
  destruct (serve chat_users c s) as [a s'], (m s) as [b s2]. cbn in *. split; [done|].
  destruct b as [x|e]; subst a; cbn; [apply Hk|]. destruct e; cbn; eauto.
Qed.

(** What the request carries beside its user and identifier is what counts. *)
Lemma requested_same x r r' me :
  rq_PathValues r' = rq_PathValues r -> rq_Query r' = rq_Query r -> rq_Body r' = rq_Body r ->
  requested x r' me = requested x r me.
Proof using.
  intros Hp Hq Hb. destruct x; cbn; unfold path_id, PathValue, Decode, search_input, history_cursor, history_limit, query;
    by rewrite ?Hp, ?Hq, ?Hb.
Qed.

Lemma served_as_headers a v hs : served_as a v -> served_as (add_headers hs a) v.
Proof using. by destruct a. Qed.

(** The handshake fails on the writer [RequestLogger] passes on. *)
Lemma ws_served w r me s :
  is_Hijacker w = false -> rq_UserID r = Some me ->
  (h_WS (hc_AllowedOrigins cfg) w r s).2 = (run_asked (requested R_WS r me) s).2 /\ served_as (h_WS (hc_AllowedOrigins cfg) w r s).1 NoSocket.
Proof using UL.
  intros Hw Hu. unfold h_WS, ws_accept, UserID, try, mbind, ST_bind. rewrite Hu. cbn.
  unfold discard, try, mbind, ST_bind. cbn.
  destruct ((GetUserChats me : ST W _) s) as [[ps|e] s'] eqn:E; cbn.
  - destruct (upgrade_needs_hijacker (checkOrigin (hc_AllowedOrigins cfg)) w r Hw) as (rs & -> & Hrs). by cbn.
  - destruct e; cbn; (split; [done|]); try lia. exists ""%string. by right.
Qed.

Lemma parts_served (m : served * W) (n : verdict * W) (cl : clients) (f : verdict -> verdict) :
  m.2 = n.2 /\ served_as m.1 (f n.1) ->
  let '(a, st') := (let '(rs, s') := m in (rs, (cl, s'))) in
  let '(v, st2) := (let '(v, s) := n in (f v, (cl, s))) in
  st' = st2 /\ served_as a v.
Proof using. destruct m, n. cbn. by intros [-> ?]. Qed.

(** The mux, behind the middleware that touch the request only. *)
Lemma mux_served w r cl s s0 :
  is_Hijacker w = false -> started r s0 = s -> rq_Method r <> "OPTIONS" ->
  let '(a, st') := LimitBody (hc_MaxBodyBytes cfg) (mux_ServeHTTP (SetupRoutes health cfg)) w r (cl, s) in
  let '(v, st2) := api_spec r (cl, s0) in
  st' = st2 /\ served_as a v.
Proof using UL.
  intros Hw Hs Hm. unfold api_spec. rewrite Hs, bool_decide_eq_false_2 by done.
  unfold LimitBody, mux_ServeHTTP, SetupRoutes. rewrite best_fmap, allowed_fmap. cbn.
  destruct (best _ _ _) as [[[p x] vs]|]; cbn.
  2:{ split; [done|]. by destruct (allowed _ _). }
  unfold guarded. destruct (route_access x) eqn:Hx.
  - destruct x; try discriminate. cbn. unfold beside, h_Health, mbind, ST_bind, mret, ST_ret.
    by destruct (health s) as [[u|e] s'].
  - unfold RateLimit, beside. destruct ((time_Now : ST W _) s) as [now s1], (allow _ _ _ _ _) as [[] cl1]; [|done].
    fold (received vs r). apply (parts_served _ _ _ (fun v => v)).
    exact (runs_served _ _ s1 (public_runs chat_users health (hc_AllowedOrigins cfg) x w (received vs r) Nil Hx)).
  - unfold beside, Auth. fold (received vs r). change (bearer (received vs r)) with (bearer r).
    destruct (bearer r) as [token|]; [|done]. unfold mbind, ST_bind.
    destruct ((tv_ValidateAccessToken token : ST W _) s) as [[me|e] s1]; [|done]. cbn [fst snd].
    set (r1 := with_user me (received vs r)).
    rewrite <- (requested_same x (received vs r) r1 me) by done.
    destruct (decide (x = R_WS)) as [->|Hne].
    + rewrite bool_decide_eq_true_2 by done. apply (parts_served _ _ _ (fun _ => NoSocket)).
      exact (ws_served w r1 me s1 Hw eq_refl).
    + rewrite bool_decide_eq_false_2 by done. apply (parts_served _ _ _ (fun v => v)).
      exact (runs_served _ _ s1 (protected_runs chat_users health (hc_AllowedOrigins cfg) x w r1 me Hx Hne eq_refl)).
Qed.

Lemma api_spec_id id r st : api_spec (with_id id r) st = api_spec r st.
Proof using. destruct st. reflexivity. Qed.

(** An implementation that answers [m], a specification that answers [n]. *)
Definition agree (m : served * (clients * W)) (n : verdict * (clients * W)) : Prop :=
  let '(a, st') := m in let '(v, st2) := n in st' = st2 /\ served_as a v.

Lemma headers_served m n hs : agree m n -> agree (add_headers hs m.1, m.2) n.
Proof using. destruct m, n. cbn. intros [-> Ha]. split; [done|]. by apply served_as_headers. Qed.

Lemma recovered_served m n hs :
  agree m n ->
  let '(a, st') := (match add_headers hs m.1 with Ok rs => Ok (E := panic) rs | Err p => Ok (recovered (p_header p)) end, m.2) in
  let '(v, st2) := n in
  st' = st2 /\ exists rs, a = Ok rs /\ fits v (rs_Status rs).
Proof using.
  destruct m as [[rs|p] st'], n as [v st2]; cbn; intros [-> Hv]; (split; [done|]); [by eexists|].
  eexists. split; [done|]. by destruct Hv as [t [-> | ->]].
Qed.

Lemma cors_served w r cl s s0 :
  is_Hijacker w = false -> started r s0 = s ->
  agree (CORS (hc_AllowedOrigins cfg) (LimitBody (hc_MaxBodyBytes cfg)
    (mux_ServeHTTP (SetupRoutes health cfg))) w r (cl, s)) (api_spec r (cl, s0)).
Proof using UL.
  intros Hw Hs. unfold CORS. case_bool_decide as Hm.
  - unfold agree, api_spec. by rewrite Hs, bool_decide_eq_true_2.
  - pose proof (mux_served w r cl s s0 Hw Hs Hm) as H. unfold mbind, ST_bind, mret, ST_ret.
    exact (headers_served _ _ _ H).
Qed.

(** The server implements the API: it leaves the state the specification
    computes, and answers with a status that fits the verdict. *)
Lemma server_implements w r st :
  let '(a, st') := server w r st in
  let '(v, st2) := api_spec r st in
  st' = st2 /\ exists rs, a = Ok rs /\ fits v (rs_Status rs).
Proof using UL.
  destruct st as [cl s]. unfold server, httpHandler, Recovery, RequestLogger, RequestID.
  set (next := CORS _ _). unfold mbind, ST_bind, mret, ST_ret. cbn [fst snd].
  assert (forall id, agree (next (statusWriter w) (with_id id r) (cl, started r s)) (api_spec r (cl, s))) as Hnext.
  { intros id. rewrite <- (api_spec_id id). by apply cors_served. }
  unfold started in Hnext. case_bool_decide; cbn [fst snd] in *.
  - revert Hnext. unfold beside_uuid, uuid_New. destruct (US s) as [u s']. cbn [fst snd]. intros Hnext.
    exact (recovered_served _ _ _ (Hnext _)).
  - exact (recovered_served _ _ _ (Hnext _)).
Qed.
End server.

(** ** What the API may do to the store *)
(** A handler and the requests it gets, one after the other. *)
Fixpoint drain {S : Type} (h : Handler (ST S)) (rs : list (ResponseWriter * request)) (st : S) : S :=
  match rs with
  | [] => st
  | (w, r) :: rest => drain h rest (h w r st).2
  end.

Section outcome.
Context {W : Type} (inv : W -> Prop) (view : W -> store).
Context (chat_users : UserRepository (ST W)).
Context `{UR : UserRepository (ST W), CR : ChatRepository (ST W), MR : MessageRepository (ST W)}.
Context `{TM : tokenManager (ST W), PH : passwordHasher (ST W), CK : Clock (ST W), US : UUIDSource (ST W)}.
Context `{UT : UUIDText, UP : UUIDParse, UG : Upgrader} {UL : UpgraderLaws UG}.
Context (TV : TokenValidator (ST W)) (health : ST W (res unit)) (cfg : http_Config).
Context `{PR : Precision, TE : TextEq, LA : Latitude, LO : Loss} {HE : EnvSpec inv view}.
Context {HCU : UserLookupSpec inv view chat_users} {HU : UserRepositorySpec inv view UR}.
Context {HC : ChatRepositorySpec inv view CR} {HM : MessageRepositorySpec inv view MR} {HT : TokenSpec inv view TM PH}.

(** Checking a token and pinging the dependencies write nothing. *)
Definition keeps_store {A} (m : ST W A) : Prop :=
  forall s, inv s -> inv (m s).2 /\ view (m s).2 = view s.
Context (Htv : forall t, keeps_store (TV t)) (Hhealth : keeps_store health).

Abbreviation spec := (api_spec chat_users TV health cfg).

Definition permitted (d : store) (v : verdict) (s : W) : Prop :=
  inv s /\ rtc api_step d (view s) /\
  match v with
  | Ran (Ok _) => True
  | Ran (Err e) => server_fault e \/ view s = d
  | _ => view s = d
  end.

Lemma permitted_quiet d v s : inv s -> view s = d -> permitted d v s.
Proof using. intros Hi <-. split; [done|]. split; [apply rtc_refl|]. destruct v as [|[]|]; auto. Qed.

Lemma started_keeps r s : inv s -> inv (started r s) /\ view (started r s) = view s.
Proof using HE. intros Hi. unfold started. case_bool_decide; [|done]. exact (spec_uuid s Hi). Qed.

Lemma run_asked_permitted o s d :
  inv s -> view s = d -> permitted d (run_asked chat_users o s).1 (run_asked chat_users o s).2.
Proof using HE HCU HU HC HM HT.
  intros Hi <-. destruct o as [c|]; cbn; [|by apply permitted_quiet].
  pose proof (serve_outcome inv view chat_users c s Hi) as Hc. unfold wp in Hc.
  destruct (serve chat_users c s) as [a s']. exact Hc.
Qed.

Lemma socket_permitted r me s d :
  inv s -> view s = d -> permitted d NoSocket (run_asked chat_users (requested R_WS r me) s).2.
Proof using HC.
  intros Hi <-. cbn.
  assert (wp (discard (GetUserChats me : ST W _)) (fun _ s' => permitted (view s) NoSocket s') s) as Hg.
  { eapply (wp_reads inv view); [apply (spec_GetUserChats (CR := CR))|done|done| |].
    - intros ps s' Hi' Hv' _. by apply permitted_quiet.
    - intros e s' Hi' Hv' _. by apply permitted_quiet. }
  unfold wp in Hg. by destruct (discard (GetUserChats me : ST W _) s) as [a s'].
Qed.

(** Every request ends in a state its verdict permits. *)
Lemma api_permitted r cl s :
  inv s -> permitted (view s) (spec r (cl, s)).1 (spec r (cl, s)).2.2.
Proof using HE HCU HU HC HM HT Htv Hhealth.
  intros Hi. destruct (started_keeps r s Hi) as [Hi1 Hv1]. unfold api_spec.
  set (s1 := started r s) in *. clearbody s1.
  case_bool_decide; [by apply permitted_quiet|].
  destruct (best _ _ _) as [[[p x] vs]|]; [|by apply permitted_quiet].
  destruct (route_access x).
  - destruct (Hhealth s1 Hi1) as [Hi2 Hv2]. destruct (health s1) as [h s2]. apply permitted_quiet; [done|].
    cbn in *. congruence.
  - pose proof (spec_now s1 Hi1) as [Hi2 Hv2]. destruct ((time_Now : ST W _) s1) as [now s2]. cbn in Hi2, Hv2.
    destruct (allow _ _ _ _ _) as [[] cl']; [|apply permitted_quiet; [done|cbn; congruence]].
    pose proof (run_asked_permitted (requested x (received cfg vs r) Nil) s2 (view s) Hi2) as Hr.
    destruct (run_asked _ _ s2) as [v s3]. apply Hr. congruence.
  - destruct (bearer r) as [token|]; [|by apply permitted_quiet].
    pose proof (Htv token s1 Hi1) as [Hi2 Hv2]. unfold tv_ValidateAccessToken.
    destruct (TV token s1) as [[me|e] s2]; [|apply permitted_quiet; [done|cbn in *; congruence]].
    assert (view s2 = view s) as Hv by (cbn in *; congruence). cbn in Hi2.
    destruct (decide (x = R_WS)) as [->|Hne].
    + pose proof (socket_permitted (received cfg vs r) me s2 (view s) Hi2 Hv) as Hr.
      rewrite bool_decide_eq_true_2 by done. by destruct (run_asked _ _ s2) as [v s3].
    + pose proof (run_asked_permitted (requested x (received cfg vs r) me) s2 (view s) Hi2 Hv) as Hr.
      rewrite bool_decide_eq_false_2 by done. by destruct (run_asked _ _ s2) as [v s3].
Qed.

(** A request of the class 4xx, or an answer that is none of a call, changed
    nothing. *)
Lemma refused_changes_nothing w r cl s rs cl' s' :
  inv s -> server chat_users TV health cfg w r (cl, s) = (Ok rs, (cl', s')) ->
  400 <= rs_Status rs < 500 -> view s' = view s.
Proof using UL HE HCU HU HC HM HT Htv Hhealth.
  intros Hi Hrun Hst. pose proof (server_implements chat_users TV health cfg w r (cl, s)) as H.
  rewrite Hrun in H. pose proof (api_permitted r cl s Hi) as (_ & _ & Hp).
  destruct (spec r (cl, s)) as [v [cl2 s2]]. destruct H as [[= -> ->] (rs' & [= <-] & Hf)]. cbn in Hp.
  destruct v as [n|[u|e]|]; cbn in Hf; try done; [lia|].
  destruct Hp as [[Hinf|Hint]|Hp]; [| |done].
  - rewrite (statusCode_infra e Hinf) in Hf. lia.
  - rewrite (statusCode_Is e _ Hint) in Hf. cbn in Hf. lia.
Qed.

(** Requests one after the other. *)
Definition serve_requests : list (ResponseWriter * request) -> clients * W -> clients * W :=
  drain (server chat_users TV health cfg).

Lemma serve_requests_steps rs cl s :
  inv s -> let s' := (serve_requests rs (cl, s)).2 in inv s' /\ rtc api_step (view s) (view s').
Proof using UL HE HCU HU HC HM HT Htv Hhealth.
  revert cl s. induction rs as [|[w r] rs IH]; intros cl s Hi; [by split; [|apply rtc_refl]|].
  cbn. pose proof (server_implements chat_users TV health cfg w r (cl, s)) as H.
  pose proof (api_permitted r cl s Hi) as (Hi1 & Hr1 & _).
  destruct (server _ _ _ _ w r (cl, s)) as [a [cl1 s1]], (spec r (cl, s)) as [v [cl2 s2]].
  destruct H as [[= -> ->] _]. cbn [snd] in *. destruct (IH cl2 s2 Hi1) as [Hi2 Hr2].
  split; [done|]. by etransitivity.
Qed.
End outcome.
