(* ===== verification/Shapes.v ===== *)
(** * The shapes of the answers

    The JSON the API answers with, as the struct tags of the entities and
    [response.Body] lay it out ([docs/openapi.yaml] declares the same objects,
    but arrays where an empty list is sent as [null]): a small type system for
    documents, the type of every route, and that every answer has it. *)
From S2P Require Import Prelude Utf8 Domain GoStd Json ChatUsecase MessageUsecase UserUsecase Http Handlers.
From S2P Require Import Middleware Router HttpRefinement.
Open Scope Z_scope.

(** ** Shapes *)

#[warnings="-register-all"]
Inductive shape : Type :=
| ShString | ShInteger | ShUUID | ShTimestamp
| ShArray (item : shape)
| ShNullable (s : shape)
| ShObject (fields : list (string * (bool * shape)))  (** name, whether required, shape *)
| ShMessage.                                          (** by name: a message holds the one it replies to *)

Definition req (name : string) (s : shape) : string * (bool * shape) := (name, (true, s)).
Definition opt (name : string) (s : shape) : string * (bool * shape) := (name, (false, s)).
Definition ShList (item : shape) : shape := ShNullable (ShArray item).

(** *** domain/user.go, chat.go and message.go *)
Definition user_shape : shape := ShObject
  [req "id" ShUUID; req "username" ShString; req "email" ShString; opt "avatar_url" ShString;
   opt "bio" ShString; req "status" ShString; req "last_seen" ShTimestamp;
   req "created_at" ShTimestamp; req "updated_at" ShTimestamp].
Definition chat_shape : shape := ShObject
  [req "id" ShUUID; req "type" ShString; opt "name" ShString; opt "avatar_url" ShString;
   opt "description" ShString; req "created_by" ShUUID; req "created_at" ShTimestamp;
   req "updated_at" ShTimestamp].
Definition member_shape : shape := ShObject
  [req "chat_id" ShUUID; req "user_id" ShUUID; req "role" ShString; req "joined_at" ShTimestamp;
   opt "user" user_shape].
Definition reaction_shape : shape := ShObject
  [req "message_id" ShUUID; req "user_id" ShUUID; req "emoji" ShString; req "created_at" ShTimestamp;
   opt "user" user_shape].
Definition message_fields : list (string * (bool * shape)) :=
  [req "id" ShUUID; req "chat_id" ShUUID; req "sender_id" ShUUID; req "content" ShString;
   req "type" ShString; opt "reply_to_id" ShUUID; opt "edited_at" ShTimestamp;
   opt "deleted_at" ShTimestamp; req "created_at" ShTimestamp; req "updated_at" ShTimestamp;
   opt "sender" user_shape; opt "reactions" (ShArray reaction_shape); opt "reply_to" ShMessage].
Definition preview_shape : shape := ShObject
  [req "chat" chat_shape; opt "members" (ShArray member_shape); opt "last_message" ShMessage;
   req "unread_count" ShInteger].
Definition cursor_shape : shape := ShObject [req "created_at" ShTimestamp; req "id" ShUUID].
Definition page_shape : shape := ShObject [req "messages" (ShList ShMessage); opt "next_cursor" cursor_shape].

(** *** The answers of user.go *)
Definition tokens_shape : shape := ShObject [req "access_token" ShString; req "refresh_token" ShString].
Definition session_shape : shape := ShObject [req "user" user_shape; req "tokens" tokens_shape].

(** *** response.go *)
Definition data_shape (s : shape) : shape := ShObject [req "data" s].
Definition error_shape : shape := ShObject [req "error" ShString].
(** An internal error is answered with the text it came with; an empty one is omitted. *)
Definition failure_shape : shape := ShObject [opt "error" ShString].

(** ** Typing *)
Definition lookup_field (name : string) (fields : list (string * (bool * shape))) : option shape :=
  match list_find (fun f => f.1 = name) fields with Some (_, f) => Some f.2.2 | None => None end.
Definition fields_of (s : shape) : option (list (string * (bool * shape))) :=
  match s with ShObject fields => Some fields | ShMessage => Some message_fields | _ => None end.
Definition present (keys : list string) (f : string * (bool * shape)) : bool :=
  negb f.2.1 || bool_decide (f.1 ∈ keys).

Definition strip (s : shape) : shape := match s with ShNullable s => s | s => s end.

(** The document has the shape: an object has every required field, each of its
    fields is declared, once. *)
Fixpoint conforms (j : json) (s : shape) : bool :=
  match j with
  | JNull => match s with ShNullable _ => true | _ => false end
  | JBool _ => false
  | JNum _ => match strip s with ShInteger => true | _ => false end
  | JStr _ => match strip s with ShString => true | _ => false end
  | JUUID _ => match strip s with ShUUID => true | _ => false end
  | JTime _ => match strip s with ShTimestamp => true | _ => false end
  | JArr l => match strip s with ShArray item => forallb (fun j => conforms j item) l | _ => false end
  | JObj fs =>
    match fields_of (strip s) with
    | Some fields =>
      forallb (fun '(name, j) => match lookup_field name fields with Some s => conforms j s | None => false end) fs &&
      forallb (present fs.*1) fields && bool_decide (NoDup fs.*1)
    | None => false
    end
  end.

(** Every document the encoder can give has the shape. *)
Definition yields (v : res json) (s : shape) : Prop := forall j, v = Ok j -> conforms j s = true.

(** *** The answers of the routes *)
Definition route_shape (x : route) : shape :=
  match x with
  | R_Register | R_Login => session_shape
  | R_RefreshToken => tokens_shape
  | R_GetMe | R_UpdateMe | R_GetProfile => user_shape
  | R_Search => ShList user_shape
  | R_CreateDirect | R_CreateGroup | R_GetChat | R_UpdateGroup => chat_shape
  | R_GetUserChats => ShList preview_shape
  | R_GetMembers => ShList member_shape
  | R_Send | R_Edit => ShMessage
  | R_GetHistory => page_shape
  | _ => ShObject []
  end.
Definition health_shape : shape := ShObject [req "status" ShString; opt "error" ShString].

(** What a route answers with: [{"data": ...}] on success, [{"error": ...}] otherwise;
    the health check has documents of its own. *)
Definition answer_shape (x : route) (status : Z) : shape :=
  if bool_decide (x = R_Health) then health_shape
  else if status <? 300 then data_shape (route_shape x)
  else if status =? 500 then failure_shape else error_shape.

(** An answer without a document is a success: it has nothing to say, or the value
    could not be encoded once its status was written. *)
Definition typed (x : route) (rs : response) : Prop :=
  match rs_Body rs with
  | Doc j => conforms j (answer_shape x (rs_Status rs)) = true
  | NoBody => rs_Status rs < 300
  | Text _ => False
  end.

(** ** The entities have their shapes *)

Lemma yields_both {A} (a : res A) (k : A -> res json) s :
  (forall x, a = Ok x -> yields (k x) s) -> yields (both a k) s.
Proof. intros H j Hj. apply both_Ok in Hj as (x & Hx & Hj). by eapply H. Qed.

Lemma marshal_string_shape t : conforms (marshal_string t) ShString = true.
Proof. done. Qed.
Lemma marshal_time_shape t : yields (marshal_time t) ShTimestamp.
Proof. by intros j ->%marshal_time_ok. Qed.

Lemma marshal_User_shape u : yields (marshal_User u) user_shape.
Proof.
  intros j Hj. unfold marshal_User in Hj. unmarshalled. unfold omitempty.
  by repeat case_bool_decide.
Qed.
Lemma marshal_Chat_shape c : yields (marshal_Chat c) chat_shape.
Proof.
  intros j Hj. unfold marshal_Chat in Hj. unmarshalled. unfold omitempty.
  by repeat case_bool_decide.
Qed.

Lemma marshal_all_shape {A} (f : A -> res json) s l js :
  Forall (fun a => yields (f a) s) l -> marshal_all f l = Ok js -> forallb (fun j => conforms j s) js = true.
Proof.
  intros Hl. revert js. induction Hl as [|a l Ha _ IH]; intros js; cbn; [by intros [= <-]|].
  intros Hj. unmarshalled. cbn. by rewrite (Ha _ H), (IH _ H0).
Qed.
Lemma marshal_slice_shape {A} (f : A -> res json) s l :
  (forall a, yields (f a) s) -> yields (marshal_slice f l) (ShList s).
Proof.
  intros Hf j. unfold marshal_slice. destruct l as [|a l]; [by intros [= <-]|]. intros Hj. unmarshalled.
  eapply (marshal_all_shape f s (a :: l)); [|done]. by apply Forall_forall.
Qed.

(** An optional field is absent, or holds one document of its shape. *)
Definition optional (name : string) (s : shape) (fs : list (string * json)) : Prop :=
  fs = [] \/ exists j, fs = [(name, j)] /\ conforms j s = true.

Lemma opt_field_shape {A} name (f : A -> res json) s o fs :
  (forall a, yields (f a) s) -> opt_field name f o = Ok fs -> optional name s fs.
Proof.
  intros Hf. destruct o as [a|]; cbn; [|intros [= <-]; by left]. intros Hj. unmarshalled. right. eexists. split; [done|].
  by eapply Hf.
Qed.
Lemma slice_field_shape {A} name (f : A -> res json) s l fs :
  Forall (fun a => yields (f a) s) l -> slice_field name f l = Ok fs -> optional name (ShArray s) fs.
Proof.
  intros Hf. destruct l as [|a l]; cbn [slice_field]; [intros [= <-]; by left|]. intros Hj. unmarshalled.
  right. eexists. split; [done|]. by eapply marshal_all_shape.
Qed.

Lemma object_shape s fields fs :
  fields_of (strip s) = Some fields ->
  Forall (fun f => exists s', lookup_field f.1 fields = Some s' /\ conforms f.2 s' = true) fs ->
  forallb (present fs.*1) fields && bool_decide (NoDup fs.*1) = true ->
  conforms (JObj fs) s = true.
Proof.
  intros Hs Hfs Hp. cbn [conforms]. rewrite Hs, <- andb_assoc, Hp, andb_true_r. apply forallb_forall.
  intros [name j] Hin%list_elem_of_In. rewrite Forall_forall in Hfs.
  destruct (Hfs _ Hin) as (s' & E & Hj). cbn [fst] in E. by rewrite E.
Qed.

(** Cases on the optional fields of an object, then its typing field by field. *)
Ltac by_fields :=
  repeat match goal with H : optional _ _ _ |- _ => destruct H as [-> | (? & -> & ?)] end;
  (eapply object_shape; [reflexivity| |vm_compute; reflexivity]);
  repeat (constructor; [eexists; split; [reflexivity|first [eassumption|reflexivity]]|]); constructor.

Lemma marshal_ChatMember_shape m : yields (marshal_ChatMember m) member_shape.
Proof.
  intros j Hj. unfold marshal_ChatMember in Hj. unmarshalled.
  destruct (cm_User m) as [u|]; unmarshalled; [|by_fields].
  match goal with H : marshal_User _ = Ok _ |- _ => apply marshal_User_shape in H end. by_fields.
Qed.

Lemma marshal_Reaction_shape r : yields (marshal_Reaction r) reaction_shape.
Proof.
  intros j Hj. unfold marshal_Reaction in Hj. unmarshalled.
  match goal with H : opt_field _ _ _ = Ok _ |- _ => apply (opt_field_shape _ _ _ _ _ marshal_User_shape) in H end.
  by_fields.
Qed.

Lemma marshal_Message_shape m : yields (marshal_Message m) ShMessage.
Proof.
  revert m. fix IH 1. intros [id c se co ty rid ed de cr up us rx re] j Hj.
  cbn [marshal_Message msg_EditedAt msg_DeletedAt msg_CreatedAt msg_UpdatedAt msg_Sender msg_Reactions msg_ReplyTo
       msg_ID msg_ChatID msg_SenderID msg_Content msg_Type msg_ReplyToID] in Hj.
  apply both_Ok in Hj as (fed & Hed%(opt_field_shape _ _ _ _ _ marshal_time_shape) & Hj).
  apply both_Ok in Hj as (fde & Hde%(opt_field_shape _ _ _ _ _ marshal_time_shape) & Hj).
  apply both_Ok in Hj as (jc & ->%marshal_time_ok & Hj). apply both_Ok in Hj as (ju & ->%marshal_time_ok & Hj).
  apply both_Ok in Hj as (fus & Hus%(opt_field_shape _ _ _ _ _ marshal_User_shape) & Hj).
  apply both_Ok in Hj as (frx & Hrx & Hj).
  apply (slice_field_shape _ _ reaction_shape) in Hrx; [|by apply Forall_forall; intros; apply marshal_Reaction_shape].
  apply both_Ok in Hj as (fre & Hre & Hj).
  assert (optional "reply_to" ShMessage fre) as Hre'.
  { destruct re as [r|]; [|injection Hre as <-; by left]. apply both_Ok in Hre as (jr & Hr & Hre).
    injection Hre as <-. right. eexists. split; [done|]. exact (IH r jr Hr). }
  clear Hre IH. injection Hj as <-. destruct rid; cbn [app].
  all: by_fields.
Qed.

Lemma marshal_ChatPreview_shape p : yields (marshal_ChatPreview p) preview_shape.
Proof.
  intros j Hj. unfold marshal_ChatPreview in Hj.
  apply both_Ok in Hj as (jc & Hc%marshal_Chat_shape & Hj). apply both_Ok in Hj as (fm & Hm & Hj).
  apply (slice_field_shape _ _ member_shape) in Hm; [|by apply Forall_forall; intros; apply marshal_ChatMember_shape].
  apply both_Ok in Hj as (fl & Hl%(opt_field_shape _ _ _ _ _ marshal_Message_shape) & Hj).
  injection Hj as <-. by_fields.
Qed.

Lemma marshal_cursor_shape c : yields (marshal_cursor c) cursor_shape.
Proof. intros j Hj. unfold marshal_cursor in Hj. unmarshalled. by_fields. Qed.

Lemma marshal_PageResult_shape p : yields (marshal_PageResult p) page_shape.
Proof.
  intros j Hj. unfold marshal_PageResult in Hj.
  apply both_Ok in Hj as (jm & Hm%(marshal_slice_shape _ _ _ marshal_Message_shape) & Hj).
  apply both_Ok in Hj as (fc & Hc%(opt_field_shape _ _ _ _ _ marshal_cursor_shape) & Hj).
  injection Hj as <-. by_fields.
Qed.

Lemma marshal_TokenPair_shape t : yields (marshal_TokenPair t) tokens_shape.
Proof. intros j [= <-]. by_fields. Qed.

Lemma marshal_session_shape s : yields (marshal_session s) session_shape.
Proof.
  intros j Hj. unfold marshal_session in Hj.
  apply both_Ok in Hj as (jt & Ht%marshal_TokenPair_shape & Hj). apply both_Ok in Hj as (ju & Hu%marshal_User_shape & Hj).
  injection Hj as <-. by_fields.
Qed.

Lemma Body_data_shape v s : yields v s -> yields (Body_data v) (data_shape s).
Proof. intros Hv j Hj. unfold Body_data in Hj. apply both_Ok in Hj as (d & Hd%Hv & Hj). injection Hj as <-. by_fields. Qed.

Lemma Body_error_shape e : e <> "" -> yields (Body_error e) error_shape.
Proof. intros He j Hj. unfold Body_error, omitempty in Hj. rewrite bool_decide_eq_false_2 in Hj by done. injection Hj as <-. by_fields. Qed.
Lemma Body_failure_shape e : yields (Body_error e) failure_shape.
Proof. intros j Hj. unfold Body_error, omitempty in Hj. case_bool_decide; injection Hj as <-; by_fields. Qed.

#[export] Hint Resolve marshal_User_shape marshal_Chat_shape marshal_ChatMember_shape marshal_Message_shape
  marshal_ChatPreview_shape marshal_PageResult_shape marshal_TokenPair_shape marshal_session_shape
  marshal_slice_shape : vibe.

(** ** The handlers answer with the shapes of their routes *)
Lemma typed_JSON x status v :
  yields v (answer_shape x status) -> is_ok v = true \/ status < 300 -> typed x (JSON status v).
Proof. intros Hv Hs. unfold typed, JSON. cbn. destruct v as [j|e]; [by apply Hv|]. by destruct Hs. Qed.

Lemma typed_data x status v :
  x <> R_Health -> status < 300 -> yields v (route_shape x) -> typed x (JSON status (Body_data v)).
Proof.
  intros Hx Hs Hv. apply typed_JSON; [|by right]. unfold answer_shape. rewrite bool_decide_eq_false_2 by done.
  destruct (Z.ltb_spec status 300); [|lia]. by apply Body_data_shape.
Qed.
Lemma typed_error x status e :
  x <> R_Health -> 300 <= status -> (status = 500 \/ e <> "") -> typed x (JSON status (Body_error e)).
Proof.
  intros Hx Hs He. apply typed_JSON; [|by left]. unfold answer_shape. rewrite bool_decide_eq_false_2 by done.
  destruct (Z.ltb_spec status 300); [lia|]. destruct (Z.eqb_spec status 500); [apply Body_failure_shape|].
  apply Body_error_shape. tauto.
Qed.

Lemma statusCode_fails e : 300 <= statusCode e.
Proof. unfold statusCode. repeat case_match; lia. Qed.

(** An error of the domain has a text, whatever it is wrapped in. *)
Lemma errors_Is_text e s : errors_Is e s = true -> error_text e <> "".
Proof.
  induction e as [s'|pre e IH post| | | | |]; cbn [errors_Is error_text]; try done; [by destruct s'|].
  intros He Ht. apply (IH He). by destruct pre; [destruct (error_text e)|].
Qed.

Lemma statusCode_text e : statusCode e = 500 \/ error_text e <> "".
Proof.
  unfold statusCode.
  repeat match goal with |- context [if ?b then _ else _] => destruct b eqn:? end; try by left.
  all: right; repeat match goal with H : _ || _ = true |- _ => apply orb_true_iff in H as [H|H] end;
    by eapply errors_Is_text.
Qed.

Lemma typed_Err x e : x <> R_Health -> typed x (response_Err e).
Proof. intros Hx. apply typed_error; [done|apply statusCode_fails|apply statusCode_text]. Qed.

(** Whatever the services return: an answer satisfies [P], and a panic is possible
    only if [Q]. *)
Definition answers {S : Type} (P : response -> Prop) (Q : Prop) (m : ST S served) : Prop :=
  forall s, match (m s).1 with Ok rs => P rs | Err _ => Q end.

Section answers.
Context {S : Type} (P : response -> Prop) (Q : Prop).

Lemma answers_ret rs : P rs -> answers (S := S) P Q (mret (Ok rs)).
Proof using. by intros H s. Qed.
Lemma answers_bind {A} (m : ST S A) (k : A -> ST S served) : (forall a, answers P Q (k a)) -> answers P Q (mbind k m).
Proof using. intros H s. apply (H (m s).1). Qed.
Lemma answers_try {A} (m : ST S (result panic A)) (k : A -> ST S served) :
  Q -> (forall a, answers P Q (k a)) -> answers P Q (try m k).
Proof using. intros HQ H. apply answers_bind. intros [a|p]; [apply H|by intros s]. Qed.
Lemma answers_or_BadRequest {A} (a : res A) (k : A -> ST S served) :
  P BadRequest -> (forall x, answers P Q (k x)) -> answers P Q (or_BadRequest a k).
Proof using. intros HB Hk. destruct a as [x|e]; [apply Hk|by apply answers_ret]. Qed.
Lemma answers_or_Err {A} (m : ST S (res A)) (k : A -> response) :
  Q -> (forall x, P (k x)) -> (forall e, P (response_Err e)) -> answers P Q (or_Err m k).
Proof using. intros HQ Hk He. apply answers_bind. intros [a|e] s; [apply Hk|]. by destruct e; try apply He. Qed.
Lemma answers_headers (m : ST S served) hs :
  (forall rs, P rs -> P (with_headers hs rs)) -> answers P Q m ->
  answers P Q (let* s := m in mret (add_headers hs s)).
Proof using.
  intros Hh Hm s. specialize (Hm s). unfold mbind, ST_bind, mret, ST_ret. cbv beta zeta.
  destruct (m s) as [[rs|p] s']; cbn in *; [by apply Hh|done].
Qed.
Lemma answers_mono (P' : response -> Prop) (Q' : Prop) (m : ST S served) :
  answers P' Q' m -> (forall rs, P' rs -> P rs) -> (Q' -> Q) -> answers P Q m.
Proof using. intros Hm HP HQ s. specialize (Hm s). destruct (m s).1; auto. Qed.
End answers.

Section handlers.
Context {S : Type} `{UP : UUIDParse, UG : Upgrader}.
Context `{UU : user_UseCase (ST S), CU : chat_UseCase (ST S), MU : message_UseCase (ST S)}.
Context (health : ST S (res unit)) (allowedOrigins : list string).

Lemma health_answers w r : answers (typed R_Health) False (h_Health (M := ST S) health w r).
Proof using.
  intros s. unfold h_Health, mbind, ST_bind, mret, ST_ret. cbv beta zeta.
  destruct (health s) as [[u|e] s']; unfold typed, answer_shape, JSON; cbn [fst rs_Body rs_Status];
    rewrite bool_decide_eq_true_2 by done; by_fields.
Qed.

Lemma handler_answers x w r : x <> R_WS -> answers (typed x) (x <> R_Health) (route_handler (M := ST S) health allowedOrigins x w r).
Proof using.
  intros Hx.
  assert (HB : x <> R_Health -> typed x BadRequest) by (intros; apply typed_error; [done|lia|by right]).
  assert (HE : x <> R_Health -> forall e, typed x (response_Err e)) by (intros ? e; by apply typed_Err).
  destruct x; try done; cbn [route_handler];
    [by eapply answers_mono; [apply health_answers|..]|..];
    specialize (HB ltac:(done)); specialize (HE ltac:(done));
    unfold h_Register, h_Login, h_RefreshToken, h_GetMe, h_UpdateMe, h_Search, h_GetProfile, h_GetUserChats,
      h_CreateDirect, h_CreateGroup, h_GetChat, h_UpdateGroup, h_GetMembers, h_AddMember, h_LeaveChat,
      h_RemoveMember, h_ChangeMemberRole, h_Send, h_GetHistory, h_MarkRead, h_Edit, h_Delete, h_AddReaction,
      h_RemoveReaction;
    repeat first
      [ apply answers_or_BadRequest; [done|intros ?]
      | apply answers_try; [done|intros ?]
      | apply answers_or_Err; [done|intros ?|done]
      | apply answers_ret; done
      | case_match ];
    try done; apply typed_data; eauto with vibe; try done; try lia.
Qed.
End handlers.

(** ** Through the middleware *)
Section application.
Context {W : Type} `{CK : Clock (ST W), US : UUIDSource (ST W), UT : UUIDText, UP : UUIDParse, UG : Upgrader}.
Context `{UU : user_UseCase (ST W), CU : chat_UseCase (ST W), MU : message_UseCase (ST W)}.
Context `{TV : TokenValidator (ST W)} (health : ST W (res unit)) (cfg : http_Config).

#[local] Existing Instance beside_uuid.

(** The answer to a request has the shape of the route it was for; a request for no
    route gets no document. *)
Definition well_typed (r : request) (rs : response) : Prop :=
  match best (rq_Method r) (rq_Path r) (table cfg) with
  | Some (_, x, _) => x = R_WS \/ typed x rs
  | None => forall j, rs_Body rs <> Doc j
  end.
Definition may_panic (r : request) : Prop :=
  match best (rq_Method r) (rq_Path r) (table cfg) with Some (_, x, _) => x <> R_Health | None => False end.

Lemma answers_beside P Q (h : Handler (ST W)) w r :
  answers P Q (h w r) -> answers (S := clients * W) P Q (beside h w r).
Proof using. intros H [cl s]. unfold beside. specialize (H s). by destruct (h w r s). Qed.

Lemma guarded_answers x w r : x <> R_WS -> answers (typed x) (x <> R_Health) (guarded health cfg x w r).
Proof using.
  intros Hx. unfold guarded. destruct (route_access x) eqn:Ha.
  - apply answers_beside. by apply handler_answers.
  - intros [cl s]. unfold RateLimit. destruct ((time_Now : ST W _) s) as [now s1], (allow _ _ _ _ _) as [[] cl1].
    + apply (answers_beside _ _ _ w r (handler_answers health (hc_AllowedOrigins cfg) x w r Hx) (cl1, s1)).
    + destruct x; done.
  - apply answers_beside. unfold Auth.
    assert (typed x unauthorized) by (apply typed_error; [by intros ->|lia|by right]).
    destruct (bearer r) as [token|]; [|by apply answers_ret]. apply answers_bind.
    intros [me|e]; [by apply handler_answers|by apply answers_ret].
Qed.

Lemma mux_answers r0 w r :
  rq_Method r = rq_Method r0 -> rq_Path r = rq_Path r0 ->
  answers (well_typed r0) (may_panic r0) (mux_ServeHTTP (SetupRoutes health cfg) w r).
Proof using.
  intros Hm Hp. unfold mux_ServeHTTP, SetupRoutes, well_typed, may_panic. rewrite best_fmap, Hm, Hp.
  destruct (best _ _ _) as [[[p x] vs]|]; cbn.
  - destruct (decide (x = R_WS)) as [->|Hne].
    + intros s. by case_match; [left|].
    + eapply answers_mono; [by apply guarded_answers|by right|done].
  - apply answers_ret. by destruct (allowed _ _).
Qed.

Lemma well_typed_headers r hs rs : well_typed r rs -> well_typed r (with_headers hs rs).
Proof using. done. Qed.

Lemma CORS_answers r0 w r (next : Handler (ST (clients * W))) :
  answers (well_typed r0) (may_panic r0) (next w r) ->
  answers (well_typed r0) (may_panic r0) (CORS (hc_AllowedOrigins cfg) next w r).
Proof using.
  intros Hn. unfold CORS. case_bool_decide.
  - apply answers_ret. unfold well_typed. destruct (best _ _ _) as [[[p x] vs]|]; [by right|done].
  - by apply answers_headers.
Qed.

Lemma Recovery_answers (next : Handler (ST (clients * W))) w r st :
  answers (well_typed r) (may_panic r) (next w r) ->
  exists rs, (Recovery next w r st).1 = Ok rs /\ well_typed r rs.
Proof using.
  intros Hn. specialize (Hn st). unfold Recovery, mbind, ST_bind, mret, ST_ret. cbv beta zeta.
  destruct (next w r st) as [[rs|p] st']; cbn [fst snd] in *; [by eexists|].
  eexists. split; [done|]. unfold well_typed, may_panic in *.
  destruct (best _ _ _) as [[[pt x] vs]|]; [|done]. right.
  unfold typed, answer_shape, recovered; cbn [rs_Body rs_Status]. rewrite bool_decide_eq_false_2 by done.
  change (500 <? 300) with false. change (500 =? 500) with true. cbv match. by_fields.
Qed.

Lemma server_answers w r st :
  exists rs, (httpHandler health cfg w r st).1 = Ok rs /\ well_typed r rs.
Proof using.
  apply Recovery_answers, answers_bind. intros id.
  apply answers_headers; [done|]. apply CORS_answers. by apply mux_answers.
Qed.
End application.
