(* ===== verification/Logging.v ===== *)
(** * Logging

    [utils/logger/logger.go] over the calls it makes to the operating system, and
    the loggers the middleware passes on in the context of a request: which
    lines the chain of [newApplication] writes.  [zerolog] is a parameter. *)
From S2P Require Import Prelude Utf8 Domain GoStd Config ConfigSpec Json Http Handlers Middleware Router.
Open Scope Z_scope.

(** ** zerolog *)
Inductive Level : Type := TraceLevel | DebugLevel | InfoLevel | WarnLevel | ErrorLevel | FatalLevel | PanicLevel.

#[export] Instance level_eq_dec : EqDecision Level.
Proof. solve_decision. Defined.

(** The names the configuration takes, in the order of [validLevels]. *)
Definition level_text (l : Level) : string :=
  match l with
  | TraceLevel => "trace" | DebugLevel => "debug" | InfoLevel => "info" | WarnLevel => "warn"
  | ErrorLevel => "error" | FatalLevel => "fatal" | PanicLevel => "panic"
  end.
Definition level_rank (l : Level) : Z :=
  match l with
  | TraceLevel => -1 | DebugLevel => 0 | InfoLevel => 1 | WarnLevel => 2 | ErrorLevel => 3 | FatalLevel => 4 | PanicLevel => 5
  end.
Definition levels : list Level :=
  [TraceLevel; DebugLevel; InfoLevel; WarnLevel; ErrorLevel; FatalLevel; PanicLevel].

(** Where [Setup] sends the lines. *)
Inductive writer : Type :=
| Stdout
| ConsoleWriter
| Lumberjack (Filename : string) (MaxSize MaxBackups : Z).

Class Zerolog : Type := {
  logger : Type;
  zl_ParseLevel : string -> option Level;
  zl_New : writer -> Level -> logger;                         (** New(w).Level(l).With().Timestamp().Caller().Logger() *)
  zl_Str : string -> string -> logger -> logger;              (** l.With().Str(k, v).Logger() *)
  zl_Ctx : option logger -> logger;                           (** Ctx(ctx), by the logger the context carries *)
  zl_Enabled : logger -> Level -> bool;
  zl_Msg : logger -> Level -> list (string * string) -> string -> list string }.  (** the lines written *)

(** What its documentation says: [Ctx] returns the logger of the context, and a
    disabled logger if it has none (no [DefaultContextLogger] is set); a logger
    writes the events of its level and above; [With] keeps the level;
    [ParseLevel] knows the levels by name. *)
Class ZerologLaws (ZL : Zerolog) : Prop := {
  ctx_Some l : zl_Ctx (Some l) = l;
  ctx_None lvl : zl_Enabled (zl_Ctx None) lvl = false;
  new_enabled w l lvl : zl_Enabled (zl_New w l) lvl = (level_rank l <=? level_rank lvl);
  str_enabled k v l lvl : zl_Enabled (zl_Str k v l) lvl = zl_Enabled l lvl;
  msg_lines l lvl fields msg : length (zl_Msg l lvl fields msg) = if zl_Enabled l lvl then 1%nat else 0%nat;
  parse_names l : zl_ParseLevel (level_text l) = Some l }.

(** [strings.ToLower] needs the tables of letters beyond what an ASCII word can
    come of. *)
Class Lowering : Type := ToLower : string -> string.
Class LoweringLaws (L : Lowering) : Prop := {
  lower_word s w : w ∈ validLevels -> lowers_to s w = true -> ToLower s = w }.

(** ** The operating system, as [Setup] calls it *)
Class OS (M : Type -> Type) : Type := {
  filepath_Dir : string -> string;
  os_MkdirAll : string -> Z -> M (res unit);
  os_OpenFile : string -> Z -> M (res unit);      (** create, append, write only; closed again *)
  os_Chmod : string -> Z -> M (res unit);
  os_Chown : string -> Z -> Z -> M (res unit);
  user_Lookup : string -> M (res string);         (** the Uid *)
  user_LookupGroup : string -> M (res string) }.  (** the Gid *)

Section setup.
Context {M : Type -> Type} `{MRet M, MBind M, OS M, Zerolog, Lowering}.

Definition applyOwnership (path owner group : string) : M unit :=
  if is_empty owner && is_empty group then mret tt else
  let* uid := if is_empty owner then mret (-1) else
    (let* u := user_Lookup owner in mret (match u with Ok uid => atoi_number uid | Err _ => -1 end)) in
  let* gid := if is_empty group then mret (-1) else
    (let* g := user_LookupGroup group in mret (match g with Ok gid => atoi_number gid | Err _ => -1 end)) in
  let* _ := os_Chown path uid gid in
  mret tt.

Definition newFileWriter (cfg : LoggerFileConfig) : M writer :=
  let path := file_Path cfg in
  let* _ := os_MkdirAll (filepath_Dir path) 493 in
  let* f := os_OpenFile path (file_Mode cfg) in
  let* _ := match f with
            | Ok _ => let* _ := os_Chmod path (file_Mode cfg) in mret tt
            | Err _ => mret tt
            end in
  let* _ := applyOwnership path (file_Owner cfg) (file_Group cfg) in
  mret (Lumberjack path (file_MaxSizeMB cfg) (file_MaxBackups cfg)).

(** [Setup]: the new global logger.  A file type without its section panics. *)
Definition Setup (cfg : LoggerConfig) : M (result panic logger) :=
  let lvl := default InfoLevel (zl_ParseLevel (ToLower (logger_Level cfg))) in
  let* w := if bool_decide (logger_Type cfg = "console") then mret (Ok ConsoleWriter)
            else if bool_decide (logger_Type cfg = "file") then
              match logger_File cfg with
              | Some f => let* w := newFileWriter f in mret (Ok w)
              | None => mret (Err (mkPanic "runtime error: invalid memory address or nil pointer dereference" []))
              end
            else mret (Ok Stdout) in
  let? w := mret w in
  mret (Ok (zl_New w lvl)).
End setup.

(** The level and the writer a sound configuration asks for. *)
Definition asked_level (cfg : LoggerConfig) : Level :=
  default InfoLevel (snd <$> list_find (fun l => lowers_to (logger_Level cfg) (level_text l) = true) levels).
Definition asked_writer (cfg : LoggerConfig) : writer :=
  match logger_File cfg with
  | Some f => if bool_decide (logger_Type cfg = "file") then Lumberjack (file_Path f) (file_MaxSizeMB f) (file_MaxBackups f)
              else if bool_decide (logger_Type cfg = "console") then ConsoleWriter else Stdout
  | None => if bool_decide (logger_Type cfg = "console") then ConsoleWriter else Stdout
  end.

(** ** The loggers of a request

    A handler that logs: it gets the logger its context carries, and writes lines
    beside the state of the rest. *)
Section request_logs.
Context {W : Type} `{ZL : Zerolog, US : UUIDSource (ST W), UT : UUIDText}.
Context (global : logger).  (** [log.Logger], as [Setup] left it *)

Abbreviation logs := (list string * W)%type.
Definition LHandler : Type := option logger -> ResponseWriter -> request -> ST logs served.

Definition write (lines : list string) : ST logs unit := fun '(out, s) => (tt, (out ++ lines, s)).

#[local] Instance logs_uuid : UUIDSource (ST logs) := fun '(out, s) => let '(u, s') := uuid_New s in (u, (out, s')).

(** [logEvent]. *)
Definition logEvent (status : Z) : Level :=
  if 500 <=? status then ErrorLevel else if 400 <=? status then WarnLevel else DebugLevel.

(** The fields of the line, but for the latency. *)
Definition request_fields (r : request) (status : Z) : list (string * string) :=
  [("method", rq_Method r); ("path", "/" +:+ Join (rq_Path r) "/"); ("status", decimal status); ("ip", clientIP r)].

Definition l_RequestLogger (next : LHandler) : LHandler := fun ctx w r =>
  let* s := next ctx (statusWriter w) r in
  match s with
  | Ok rs =>
    let* _ := write (zl_Msg (zl_Ctx ctx) (logEvent (rs_Status rs)) (request_fields r (rs_Status rs)) "http") in
    mret (Ok rs)
  | Err p => mret (Err p)
  end.

Definition l_Recovery (next : LHandler) : LHandler := fun ctx w r =>
  let* s := next ctx w r in
  match s with
  | Ok rs => mret (Ok rs)
  | Err p =>
    let* _ := write (zl_Msg (zl_Ctx ctx) ErrorLevel [("panic", p_value p)] "recovered from panic") in
    mret (Ok (recovered (p_header p)))
  end.

Definition l_RequestID (next : LHandler) : LHandler := fun ctx w r =>
  let* id := if bool_decide (header r "X-Request-Id" = "")
             then (let* u := uuid_New in mret (uuid_String u))
             else mret (header r "X-Request-Id") in
  let* rs := next (Some (zl_Str "request_id" id global)) w (with_id id r) in
  mret (add_headers [("X-Request-Id", id)] rs).

(** A middleware that does not log passes the context on. *)
Definition l_plain (m : Handler (ST logs) -> Handler (ST logs)) (next : LHandler) : LHandler := fun ctx => m (next ctx).

(** The chain of [newApplication] around the mux. *)
Definition l_httpHandler (origins : list string) (maxBytes : Z) (next : LHandler) : LHandler :=
  l_Recovery (l_RequestLogger (l_RequestID (l_plain (CORS origins) (l_plain (LimitBody maxBytes) next)))).

(** What the mux and everything below it writes for a request: it gets the logger
    with the request id. *)
Definition inner_lines (origins : list string) (maxBytes : Z) (next : LHandler) (w : ResponseWriter) (r : request)
    (st : logs) : list string :=
  (l_RequestID (l_plain (CORS origins) (l_plain (LimitBody maxBytes) next)) None (statusWriter w) r st).2.1.
End request_logs.

(** ** Lemmas *)

(** Lines aside, a logging handler is a handler of [Middleware]. *)
Section erasure.
Context {W : Type} `{ZL : Zerolog, US : UUIDSource (ST W), UT : UUIDText}.
Context (global : logger).

Definition erases {A} (m : ST (list string * W) A) (m' : ST W A) : Prop :=
  forall out s, exists out', m (out, s) = ((m' s).1, (out', (m' s).2)).

Lemma erases_ret {A} (a : A) : erases (mret a) (mret a).
Proof using. intros out s. by exists out. Qed.
Lemma erases_bind {A B} (m : ST (list string * W) A) m' (k : A -> ST (list string * W) B) k' :
  erases m m' -> (forall a, erases (k a) (k' a)) -> erases (mbind k m) (mbind k' m').
Proof using.
  intros Hm Hk out s. destruct (Hm out s) as [out1 E]. unfold mbind, ST_bind. rewrite E. cbn [fst snd]. apply Hk.
Qed.
Lemma erases_after {A} (m : ST (list string * W) A) m' (k : A -> ST (list string * W) A) :
  erases m m' -> (forall a, erases (k a) (mret a)) -> erases (mbind k m) m'.
Proof using.
  intros Hm Hk out s. destruct (Hm out s) as [out1 E]. unfold mbind, ST_bind. rewrite E. cbn [fst snd].
  destruct (Hk (m' s).1 out1 (m' s).2) as [out2 E2]. by exists out2.
Qed.
Lemma erases_write {A} lines (a : A) : erases (let* _ := write lines in mret a) (mret a).
Proof using. intros out s. by eexists. Qed.
#[local] Existing Instance logs_uuid.
Lemma erases_uuid : erases uuid_New uuid_New.
Proof using. intros out s. exists out. cbv [uuid_New logs_uuid]. by destruct (US s). Qed.

Definition erases_to (l : LHandler) (h : Handler (ST W)) : Prop := forall ctx w r, erases (l ctx w r) (h w r).

Lemma l_httpHandler_erases origins maxBytes l h :
  erases_to l h ->
  erases_to (l_httpHandler global origins maxBytes l)
    (Recovery (RequestLogger (RequestID (CORS origins (LimitBody maxBytes h))))).
Proof using.
  intros Hl.
  assert (Hlimit : erases_to (l_plain (LimitBody maxBytes) l) (LimitBody maxBytes h)) by (intros ctx w r; apply Hl).
  assert (Hcors : erases_to (l_plain (CORS origins) (l_plain (LimitBody maxBytes) l)) (CORS origins (LimitBody maxBytes h))).
  { intros ctx w r. unfold l_plain at 1, CORS. case_bool_decide; [apply erases_ret|].
    apply erases_bind; [apply Hlimit|]. intros rs. apply erases_ret. }
  assert (Hid : erases_to (l_RequestID global (l_plain (CORS origins) (l_plain (LimitBody maxBytes) l)))
                          (RequestID (CORS origins (LimitBody maxBytes h)))).
  { intros ctx w r. apply erases_bind.
    - case_bool_decide; [|apply erases_ret]. apply erases_bind; [apply erases_uuid|]. intros u. apply erases_ret.
    - intros id. apply erases_bind; [apply Hcors|]. intros rs. apply erases_ret. }
  intros ctx w r. apply erases_bind.
  - apply erases_after; [apply Hid|]. intros [rs|p]; [apply erases_write|apply erases_ret].
  - intros [rs|p]; [apply erases_ret|apply erases_write].
Qed.

(** The line of the access log, given a context with a logger. *)
Lemma l_RequestLogger_lines {L : ZerologLaws ZL} (next : LHandler) l w r (st : list string * W) rs :
  (next (Some l) (statusWriter w) r st).1 = Ok rs ->
  exists lines, (l_RequestLogger next (Some l) w r st).2.1 = (next (Some l) (statusWriter w) r st).2.1 ++ lines /\
    length lines = if zl_Enabled l (logEvent (rs_Status rs)) then 1%nat else 0%nat.
Proof using.
  intros Hn. unfold l_RequestLogger, mbind, ST_bind, mret, ST_ret. cbv beta zeta. rewrite Hn, ctx_Some.
  destruct (next (Some l) (statusWriter w) r st) as [s [out w']]. eexists. split; [done|]. apply msg_lines.
Qed.

Lemma no_line {L : ZerologLaws ZL} lvl fields msg : zl_Msg (zl_Ctx None) lvl fields msg = [].
Proof using. apply nil_length_inv. by rewrite msg_lines, ctx_None. Qed.

(** Without one, neither the access log nor the recovery writes anything. *)
Lemma l_httpHandler_lines {L : ZerologLaws ZL} origins maxBytes (next : LHandler) w r (st : list string * W) :
  (l_httpHandler global origins maxBytes next None w r st).2.1 = inner_lines global origins maxBytes next w r st.
Proof using.
  unfold l_httpHandler, l_Recovery, l_RequestLogger, inner_lines. set (m := l_RequestID _ _ _ _ _).
  unfold mbind, ST_bind, mret, ST_ret. cbv beta zeta. destruct (m st) as [[rs|p] [out s]]; cbn [fst snd write].
  all: unfold write; rewrite ?no_line; cbn [fst snd]; rewrite ?no_line, ?app_nil_r; done.
Qed.
End erasure.

(** ** Setup *)
Section setup_lemmas.
Context {W : Type} `{OS (ST W), ZL : Zerolog, Lowering} {L : ZerologLaws ZL} {LL : LoweringLaws _}.

Lemma asked_level_ok cfg :
  existsb (lowers_to (logger_Level cfg)) validLevels = true ->
  zl_ParseLevel (ToLower (logger_Level cfg)) = Some (asked_level cfg).
Proof using LL L.
  intros Hl. change validLevels with (level_text <$> levels) in Hl. unfold asked_level.
  apply existsb_exists in Hl as (name & Hin & Hlow).
  apply list_elem_of_In, list_elem_of_fmap in Hin as (l & -> & Hin).
  destruct (list_find (fun l => lowers_to (logger_Level cfg) (level_text l) = true) levels) as [[i l']|] eqn:Hf.
  - apply list_find_Some in Hf as (Hi & Hl' & _). cbn. rewrite (lower_word _ (level_text l')); [apply parse_names| |done].
    change validLevels with (level_text <$> levels). apply list_elem_of_fmap. exists l'. split; [done|].
    by eapply list_elem_of_lookup_2.
  - apply list_find_None in Hf. rewrite Forall_forall in Hf. by destruct (Hf l Hin).
Qed.

(** A sound configuration is set up as it asks, whatever the operating system answers. *)
Lemma Setup_sound cfg w :
  logger_sound cfg -> logger_Level cfg <> "" -> exists w', Setup cfg w = (Ok (zl_New (asked_writer cfg) (asked_level cfg)), w').
Proof using LL L.
  intros [[|Hl] Ht] Hne; [done|]. unfold Setup. rewrite (asked_level_ok cfg Hl). cbn [default].
  unfold asked_writer, try, mbind, ST_bind, mret, ST_ret.
  destruct Ht as [Ht|(Ht & f & Hf & _)].
  - assert (bool_decide (logger_Type cfg = "file") = false) as ->
      by
      (apply bool_decide_eq_false_2; intros E; pose proof (bool_decide_eq_true_2 _ Ht) as Hb; rewrite E in Hb; discriminate Hb).
    case_bool_decide; cbn; destruct (logger_File cfg); by eexists.
  - rewrite Ht, Hf. cbn. unfold newFileWriter. by eexists.
Qed.
End setup_lemmas.
