(* ===== verification/Ws.v ===== *)
(** * Package delivery/ws

    [internal/delivery/ws/{hub,client,handler,event}.go]: the hub with one room
    per chat, the clients with their bounded send buffers, and the connections as
    a transition system.  A [*Client] is a number, an address in the heap of
    clients; a [sync.Map] is a finite map, its operations being atomic. *)
From S2P Require Import Prelude Utf8 Domain GoStd Json Store System Http Handlers Router.
Open Scope Z_scope.

(** ** event.go *)

(** [Payload] is a [json.RawMessage]; nil and [null] are sent alike. *)
Record Event : Type := mkEvent {
  ev_Type : string; ev_Payload : json; ev_SenderID : uuid; ev_ChatID : uuid }.

(** The tags keep the sender and the chat on the server. *)
Definition marshal_Event (e : Event) : json :=
  JObj [("type", marshal_string (ev_Type e)); ("payload", ev_Payload e)].

Record clientEvent : Type := mkClientEvent { ce_Type : string; ce_ChatID : uuid; ce_Payload : json }.

Definition read_raw : reader json := fun _ j => Ok j.

Definition decode_clientEvent `{UUIDParse} (j : json) : res clientEvent :=
  match j with
  | JObj fs =>
    both (read_field "type" read_string "" fs) (fun type =>
    both (read_field "chat_id" read_uuid Nil fs) (fun chat =>
    both (read_field "payload" read_raw JNull fs) (fun payload => Ok (mkClientEvent type chat payload))))
  | JNull => Ok (mkClientEvent "" Nil JNull)
  | _ => Err unmarshal_error
  end.

(** ** client.go: the data *)
Definition sendBufferSize : nat := 256.

(** [cl_send] is the content of the channel, the oldest frame first. *)
Record Client : Type := mkClient {
  cl_userID : uuid; cl_chatIDs : list uuid; cl_send : list json }.

Definition isMember (c : Client) (chatID : uuid) : bool := bool_decide (chatID ∈ cl_chatIDs c).

(** ** hub.go *)
Record Hub : Type := mkHub {
  hub_rooms : gmap uuid (gset nat);
  hub_heap : gmap nat Client }.

Definition NewHub : Hub := mkHub ∅ ∅.

(** [room]: the room of a chat, made when missing. *)
Definition room (rooms : gmap uuid (gset nat)) (chatID : uuid) : gset nat := default ∅ (rooms !! chatID).

Definition Subscribe (c : nat) (chatIDs : list uuid) (h : Hub) : Hub :=
  mkHub (foldl (fun rs id => <[id := {[c]} ∪ room rs id]> rs) (hub_rooms h) chatIDs) (hub_heap h).

Definition Unsubscribe (c : nat) (chatIDs : list uuid) (h : Hub) : Hub :=
  mkHub (foldl (fun rs id => match rs !! id with
                             | Some r => <[id := r ∖ {[c]}]> rs
                             | None => rs end) (hub_rooms h) chatIDs) (hub_heap h).

(** [client.send <- data], dropped when the buffer is full. *)
Definition offer (data : json) (c : Client) : Client :=
  if (length (cl_send c) <? sendBufferSize)%nat
  then mkClient (cl_userID c) (cl_chatIDs c) (cl_send c ++ [data]) else c.

(** One turn of the [Range] of [BroadcastToChat]. *)
Definition deliver (data : json) (excludeUserID : uuid) (heap : gmap nat Client) (k : nat) : gmap nat Client :=
  alter (fun c => if bool_decide (cl_userID c = excludeUserID) then c else offer data c) k heap.

Definition BroadcastToChat (chatID : uuid) (e : Event) (excludeUserID : uuid) (h : Hub) : Hub :=
  match hub_rooms h !! chatID with
  | None => h
  | Some r => mkHub (hub_rooms h) (foldl (deliver (marshal_Event e) excludeUserID) (hub_heap h) (elements r))
  end.

(** One event of [Dispatch]. *)
Definition dispatch (e : Event) (h : Hub) : Hub := BroadcastToChat (ev_ChatID e) e (ev_SenderID e) h.

(** ** client.go: the pumps *)

(** [NewClient]: a fresh client in the rooms of its chats. *)
Definition NewClient (userID : uuid) (chatIDs : list uuid) (h : Hub) : nat * Hub :=
  let k := fresh (dom (hub_heap h)) in
  (k, Subscribe k chatIDs (mkHub (hub_rooms h) (<[k := mkClient userID chatIDs []]> (hub_heap h)))).

(** What [ReadMessage] gives: a frame of some size, holding a JSON text or not. *)
Record frame : Type := mkFrame { fr_size : Z; fr_doc : option json }.

(** [SetReadLimit]: a limit that is not positive is none. *)
Definition too_large (maxMessageSize : Z) (f : frame) : bool := (0 <? maxMessageSize) && (maxMessageSize <? fr_size f).

(** One turn of the loop of [readPump]: [None] when the connection is given up. *)
Definition read_turn `{UUIDParse} (maxMessageSize : Z) (k : nat) (f : frame) (h : Hub) : option Hub :=
  if too_large maxMessageSize f then None else
  match hub_heap h !! k with
  | None => None
  | Some c =>
    match match fr_doc f with Some j => decode_clientEvent j | None => Err unmarshal_error end with
    | Err _ => Some h
    | Ok ce =>
      if negb (isMember c (ce_ChatID ce)) then Some h
      else Some (BroadcastToChat (ce_ChatID ce)
                   (mkEvent (ce_Type ce) (ce_Payload ce) (cl_userID c) (ce_ChatID ce)) (cl_userID c) h)
    end
  end.

(** The deferred end of [readPump]. *)
Definition close_client (k : nat) (h : Hub) : Hub :=
  match hub_heap h !! k with
  | None => h
  | Some c => Unsubscribe k (cl_chatIDs c) h
  end.

(** [writePump] takes the oldest frame and writes it. *)
Definition write_turn (k : nat) (h : Hub) : option (json * Hub) :=
  match hub_heap h !! k with
  | Some c =>
    match cl_send c with
    | data :: rest =>
      Some (data, mkHub (hub_rooms h) (<[k := mkClient (cl_userID c) (cl_chatIDs c) rest]> (hub_heap h)))
    | [] => None
    end
  | None => None
  end.

(** ** handler.go: the life of the connections *)
Section connections.
Context {W : Type} `{CU : chat_UseCase (ST W), UU : user_UseCase (ST W), UP : UUIDParse, UG : Upgrader}.
Context (allowedOrigins : list string) (maxMessageSize : Z) (serve_call : api_call -> ST W (res unit)).

(** The hub, the connections still open, and the state of the services. *)
Record ws_state : Type := mkWsState { ws_hub : Hub; ws_open : gset nat; ws_services : W }.

Inductive ws_event : Type :=
| Connects (w : ResponseWriter) (r : request)
| Sends (k : nat) (f : frame)
| Writes (k : nat)
| Closes (k : nat)
| Dispatches (e : Event)
| Calls (c : api_call).

Definition on_hub (f : Hub -> Hub) (st : ws_state) : ws_state :=
  mkWsState (f (ws_hub st)) (ws_open st) (ws_services st).

(** [ServeHTTP] ends: the client leaves its rooms, its user is set offline. *)
Definition close_conn (k : nat) (st : ws_state) : ws_state :=
  match hub_heap (ws_hub st) !! k with
  | None => st
  | Some c =>
    mkWsState (close_client k (ws_hub st)) (ws_open st ∖ {[k]}) (uc_SetOffline (cl_userID c) (ws_services st)).2
  end.

(** One event; [Calls] is a request of the HTTP API in between. *)
Definition ws_step (ev : ws_event) (st : ws_state) : ws_state :=
  match ev with
  | Connects w r =>
    let '(a, s) := ws_accept allowedOrigins w r (ws_services st) in
    match a with
    | Ok (inr (u, ids)) => let '(k, h) := NewClient u ids (ws_hub st) in mkWsState h ({[k]} ∪ ws_open st) s
    | _ => mkWsState (ws_hub st) (ws_open st) s
    end
  | Sends k f =>
    if bool_decide (k ∈ ws_open st) then
      match read_turn maxMessageSize k f (ws_hub st) with
      | Some h => on_hub (fun _ => h) st
      | None => close_conn k st
      end
    else st
  | Writes k =>
    if bool_decide (k ∈ ws_open st) then
      match write_turn k (ws_hub st) with Some (_, h) => on_hub (fun _ => h) st | None => st end
    else st
  | Closes k => if bool_decide (k ∈ ws_open st) then close_conn k st else st
  | Dispatches e => on_hub (dispatch e) st
  | Calls c => mkWsState (ws_hub st) (ws_open st) (serve_call c (ws_services st)).2
  end.

Definition ws_run (evs : list ws_event) (st : ws_state) : ws_state := foldl (fun st ev => ws_step ev st) st evs.

(** What [frames_arrive_in_order] compares the hub with, event by event: the chat an
    event is broadcast to, the frame, and the user left out.  That the hub broadcasts
    just this is [read_turn_after] and [step_client]. *)
Definition broadcasts (ev : ws_event) (st : ws_state) : option (uuid * json * uuid) :=
  match ev with
  | Sends k f =>
    if bool_decide (k ∈ ws_open st) && negb (too_large maxMessageSize f) then
      match hub_heap (ws_hub st) !! k, fr_doc f with
      | Some c, Some j =>
        match decode_clientEvent j with
        | Ok ce => if isMember c (ce_ChatID ce)
                   then Some (ce_ChatID ce, marshal_Event (mkEvent (ce_Type ce) (ce_Payload ce) (cl_userID c) (ce_ChatID ce)), cl_userID c)
                   else None
        | Err _ => None
        end
      | _, _ => None
      end
    else None
  | Dispatches e => Some (ev_ChatID e, marshal_Event e, ev_SenderID e)
  | _ => None
  end.

(** The frames an event addresses to a client, and those it puts on its wire. *)
Definition addressed (k : nat) (ev : ws_event) (st : ws_state) : list json :=
  match broadcasts ev st, hub_heap (ws_hub st) !! k with
  | Some (c, data, x), Some cl =>
    if bool_decide (k ∈ room (hub_rooms (ws_hub st)) c) && negb (bool_decide (cl_userID cl = x)) then [data] else []
  | _, _ => []
  end.

Definition wire (k : nat) (ev : ws_event) (st : ws_state) : list json :=
  match ev with
  | Writes k' =>
    if bool_decide (k' = k) && bool_decide (k ∈ ws_open st)
    then match write_turn k (ws_hub st) with Some (data, _) => [data] | None => [] end else []
  | _ => []
  end.

Fixpoint over_run (f : ws_event -> ws_state -> list json) (evs : list ws_event) (st : ws_state) : list json :=
  match evs with
  | [] => []
  | ev :: evs => f ev st ++ over_run f evs (ws_step ev st)
  end.
End connections.
Arguments ws_state : clear implicits.

(** ** Rooms *)
Lemma room_insert rs id r id' : room (<[id := r]> rs) id' = if bool_decide (id' = id) then r else room rs id'.
Proof.
  unfold room. case_bool_decide as E; [subst; by rewrite lookup_insert_eq|by rewrite lookup_insert_ne by done].
Qed.

Lemma Subscribe_room c ids h id k :
  k ∈ room (hub_rooms (Subscribe c ids h)) id <-> (k = c /\ id ∈ ids) \/ k ∈ room (hub_rooms h) id.
Proof.
  unfold Subscribe. cbn. destruct h as [rs heap]. cbn. revert rs.
  induction ids as [|i ids IH]; intros rs; cbn [foldl].
  - split; [by right|]. by intros [[_ ?%not_elem_of_nil]|?].
  - rewrite IH, room_insert, elem_of_cons. case_bool_decide; [subst; rewrite elem_of_union, elem_of_singleton|]; tauto.
Qed.

Lemma Unsubscribe_room c ids h id k :
  k ∈ room (hub_rooms (Unsubscribe c ids h)) id <-> ~ (k = c /\ id ∈ ids) /\ k ∈ room (hub_rooms h) id.
Proof.
  unfold Unsubscribe. cbn. destruct h as [rs heap]. cbn. revert rs.
  induction ids as [|i ids IH]; intros rs; cbn [foldl].
  - split; [|by intros []]. intros ?. split; [|done]. by intros [_ ?%not_elem_of_nil].
  - rewrite IH, elem_of_cons. destruct (rs !! i) as [r|] eqn:E.
    + assert (room rs i = r) as Hr by (unfold room; by rewrite E).
      rewrite room_insert. case_bool_decide; [subst; rewrite elem_of_difference, elem_of_singleton|]; tauto.
    + assert (room rs i = ∅) as Hr by (unfold room; by rewrite E).
      destruct (decide (id = i)) as [->|]; [rewrite Hr; rewrite !elem_of_empty; tauto|tauto].
Qed.

(** ** Broadcast *)
Definition receives (data : json) (excludeUserID : uuid) (c : Client) : Client :=
  if bool_decide (cl_userID c = excludeUserID) then c else offer data c.

(** Whatever the order of the [Range], each client of the room gets one offer. *)
Lemma deliver_all data x ks heap :
  NoDup ks -> forall k, foldl (deliver data x) heap ks !! k =
  (if bool_decide (k ∈ ks) then receives data x else id) <$> heap !! k.
Proof.
  intros Hnd. revert heap. induction Hnd as [|i ks Hi Hnd IH]; intros heap k; cbn [foldl].
  - rewrite bool_decide_eq_false_2 by apply not_elem_of_nil. by destruct (heap !! k).
  - rewrite IH. unfold deliver at 1. destruct (decide (k = i)) as [->|Hne].
    + rewrite lookup_alter_eq, bool_decide_eq_false_2 by done.
      rewrite bool_decide_eq_true_2 by by left. by destruct (heap !! i).
    + rewrite lookup_alter_ne by done. erewrite bool_decide_ext; [reflexivity|]. rewrite elem_of_cons. tauto.
Qed.

Lemma BroadcastToChat_heap c e x h k :
  hub_heap (BroadcastToChat c e x h) !! k =
  (if bool_decide (k ∈ room (hub_rooms h) c) then receives (marshal_Event e) x else id) <$> hub_heap h !! k.
Proof.
  unfold BroadcastToChat, room. destruct (hub_rooms h !! c) as [r|]; cbn.
  - rewrite deliver_all by apply NoDup_elements. erewrite bool_decide_ext; [reflexivity|]. apply elem_of_elements.
  - rewrite bool_decide_eq_false_2 by set_solver. by destruct (hub_heap h !! k).
Qed.

Lemma BroadcastToChat_rooms c e x h : hub_rooms (BroadcastToChat c e x h) = hub_rooms h.
Proof. unfold BroadcastToChat. by destruct (hub_rooms h !! c). Qed.

Lemma receives_keeps data x c :
  cl_userID (receives data x c) = cl_userID c /\ cl_chatIDs (receives data x c) = cl_chatIDs c.
Proof. unfold receives, offer. by repeat case_match. Qed.

Lemma receives_bounded data x c :
  (length (cl_send c) <= sendBufferSize)%nat -> (length (cl_send (receives data x c)) <= sendBufferSize)%nat.
Proof.
  intros Hc. unfold receives, offer. destruct (bool_decide _); [done|].
  destruct (_ <? _)%nat eqn:E; [|done]. apply Nat.ltb_lt in E. cbn. rewrite length_app. cbn. lia.
Qed.
