(* ===== verification/WsInvariant.v ===== *)
(** * What the hub guarantees

    Rooms are exactly the subscriptions of the open connections, buffers are
    bounded, a frame reaches a client through the rooms only, in order; and a
    client listens to the chats its user was a member of when it connected. *)
From S2P Require Import Prelude Utf8 Domain GoStd Json Store System Http Handlers Router Ws.
Open Scope Z_scope.

Section connections.
Context {W : Type} `{CU : chat_UseCase (ST W), UU : user_UseCase (ST W), UP : UUIDParse, UG : Upgrader}.
Context (allowedOrigins : list string) (maxMessageSize : Z) (serve_call : api_call -> ST W (res unit)).
Implicit Types st : ws_state W.

Abbreviation step := (ws_step allowedOrigins maxMessageSize serve_call).

(** ** One event, seen from one client *)

(** The hub after the event, when it is neither a connection nor its end. *)
Definition after_broadcast (b : option (uuid * json * uuid)) (h h' : Hub) : Prop :=
  hub_rooms h' = hub_rooms h /\
  forall k, hub_heap h' !! k =
    match b with
    | Some (c, data, x) => (if bool_decide (k ∈ room (hub_rooms h) c) then receives data x else id) <$> hub_heap h !! k
    | None => hub_heap h !! k
    end.

Lemma after_same h : after_broadcast None h h.
Proof using. by split. Qed.

Lemma after_BroadcastToChat c e x h : after_broadcast (Some (c, marshal_Event e, x)) h (BroadcastToChat c e x h).
Proof using. split; [apply BroadcastToChat_rooms|]. intros k. apply BroadcastToChat_heap. Qed.

Lemma read_turn_after k f st :
  k ∈ ws_open st ->
  match read_turn maxMessageSize k f (ws_hub st) with
  | Some h => after_broadcast (broadcasts maxMessageSize (Sends k f) st) (ws_hub st) h
  | None => broadcasts maxMessageSize (Sends k f) st = None
  end.
Proof using.
  intros Hk. unfold read_turn, broadcasts. rewrite bool_decide_eq_true_2 by done. cbn [andb].
  destruct (too_large maxMessageSize f) eqn:Es; cbn [negb]; [done|].
  destruct (hub_heap (ws_hub st) !! k) as [c|]; [|done].
  destruct (fr_doc f) as [j|]; [|apply after_same]. destruct (decode_clientEvent j) as [ce|]; [|apply after_same].
  destruct (isMember c (ce_ChatID ce)); cbn [negb]; [apply after_BroadcastToChat|apply after_same].
Qed.

(** What happens to the client behind an address. *)
Definition client_step (k : nat) (ev : ws_event) (st : ws_state W) (cl cl' : Client) : Prop :=
  cl_userID cl' = cl_userID cl /\ cl_chatIDs cl' = cl_chatIDs cl /\
  (wire k ev st ++ cl_send cl' = cl_send cl ++ addressed maxMessageSize k ev st \/
   (sendBufferSize <= length (cl_send cl))%nat /\ wire k ev st = [] /\ cl_send cl' = cl_send cl).

Lemma client_step_refl k ev st cl :
  wire k ev st = [] -> addressed maxMessageSize k ev st = [] -> client_step k ev st cl cl.
Proof using. intros Hw Ha. split; [done|]. split; [done|]. left. by rewrite Hw, Ha, app_nil_r. Qed.

Lemma client_step_broadcast k ev st h cl :
  hub_heap (ws_hub st) !! k = Some cl -> wire k ev st = [] ->
  after_broadcast (broadcasts maxMessageSize ev st) (ws_hub st) h ->
  exists cl', hub_heap h !! k = Some cl' /\ client_step k ev st cl cl'.
Proof using.
  intros Hk Hw [_ Hh]. specialize (Hh k). rewrite Hk in Hh. unfold client_step, addressed. rewrite Hk, Hw.
  destruct (broadcasts maxMessageSize ev st) as [[[c data] x]|].
  2:{ exists cl. rewrite app_nil_r. auto. }
  destruct (bool_decide (k ∈ room _ c)) eqn:Er; cbn [andb] in *; rewrite ?Er; cbn in *.
  2:{ exists cl. rewrite app_nil_r. auto. }
  exists (receives data x cl). split; [done|]. split; [apply receives_keeps|]. split; [apply receives_keeps|].
  unfold receives. destruct (bool_decide (cl_userID cl = x)); cbn.
  - left. by rewrite app_nil_r.
  - unfold offer. destruct (_ <? _)%nat eqn:E; [by left|right]. apply Nat.ltb_ge in E. auto.
Qed.

Lemma close_conn_heap k st : hub_heap (ws_hub (close_conn k st)) = hub_heap (ws_hub st).
Proof using. unfold close_conn, close_client. by destruct (hub_heap (ws_hub st) !! k) eqn:E; cbn; rewrite ?E. Qed.

Lemma step_client k ev st cl :
  hub_heap (ws_hub st) !! k = Some cl ->
  exists cl', hub_heap (ws_hub (step ev st)) !! k = Some cl' /\ client_step k ev st cl cl'.
Proof using.
  intros Hk. destruct ev as [w r|i f|i|i|e|c].
  - cbn. destruct ((ws_accept allowedOrigins w r : ST W _) (ws_services st)) as [a s]. destruct a as [[rs|[u ids]]|p]; cbn;
      (exists cl; split; [|by apply client_step_refl]); try done.
    rewrite lookup_insert_ne; [done|]. intros Heq.
    pose proof (is_fresh (dom (hub_heap (ws_hub st)))) as Hf. apply Hf. rewrite Heq. apply elem_of_dom. by eexists.
  - cbn [ws_step]. case_bool_decide as Ho.
    + pose proof (read_turn_after i f st Ho) as Hr. destruct (read_turn _ i f (ws_hub st)) as [h|].
      * destruct (client_step_broadcast k (Sends i f) st h cl Hk eq_refl Hr) as (cl' & Hcl' & Hs). by exists cl'.
      * exists cl. rewrite close_conn_heap. split; [done|]. apply client_step_refl; [done|].
        unfold addressed. by rewrite Hr.
    + exists cl. split; [done|]. apply client_step_refl; [done|]. unfold addressed, broadcasts.
      by rewrite bool_decide_eq_false_2.
  - cbn [ws_step wire]. destruct (decide (i = k)) as [->|Hne].
    + case_bool_decide as Ho; [|exists cl; split; [done|]; apply client_step_refl; [|done];
        cbn; by rewrite (bool_decide_eq_false_2 (k ∈ _)), andb_false_r].
      unfold client_step, addressed. cbn [wire broadcasts]. rewrite !bool_decide_eq_true_2 by done. cbn [andb].
      unfold write_turn. rewrite Hk. destruct (cl_send cl) as [|data rest] eqn:Es.
      * exists cl. rewrite Es. by split; [|split; [|split; [|left]]].
      * eexists. cbn. rewrite lookup_insert_eq. split; [done|]. cbn. split; [done|]. split; [done|]. left. by rewrite app_nil_r.
    + assert (wire k (Writes i) st = []) as Hw by (cbn; by rewrite bool_decide_eq_false_2).
      exists cl. split; [|by apply client_step_refl].
      case_bool_decide; [|done]. unfold write_turn. destruct (hub_heap (ws_hub st) !! i) as [c|]; [|done].
      destruct (cl_send c); [done|]. cbn. by rewrite lookup_insert_ne.
  - cbn [ws_step]. exists cl. split; [|by apply client_step_refl]. case_bool_decide; [|done]. by rewrite close_conn_heap.
  - destruct (client_step_broadcast k (Dispatches e) st (dispatch e (ws_hub st)) cl Hk eq_refl) as (cl' & Hcl' & Hs);
      [apply after_BroadcastToChat|]. by exists cl'.
  - exists cl. split; [done|by apply client_step_refl].
Qed.

(** ** Order: what a client is sent is a selection, in order, of what was
    addressed to it; all of it while the backlog fits the buffer *)
Abbreviation sent_to k := (over_run allowedOrigins maxMessageSize serve_call (wire k)).
Abbreviation addressed_to k := (over_run allowedOrigins maxMessageSize serve_call (addressed maxMessageSize k)).
Abbreviation run := (ws_run allowedOrigins maxMessageSize serve_call).

Lemma run_client k evs st cl :
  hub_heap (ws_hub st) !! k = Some cl ->
  exists cl', hub_heap (ws_hub (run evs st)) !! k = Some cl' /\
    cl_userID cl' = cl_userID cl /\ cl_chatIDs cl' = cl_chatIDs cl /\
    sent_to k evs st ++ cl_send cl' `sublist_of` cl_send cl ++ addressed_to k evs st /\
    ((length (cl_send cl) + length (addressed_to k evs st) <= sendBufferSize)%nat ->
     sent_to k evs st ++ cl_send cl' = cl_send cl ++ addressed_to k evs st).
Proof using.
  revert st cl. induction evs as [|ev evs IH]; intros st cl Hk; cbn [over_run].
  { exists cl. rewrite app_nil_r. repeat split; done. }
  destruct (step_client k ev st cl Hk) as (cl1 & Hk1 & Hu1 & Hc1 & Hs1).
  destruct (IH _ cl1 Hk1) as (cl2 & Hk2 & Hu2 & Hc2 & Hsub & Heq). exists cl2.
  split; [exact Hk2|]. split; [congruence|]. split; [congruence|]. rewrite <- !app_assoc.
  destruct Hs1 as [Hs1|(Hfull & Hw & Hs1)].
  - split.
    + rewrite (app_assoc (cl_send cl)), <- Hs1, <- app_assoc. by apply sublist_app.
    + rewrite length_app. intros Hlen. rewrite Heq; [by rewrite app_assoc, Hs1, <- app_assoc|].
      apply (f_equal length) in Hs1. rewrite !length_app in Hs1. lia.
  - rewrite Hw, <- Hs1. cbn. split.
    + etransitivity; [exact Hsub|]. apply sublist_app; [done|by apply sublist_inserts_l].
    + rewrite length_app. intros Hlen. rewrite Heq by lia.
      destruct (addressed maxMessageSize k ev st) as [|x l]; [done|]. cbn in Hlen. rewrite Hs1 in Hlen. lia.
Qed.

(** ** Rooms, connections and buffers *)
Record ws_ok (st : ws_state W) : Prop := {
  ok_rooms c k : k ∈ room (hub_rooms (ws_hub st)) c <->
    k ∈ ws_open st /\ exists cl, hub_heap (ws_hub st) !! k = Some cl /\ c ∈ cl_chatIDs cl;
  ok_open k : k ∈ ws_open st -> is_Some (hub_heap (ws_hub st) !! k);
  ok_buffers k cl : hub_heap (ws_hub st) !! k = Some cl -> (length (cl_send cl) <= sendBufferSize)%nat }.

Lemma ok_start (s : W) : ws_ok (mkWsState NewHub ∅ s).
Proof using.
  split; cbn; [|by intros k ?%elem_of_empty|done].
  intros c k. unfold room. cbn. rewrite elem_of_empty. split; [by intros ?%elem_of_empty|by intros [? _]].
Qed.

Lemma ok_after b st h :
  ws_ok st -> after_broadcast b (ws_hub st) h -> ws_ok (on_hub (fun _ => h) st).
Proof using.
  intros [Hr Ho Hb] [Hrooms Hh].
  assert (forall k, exists f, hub_heap h !! k = f <$> hub_heap (ws_hub st) !! k /\
    (forall c, cl_chatIDs (f c) = cl_chatIDs c /\
       ((length (cl_send c) <= sendBufferSize)%nat -> (length (cl_send (f c)) <= sendBufferSize)%nat))) as Hf.
  { intros k. specialize (Hh k). destruct b as [[[c data] x]|].
    - destruct (bool_decide _); eexists; (split; [exact Hh|]); intros cl; [|by split].
      split; [apply receives_keeps|apply receives_bounded].
    - exists id. rewrite Hh. split; [by destruct (hub_heap (ws_hub st) !! k)|by split]. }
  split; cbn.
  - intros c k. rewrite Hrooms, Hr. destruct (Hf k) as (f & -> & Hf').
    split; intros [Hopen (cl & Hcl & Hin)]; (split; [done|]).
    + exists (f cl). rewrite Hcl. split; [done|]. by rewrite (proj1 (Hf' cl)).
    + apply fmap_Some in Hcl as (cl0 & Hcl0 & ->). exists cl0. split; [done|]. by rewrite <- (proj1 (Hf' cl0)).
  - intros k Hk. destruct (Hf k) as (f & -> & _). by apply fmap_is_Some, Ho.
  - intros k cl. destruct (Hf k) as (f & -> & Hf'). intros (cl0 & Hcl0 & ->)%fmap_Some.
    apply Hf'. by apply (Hb k).
Qed.

Lemma ok_close k st : k ∈ ws_open st -> ws_ok st -> ws_ok (close_conn k st).
Proof using.
  intros Hk [Hr Ho Hb]. destruct (Ho k Hk) as [cl Hcl].
  unfold close_conn, close_client. rewrite Hcl. split; cbn [ws_hub ws_open hub_rooms hub_heap].
  - intros c i. rewrite Unsubscribe_room, Hr, elem_of_difference, elem_of_singleton. cbn.
    destruct (decide (i = k)) as [->|]; [|tauto].
    split; [|tauto]. intros (Hn & _ & cl' & Hcl' & Hin). exfalso. apply Hn. split; [done|]. congruence.
  - intros i [Hi _]%elem_of_difference. by apply Ho.
  - exact Hb.
Qed.

Lemma ok_connect u ids st s :
  ws_ok st -> let '(k, h) := NewClient u ids (ws_hub st) in ws_ok (mkWsState h ({[k]} ∪ ws_open st) s).
Proof using.
  intros [Hr Ho Hb]. unfold NewClient. set (k := fresh _).
  assert (hub_heap (ws_hub st) !! k = None) as Hk by (apply not_elem_of_dom, is_fresh).
  assert (k ∉ ws_open st) as Hno by (intros Hin; apply Ho in Hin as [? ?]; congruence).
  split; cbn [ws_hub ws_open].
  - intros c i. rewrite Subscribe_room. cbn. rewrite Hr, elem_of_union, elem_of_singleton.
    destruct (decide (i = k)) as [->|Hne].
    + rewrite lookup_insert_eq. split.
      * intros [[_ Hin]|[? _]]; [|done]. split; [by left|]. by eexists.
      * intros [_ (cl & [= <-] & Hin)]. by left.
    + rewrite lookup_insert_ne by done. split; [intros [[? _]|?]; [done|tauto]|]. intros [[?|?] ?]; [done|by right].
  - cbn. intros i [->%elem_of_singleton|Hi]%elem_of_union; [rewrite lookup_insert_eq; by eexists|].
    destruct (decide (i = k)) as [->|]; [rewrite lookup_insert_eq; by eexists|].
    rewrite lookup_insert_ne by done. by apply Ho.
  - cbn. intros i cl. destruct (decide (i = k)) as [->|]; [|rewrite lookup_insert_ne by done; by apply Hb].
    rewrite lookup_insert_eq. intros [= <-]. cbn. lia.
Qed.

Lemma ok_write k st data h : ws_ok st -> write_turn k (ws_hub st) = Some (data, h) -> ws_ok (on_hub (fun _ => h) st).
Proof using.
  intros [Hr Ho Hb]. unfold write_turn. destruct (hub_heap (ws_hub st) !! k) as [cl|] eqn:Hk; [|done].
  destruct (cl_send cl) as [|d rest] eqn:Es; [done|]. intros [= -> <-]. split; cbn.
  - intros c i. rewrite Hr. destruct (decide (i = k)) as [->|]; [|by rewrite lookup_insert_ne].
    rewrite lookup_insert_eq, Hk. split; intros [? (cl' & [= <-] & ?)]; (split; [done|]); by eexists.
  - intros i Hi. destruct (decide (i = k)) as [->|]; [rewrite lookup_insert_eq; by eexists|].
    rewrite lookup_insert_ne by done. by apply Ho.
  - intros i cl'. destruct (decide (i = k)) as [->|]; [|rewrite lookup_insert_ne by done; apply Hb].
    rewrite lookup_insert_eq. intros [= <-]. cbn. specialize (Hb k cl Hk). rewrite Es in Hb. cbn in Hb. lia.
Qed.

Lemma ok_step ev st : ws_ok st -> ws_ok (step ev st).
Proof using.
  intros Hok. destruct ev as [w r|k f|k|k|e|c]; cbn [ws_step].
  - destruct ((ws_accept allowedOrigins w r : ST W _) (ws_services st)) as [[[rs|[u ids]]|p] s].
    + by destruct Hok as [? ? ?].
    + pose proof (ok_connect u ids st s Hok) as Hc. by destruct (NewClient u ids (ws_hub st)).
    + by destruct Hok as [? ? ?].
  - case_bool_decide as Hk; [|done]. pose proof (read_turn_after k f st Hk) as Hr.
    destruct (read_turn _ k f (ws_hub st)) as [h|]; [by eapply ok_after|by apply ok_close].
  - case_bool_decide; [|done]. destruct (write_turn k (ws_hub st)) as [[data h]|] eqn:Ew; [by eapply ok_write|done].
  - case_bool_decide; [by apply ok_close|done].
  - apply (ok_after (Some (ev_ChatID e, marshal_Event e, ev_SenderID e))); [done|]. apply after_BroadcastToChat.
  - by destruct Hok as [? ? ?].
Qed.

(** The conditions under which a frame is heard contradict what is known. *)
Ltac not_heard :=
  let Hko := fresh "Hko" in let Hcj' := fresh "Hcj'" in let Hm' := fresh "Hm'" in
  let Hdoc' := fresh "Hdoc'" in let Hce' := fresh "Hce'" in let Hu' := fresh "Hu'" in
  intros (_ & Hko & ? & ? & Hcj' & _ & (? & Hdoc' & Hce') & Hm' & _ & Hu' & _); simplify_eq; first [done|congruence].

(** A frame read from a client, seen by another: exactly one event is appended, when
    the frame is an event of a chat both have listed, of another user. *)
Lemma frame_heard j f k ck st :
  ws_ok st -> hub_heap (ws_hub st) !! k = Some ck ->
  let reached ce cj :=
    hub_heap (ws_hub st) !! j = Some cj /\ (0 < maxMessageSize -> fr_size f <= maxMessageSize) /\
    (exists doc, fr_doc f = Some doc /\ decode_clientEvent doc = Ok ce) /\
    ce_ChatID ce ∈ cl_chatIDs cj /\ ce_ChatID ce ∈ cl_chatIDs ck /\ cl_userID ck <> cl_userID cj /\
    (length (cl_send ck) < sendBufferSize)%nat in
  (hub_heap (ws_hub (step (Sends j f) st)) !! k = Some ck /\
   ~ (j ∈ ws_open st /\ k ∈ ws_open st /\ exists ce cj, reached ce cj)) \/
  (j ∈ ws_open st /\ k ∈ ws_open st /\ exists ce cj, reached ce cj /\
   hub_heap (ws_hub (step (Sends j f) st)) !! k =
     Some (mkClient (cl_userID ck) (cl_chatIDs ck)
             (cl_send ck ++ [JObj [("type", marshal_string (ce_Type ce)); ("payload", ce_Payload ce)]]))).
Proof using.
  intros Hok Hk. cbv zeta. cbn [ws_step]. case_bool_decide as Hj; [|left; split; [done|by intros []]].
  unfold read_turn. destruct (too_large maxMessageSize f) eqn:Hlarge.
  { left. rewrite close_conn_heap. split; [done|]. intros (_ & _ & ce & cj & _ & Hs & _).
    unfold too_large in Hlarge. bool_prop. lia. }
  assert (0 < maxMessageSize -> fr_size f <= maxMessageSize) as Hs by (unfold too_large in Hlarge; bool_prop; lia).
  destruct (ok_open _ Hok _ Hj) as [cj Hcj]. rewrite Hcj.
  destruct (fr_doc f) as [doc|] eqn:Hdoc; [|left; split; [done|not_heard]].
  destruct (decode_clientEvent doc) as [ce|e] eqn:Hce; [|left; split; [done|not_heard]].
  unfold isMember. case_bool_decide as Hm; cbn [negb on_hub ws_hub]; [|left; split; [done|not_heard]].
  rewrite BroadcastToChat_heap, Hk. cbn [fmap option_fmap option_map].
  destruct (bool_decide (k ∈ _)) eqn:Hroom; bool_prop; cbn [id].
  2:{ left. split; [done|]. intros (_ & Hko & ce' & cj' & _ & _ & (doc' & ? & ?) & _ & Hin & _).
      apply Hroom, (ok_rooms _ Hok). split; [done|]. exists ck. split; [done|]. congruence. }
  apply (ok_rooms _ Hok) in Hroom as (Hko & ck' & Hck' & Hin). assert (ck' = ck) as -> by congruence.
  unfold receives. case_bool_decide as Hu; [left; split; [done|not_heard]|].
  unfold offer. destruct (_ <? _)%nat eqn:Hfull.
  - right. apply Nat.ltb_lt in Hfull. split; [done|]. split; [done|]. exists ce, cj. split; [|done]. by eauto 10.
  - left. apply Nat.ltb_ge in Hfull. split; [done|]. intros (_ & _ & ce' & cj' & Hr). destruct_and? Hr. lia.
Qed.

Lemma ok_run evs st : ws_ok st -> ws_ok (run evs st).
Proof using. revert st. induction evs as [|ev evs IH]; intros st Hok; [done|]. apply IH. by apply ok_step. Qed.
End connections.

(** ** Subscriptions are memberships at connection time *)
Section membership.
Context {W : Type} (inv : W -> Prop) (view : W -> store).
Context `{CU : chat_UseCase (ST W), UU : user_UseCase (ST W), UP : UUIDParse, UG : Upgrader, LO : Loss}.
Context (allowedOrigins : list string) (maxMessageSize : Z) (serve_call : api_call -> ST W (res unit)).

(** The chats that are there and have the user as a member. *)
Definition lists_chats (d : store) (u : uuid) (ids : list uuid) : Prop :=
  forall c, c ∈ ids <-> is_member d c u /\ is_Some (st_chats d !! c).

(** What the handler relies on: the chats listed for a user are those of the user,
    and presence marks keep the invariant. *)
Context (Hchats : forall u, reads inv view (uc_GetUserChats u)
  (fun d ps => lists_chats d u ((fun p => chat_ID (pv_Chat p)) <$> ps)) never).
Context (Honline : forall u s, inv s -> inv ((uc_SetOnline u : ST W _) s).2).
Context (Hoffline : forall u s, inv s -> inv ((uc_SetOffline u : ST W _) s).2).
Context (Hcalls : forall c s, inv s -> inv (serve_call c s).2).

Abbreviation run := (ws_run allowedOrigins maxMessageSize serve_call).
Abbreviation step := (ws_step allowedOrigins maxMessageSize serve_call).

Lemma accept_members w r s :
  inv s -> wp (ws_accept allowedOrigins w r) (fun a s' => inv s' /\
    match a with Ok (inr (u, ids)) => rq_UserID r = Some u /\ lists_chats (view s) u ids | _ => True end) s.
Proof using Hchats Honline.
  intros Hi. unfold ws_accept, UserID. destruct (rq_UserID r) as [u|]; [|done].
  change (wp (let* previews := uc_GetUserChats u in
    match previews with
    | Ok previews =>
      match Upgrade (checkOrigin allowedOrigins) w r with
      | Ok _ => let* _ := uc_SetOnline u in mret (Ok (inr (u, (fun p => chat_ID (pv_Chat p)) <$> previews)))
      | Err rs => mret (Ok (inl rs))
      end
    | Err (GoPanic t) => mret (Err (mkPanic t []))
    | Err _ => mret (Ok (inl (mkResponse 500 [("Content-Type", "text/plain; charset=utf-8")] (Text "internal server error"))))
    end) (fun a s' => inv s' /\
    match a with Ok (inr (u0, ids)) => Some u = Some u0 /\ lists_chats (view s) u0 ids | _ => True end) s).
  apply wp_bind. eapply (wp_reads_raw inv view); [apply Hchats|done|done| |].
  - intros ps s' Hi' Hv Hps. destruct (Upgrade (checkOrigin allowedOrigins) w r) as [_|rs]; [|by apply wp_ret].
    apply wp_bind. unfold wp. specialize (Honline u s' Hi'). destruct ((uc_SetOnline u : ST W _) s') as [a s2].
    cbn in *. split; [done|]. by split.
  - intros e s' Hi' _ _. by destruct e.
Qed.

Lemma step_inv ev st : inv (ws_services st) -> inv (ws_services (step ev st)).
Proof using All.
  intros Hi. assert (forall k, inv (ws_services (close_conn k st))) as Hclose.
  { intros k. unfold close_conn. destruct (hub_heap (ws_hub st) !! k) as [cl|]; [by apply Hoffline|done]. }
  destruct ev as [w r|k f|k|k|e|c]; cbn [ws_step].
  - pose proof (accept_members w r (ws_services st) Hi) as Ha. unfold wp in Ha.
    destruct ((ws_accept allowedOrigins w r : ST W _) (ws_services st)) as [[[rs|[u ids]]|p] s]; by destruct Ha.
  - case_bool_decide; [|done]. by destruct (read_turn _ k f (ws_hub st)).
  - case_bool_decide; [|done]. by destruct (write_turn k (ws_hub st)) as [[data h]|].
  - case_bool_decide; [apply Hclose|done].
  - done.
  - by apply Hcalls.
Qed.

Lemma run_inv evs st : inv (ws_services st) -> inv (ws_services (run evs st)).
Proof using All. revert st. induction evs as [|ev evs IH]; intros st Hi; [done|]. apply IH. by apply step_inv. Qed.

(** A client appears with a connection and keeps its user and chats. *)
Lemma step_new_client ev st k cl :
  hub_heap (ws_hub st) !! k = None -> hub_heap (ws_hub (step ev st)) !! k = Some cl ->
  cl_send cl = [] /\
  exists w r s, ev = Connects w r /\ (ws_accept allowedOrigins w r : ST W _) (ws_services st) = (Ok (inr (cl_userID cl, cl_chatIDs cl)), s).
Proof using.
  intros Hn. destruct ev as [w r|i f|i|i|e|c]; cbn [ws_step].
  - destruct ((ws_accept allowedOrigins w r : ST W _) (ws_services st)) as [[[rs|[u ids]]|p] s] eqn:Ha; cbn; try congruence.
    destruct (decide (k = fresh (dom (hub_heap (ws_hub st))))) as [->|Hne].
    + rewrite lookup_insert_eq. intros [= <-]. split; [done|]. by exists w, r, s.
    + rewrite lookup_insert_ne by done. congruence.
  - case_bool_decide as Ho; [|congruence]. pose proof (read_turn_after maxMessageSize i f st Ho) as Hr.
    destruct (read_turn _ i f (ws_hub st)) as [h|]; [|rewrite close_conn_heap; congruence].
    destruct Hr as [_ Hr]. cbn. rewrite Hr, Hn. by destruct (broadcasts _ _ _) as [[[? ?] ?]|].
  - case_bool_decide; [|congruence]. unfold write_turn. destruct (hub_heap (ws_hub st) !! i) as [c|] eqn:Ei; [|congruence].
    destruct (cl_send c); [congruence|]. cbn. rewrite lookup_insert_ne; congruence.
  - case_bool_decide; [rewrite close_conn_heap|]; congruence.
  - cbn. unfold dispatch. rewrite BroadcastToChat_heap, Hn. done.
  - cbn. congruence.
Qed.

(** The handshake that made a client: until then there was none at its address, and
    its list is made of the chats its user, who asked for it, had at that moment. *)
Definition made_by (before : list ws_event) (r : request) (w : ResponseWriter) (start : ws_state W) (k : nat) (cl : Client) : Prop :=
  hub_heap (ws_hub (run before start)) !! k = None /\
  hub_heap (ws_hub (step (Connects w r) (run before start))) !! k = Some (mkClient (cl_userID cl) (cl_chatIDs cl) []) /\
  rq_UserID r = Some (cl_userID cl) /\
  lists_chats (view (ws_services (run before start))) (cl_userID cl) (cl_chatIDs cl).

Lemma run_members evs s k cl :
  inv s -> let start := mkWsState NewHub ∅ s in
  hub_heap (ws_hub (run evs start)) !! k = Some cl ->
  exists before w r after, evs = before ++ Connects w r :: after /\ made_by before r w start k cl.
Proof using All.
  intros Hi start. revert cl. induction evs as [|ev evs IH] using rev_ind; intros cl; [done|].
  assert (run (evs ++ [ev]) start = step ev (run evs start)) as -> by (unfold run; by rewrite foldl_app).
  set (st := run evs start). intros Hk. destruct (hub_heap (ws_hub st) !! k) as [cl0|] eqn:Hk0.
  - destruct (step_client allowedOrigins maxMessageSize serve_call k ev st cl0 Hk0) as (cl' & Hk' & Hu & Hc & _).
    assert (cl' = cl) as -> by congruence. destruct (IH cl0 Hk0) as (before & w & r & after & -> & Hm).
    exists before, w, r, (after ++ [ev]). rewrite <- app_assoc. split; [done|].
    unfold made_by in *. by rewrite Hu, Hc.
  - destruct (step_new_client ev st k cl Hk0 Hk) as (Hsend & w & r & s' & -> & Ha).
    exists evs, w, r, []. split; [done|].
    pose proof (accept_members w r (ws_services st) ltac:(by apply run_inv)) as Hacc.
    unfold wp in Hacc. rewrite Ha in Hacc. destruct Hacc as (_ & Hu & Hm).
    split_and!; [exact Hk0| |exact Hu|exact Hm]. fold st. rewrite Hk. f_equal. destruct cl. cbn in Hsend. by rewrite Hsend.
Qed.
End membership.
