(* ===== verification/UserPolicy.v ===== *)
(** * Accounts and tokens: exact behaviour

    When a profile may be updated, who may log in, and what the issued tokens
    are good for. *)
From S2P Require Import Prelude Utf8 Domain Config Validate UserUsecase Store World ChatPolicy UserRefinement Jwt System.
Open Scope Z_scope.

Section policy.
Context {W : Type} (inv : W -> Prop) (view : W -> store).
Context `{UR : UserRepository (ST W), TM : tokenManager (ST W), PH : passwordHasher (ST W)}.
Context `{CK : Clock (ST W), US : UUIDSource (ST W)}.
Context `{PR : Precision, TE : TextEq, LA : Latitude, LO : Loss} {HE : EnvSpec inv view}.
Context {HU : UserRepositorySpec inv view UR} {HT : TokenSpec inv view TM PH}.
Context {NL : Strict} (same_join : forall a b n, same_text a n = true -> same_text b n = true -> same_text a b = true).

(** The name a profile update asks for. *)
Definition wanted_name (old : User) (i : UpdateProfileInput) : string :=
  default (user_Username old) (upi_Username i).

(** [claimUsername] decides whether the name is free. *)
Lemma claimUsername_decides id u i w d :
  inv w -> view w = d -> accounts_wf d -> (exists old, st_users d !! id = Some old /\ user_Username old = user_Username u) ->
  wp (claimUsername id u i) (fun r w' => inv w' /\ match r with
    | Ok n => view w' = d /\ n = wanted_name u i /\ username_free d id n
    | Err e => infra e \/ (view w' = d /\ ~ username_free d id (wanted_name u i)) end) w.
Proof using HU same_join.
  intros Hi Hd (Hids & _ & Hnames) (old & Hold & Hun). unfold claimUsername, wanted_name.
  assert (username_free d id (user_Username u)) as Hown by (rewrite <- Hun; by eapply Hnames).
  destruct (upi_Username i) as [n|]; cbn; [|by apply wp_ret].
  wp_case; bool_prop; [apply wp_ret; subst n; by repeat split|]. apply wp_bind.
  eapply (wp_reads_raw inv view) with (d := d); [apply (spec_UserGetByUsername (UR := UR))|done|done| |].
  - intros x w1 Hi1 Hv1 [Hx Hsame]. wp_case; bool_prop; apply wp_ret; (split; [done|]).
    + right. split; [done|]. intros Hfree. rewrite (Hfree _ _ Hx C0) in Hsame. done.
    + split; [done|]. split; [done|]. intros k y Hy Hne. apply not_true_iff_false. intros Hs.
      pose proof (Hnames _ _ Hx k y Hy) as Hu. rewrite C0 in Hu. specialize (Hu Hne).
      by rewrite (same_join _ _ _ Hs Hsame) in Hu.
  - intros e w1 Hi1 Hv1 Hf. wp_case; bool_prop; apply wp_ret; (split; [done|]).
    + destruct Hf as [[-> _]|?]; [done|by left].
    + split; [done|]. split; [done|]. intros k y Hy _. destruct Hf as [[_ Hf]|Hinf]; [by eapply Hf|].
      by rewrite Hinf in C0.
Qed.

Lemma wp_assert_free {A} s lookup P fail (k : unit -> ST W (res A)) Q w d :
  reads inv view lookup P fail -> inv w -> view w = d ->
  (forall e, fail d e -> e = Sentinel ErrUserNotFound) ->
  (forall w', inv w' -> view w' = d -> wp (k tt) Q w') ->
  (forall e w', inv w' -> view w' = d -> infra e \/ e = Sentinel s -> Q (Err e) w') ->
  wp (try (assertFree s lookup) k) Q w.
Proof using.
  intros Hl Hi Hv Hf Hk He. unfold assertFree. apply wp_try, wp_bind.
  eapply (wp_reads_raw inv view); [done..| |].
  - intros u w' Hi' Hv' _. apply wp_ret. apply He; auto.
  - intros e w' Hi' Hv' Hfe. destruct (errors_Is e ErrUserNotFound) eqn:Ee; cbn [negb]; apply wp_ret.
    + by apply Hk.
    + apply He; [done..|]. left. destruct Hfe as [Hfe|?]; [|done]. by rewrite (Hf e Hfe) in Ee.
Qed.

Lemma UpdateProfile_policy id i w d :
  inv w -> view w = d -> accounts_wf d ->
  wp (UpdateProfile id i)
    (decides inv view (UpdateProfileInput_Validate i = None /\
        exists old, st_users d !! id = Some old /\ username_free d id (wanted_name old i))
       (fun d' => exists old now, st_users d !! id = Some old /\
          d' = with_users <[id := profile_row (wanted_name old i) i now old]> d) d) w.
Proof using All.
  intros Hi Hd Hwf. unfold UpdateProfile. apply wp_check.
  2:{ intros e He. apply decides_no; [done..|]. intros [? _]. congruence. }
  intros Hval. eapply (wp_need inv view); [apply (spec_UserGetByID (UR := UR))|done|done| |].
  { intros e [_ Hn] (_ & old & Ho & _). congruence. }
  intros u w1 Hi1 Hv1 Hsays. pose proof Hsays as (Hid & old & Hold & Hp).
  assert (user_Username old = user_Username u) as Hun by (unfold public in Hp; congruence).
  assert (user_Email old = user_Email u) as Hem by (unfold public in Hp; congruence).
  assert (wanted_name old i = wanted_name u i) as Hwant by (unfold wanted_name; by rewrite Hun).
  apply wp_try. eapply wp_mono; [apply claimUsername_decides with (d := d); [done..|by exists old]|].
  intros [name|e] w2 [Hi2 Hn].
  2:{ split; [done|]. destruct Hn as [?|[Hv2 Hno]]; [by left|right]. split; [done|].
      intros (_ & old' & Hold' & Hfree). assert (old' = old) as -> by congruence. by rewrite Hwant in Hfree. }
  destruct Hn as (Hv2 & -> & Hfree). rewrite <- Hwant in Hfree |- *.
  eapply (wp_now inv view); [done..|]. intros now w3 Hi3 Hv3.
  eapply (wp_exec inv view); [apply (spec_UserUpdate (UR := UR))|done|done| | |].
  - intros [] w4 Hi4 (_ & _ & _ & Hd4). unfold update_user in Hd4. cbn in Hd4. rewrite Hid in Hd4. apply wp_ret. split; [done|].
    split; [split; [done|by exists old]|]. exists old, (stamp now). split; [done|].
    rewrite Hd4, (patch_profile d id u (wanted_name old i) i now old) by done.
    unfold with_users. by rewrite (alter_is_insert _ _ old).
  - intros e w4 Hi4 Hv4 [Hno|?]; (split; [done|]); [|by left]. exfalso.
    unfold user_missing, name_taken in Hno. cbn in Hno. rewrite Hid in Hno.
    destruct Hno as [[_ Hno%strictly]|[[_ Hno%strictly]|[_ Hno]]]; [congruence| |by apply Hno].
    apply Hno. rewrite <- Hem. by eapply (proj1 (proj2 Hwf)).
  - intros e _ w4 Hi4 _ ?. split; [done|by left].
Qed.

(** The account with the address and the password is let in. *)
Lemma Login_accepts i u w d :
  inv w -> view w = d -> accounts_wf d -> LoginInput_Validate i = None ->
  st_users d !! user_ID u = Some u -> user_Email u = log_Email i -> same_text (log_Email i) (log_Email i) = true ->
  hasher_Check (log_Password i) (user_PasswordHash u) = true ->
  (forall w', wp (issueTokens (user_ID u)) (fun r _ => is_ok r = true) w') ->
  wp (Login i) (fun r _ => match r with Ok (u', _) => u' = u | Err e => infra e end) w.
Proof using All.
  intros Hi Hd (_ & Hemails & _) Hval Hu He Hrefl Hpw Htok. unfold Login. apply wp_check; [intros _|congruence].
  apply wp_bind. eapply (wp_reads_raw inv view) with (d := d); [apply (spec_UserGetByEmail (UR := UR))|done|done| |].
  - intros x w1 Hi1 Hv1 [Hx Hsame]. assert (x = u) as ->.
    { destruct (decide (user_ID x = user_ID u)) as [E|Hne]; [congruence|].
      pose proof (Hemails _ _ Hu _ _ Hx Hne) as Hdiff. rewrite He in Hdiff. congruence. }
    rewrite Hpw. cbn. apply wp_try. eapply wp_mono; [apply Htok|]. intros [tk|e] w2 Hok; [by apply wp_ret|done].
  - intros e w1 Hi1 Hv1 [[_ Hn]|Hinf].
    + specialize (Hn _ _ Hu). rewrite He in Hn. congruence.
    + wp_case; apply wp_ret; [|done]. by rewrite Hinf in C.
Qed.
End policy.

(** ** Tokens *)
Section tokens.
Context `{E : Env, J : GoJWT, UT : UUIDText} {L : GoJWTLaws J} (cfg : jwt_Config).
#[local] Instance the_manager : tokenManager (ST world) := JWTManager cfg.

(** Issuing always succeeds; the access token is signed first. *)
Lemma issueTokens_run id (w : world) :
  exists tk, wp (issueTokens id) (fun r _ => r = Ok tk) w /\
    wp (jwt_GenerateAccessToken cfg id) (fun r _ => r = Ok (AccessToken tk)) w /\
    exists w', w_tick w' = (w_tick w + 3)%nat /\
      wp (jwt_GenerateRefreshToken cfg id) (fun r _ => r = Ok (RefreshToken_ tk)) w'.
Proof using L.
  destruct (sign_run id (jwt_AccessSecret cfg) (jwt_AccessTokenTTL cfg) w) as (a & Ha & _).
  destruct ((jwt_GenerateAccessToken cfg id : ST world (res string)) w) as [ra w1] eqn:Ea.
  assert (ra = Ok a /\ w_tick w1 = (w_tick w + 3)%nat) as [-> Ht] by (unfold wp, jwt_GenerateAccessToken in *; by rewrite Ea in Ha).
  destruct (sign_run id (jwt_RefreshSecret cfg) (jwt_RefreshTokenTTL cfg) w1) as (b & Hb & _).
  destruct ((jwt_GenerateRefreshToken cfg id : ST world (res string)) w1) as [rb w2] eqn:Eb.
  assert (rb = Ok b) as -> by (unfold wp, jwt_GenerateRefreshToken in *; rewrite Eb in Hb; by destruct Hb).
  exists (mkTokenPair a b). split; [|split].
  - unfold issueTokens. apply wp_bind. unfold wp at 1. cbn [GenerateAccessToken the_manager JWTManager].
    rewrite Ea. cbn [fst snd]. apply wp_bind. unfold wp at 1. cbn [GenerateRefreshToken the_manager JWTManager].
    by rewrite Eb.
  - unfold wp. by rewrite Ea.
  - exists w1. split; [done|]. unfold wp. by rewrite Eb.
Qed.
End tokens.
