(* ===== verification/App.v ===== *)
(** * The application over its storage

    The wiring of [cmd/app/main.go] with the cache disabled: the three use cases
    over the repositories of the chosen storage, the token manager and the hasher. *)
From S2P Require Import Prelude Domain Config ChatUsecase MessageUsecase UserUsecase Store Schema.
From S2P Require Import World Sql SqlWf Mysql MysqlSpec Storage.
From S2P Require Import ChatContract ChatRefinement MessageRefinement UserRefinement Jwt System.
Open Scope Z_scope.

Definition initial_world : world := mkWorld empty_db ∅ 0.

Lemma initial_world_ok `{Dialect} : db_ok initial_world.
Proof. exact empty_db_wf. Qed.

Section app.
Context `{E : Env, C : Collation, U : UnicodeCI, J : GoJWT, UT : UUIDText, B : Bcrypt}.
Context (t : Driver) (cfg : jwt_Config) (cost : Z).

#[export] Instance app_tokens : tokenManager (ST world) := JWTManager cfg.
#[export] Instance app_hasher : passwordHasher (ST world) := Hasher cost.

(** A server that has answered the requests [cs]. *)
Definition run_server (cs : list api_call) (w : world) : world :=
  (serve_all (M := ST world) (Users (storage_of t)) (H3 := Users (storage_of t)) (H4 := Chats (storage_of t))
     (H5 := Messages (storage_of t)) cs w).2.

Context {UL : UnicodeCILaws U}.
#[local] Instance app_dialect : Dialect := dialect t.

Lemma run_server_safe cs w :
  db_ok w -> system_wf (view w) ->
  db_ok (run_server cs w) /\ rtc api_step (view w) (view (run_server cs w)) /\
  system_wf (view (run_server cs w)).
Proof using UL.
  intros Hi Hwf. exact (serve_all_safe db_ok view (Users (storage_of t)) law_same_sym cs w Hi Hwf).
Qed.

Lemma run_server_ok cs : db_ok (run_server cs initial_world).
Proof using UL. apply run_server_safe; [apply initial_world_ok|apply empty_system_wf]. Qed.

Lemma run_server_wf cs : system_wf (view (run_server cs initial_world)).
Proof using UL. apply run_server_safe; [apply initial_world_ok|apply empty_system_wf]. Qed.
End app.
