(* ===== verification/OnPostgres.v ===== *)
(** * The application on PostgreSQL

    The instances the theorems on PostgreSQL run on, and the liveness of reading a
    page of history when the infrastructure does not fail. *)
From S2P Require Import Prelude Domain ChatUsecase MessageUsecase UserUsecase Store Schema.
From S2P Require Import World Sql SqlWf SqlRules SqlReads Postgres PostgresSpec Storage.
From S2P Require Import ChatContract ChatRefinement MessageRefinement.
From S2P Require Import UserRefinement Pagination Jwt System App.
Open Scope Z_scope.

#[export] Existing Instance postgres.
#[export] Existing Instances NewUserRepository NewChatRepository NewMessageRepository.

(** ** A reliable infrastructure answers *)

Definition reliable `{Env} : Prop := forall t, env_fault t = NoFault.

Section reliable.
Context `{E : Env, C : Collation} (Hrel : reliable).

Lemma run_stmt_reliable {A} err (q : stmt A) w :
  run_stmt err q w =
  match q (env_db_now (w_tick w)) (env_choice (w_tick w)) (w_db w) with
  | Ok (a, d) => (Ok a, next (put_db d w))
  | Err v => (Err (err v), next w)
  end.
Proof using Hrel. unfold run_stmt. rewrite Hrel. by destruct (q _ _ _) as [[a d]|v]. Qed.

Lemma IsMember_answers c u w : wp (chat_IsMember c u) (fun r _ => is_ok r = true) w.
Proof using Hrel.
  unfold wp, chat_IsMember, db_QueryRow, db_Query, mbind, ST_bind. by rewrite run_stmt_reliable.
Qed.

Lemma GetChatMessages_answers c cursor limit w :
  db_ok w -> 0 <= limit ->
  wp (message_GetChatMessages c cursor limit) (fun r _ => is_ok r = true) w.
Proof using Hrel.
  intros Hi Hl.
  unfold wp, message_GetChatMessages, db_Query, try, mbind, ST_bind.
  rewrite run_stmt_reliable. unfold q_message_GetChatMessages.
  destruct (limit <? 0) eqn:E0; [lia|]. cbn.
  set (rows := omap _ _). destruct (scan_rows scanMessageWithSender rows) eqn:Es; [done|].
  exfalso. revert Es. unfold rows. clear rows.
  edestruct (join_senders scanMessageWithSender pg_scanJoined (w_db w)) as [Hs _]; [exact Hi| |].
  2:{ erewrite scan_rows_map; [|exact Hs]. done. }
  apply Forall_forall. intros [id r] Hin. eapply elem_of_sublist in Hin; [|apply sublist_take].
  unfold newest_first in Hin. rewrite merge_sort_Permutation in Hin.
  apply elem_of_select in Hin as [_ Hp]. by bool_prop.
Qed.

Lemma GetReactionsBatch_answers ids w :
  db_ok w -> wp (message_GetReactionsBatch ids) (fun r _ => is_ok r = true) w.
Proof using Hrel.
  intros Hi. destruct ids as [|i ids]; [done|].
  unfold wp, message_GetReactionsBatch, db_Query, try, mbind, ST_bind. rewrite run_stmt_reliable. cbn.
  destruct (reactions_of_rows scan_reaction pg_scanReaction (w_db w) (fun k => bool_decide (k ∈ i :: ids))
    (merge_sort reaction_batch_le (q_reactions (fun k => bool_decide (k ∈ i :: ids)) (w_db w))) Hi)
    as [Hs _]; [apply merge_sort_Permutation|].
  by rewrite (scan_rows_map _ reaction_of_join).
Qed.

Lemma GetHistory_answers caller i w :
  db_ok w -> is_member (view w) (li_ChatID i) caller -> 0 < li_Limit i ->
  wp (GetHistory caller i) (fun r _ => is_ok r = true) w.
Proof using Hrel.
  intros Hi Hmem Hl. unfold GetHistory, assertMember. apply wp_try, wp_try.
  eapply wp_mono.
  { exact (wp_and _ _ _ _ (is_member_reads (li_ChatID i) caller w Hi) (IsMember_answers _ _ w)). }
  intros [b|e] w1 [[Hi1 Hb] Hok]; [|done]. destruct Hb as [Hv1 ->].
  rewrite bool_decide_eq_true_2 by done. apply wp_ret, wp_try. eapply wp_mono.
  { refine (wp_and _ _ _ _ (history_reads scanMessageWithSender pg_scanJoined (li_ChatID i) (li_Cursor i) (li_Limit i) w1 Hi1) _).
    apply GetChatMessages_answers; [done|lia]. }
  intros [ms|e] w2 [[Hi2 _] Hok2]; [|done]. apply wp_try.
  assert (forall ms' w', wp (mret (buildPageResult ms' (li_Limit i))) (fun r (_ : world) => is_ok r = true) w') as Hend.
  { intros ms' w'. apply wp_ret. unfold buildPageResult.
    by destruct (nextCursor_total ms' (li_Limit i) Hl) as [c ->]. }
  destruct ms as [|m ms]; [apply wp_ret, Hend|]. apply wp_try. eapply wp_mono.
  { exact (GetReactionsBatch_answers (msg_ID <$> m :: ms) w2 Hi2). }
  intros [t|e] w3 Hok3; [|done]. apply wp_ret, Hend.
Qed.

Lemma db_ok_stamped w : db_ok w -> stamped (view w).
Proof using.
  intros Hi id m Hm. cbn in Hm. rewrite lookup_all_messages in Hm.
  destruct (t_messages (w_db w) !! id) as [r|] eqn:Hr; simplify_eq/=.
  exact (wf_stamped _ Hi id r Hr).
Qed.
End reliable.
