(* ===== verification/Reliable.v ===== *)
(** * Messages while nothing fails

    On a PostgreSQL that is reliable, an operation on messages has one outcome,
    which the state before decides: the answers of the statements as equations, and
    what is left of a request that was refused. *)
From S2P Require Import Prelude Utf8 Domain Validate ChatUsecase MessageUsecase Store Schema.
From S2P Require Import World Sql SqlWf SqlRules SqlReads Postgres PostgresSpec Storage.
From S2P Require Import ChatContract ChatRefinement ChatPolicy MessageRefinement MessagePolicy OnPostgres.
Open Scope Z_scope.

(** The operation succeeds exactly when [ok], with the effect [post]; refused, it
    changes nothing. *)
Definition exactly (ok : Prop) (post : store -> Prop) (d : store) {A} (r : res A) (w : world) : Prop :=
  match r with
  | Ok _ => ok /\ post (view w)
  | Err _ => ~ ok /\ view w = d
  end.

(** The rows a message row refers to. *)
Definition refers (r : message_row) (d : db) : Prop :=
  is_Some (t_chats d !! mr_chat_id r) /\ is_Some (t_users d !! mr_sender_id r) /\
  forall m, mr_reply_to_id r = Some m -> is_Some (t_messages d !! m).

(** What PostgreSQL asks of a message row. *)
Lemma message_checks_hold r d :
  holds (pg_message_checks r d) <->
  pg_text (mr_content r) = true /\ one_of message_type_enum (mr_type r) = true /\
  1 <= RuneCountInString (mr_content r) <= 4096 /\ refers r d.
Proof.
  unfold pg_message_checks, refers. rewrite !holds_cons, holds_nil. cbn [fst pg_texts forallb].
  rewrite andb_true_r, Z.ltb_lt, Z.leb_le, !bool_decide_eq_true.
  assert (match mr_reply_to_id r with
          | None => true | Some m => bool_decide (is_Some (t_messages d !! m)) end = true <->
          forall m, mr_reply_to_id r = Some m -> is_Some (t_messages d !! m)) as ->.
  { destruct (mr_reply_to_id r) as [m|].
    - rewrite bool_decide_eq_true. split; [by intros ? ? [= <-]|auto].
    - by split. }
  split; intuition lia.
Qed.

Lemma OneOf_one_of s l : OneOf s l = true -> one_of l s = true.
Proof.
  unfold OneOf, one_of. rewrite existsb_exists. intros (a & Hin & Ha%bool_decide_eq_true_1).
  apply bool_decide_eq_true_2. subst. by apply list_elem_of_In.
Qed.

Lemma wp_at {W A} (m : ST W A) (Q : A -> W -> Prop) w r w' : m w = (r, w') -> Q r w' -> wp m Q w.
Proof. unfold wp. by intros ->. Qed.

Section reliable.
Context `{E : Env, C : Collation} (Hrel : reliable).

(** *** The statements *)
Lemma IsMember_run c u (w : world) : chat_IsMember c u w = (Ok (bool_decide (is_member (view w) c u)), next w).
Proof using Hrel.
  unfold chat_IsMember, db_QueryRow, db_Query, mbind, ST_bind. rewrite run_stmt_reliable by done. by destruct w.
Qed.

Lemma GetByID_run id (w : world) :
  message_GetByID id w =
  (match st_messages (view w) !! id with Some m => Ok m | None => Fail ErrMessageNotFound end, next w).
Proof using Hrel.
  unfold message_GetByID, db_QueryRow, db_Query, mbind, ST_bind. rewrite run_stmt_reliable by done. cbn.
  rewrite lookup_all_messages. replace (next (put_db (w_db w) w)) with (next w) by by destruct w.
  unfold mret, ST_ret. f_equal.
  destruct (select _ _) as [|[k r] rows] eqn:Hs; cbn.
  - destruct (t_messages (w_db w) !! id) as [r|] eqn:Hr; [|done].
    rewrite select_nil in Hs. specialize (Hs _ _ Hr). by rewrite bool_decide_eq_true_2 in Hs.
  - assert ((k, r) ∈ select (fun k (_ : message_row) => bool_decide (k = id)) (t_messages (w_db w))) as Hin
      by (rewrite Hs; left).
    apply elem_of_select in Hin as [Hr Hk]. apply bool_decide_eq_true_1 in Hk as ->. by rewrite Hr.
Qed.

(** A write that one row decides: its checks hold, or nothing happens. *)
Lemma Create_run m (w : world) :
  st_messages (view w) !! msg_ID m = None ->
  one_of message_type_enum (msg_Type m) = true -> 1 <= RuneCountInString (msg_Content m) <= 4096 ->
  is_Some (t_chats (w_db w) !! msg_ChatID m) -> is_Some (t_users (w_db w) !! msg_SenderID m) ->
  (forall id, msg_ReplyToID m = Some id -> is_Some (t_messages (w_db w) !! id)) ->
  exists r w', message_Create m w = (r, w') /\
    (is_ok r = true <-> pg_text (msg_Content m) = true) /\ (is_ok r = false -> view w' = view w).
Proof using Hrel.
  intros Hnew Htype Hlen Hc Hu Hrep. unfold message_Create, db_Exec, try, mbind, ST_bind.
  rewrite run_stmt_reliable by done. unfold q_message_Create, checked.
  set (row := mkMessageRow _ _ _ _ _ _ _ _ _). set (l := pg_message_checks row (w_db w) ++ _).
  assert (holds l <-> pg_text (msg_Content m) = true) as Hl.
  { unfold l. rewrite holds_app, message_checks_hold, holds_cons, holds_nil. cbn. rewrite bool_decide_eq_true.
    unfold refers. cbn. cbn in Hnew. rewrite lookup_all_messages in Hnew.
    apply fmap_None in Hnew. intuition. }
  unfold holds in Hl. destruct (violated l) as [v|]; eexists _, _; (split; [reflexivity|]); cbn; split; try done.
  - split; [done|]. intros Ht. by apply Hl in Ht.
  - split; [|done]. intros _. by apply Hl.
Qed.

Lemma live_row id old (w : world) :
  st_messages (view w) !! id = Some old -> IsDeleted old = false ->
  exists row, t_messages (w_db w) !! id = Some row /\ message_live row = true.
Proof using.
  cbn. rewrite lookup_all_messages. intros Hold Hlive. destruct (t_messages (w_db w) !! id) as [row|]; [|done].
  injection Hold as <-. exists row. split; [done|]. unfold message_live, IsDeleted in *. cbn in Hlive.
  bool_prop. apply bool_decide_eq_true_2. by apply eq_None_not_Some.
Qed.

Lemma Update_run m old (w : world) :
  db_ok w -> st_messages (view w) !! msg_ID m = Some old -> IsDeleted old = false ->
  1 <= RuneCountInString (msg_Content m) <= 4096 ->
  exists r w', message_Update m w = (r, w') /\
    (is_ok r = true <-> pg_text (msg_Content m) = true) /\ (is_ok r = false -> view w' = view w).
Proof using Hrel.
  intros Hw Hold Hlive Hlen. destruct (live_row _ _ _ Hold Hlive) as (row & Hrow & Hl).
  unfold message_Update, db_Exec, try, mbind, ST_bind.
  rewrite run_stmt_reliable by done. unfold q_message_Update, update_live, update_counting, checked.
  rewrite Hrow, Hl. cbn [pg_texts forallb violated fst].
  destruct (pg_text (msg_Content m)) eqn:Ht; cbn [andb]; [|by eexists _, _].
  set (row' := mkMessageRow _ _ _ _ _ _ _ _ _).
  assert (violated (pg_message_checks row' (w_db w)) = None) as ->.
  { apply message_checks_hold. pose proof (wf_message _ Hw _ _ Hrow) as Hwf.
    apply message_checks_hold in Hwf as (_ & Htype & _ & Href). done. }
  by eexists _, _.
Qed.

Lemma Delete_run id old (w : world) :
  db_ok w -> st_messages (view w) !! id = Some old -> IsDeleted old = false ->
  exists w', message_Delete id w = (Ok tt, w').
Proof using Hrel.
  intros Hw Hold Hlive. destruct (live_row _ _ _ Hold Hlive) as (row & Hrow & Hl).
  unfold message_Delete, db_Exec, try, mbind, ST_bind.
  rewrite run_stmt_reliable by done. unfold q_message_Delete, update_live, update_counting, checked.
  rewrite Hrow, Hl. cbn [violated fst]. set (row' := mkMessageRow _ _ _ _ _ _ _ _ _).
  assert (violated (pg_message_checks row' (w_db w)) = None) as ->.
  { apply message_checks_hold. pose proof (wf_message _ Hw _ _ Hrow) as Hwf.
    apply message_checks_hold in Hwf as (Ht & Htype & Hlen & Href). done. }
  by eexists.
Qed.

(** *** The operations: what is left of a refused one, and when it is refused *)

(** What the answer adds to what [decides] says of it. *)
Definition resolved (ok : Prop) (d : store) {A} (r : res A) (w : world) : Prop :=
  match r with
  | Ok _ => ok
  | Err _ => ~ ok /\ view w = d
  end.

Lemma resolved_exactly {A} (m : ST world (res A)) ok ok' post w :
  wp m (decides db_ok view ok post (view w)) w -> wp m (resolved ok' (view w)) w -> (ok' -> ok) ->
  wp m (exactly ok' post (view w)) w.
Proof using.
  intros Hd Hr Hok. eapply wp_mono; [exact (wp_and _ _ _ _ Hd Hr)|]. intros [a|e] w' [[_ H] H']; cbn in *; [|done].
  split; [done|apply H].
Qed.

(** The condition does not hold, and nothing was written. *)
Ltac refused := split; [intros Hok; destruct_and? Hok; first [contradiction|congruence|naive_solver]|first [done|congruence]].

Lemma reply_resolved i (w : world) :
  wp (match si_ReplyToID i with
      | None => mret (Ok tt)
      | Some r =>
        let? reply := message_GetByID r in
        if negb (bool_decide (msg_ChatID reply = si_ChatID i))
        then mret (Fail ErrMessageNotFound) else mret (Ok tt)
      end : ST world (res unit))
    (fun r w' => w_db w' = w_db w /\ (w_tick w <= w_tick w')%nat /\ (is_ok r = true <-> reply_ok (view w) i)) w.
Proof using Hrel.
  unfold reply_ok. destruct (si_ReplyToID i) as [id|]; [|by apply wp_ret].
  apply wp_try. eapply wp_at; [apply GetByID_run|].
  destruct (st_messages (view w) !! id) as [m|] eqn:Hm; [case_bool_decide as Hc; apply wp_ret|];
    (split; [done|split; [cbn; lia|]]); cbn [is_ok]; split; try done.
  - intros _ ? [= <-]. by exists m.
  - intros Hok. destruct (Hok id eq_refl) as (m' & ? & ?). congruence.
  - intros Hok. destruct (Hok id eq_refl) as (m' & ? & ?). congruence.
Qed.

Lemma Send_resolved caller i (w : world) (Hw : db_ok w)
    (Hnew : forall t, (w_tick w <= t)%nat -> st_messages (view w) !! env_uuid t = None) :
  wp (Send caller i) (resolved (SendInput_Validate i = None /\ is_member (view w) (si_ChatID i) caller /\
    reply_ok (view w) i /\ pg_text (si_Content i) = true) (view w)) w.
Proof using Hrel.
  unfold Send. apply wp_check; [intros Hval|intros e He; refused].
  apply SendInput_checks in Hval as Hchecks. destruct Hchecks as [Hlen Htype].
  unfold assertMember. apply wp_try, wp_try. eapply wp_at; [apply IsMember_run|]. cbn beta iota.
  case_bool_decide as Hmem; apply wp_ret; [|refused].
  apply wp_try. eapply wp_mono; [apply (reply_resolved i (next w))|].
  intros r1 w1 (Hdb & Htick & Hrep). assert (view w1 = view w) as Hv by (unfold view; by rewrite Hdb).
  destruct r1 as [[]|e]; [|split; [|done]; intros (_ & _ & Hok & _); by apply Hrep in Hok].
  apply wp_bind. eapply wp_at; [reflexivity|]. apply wp_bind. eapply wp_at; [reflexivity|].
  destruct Hmem as [x Hx].
  assert (t_members (w_db w) !! (si_ChatID i, caller) = Some x) as Hrow by exact Hx.
  destruct (wf_member _ Hw _ _ Hrow) as [_ Hfk].
  (* the membership refers to the chat and to the account *)
  change (holds (pg_member_fk (si_ChatID i) caller (w_db w))) in Hfk. unfold pg_member_fk in Hfk.
  rewrite !holds_cons in Hfk. cbn in Hfk. rewrite !bool_decide_eq_true in Hfk. destruct Hfk as (Hc & Hu & _).
  apply wp_try.
  edestruct (Create_run (sent (env_uuid (S (w_tick w1))) caller i (env_now (w_tick w1))) (next (next w1)))
    as (r & w2 & Hrun & Hok & Hno).
  - cbn [msg_ID sent]. change (view (next (next w1))) with (view w1). rewrite Hv. apply Hnew. cbn in Htick. lia.
  - by apply OneOf_one_of.
  - exact Hlen.
  - cbn. by rewrite Hdb.
  - cbn. by rewrite Hdb.
  - cbn. intros id Hid. destruct (proj1 Hrep eq_refl id Hid) as (m & Hm & _). cbn in Hm.
    rewrite lookup_all_messages in Hm. rewrite Hdb. cbn. by destruct (t_messages (w_db w) !! id).
  - eapply wp_at; [exact Hrun|]. destruct r as [u|e]; cbn [is_ok] in *.
    + apply wp_ret. split_and!; [done|by exists x|by apply Hrep|by apply Hok].
    + split; [intros (_ & _ & _ & Ht); by apply Hok in Ht|]. rewrite (Hno eq_refl). exact Hv.
Qed.

(** [Edit] and [Delete] up to their write: the message is live, the caller its author
    and a member of its chat. *)
Lemma own_message_resolved {A} id caller (k : Message -> ST world (res A)) ok (w : world) :
  (ok -> exists m, reachable (view w) id caller m /\ msg_SenderID m = caller) ->
  (forall m w', reachable (view w) id caller m -> msg_SenderID m = caller -> msg_ID m = id -> w_db w' = w_db w ->
     wp (k m) (resolved ok (view w)) w') ->
  wp (let? m := message_GetByID id in
      if IsDeleted m then mret (Fail ErrMessageDeleted) else
      if negb (IsAuthoredBy m caller) then mret (Fail ErrNotMessageAuthor) else
      let? _ := assertMember (msg_ChatID m) caller in k m) (resolved ok (view w)) w.
Proof using Hrel.
  intros Hok Hk. apply wp_try. eapply wp_at; [apply GetByID_run|].
  assert (forall e w', w_db w' = w_db w -> ~ (exists m, reachable (view w) id caller m /\ msg_SenderID m = caller) ->
    resolved ok (view w) (Err e : res A) w') as Hrefused.
  { intros e w' Hdb Hno. split; [auto|]. unfold view. by rewrite Hdb. }
  destruct (st_messages (view w) !! id) as [m|] eqn:Hm.
  2:{ apply Hrefused; [done|]. intros (m & [[Hm' _] _] & _). congruence. }
  destruct (IsDeleted m) eqn:Hd.
  { apply wp_ret, Hrefused; [done|]. intros (m' & [[Hm' Hl] _] & _). congruence. }
  unfold IsAuthoredBy. case_bool_decide as Hs; cbn [negb].
  2:{ apply wp_ret, Hrefused; [done|]. intros (m' & [[Hm' _] _] & Hs'). congruence. }
  unfold assertMember. apply wp_try, wp_try. eapply wp_at; [apply IsMember_run|]. cbn beta iota.
  case_bool_decide as Hmem; apply wp_ret.
  - apply Hk; [by split|done| |done]. cbn in Hm. rewrite lookup_all_messages in Hm.
    destruct (t_messages (w_db w) !! id); [|done]. by injection Hm as <-.
  - apply Hrefused; [done|]. intros (m' & [[Hm' _] Hmem'] & _). apply Hmem. assert (m' = m) as -> by congruence. exact Hmem'.
Qed.

Lemma Edit_resolved id caller i (w : world) (Hw : db_ok w) :
  wp (Edit id caller i) (resolved (EditInput_Validate i = None /\ pg_text (ei_Content i) = true /\
    exists m, reachable (view w) id caller m /\ msg_SenderID m = caller) (view w)) w.
Proof using Hrel.
  unfold Edit. apply wp_check; [intros Hval|intros e He; refused].
  apply own_message_resolved; [tauto|]. intros m w1 Hm Hs Hid Hdb. apply wp_bind. eapply wp_at; [reflexivity|]. cbv zeta.
  apply wp_try. destruct (Update_run (edited (ei_Content i) (env_now (w_tick w1)) m) m (next w1))
    as (r & w2 & Hrun & Hok & Hno).
  - unfold db_ok, over_db. cbn. rewrite Hdb. exact Hw.
  - unfold view. cbn [w_db next]. rewrite Hdb. cbn [edited msg_ID]. rewrite Hid. apply Hm.
  - apply Hm.
  - by apply EditInput_valid.
  - eapply wp_at; [exact Hrun|]. destruct r as [u|e]; cbn [is_ok] in *.
    + apply wp_ret. split_and!; [done|by apply Hok|by exists m].
    + split; [intros (_ & Ht & _); by apply Hok in Ht|]. rewrite (Hno eq_refl). unfold view. cbn. by rewrite Hdb.
Qed.

Lemma Delete_resolved id caller (w : world) (Hw : db_ok w) :
  wp (Delete id caller) (resolved (exists m, reachable (view w) id caller m /\ msg_SenderID m = caller) (view w)) w.
Proof using Hrel.
  unfold Delete. apply own_message_resolved; [done|]. intros m w1 Hm Hs Hid Hdb.
  apply wp_try. destruct (Delete_run id m w1) as (w2 & Hrun).
  - unfold db_ok, over_db. rewrite Hdb. exact Hw.
  - unfold view. rewrite Hdb. apply Hm.
  - apply Hm.
  - eapply wp_at; [exact Hrun|]. apply wp_ret. by exists m.
Qed.
End reliable.
