(* ===== verification/Cache.v ===== *)
(** * Packages infrastructure/cache and infrastructure/cache/mock

    The cache interface, the in-memory TTL cache that implements it, and the
    contract the cached repositories rely on.  A key maps to a text; the texts
    the program stores are ["0"], ["1"] and JSON documents ([World.cval]). *)
From S2P Require Import Prelude Domain Json Store World.
Open Scope Z_scope.

(** [cache.Cache], without [Close]. *)
Class Cache (M : Type -> Type) : Type := {
  cache_Get : string -> M (res cval);
  cache_Set : string -> cval -> Duration -> M (res unit);
  cache_Del : string -> M (res unit);
  cache_Ping : M (res unit) }.

(** ** mock.go *)

(** [expiresAt.IsZero()], and [now.After(expiresAt)]. *)
Definition no_expiry (e : entry) : bool := e_expiresAt e =? zero_Time.
Definition expired (e : entry) (now : Time) : bool := e_expiresAt e <? now.

Section mock.
Context `{Env}.

Definition mock_Get (key : string) : ST world (res cval) := fun w =>
  match w_cache w !! key with
  | None => (Err (Other "mock cache: key not found"), w)
  | Some e =>
    if no_expiry e then (Ok (e_value e), w) else
    let (now, w) := (time_Now : ST world Time) w in
    if expired e now
    then (Err (Other "mock cache: key expired"), put_cache (delete key (w_cache w)) w)
    else (Ok (e_value e), w)
  end.

Definition mock_Set (key : string) (value : cval) (ttl : Duration) : ST world (res unit) := fun w =>
  let (exp, w) := if 0 <? ttl
                  then let (now, w) := (time_Now : ST world Time) w in (now + ttl, w)
                  else (zero_Time, w) in
  (Ok tt, put_cache (<[key := mkEntry value exp]> (w_cache w)) w).

Definition mock_Del (key : string) : ST world (res unit) := fun w =>
  (Ok tt, put_cache (delete key (w_cache w)) w).

(** The sweep of the background goroutine. *)
Definition mock_deleteExpired : ST world unit := fun w =>
  let (now, w) := (time_Now : ST world Time) w in
  (tt, put_cache (filter (fun ke => no_expiry ke.2 || negb (expired ke.2 now) = true) (w_cache w)) w).

Definition mock_Ping : ST world (res unit) := mret (Ok tt).

Definition mock_New : Cache (ST world) := {|
  cache_Get := mock_Get; cache_Set := mock_Set; cache_Del := mock_Del; cache_Ping := mock_Ping |}.
End mock.

(** ** The contract

    [contents] is what the cache may answer.  Entries may vanish at any call;
    a value that is set replaces the old one or vanishes; a deleted key is gone. *)
Section contract.
Context {W : Type} (inv : W -> Prop) (view : W -> store) (contents : W -> gmap string cval).

Class CacheSpec (CA : Cache (ST W)) : Prop := {
  spec_Get k w : inv w ->
    wp (cache_Get k) (fun r w' => inv w' /\ view w' = view w /\ contents w' ⊆ contents w /\
      match r with Ok v => contents w !! k = Some v | Err _ => True end) w;
  spec_Set k v ttl w : inv w ->
    wp (cache_Set k v ttl) (fun _ w' => inv w' /\ view w' = view w /\
      contents w' ⊆ <[k := v]> (contents w)) w;
  spec_Del k w : inv w ->
    wp (cache_Del k) (fun _ w' => inv w' /\ view w' = view w /\
      contents w' ⊆ delete k (contents w)) w;
  spec_Ping w : inv w ->
    wp cache_Ping (fun _ w' => inv w' /\ view w' = view w /\ contents w' ⊆ contents w) w }.
End contract.

(** ** The in-memory cache honours it *)
Definition mock_contents (w : world) : gmap string cval := e_value <$> w_cache w.

Section honours.
Context `{Env} (wf : Schema.db -> Prop).

Lemma contents_delete k (t : gmap string entry) : e_value <$> delete k t = delete k (e_value <$> t).
Proof using. apply fmap_delete. Qed.

#[export] Instance mock_cache_spec : CacheSpec (over_db wf) view mock_contents mock_New.
Proof using.
  split; intros; unfold wp, mock_contents; cbn.
  - unfold mock_Get. destruct (w_cache w !! k) as [e|] eqn:Hk; cbn; [|by repeat split].
    assert ((e_value <$> w_cache w) !! k = Some (e_value e)) as Hv by by rewrite lookup_fmap, Hk.
    destruct (no_expiry e); cbn; [by repeat split|].
    destruct (expired e _); cbn; repeat split; [done| |done|done|done].
    rewrite contents_delete. apply delete_subseteq.
  - unfold mock_Set. destruct (0 <? ttl); cbn; repeat split; [done| |done|]; by rewrite fmap_insert.
  - repeat split; [done|]. by rewrite contents_delete.
  - done.
Qed.

(** An expired entry is never answered, and a fresh one always is. *)
Lemma mock_Get_spec k w :
  (mock_Get k w).1 =
  match w_cache w !! k with
  | Some e => if no_expiry e || negb (expired e (env_now (w_tick w))) then Ok (e_value e)
              else Err (Other "mock cache: key expired")
  | None => Err (Other "mock cache: key not found")
  end.
Proof using.
  unfold mock_Get. destruct (w_cache w !! k) as [e|]; [|done].
  destruct (no_expiry e); [done|]. cbn. by destruct (expired e _).
Qed.

(** Sweeping is invisible: what [Get] answers afterwards, the clock not having
    gone back, is what it would have answered. *)
Lemma sweep_Get k w :
  let w' := (mock_deleteExpired w).2 in
  env_now (w_tick w) <= env_now (w_tick w') ->
  is_ok (mock_Get k w').1 = is_ok (mock_Get k (put_cache (w_cache w) w')).1 /\
  forall v, (mock_Get k w').1 = Ok v <-> (mock_Get k (put_cache (w_cache w) w')).1 = Ok v.
Proof using.
  cbv zeta. intros Hclock. rewrite !mock_Get_spec. cbn in Hclock |- *.
  rewrite map_lookup_filter. destruct (w_cache w !! k) as [e|]; cbn; [|by split].
  case_guard as Hg; cbn; [by split|].
  destruct (no_expiry e) eqn:Hn; cbn in *; [by destruct Hg|].
  destruct (expired e (env_now (w_tick w))) eqn:He; [|by destruct Hg].
  assert (expired e (env_now (S (w_tick w))) = true) as -> by (unfold expired in *; lia). by split.
Qed.
End honours.
