(* ===== verification/Redis.v ===== *)
(** * The Redis cache

    [infrastructure/cache/redis] over the [go-redis] client, which is a
    parameter. *)
From S2P Require Import Prelude Domain Config Json Store World Cache.
Open Scope Z_scope.

(** An error of the client: [goredis.Nil] for a missing key, or another. *)
Inductive redis_error : Type := Redis_Nil | RedisError (text : string).

(** [goredis.Client]: the commands the cache sends. *)
Record redis_Client : Type := mkRedisClient {
  rc_Get : string -> ST world (result redis_error cval);
  rc_Set : string -> cval -> Duration -> ST world (result redis_error unit);
  rc_Del : string -> ST world (result redis_error unit);
  rc_Ping : ST world (result redis_error unit) }.

Class GoRedis : Type := goredis_NewClient : RedisConfig -> redis_Client.

(** [goredis.Nil] is an error like any other, but for [Get]. *)
Definition redis_error_text (e : redis_error) : string :=
  match e with Redis_Nil => "redis: nil" | RedisError text => text end.
Definition redis_res {A} (r : result redis_error A) : res A :=
  match r with Ok a => Ok a | Err e => Err (Other (redis_error_text e)) end.

Section redis.
Context `{Strconv} (client : redis_Client).

Definition redis_Get (key : string) : ST world (res cval) :=
  let* r := rc_Get client key in
  mret match r with
       | Err Redis_Nil => Err (Other ("redis cache: key " +:+ Quote key +:+ " not found"))
       | r => redis_res r
       end.

Definition redis_Set (key : string) (value : cval) (ttl : Duration) : ST world (res unit) :=
  let* r := rc_Set client key value ttl in mret (redis_res r).

Definition redis_Del (key : string) : ST world (res unit) :=
  let* r := rc_Del client key in mret (redis_res r).

Definition redis_Ping : ST world (res unit) :=
  let* r := rc_Ping client in mret (redis_res r).

Definition redis_cache : Cache (ST world) := {|
  cache_Get := redis_Get;
  cache_Set := redis_Set;
  cache_Del := redis_Del;
  cache_Ping := redis_Ping |}.
End redis.

(** [redis.New]: a client that answered a ping. *)
Definition redis_New `{Strconv, GoRedis} (cfg : RedisConfig) : ST world (res (Cache (ST world))) :=
  if bool_decide (redis_Addr cfg = "") then mret (Err (Other "redis cache: addr is required"))
  else
    let client := goredis_NewClient cfg in
    let* r := rc_Ping client in
    mret match r with
         | Ok _ => Ok (redis_cache client)
         | Err e => Err (Wrap "redis cache: ping failed: " (Other (redis_error_text e)) "")
         end.
