(* ===== verification/Cached.v ===== *)
(** * Package storage/cached

    [internal/infrastructure/storage/cached/{user,chat}.go]: the cache-aside
    repositories, for any cache and any origin. *)
From S2P Require Import Prelude Domain Json Store World Cache.
Open Scope Z_scope.

(** ** Keys *)
Section keys.
Context `{UUIDText}.

Definition userKey (id : uuid) : string := "user:" +:+ uuid_String id.
Definition chatKey (id : uuid) : string := "chat:" +:+ uuid_String id.
Definition memberKey (chatID userID : uuid) : string :=
  "chatmember:" +:+ uuid_String chatID +:+ ":" +:+ uuid_String userID.
Definition isMemberKey (chatID userID : uuid) : string :=
  "ismember:" +:+ uuid_String chatID +:+ ":" +:+ uuid_String userID.
End keys.

(** [json.Unmarshal([]byte(raw), &v) == nil]: the texts ["0"] and ["1"] are
    numbers, which no struct accepts. *)
Definition decode {A} (unmarshal : json -> res A) (raw : cval) : option A :=
  match raw with
  | CText _ => None
  | CJson j => match unmarshal j with Ok a => Some a | Err _ => None end
  end.

Section repositories.
Context {M : Type -> Type} `{MRet M, MBind M} `{UUIDText, Cache M}.

(** [if raw, err := cache.Get(key); err == nil { if json.Unmarshal(...) == nil
    { return &v, nil } }; v, err := origin(); if err != nil { return nil, err };
    if b, merr := json.Marshal(v); merr == nil { cache.Set(...) }; return v, nil]:
    the three cached lookups share this text. *)
Definition read_through {A} (key : string) (ttl : Duration) (unmarshal : json -> res A)
    (marshal : A -> res json) (origin : M (res A)) : M (res A) :=
  let* raw := cache_Get key in
  match (match raw with Ok v => decode unmarshal v | Err _ => None end) with
  | Some a => mret (Ok a)
  | None =>
    let? a := origin in
    match marshal a with
    | Ok j => let* _ := cache_Set key (CJson j) ttl in mret (Ok a)
    | Err _ => mret (Ok a)
    end
  end.

(** ** user.go *)
Section user.
Context (origin : UserRepository M) (ttl : Duration).

Definition cached_user_GetByID (id : uuid) : M (res User) :=
  read_through (userKey id) ttl unmarshal_User marshal_User (users_GetByID id).

Definition cached_user_Update (u : User) : M (res unit) :=
  let? _ := users_Update u in
  let* _ := cache_Del (userKey (user_ID u)) in mret (Ok tt).

Definition cached_user_UpdateStatus (id : uuid) (status : UserStatus) (lastSeen : Time) : M (res unit) :=
  let? _ := users_UpdateStatus id status lastSeen in
  let* _ := cache_Del (userKey id) in mret (Ok tt).

Definition cached_user_Delete (id : uuid) : M (res unit) :=
  let? _ := users_Delete id in
  let* _ := cache_Del (userKey id) in mret (Ok tt).

Definition cached_users : UserRepository M := {|
  users_Create := users_Create;
  users_GetByID := cached_user_GetByID;
  users_GetByEmail := users_GetByEmail;
  users_GetByUsername := users_GetByUsername;
  users_Update := cached_user_Update;
  users_UpdateStatus := cached_user_UpdateStatus;
  users_Search := users_Search;
  users_Delete := cached_user_Delete |}.
End user.

(** ** chat.go *)
Section chat.
Context (origin : ChatRepository M) (chatTTL memberTTL : Duration).

Definition cached_chat_GetByID (id : uuid) : M (res Chat) :=
  read_through (chatKey id) chatTTL unmarshal_Chat marshal_Chat (chats_GetByID id).

Definition cached_chat_IsMember (c u : uuid) : M (res bool) :=
  let* raw := cache_Get (isMemberKey c u) in
  match raw with
  | Ok v => mret (Ok (match v with CText t => bool_decide (t = "1") | CJson _ => false end))
  | Err _ =>
    let? ok := chats_IsMember c u in
    let* _ := cache_Set (isMemberKey c u) (CText (if (ok : bool) then "1" else "0")) memberTTL in
    mret (Ok ok)
  end.

Definition cached_chat_GetMember (c u : uuid) : M (res ChatMember) :=
  read_through (memberKey c u) memberTTL unmarshal_ChatMember marshal_ChatMember (chats_GetMember c u).

(** What [AddMember] and [CreateWithMembers] put into the cache for a member. *)
Definition seed (c : uuid) (m : ChatMember) : M (res unit) :=
  let* _ := cache_Set (isMemberKey c (cm_UserID m)) (CText "1") memberTTL in
  match marshal_ChatMember m with
  | Ok j => let* _ := cache_Set (memberKey c (cm_UserID m)) (CJson j) memberTTL in mret (Ok tt)
  | Err _ => mret (Ok tt)
  end.

Definition cached_chat_CreateWithMembers (c : Chat) (ms : list ChatMember) : M (res unit) :=
  let? _ := chats_CreateWithMembers c ms in
  for_each ms (seed (chat_ID c)).

Definition cached_chat_Update (c : Chat) : M (res unit) :=
  let* _ := cache_Del (chatKey (chat_ID c)) in
  chats_Update c.

Definition drop_member (c u : uuid) : M (res unit) :=
  let* _ := cache_Del (isMemberKey c u) in
  let* _ := cache_Del (memberKey c u) in
  mret (Ok tt).

(** [members, _ := origin.GetMembers(...)]: on an error the slice is nil. *)
Definition cached_chat_Delete (id : uuid) : M (res unit) :=
  let* r := chats_GetMembers id in
  let members := match r with Ok ms => ms | Err _ => [] end in
  let? _ := chats_Delete id in
  let* _ := cache_Del (chatKey id) in
  for_each members (fun m => drop_member id (cm_UserID m)).

Definition cached_chat_AddMember (m : ChatMember) : M (res unit) :=
  let? _ := chats_AddMember m in
  seed (cm_ChatID m) m.

Definition cached_chat_RemoveMember (c u : uuid) : M (res unit) :=
  let? _ := chats_RemoveMember c u in
  drop_member c u.

Definition cached_chat_UpdateMemberRole (c u : uuid) (role : MemberRole) : M (res unit) :=
  let? _ := chats_UpdateMemberRole c u role in
  let* _ := cache_Del (memberKey c u) in mret (Ok tt).

Definition cached_chats : ChatRepository M := {|
  chats_CreateWithMembers := cached_chat_CreateWithMembers;
  chats_GetByID := cached_chat_GetByID;
  chats_Update := cached_chat_Update;
  chats_Delete := cached_chat_Delete;
  chats_AddMember := cached_chat_AddMember;
  chats_RemoveMember := cached_chat_RemoveMember;
  chats_GetMember := cached_chat_GetMember;
  chats_GetMembers := chats_GetMembers;
  chats_UpdateMemberRole := cached_chat_UpdateMemberRole;
  chats_GetUserChats := chats_GetUserChats;
  chats_GetDirectChat := chats_GetDirectChat;
  chats_IsMember := cached_chat_IsMember |}.
End chat.
End repositories.

(** The constructors: without a cache the origin is returned as it is. *)
Definition cached_NewUserRepository {M : Type -> Type} `{MRet M, MBind M, UUIDText}
    (origin : UserRepository M) (c : option (Cache M)) (ttl : Duration) : UserRepository M :=
  match c with None => origin | Some c => cached_users origin ttl end.

Definition cached_NewChatRepository {M : Type -> Type} `{MRet M, MBind M, UUIDText}
    (origin : ChatRepository M) (c : option (Cache M)) (chatTTL memberTTL : Duration) : ChatRepository M :=
  match c with None => origin | Some c => cached_chats origin chatTTL memberTTL end.

(** ** Distinct things have distinct keys *)
Section distinct.
Context `{UT : UUIDText} {L : UUIDTextLaws UT}.

Lemma append_inj (p s t : string) : p +:+ s = p +:+ t -> s = t.
Proof using. induction p as [|a p IH]; [done|]. intros E. injection E as E. by apply IH. Qed.

Definition no_colon (s : string) : Prop :=
  forallb (fun a => negb (Ascii.eqb a ":")) (String.list_ascii_of_string s) = true.

(** Two texts joined by a colon that neither first part contains. *)
Lemma colon_split a b s t :
  no_colon a -> no_colon b -> a +:+ ":" +:+ s = b +:+ ":" +:+ t -> a = b /\ s = t.
Proof using.
  revert b. induction a as [|x a IH]; intros [|y b] Ha Hb E.
  - split; [done|]. by apply (append_inj ":").
  - change (String ":" s = String y (b +:+ ":" +:+ t)) in E. by injection E as <- _.
  - change (String x (a +:+ ":" +:+ s) = String ":" t) in E. by injection E as -> _.
  - change (String x (a +:+ ":" +:+ s) = String y (b +:+ ":" +:+ t)) in E. injection E as <- E.
    unfold no_colon in Ha, Hb. cbn in Ha, Hb. apply andb_true_iff in Ha as [_ Ha], Hb as [_ Hb].
    by destruct (IH b Ha Hb E) as [-> ->].
Qed.

Lemma userKey_inj u v : userKey u = userKey v -> u = v.
Proof using L. intros E%append_inj. by apply uuid_String_inj. Qed.
Lemma chatKey_inj u v : chatKey u = chatKey v -> u = v.
Proof using L. intros E%append_inj. by apply uuid_String_inj. Qed.

Lemma memberKey_inj c u c' u' : memberKey c u = memberKey c' u' -> c = c' /\ u = u'.
Proof using L.
  intros E%append_inj. apply colon_split in E as [E1 E2]; [|apply uuid_String_no_colon..].
  split; by apply uuid_String_inj.
Qed.
Lemma isMemberKey_inj c u c' u' : isMemberKey c u = isMemberKey c' u' -> c = c' /\ u = u'.
Proof using L.
  intros E%append_inj. apply colon_split in E as [E1 E2]; [|apply uuid_String_no_colon..].
  split; by apply uuid_String_inj.
Qed.

Lemma keys_apart u c k v c' u' :
  userKey u <> chatKey c /\ userKey u <> memberKey k v /\ userKey u <> isMemberKey c' u' /\
  chatKey c <> memberKey k v /\ chatKey c <> isMemberKey c' u' /\ memberKey k v <> isMemberKey c' u'.
Proof using. repeat split; discriminate. Qed.
End distinct.
