(* ===== verification/Coherence.v ===== *)
(** * The cached repositories honour the contracts of their origins

    Coherence: what the cache may answer agrees with the store.  Every method of
    the cached repositories keeps it, provided a statement that was executed is
    acknowledged: an unacknowledged one leaves a stale entry behind. *)
From S2P Require Import Prelude Utf8 Domain Json Store ChatContract World Cache Cached.
Open Scope Z_scope.

Definition is_one (v : cval) : bool :=
  match v with CText t => bool_decide (t = "1") | CJson _ => false end.

(** The texts of the store survive a JSON round trip. *)
Definition texts_ok (d : store) : Prop :=
  (forall id u, st_users d !! id = Some u -> user_text u) /\
  (forall id c, st_chats d !! id = Some c -> chat_text c) /\
  (forall c u r, role_of d c u = Some r -> text_ok r).

Section coherence.
Context `{UT : UUIDText} {L : UUIDTextLaws UT}.

(** The entry [k |-> v] tells the truth about the store. *)
Record entry_ok (d : store) (k : string) (v : cval) : Prop := {
  eo_user : forall id u, k = userKey id -> decode unmarshal_User v = Some u -> user_says d id u;
  eo_chat : forall id c, k = chatKey id -> decode unmarshal_Chat v = Some c ->
    st_chats d !! id = Some c /\ chat_ID c = id;
  eo_member : forall c u m, k = memberKey c u -> decode unmarshal_ChatMember v = Some m ->
    member_role_says d c u m;
  eo_is : forall c u, k = isMemberKey c u -> is_one v = bool_decide (is_member d c u) }.

(** ... outside the keys [ks]. *)
Definition coherent (ks : list string) (d : store) (t : gmap string cval) : Prop :=
  forall k v, t !! k = Some v -> k ∉ ks -> entry_ok d k v.

Definition stable (ks : list string) (d d' : store) : Prop :=
  forall k v, k ∉ ks -> entry_ok d k v -> entry_ok d' k v.

Lemma coherent_sub ks d t t' : t' ⊆ t -> coherent ks d t -> coherent ks d t'.
Proof using. intros Hs Ht k v Hk. by apply Ht, (lookup_weaken _ _ _ _ Hk). Qed.

Lemma coherent_stable ks d d' t : coherent [] d t -> stable ks d d' -> coherent ks d' t.
Proof using. intros Ht Hs k v Hk Hn. apply Hs; [done|]. apply Ht; [done|]. apply not_elem_of_nil. Qed.

Lemma coherent_del k ks d t t' : t' ⊆ delete k t -> coherent (k :: ks) d t -> coherent ks d t'.
Proof using.
  intros Hs Ht j v Hj Hn. apply (lookup_weaken _ _ _ _ Hj) in Hs.
  apply lookup_delete_Some in Hs as [? ?]. apply Ht; [done|]. by rewrite not_elem_of_cons.
Qed.

Lemma coherent_set k v ks d t t' :
  t' ⊆ <[k := v]> t -> entry_ok d k v -> coherent (k :: ks) d t -> coherent ks d t'.
Proof using.
  intros Hs Hv Ht j w Hj Hn. apply (lookup_weaken _ _ _ _ Hj) in Hs.
  apply lookup_insert_Some in Hs as [[<- <-]|[? ?]]; [done|]. apply Ht; [done|]. by rewrite not_elem_of_cons.
Qed.

Lemma coherent_more k ks d t : coherent ks d t -> coherent (k :: ks) d t.
Proof using. intros Ht j v Hj Hn. apply Ht; [done|]. rewrite not_elem_of_cons in Hn. tauto. Qed.

(** ** Entries of each kind *)
Ltac apart := exfalso; by match goal with
  | H : userKey _ = _ |- _ => discriminate H
  | H : chatKey _ = _ |- _ => discriminate H
  | H : memberKey _ _ = _ |- _ => discriminate H
  | H : isMemberKey _ _ = _ |- _ => discriminate H end.

Lemma entry_user d id v :
  (forall u, decode unmarshal_User v = Some u -> user_says d id u) -> entry_ok d (userKey id) v.
Proof using L. intros H. split; intros; try apart. apply userKey_inj in H0 as <-. auto. Qed.

Lemma entry_chat d id v :
  (forall c, decode unmarshal_Chat v = Some c -> st_chats d !! id = Some c /\ chat_ID c = id) ->
  entry_ok d (chatKey id) v.
Proof using L. intros H. split; intros; try apart. apply chatKey_inj in H0 as <-. auto. Qed.

Lemma entry_member d c u v :
  (forall m, decode unmarshal_ChatMember v = Some m -> member_role_says d c u m) ->
  entry_ok d (memberKey c u) v.
Proof using L. intros H. split; intros; try apart. apply memberKey_inj in H0 as [<- <-]. auto. Qed.

Lemma entry_is d c u v : is_one v = bool_decide (is_member d c u) -> entry_ok d (isMemberKey c u) v.
Proof using L. intros H. split; intros; try apart. by apply isMemberKey_inj in H0 as [<- <-]. Qed.

(** ** What a change of the store leaves true *)
Lemma stable_users f d id :
  (forall k, k <> id -> f (st_users d) !! k = st_users d !! k) -> stable [userKey id] d (with_users f d).
Proof using L.
  intros Hf k v Hk [Hu Hc Hm Hi]. split; [|done..].
  intros x u -> Hv. destruct (Hu x u eq_refl Hv) as (Hid & u' & Hx & Hp). split; [done|].
  exists u'. split; [|done]. cbn. rewrite Hf; [done|]. intros ->. apply Hk, list_elem_of_here.
Qed.

(** A new account: no entry can be about it. *)
Lemma stable_new_user d id u :
  st_users d !! id = None -> stable [] d (with_users <[id := u]> d).
Proof using.
  intros Hn k v _ [Hu Hc Hm Hi]. split; [|done..].
  intros x y -> Hv. destruct (Hu x y eq_refl Hv) as (Hid & u' & Hx & Hp). split; [done|].
  exists u'. split; [|done]. cbn. rewrite lookup_insert_ne; [done|congruence].
Qed.

Lemma stable_chats f d id :
  (forall k, k <> id -> f (st_chats d) !! k = st_chats d !! k) -> stable [chatKey id] d (with_chats f d).
Proof using.
  intros Hf k v Hk [Hu Hc Hm Hi]. split; [done| |done..].
  intros x c -> Hv. destruct (Hc x c eq_refl Hv) as (Hx & Hid). split; [|done].
  cbn. rewrite Hf; [done|]. intros ->. apply Hk, list_elem_of_here.
Qed.

Definition member_keys (c u : uuid) : list string := [isMemberKey c u; memberKey c u].

Lemma stable_member f d c u :
  (forall k, k <> (c, u) -> f (st_members d) !! k = st_members d !! k) ->
  stable (member_keys c u) d (with_members f d).
Proof using.
  intros Hf k v Hk [Hu Hc Hm Hi]. split; [done|done| |].
  - intros x y m -> Hv.
    assert ((x, y) <> (c, u)) as Hne
      by (intros [= -> ->]; apply Hk, list_elem_of_further, list_elem_of_here).
    destruct (Hm x y m eq_refl Hv) as (? & ? & ?). repeat split; [done..|].
    unfold role_of. cbn. by rewrite (Hf (x, y)).
  - intros x y ->.
    assert ((x, y) <> (c, u)) as Hne by (intros [= -> ->]; apply Hk, list_elem_of_here).
    rewrite (Hi x y eq_refl). apply bool_decide_ext. unfold is_member. cbn. by rewrite (Hf (x, y)).
Qed.

Lemma stable_role d c u r : is_member d c u -> stable [memberKey c u] d (set_role c u r d).
Proof using.
  intros Hmem k v Hk [Hu Hc Hm Hi]. split; [done|done| |].
  - intros x y m -> Hv.
    assert ((x, y) <> (c, u)) as Hne by (intros [= -> ->]; apply Hk, list_elem_of_here).
    destruct (Hm x y m eq_refl Hv) as (? & ? & ?). repeat split; [done..|].
    unfold role_of, set_role in *. cbn. by rewrite lookup_alter_ne.
  - intros x y ->. rewrite (Hi x y eq_refl). apply bool_decide_ext. unfold is_member, set_role. cbn.
    rewrite lookup_alter. case_decide; [|done]. simplify_eq. by rewrite fmap_is_Some.
Qed.

(** A new membership: only a cached "no" can be wrong about it. *)
Lemma stable_new_member d m :
  ~ is_member d (cm_ChatID m) (cm_UserID m) ->
  stable [isMemberKey (cm_ChatID m) (cm_UserID m)] d (add_member m d).
Proof using.
  intros Hn k v Hk [Hu Hc Hm Hi]. split; [done|done| |].
  - intros x y z -> Hv. destruct (Hm x y z eq_refl Hv) as (? & ? & Hr). repeat split; [done..|].
    unfold role_of, add_member in *. cbn. rewrite lookup_insert_ne; [done|].
    intros [= <- <-]. apply Hn. unfold is_member. by destruct (st_members d !! _).
  - intros x y ->. rewrite (Hi x y eq_refl). apply bool_decide_ext. unfold is_member, add_member. cbn.
    rewrite lookup_insert_ne; [done|]. intros [= <- <-]. apply Hk, list_elem_of_here.
Qed.

(** A new chat: only a cached "no" about its members can be wrong. *)
Lemma stable_new_chat c ms d :
  Forall (fun m => cm_ChatID m = chat_ID c) ms -> fresh_chat d (chat_ID c) ->
  stable ((fun m => isMemberKey (chat_ID c) (cm_UserID m)) <$> ms) d (create_chat c ms d).
Proof using.
  intros Hms [Hc0 Hm0] k v Hk [Hu Hc Hm Hi]. rewrite Forall_forall in Hms.
  assert (forall x y, (x = chat_ID c -> y ∉ cm_UserID <$> ms) ->
    st_members (create_chat c ms d) !! (x, y) = st_members d !! (x, y)) as Hsame.
  { intros x y Hxy. apply insert_members_other.
    intros (m & [= -> ->] & Hin)%list_elem_of_fmap. apply Hxy; [by apply Hms|].
    apply list_elem_of_fmap. by exists m. }
  split; [done| | |].
  - intros x y -> Hv. destruct (Hc x y eq_refl Hv) as (Hx & Hid). split; [|done].
    cbn. rewrite lookup_insert_ne; [done|congruence].
  - intros x y z -> Hv. destruct (Hm x y z eq_refl Hv) as (? & ? & Hr). repeat split; [done..|].
    unfold role_of in *. rewrite Hsame; [done|]. intros ->. by rewrite Hm0 in Hr.
  - intros x y ->. rewrite (Hi x y eq_refl). apply bool_decide_ext. unfold is_member. rewrite Hsame; [done|].
    intros -> (m & -> & Hin)%list_elem_of_fmap. apply Hk, list_elem_of_fmap. by exists m.
Qed.

Lemma coherent_absent k ks d t : t !! k = None -> coherent (k :: ks) d t -> coherent ks d t.
Proof using.
  intros Hk Ht j v Hj Hn. apply Ht; [done|]. rewrite not_elem_of_cons. split; [|done]. congruence.
Qed.
End coherence.
