(* ===== verification/CachedContract.v ===== *)
(** * The cached repositories implement the repository contracts

    For any cache that honours [CacheSpec] and origins that honour their
    contracts without touching the cache, the cached repositories honour the
    contracts as well, and keep the cache coherent. *)
From S2P Require Import Prelude Utf8 Domain Json Store ChatContract World Cache Cached Coherence.
Open Scope Z_scope.

Section contract.
Context {W : Type} (inv : W -> Prop) (view : W -> store) (contents : W -> gmap string cval).
Context `{CA : Cache (ST W)} {HCA : CacheSpec inv view contents CA}.
Context `{PR : Precision, TE : TextEq, LA : Latitude, LO : Loss} (acked : ~ may_lose).
Context `{UT : UUIDText} {L : UUIDTextLaws UT}.
Context (Htexts : forall w, inv w -> texts_ok (view w)).

(** The origin does not touch the cache. *)
Definition frozen (t : gmap string cval) (w : W) : Prop := inv w /\ contents w = t.

Definition coh (ks : list string) (w : W) : Prop := inv w /\ coherent ks (view w) (contents w).
Abbreviation cinv := (coh []).

Lemma wp_origin {A} (m : ST W (res A)) post fail ks (Q : res A -> W -> Prop) w :
  (forall t, honours (frozen t) view m post fail) -> coh ks w ->
  (forall a w', inv w' -> contents w' = contents w -> post (view w) a (view w') -> Q (Ok a) w') ->
  (forall e w', coh ks w' -> view w' = view w -> fail (view w) e \/ infra e -> Q (Err e) w') ->
  wp m Q w.
Proof using acked.
  intros Hm [Hi Hc] HOk HErr.
  eapply wp_mono; [by apply (Hm (contents w) w)|]. intros [a|e] w' [[Hi' Hc'] Hans]; cbn in Hans.
  - by apply HOk.
  - assert (view w' = view w) as Hv by (destruct Hans as [[_ ?]|[_ [?|[? _]]]]; done).
    apply HErr; [|done|].
    + split; [done|]. by rewrite Hv, Hc'.
    + destruct Hans as [[? _]|[? _]]; auto.
Qed.

(** A method that is passed through, when it changes nothing a cache entry says. *)
Lemma pass {A} (m : ST W (res A)) post fail :
  (forall t, honours (frozen t) view m post fail) ->
  (forall d a d', post d a d' -> stable [] d d') ->
  honours cinv view m post fail.
Proof using acked.
  intros Hm Hs w Hw. eapply wp_origin; [done|exact Hw| |].
  - intros a w' Hi' Hc' HP. split; [|done]. split; [done|]. rewrite Hc'.
    destruct Hw as [_ Hcoh]. eapply coherent_stable; [done|]. by eapply Hs.
  - intros e w' Hw' Hv Hf. split; [done|]. cbn. rewrite Hv. destruct Hf; [by left|right]. auto.
Qed.

Lemma stable_refl d : stable [] d d.
Proof using. by intros k v _ H. Qed.

Lemma pass_reads {A} (m : ST W (res A)) P fail :
  (forall t, reads (frozen t) view m P fail) -> reads cinv view m P fail.
Proof using acked. intros Hm. apply pass; [exact Hm|]. intros d a d' [-> _]. apply stable_refl. Qed.

Lemma wp_Del {A} k ks (q : res unit -> ST W A) Q w :
  coh (k :: ks) w -> (forall r w', coh ks w' -> view w' = view w -> wp (q r) Q w') ->
  wp (mbind q (cache_Del k)) Q w.
Proof using HCA.
  intros [Hi Hc] Hq. apply wp_bind. eapply wp_mono; [by apply spec_Del|].
  intros r w' (Hi' & Hv & Hsub). apply Hq; [|done]. split; [done|]. rewrite Hv. by eapply coherent_del.
Qed.

Lemma wp_Set {A} k v ttl ks (q : res unit -> ST W A) Q w :
  coh (k :: ks) w -> entry_ok (view w) k v ->
  (forall r w', coh ks w' -> view w' = view w -> wp (q r) Q w') ->
  wp (mbind q (cache_Set k v ttl)) Q w.
Proof using HCA.
  intros [Hi Hc] Hv Hq. apply wp_bind. eapply wp_mono; [by apply spec_Set|].
  intros r w' (Hi' & Hview & Hsub). apply Hq; [|done]. split; [done|]. rewrite Hview. by eapply coherent_set.
Qed.

Lemma coh_more k ks w : coh ks w -> coh (k :: ks) w.
Proof using. intros [? ?]. split; [done|]. by apply coherent_more. Qed.

Lemma wp_Get {A} k (q : res cval -> ST W A) Q w :
  cinv w ->
  (forall v w', cinv w' -> view w' = view w -> entry_ok (view w) k v -> wp (q (Ok v)) Q w') ->
  (forall e w', cinv w' -> view w' = view w -> wp (q (Err e)) Q w') ->
  wp (mbind q (cache_Get k)) Q w.
Proof using HCA.
  intros [Hi Hc] HOk HErr. apply wp_bind. eapply wp_mono; [by apply spec_Get|].
  intros [v|e] w' (Hi' & Hv & Hsub & Hr).
  - apply HOk; [|done|].
    + split; [done|]. rewrite Hv. by eapply coherent_sub.
    + apply Hc; [done|]. apply not_elem_of_nil.
  - apply HErr; [|done]. split; [done|]. rewrite Hv. by eapply coherent_sub.
Qed.

(** ** Reading through the cache *)
Lemma read_through_reads {A} key ttl unmarshal marshal (origin : ST W (res A)) P fail :
  (forall t, reads (frozen t) view origin P fail) ->
  (forall d v a, entry_ok d key v -> decode unmarshal v = Some a -> P d a) ->
  (forall d a j, texts_ok d -> P d a -> marshal a = Ok j -> entry_ok d key (CJson j)) ->
  reads cinv view (read_through key ttl unmarshal marshal origin) P fail.
Proof using acked HCA Htexts.
  intros Ho Hhit Hfill w Hw. unfold read_through.
  assert (forall w1, cinv w1 -> view w1 = view w ->
    wp (let? a := origin in
        match marshal a with
        | Ok j => let* _ := cache_Set key (CJson j) ttl in mret (Ok a)
        | Err _ => mret (Ok a) end)
      (fun r w' => cinv w' /\ answer (fun d a d' => d' = d /\ P d a) fail (view w) r (view w')) w1) as Hmiss.
  { intros w1 Hw1 Hv1. apply wp_try. eapply wp_origin; [exact Ho|exact Hw1| |].
    - intros a w2 Hi2 Hc2 [Hv2 HP]. assert (cinv w2) as Hw2 by (destruct Hw1; split; [done|by rewrite Hv2, Hc2]).
      assert (view w2 = view w) as Hvw by congruence.
      destruct (marshal a) as [j|e] eqn:Hj.
      + eapply (wp_Set _ _ _ []); [by apply coh_more| |].
        * rewrite Hvw, <- Hv1. eapply Hfill; [|done|done]. rewrite Hv1, <- Hvw. by apply Htexts.
        * intros _ w3 Hw3 Hv3. apply wp_ret. split; [done|]. rewrite Hv3, Hvw. split; [done|]. by rewrite <- Hv1.
      + apply wp_ret. split; [done|]. rewrite Hvw. split; [done|]. by rewrite <- Hv1.
    - intros e w2 Hw2 Hv2 Hf. split; [done|]. rewrite Hv1 in *. cbn. rewrite Hv2.
      destruct Hf; [by left|right]. auto. }
  apply wp_Get; [done| |].
  - intros v w1 Hw1 Hv1 Hok. destruct (decode unmarshal v) as [a|] eqn:Hd; [|by apply Hmiss].
    apply wp_ret. split; [done|]. split; [done|]. by eapply Hhit.
  - intros e w1 Hw1 Hv1. by apply Hmiss.
Qed.

(** ** Users *)
Section users.
Context (UR : UserRepository (ST W)) (ttl : Duration).
Context (HO : forall t, UserRepositorySpec (frozen t) view UR).

(** A write followed by the deletion of the account's entry. *)
Lemma write_user (m : ST W (res unit)) post fail id :
  (forall t, honours (frozen t) view m post fail) ->
  (forall d a d', post d a d' -> stable [userKey id] d d') ->
  honours cinv view (let? _ := m in let* _ := cache_Del (userKey id) in mret (Ok tt)) post fail.
Proof using acked HCA.
  intros Hm Hs w Hw. apply wp_try. eapply wp_origin; [exact Hm|exact Hw| |].
  - intros a w1 Hi1 Hc1 HP. eapply (wp_Del _ []).
    + split; [done|]. rewrite Hc1. destruct Hw as [_ Hcoh]. eapply coherent_stable; [done|]. by eapply Hs.
    + intros _ w2 Hw2 Hv2. apply wp_ret. split; [done|]. cbn. rewrite Hv2. by destruct a.
  - intros e w1 Hw1 Hv1 Hf. split; [done|]. cbn. rewrite Hv1. destruct Hf; [by left|right]. auto.
Qed.

Lemma user_entry_fill d id u j :
  texts_ok d -> user_says d id u -> marshal_User u = Ok j -> entry_ok d (userKey id) (CJson j).
Proof using L.
  intros (Ht & _) (Hid & u' & Hu & Hp) Hj. apply entry_user. intros x Hx. cbn in Hx.
  assert (user_text u) as Htext.
  { specialize (Ht id u' Hu). unfold user_text, public in *. injection Hp as ? ? ? ? ? ? ? ? ?. congruence. }
  rewrite (User_roundtrip u j Htext Hj) in Hx. injection Hx as <-. split; [done|]. by exists u'.
Qed.

#[export] Instance cached_user_spec : UserRepositorySpec cinv view (cached_users UR ttl).
Proof using acked HCA Htexts HO L.
  split; cbn; intros.
  - apply pass; [intros t; apply (spec_UserCreate (UR := UR))|].
    intros d a d' (Hf & _ & _ & ->). by apply stable_new_user.
  - apply read_through_reads.
    + intros t. apply (spec_UserGetByID (UR := UR)).
    + intros d v u Hok Hv. by eapply eo_user.
    + intros d u j. apply user_entry_fill.
  - apply pass_reads. intros t. apply (spec_UserGetByEmail (UR := UR)).
  - apply pass_reads. intros t. apply (spec_UserGetByUsername (UR := UR)).
  - apply write_user; [intros t; apply (spec_UserUpdate (UR := UR))|].
    intros d a d' (_ & _ & _ & ->). apply stable_users. intros k Hk. by apply lookup_alter_ne.
  - apply write_user; [intros t0; apply (spec_UserUpdateStatus (UR := UR))|].
    intros d a d' [now ->]. apply stable_users. intros k Hk. by apply lookup_alter_ne.
  - apply pass_reads. intros t. apply (spec_UserSearch (UR := UR)).
  - apply write_user; [intros t; apply (spec_UserDelete (UR := UR))|].
    intros d a d' ->. apply stable_users. intros k Hk. by apply lookup_delete_ne.
Qed.
End users.

(** ** Chats *)

(** The role [find] gives a member of a list without repeats. *)
Lemma find_member_role_in ms m :
  NoDup (cm_UserID <$> ms) -> m ∈ ms ->
  (fun p => cm_Role p.2) <$> list_find (fun x => cm_UserID x = cm_UserID m) (stamp_member <$> ms) =
  Some (cm_Role m).
Proof using.
  induction ms as [|x ms IH]; intros Hnd Hin; [by apply not_elem_of_nil in Hin|].
  rewrite fmap_cons in Hnd. rewrite fmap_cons. apply NoDup_cons in Hnd as [Hx Hnd]. cbn [list_find].
  apply elem_of_cons in Hin as [->|Hin]; [by rewrite decide_True|].
  rewrite decide_False.
  - specialize (IH Hnd Hin). by destruct (list_find _ (stamp_member <$> ms)) as [[i y]|].
  - cbn. intros E. apply Hx. rewrite E. by apply list_elem_of_fmap_2.
Qed.

Section chats.
Context (CR : ChatRepository (ST W)) (chatTTL memberTTL : Duration).
Context (HO : forall t, ChatRepositorySpec (frozen t) view CR).

Lemma chat_entry_fill d id c j :
  texts_ok d -> st_chats d !! id = Some c /\ chat_ID c = id -> marshal_Chat c = Ok j ->
  entry_ok d (chatKey id) (CJson j).
Proof using L.
  intros (_ & Ht & _) [Hc Hid] Hj. apply entry_chat. intros x Hx. cbn in Hx.
  rewrite (Chat_roundtrip c j (Ht id c Hc) Hj) in Hx. by injection Hx as <-.
Qed.

Lemma member_entry_fill d c u m j :
  texts_ok d -> member_role_says d c u m -> marshal_ChatMember m = Ok j ->
  entry_ok d (memberKey c u) (CJson j).
Proof using L.
  intros (_ & _ & Ht) (Hc & Hu & Hr) Hj. apply entry_member. intros x Hx. cbn in Hx.
  destruct (unmarshal_ChatMember j) as [y|] eqn:Hy; [|done]. injection Hx as ->.
  destruct (ChatMember_keeps m x j (Ht _ _ _ Hr) Hj Hy) as (E1 & E2 & E3).
  repeat split; [congruence..|]. by rewrite E3.
Qed.

Lemma cached_IsMember_reads c u :
  reads cinv view (cached_chat_IsMember CR memberTTL c u) (fun d b => b = bool_decide (is_member d c u)) never.
Proof using acked HCA HO L.
  intros w Hw. unfold cached_chat_IsMember. apply wp_Get; [done| |].
  - intros v w1 Hw1 Hv1 Hok. apply wp_ret. split; [done|]. split; [done|]. by eapply eo_is.
  - intros _ w1 Hw1 Hv1. apply wp_try.
    eapply wp_origin; [intros t; apply (spec_IsMember (CR := CR))|exact Hw1| |].
    + intros b w2 Hi2 Hc2 [Hv2 ->].
      assert (cinv w2) as Hw2 by (destruct Hw1; split; [done|by rewrite Hv2, Hc2]).
      eapply (wp_Set _ _ _ []); [by apply coh_more| |].
      * apply entry_is. rewrite Hv2. by case_bool_decide.
      * intros _ w3 Hw3 Hv3. apply wp_ret. split; [done|]. by rewrite Hv3, Hv2, Hv1.
    + intros e w2 Hw2 Hv2 [[]|Hinf]. split; [done|]. right. rewrite Hv2, Hv1. auto.
Qed.

Lemma seed_coh c m ks w :
  coh (isMemberKey c (cm_UserID m) :: ks) w -> member_role_says (view w) c (cm_UserID m) m ->
  wp (seed memberTTL c m) (fun r w' => r = Ok tt /\ coh ks w' /\ view w' = view w) w.
Proof using HCA L Htexts.
  intros Hw Hm. pose proof Hm as (_ & _ & Hr). unfold seed. eapply wp_Set; [exact Hw| |].
  - apply entry_is. cbn. symmetry. apply bool_decide_eq_true_2. by eapply role_of_is_member.
  - intros _ w1 Hw1 Hv1. destruct (marshal_ChatMember m) as [j|e] eqn:Hj; [|by apply wp_ret].
    eapply wp_Set; [apply coh_more; exact Hw1| |].
    + rewrite Hv1. apply (member_entry_fill _ _ _ m); [apply Htexts; apply Hw|done|done].
    + intros _ w2 Hw2 Hv2. apply wp_ret. by rewrite Hv2, Hv1.
Qed.

Lemma drop_member_coh c u ks w :
  coh (isMemberKey c u :: memberKey c u :: ks) w ->
  wp (drop_member c u) (fun r w' => r = Ok tt /\ coh ks w' /\ view w' = view w) w.
Proof using HCA.
  intros Hw. unfold drop_member. eapply wp_Del; [exact Hw|]. intros _ w1 Hw1 Hv1.
  eapply wp_Del; [exact Hw1|]. intros _ w2 Hw2 Hv2. apply wp_ret. by rewrite Hv2, Hv1.
Qed.

Lemma coh_after w w' ks d' :
  cinv w -> inv w' -> contents w' = contents w -> view w' = d' -> stable ks (view w) d' -> coh ks w'.
Proof using.
  intros [_ Hc] Hi Hcc Hv Hs. split; [done|]. rewrite Hcc, Hv. by eapply coherent_stable.
Qed.

Lemma failed {A} (post : store -> A -> store -> Prop) fail e w w' :
  cinv w' -> view w' = view w -> fail (view w) e \/ infra e ->
  cinv w' /\ answer post fail (view w) (Err e) (view w').
Proof using. intros Hw' Hv Hf. split; [done|]. cbn. rewrite Hv. destruct Hf; [by left|right]. auto. Qed.

Lemma cached_CreateWithMembers c ms :
  Forall (fun m => cm_ChatID m = chat_ID c) ms -> NoDup (cm_UserID <$> ms) ->
  honours cinv view (cached_chat_CreateWithMembers CR memberTTL c ms)
    (fun d _ d' => fresh_chat d (chat_ID c) /\ d' = create_chat (stamp_chat c) (stamp_member <$> ms) d) never.
Proof using acked HCA HO L Htexts.
  intros Hms Hnd w Hw. unfold cached_chat_CreateWithMembers. apply wp_try.
  eapply wp_origin; [intros t; by apply (spec_CreateWithMembers (CR := CR))|exact Hw| |].
  2:{ intros e w1 Hw1 Hv1 Hf. by apply failed. }
  intros [] w1 Hi1 Hc1 [Hf Hv1]. pose proof Hms as Hall. rewrite Forall_forall in Hall.
  assert (Forall (fun m => cm_ChatID m = chat_ID (stamp_chat c)) (stamp_member <$> ms)) as Hms'
    by (by apply Forall_fmap).
  assert (cm_UserID <$> (stamp_member <$> ms) = cm_UserID <$> ms) as Hus
    by (rewrite <- list_fmap_compose; by apply list_fmap_ext).
  apply (wp_for_each _ _ (fun pre w' => forall post, ms = pre ++ post ->
    coh ((fun m => isMemberKey (chat_ID c) (cm_UserID m)) <$> post) w' /\ view w' = view w1)).
  - intros post ->. split; [|done]. eapply coh_after; [exact Hw|done|done|exact Hv1|].
    replace ((fun m => isMemberKey (chat_ID c) (cm_UserID m)) <$> post)
      with ((fun m => isMemberKey (chat_ID (stamp_chat c)) (cm_UserID m)) <$> (stamp_member <$> post)).
    + by apply stable_new_chat.
    + rewrite <- list_fmap_compose. by apply list_fmap_ext.
  - intros pre m post w2 Heq Hinv. destruct (Hinv (m :: post) Heq) as [Hw2 Hv2].
    assert (m ∈ ms) as Hin by (rewrite Heq, elem_of_app; right; left).
    eapply wp_mono; [apply seed_coh; [exact Hw2|]|].
    + rewrite Hv2, Hv1. repeat split; [by apply Hall|].
      rewrite create_chat_role; [|done|by rewrite Hus|done]. rewrite decide_True by done.
      by apply find_member_role_in.
    + intros r w3 (-> & Hw3 & Hv3) post' Hpost'. rewrite Heq, <- app_assoc in Hpost'.
      apply app_inv_head in Hpost'. injection Hpost' as <-. split; [done|]. congruence.
  - intros w2 Hinv. destruct (Hinv []) as [Hw2 Hv2]; [by rewrite app_nil_r|]. split; [done|].
    cbn. split; [done|]. congruence.
Qed.

Lemma cached_Update_honours c :
  honours cinv view (cached_chat_Update CR c)
    (fun d _ d' => is_Some (st_chats d !! chat_ID c) /\
       d' = update_chat c d) (chat_missing c).
Proof using acked HCA HO L.
  intros w Hw. unfold cached_chat_Update. apply wp_bind. destruct Hw as [Hi Hc].
  eapply wp_mono; [by apply spec_Del|]. intros _ w1 (Hi1 & Hv1 & Hsub).
  assert (contents w1 !! chatKey (chat_ID c) = None) as Hgone.
  { destruct (contents w1 !! _) as [v|] eqn:Hk; [|done]. apply (lookup_weaken _ _ _ _ Hk) in Hsub.
    by rewrite lookup_delete_eq in Hsub. }
  assert (cinv w1) as Hw1.
  { split; [done|]. rewrite Hv1. eapply coherent_del; [exact Hsub|]. by apply coherent_more. }
  eapply wp_origin; [intros t; apply (spec_Update (CR := CR))|exact Hw1| |].
  - intros a w2 Hi2 Hc2 [Hs Hv2]. split; [|rewrite <- Hv1; by split].
    split; [done|]. rewrite Hc2. apply (coherent_absent (chatKey (chat_ID c))); [done|].
    rewrite Hv2. eapply coherent_stable; [apply Hw1|]. apply stable_chats.
    intros k Hk. by apply lookup_alter_ne.
  - intros e w2 Hw2 Hv2 Hf. rewrite Hv1 in *. by apply failed.
Qed.

Lemma cached_Delete_honours id :
  honours cinv view (cached_chat_Delete CR id) (fun d _ d' => d' = with_chats (delete id) d) never.
Proof using acked HCA HO L.
  intros w Hw. unfold cached_chat_Delete. apply wp_bind.
  assert (forall ms w1, cinv w1 -> view w1 = view w ->
    wp (let? _ := chats_Delete id in
        let* _ := cache_Del (chatKey id) in
        for_each ms (fun m => drop_member id (cm_UserID m)))
      (fun r w' => cinv w' /\ answer (fun d _ d' => d' = with_chats (delete id) d) never (view w) r (view w')) w1)
    as Hrest.
  { intros ms w1 Hw1 Hv1. apply wp_try.
    eapply wp_origin; [intros t; apply (spec_Delete (CR := CR))|exact Hw1| |].
    2:{ intros e w2 Hw2 Hv2 Hf. rewrite Hv1 in *. by apply failed. }
    intros a w2 Hi2 Hc2 Hv2. eapply (wp_Del _ []).
    { eapply coh_after; [exact Hw1|done|done|exact Hv2|]. apply stable_chats.
      intros k Hk. by apply lookup_delete_ne. }
    intros _ w3 Hw3 Hv3. apply (wp_for_each _ _ (fun _ w' => cinv w' /\ view w' = view w2)).
    - done.
    - intros pre m post w4 _ [Hw4 Hv4].
      eapply wp_mono; [apply drop_member_coh; apply coh_more, coh_more; exact Hw4|].
      intros r w5 (-> & Hw5 & Hv5). split; [done|]. congruence.
    - intros w4 [Hw4 Hv4]. split; [done|]. cbn. congruence. }
  eapply wp_origin; [intros t; apply (spec_GetMembers (CR := CR))|exact Hw| |].
  - intros ms w1 Hi1 Hc1 [Hv1 _]. apply Hrest; [|done].
    destruct Hw. split; [done|]. by rewrite Hv1, Hc1.
  - intros e w1 Hw1 Hv1 _. by apply Hrest.
Qed.

Lemma cached_AddMember_honours m :
  known_role (cm_Role m) ->
  honours cinv view (cached_chat_AddMember CR memberTTL m)
    (fun d _ d' => ~ is_member d (cm_ChatID m) (cm_UserID m) /\ d' = add_member (stamp_member m) d)
    (already_member m).
Proof using acked HCA HO L Htexts.
  intros Hrole w Hw. unfold cached_chat_AddMember. apply wp_try.
  eapply wp_origin; [intros t; by apply (spec_AddMember (CR := CR))|exact Hw| |].
  2:{ intros e w1 Hw1 Hv1 Hf. by apply failed. }
  intros a w1 Hi1 Hc1 [Hn Hv1]. eapply wp_mono; [apply seed_coh with (ks := [])|].
  - eapply coh_after; [exact Hw|done|done|exact Hv1|]. by apply (stable_new_member _ (stamp_member m)).
  - rewrite Hv1. repeat split; [done..|]. rewrite add_member_role. by rewrite decide_True.
  - intros r w2 (-> & Hw2 & Hv2). split; [done|]. cbn. rewrite Hv2. by split.
Qed.

Lemma cached_RemoveMember_honours c u :
  honours cinv view (cached_chat_RemoveMember CR c u)
    (fun d _ d' => is_member d c u /\ d' = remove_member c u d)
    (fun d e => e = Sentinel ErrNotChatMember /\ ~ is_member d c u).
Proof using acked HCA HO L.
  intros w Hw. unfold cached_chat_RemoveMember. apply wp_try.
  eapply wp_origin; [intros t; apply (spec_RemoveMember (CR := CR))|exact Hw| |].
  2:{ intros e w1 Hw1 Hv1 Hf. by apply failed. }
  intros a w1 Hi1 Hc1 [Hm Hv1]. eapply wp_mono; [apply drop_member_coh with (ks := [])|].
  - eapply coh_after; [exact Hw|done|done|exact Hv1|]. apply stable_member.
    intros k Hk. by apply lookup_delete_ne.
  - intros r w2 (-> & Hw2 & Hv2). split; [done|]. cbn. rewrite Hv2. by split.
Qed.

Lemma cached_UpdateMemberRole_honours c u role :
  honours cinv view (cached_chat_UpdateMemberRole CR c u role)
    (fun d _ d' => is_member d c u /\ d' = set_role c u role d) (role_unset c u role).
Proof using acked HCA HO L.
  intros w Hw. unfold cached_chat_UpdateMemberRole. apply wp_try.
  eapply wp_origin; [intros t; apply (spec_UpdateMemberRole (CR := CR))|exact Hw| |].
  2:{ intros e w1 Hw1 Hv1 Hf. by apply failed. }
  intros a w1 Hi1 Hc1 [Hm Hv1]. eapply (wp_Del _ []).
  - eapply coh_after; [exact Hw|done|done|exact Hv1|]. by apply stable_role.
  - intros _ w2 Hw2 Hv2. apply wp_ret. split; [done|]. cbn. rewrite Hv2. by split.
Qed.

#[export] Instance cached_chat_spec : ChatRepositorySpec cinv view (cached_chats CR chatTTL memberTTL).
Proof using acked HCA HO L Htexts.
  split; cbn; intros.
  - by apply cached_CreateWithMembers.
  - apply read_through_reads.
    + intros t. apply (spec_GetByID (CR := CR)).
    + intros d v c Hok Hv. by eapply eo_chat.
    + intros d c j. apply chat_entry_fill.
  - apply cached_Update_honours.
  - apply cached_Delete_honours.
  - by apply cached_AddMember_honours.
  - apply cached_RemoveMember_honours.
  - apply read_through_reads.
    + intros t. apply (spec_GetMember (CR := CR)).
    + intros d v m Hok Hv. by eapply eo_member.
    + intros d m j. apply member_entry_fill.
  - apply pass_reads. intros t. apply (spec_GetMembers (CR := CR)).
  - apply cached_UpdateMemberRole_honours.
  - apply pass_reads. intros t. apply (spec_GetUserChats (CR := CR)).
  - apply pass_reads. intros t. apply (spec_GetDirectChat (CR := CR)).
  - apply cached_IsMember_reads.
Qed.
End chats.
End contract.
