(* ===== verification/CachedApp.v ===== *)
(** * The application with its cache

    The wiring of [newApplication] when a cache is configured: cached chats for
    the chat and the message services, cached users for the user service, the
    chat service looking users up in the storage itself. *)
From S2P Require Import Prelude Utf8 Domain Config Validate ChatUsecase MessageUsecase UserUsecase Json Store.
From S2P Require Import Schema World Sql SqlWf SqlRules SqlWrites Postgres PostgresSpec Mysql MysqlSpec.
From S2P Require Import Storage ChatContract ChatRefinement MessageRefinement UserRefinement.
From S2P Require Import Jwt System App Cache Cached Coherence CachedContract.
Open Scope Z_scope.

(** ** The storage never touches the cache *)
Definition keeps_cache {A} (m : ST world A) : Prop := forall w, w_cache (m w).2 = w_cache w.

Lemma keeps_ret {A} (a : A) : keeps_cache (mret a).
Proof. done. Qed.

Lemma keeps_bind {A B} (m : ST world A) (k : A -> ST world B) :
  keeps_cache m -> (forall a, keeps_cache (k a)) -> keeps_cache (mbind k m).
Proof. intros Hm Hk w. cbn. unfold mbind, ST_bind. by rewrite Hk, Hm. Qed.

Lemma keeps_try {A B} (m : ST world (res A)) (k : A -> ST world (res B)) :
  keeps_cache m -> (forall a, keeps_cache (k a)) -> keeps_cache (try m k).
Proof. intros Hm Hk. apply keeps_bind; [done|]. intros [a|e]; [apply Hk|apply keeps_ret]. Qed.

Section statements.
Context `{Env}.

Lemma keeps_stmt {A} err (q : stmt A) : keeps_cache (run_stmt err q).
Proof using. intros w. unfold run_stmt. by destruct (q _ _ _) as [[a d]|v], (env_fault _). Qed.

Lemma keeps_begin : keeps_cache tx_begin.
Proof using. intros w. unfold tx_begin. by destruct (env_fault _). Qed.

Lemma keeps_exec {A} err (q : stmt A) d : keeps_cache (tx_exec err q d).
Proof using. intros w. unfold tx_exec. by repeat case_match. Qed.

Lemma keeps_commit d : keeps_cache (tx_commit d).
Proof using. intros w. unfold tx_commit. by destruct (env_fault _). Qed.

Lemma keeps_each `{Dialect} {A} (q : A -> stmt Z) xs tx : keeps_cache (tx_for_each q xs tx).
Proof using.
  revert tx. induction xs as [|x xs IH]; intros tx; cbn [tx_for_each]; [apply keeps_ret|].
  apply keeps_try; [apply keeps_exec|]. intros r. apply IH.
Qed.
End statements.

#[export] Hint Resolve keeps_ret keeps_stmt keeps_begin keeps_exec keeps_commit keeps_each : vibe.

Ltac unfold_head := lazymatch goal with |- keeps_cache ?m => let h := head_of m in unfold h end.

(** Follow the binds of a method down to its statements. *)
Ltac keeps :=
  repeat first
    [ solve [auto with vibe]
    | apply keeps_try; [|intros ?]
    | apply keeps_bind; [|intros ?]
    | match goal with |- keeps_cache (match ?x with _ => _ end) => destruct x end
    | progress unfold_head ].

(** ** The texts the tables hold *)

Lemma db_texts_ok `{D : Dialect, DL : !DialectLaws D} w : db_ok w -> texts_ok (view w).
Proof.
  intros Hw. split; [|split].
  - intros id u Hu. apply live_users_Some in Hu as (r & Hr & _ & ->).
    apply law_user_text. exact (wf_user _ Hw id r Hr).
  - intros id c Hc. apply live_chats_Some in Hc as (r & Hr & _ & ->).
    eapply law_chat_text. exact (wf_chat _ Hw id r Hr).
  - intros c u role Hrole. unfold role_of, view, view_db in Hrole. cbn in Hrole.
    destruct (t_members (w_db w) !! (c, u)) as [[r t]|] eqn:Hm; simplify_eq/=.
    destruct (wf_member _ Hw _ _ Hm) as [Hr _]. eapply enum_ok; [|exact Hr]. by repeat constructor.
Qed.

(** ** The storage under the cache *)
Section frozen.
Context `{E : Env, C : Collation, U : UnicodeCI} {UL : UnicodeCILaws U} (t : Driver).
#[local] Instance frozen_dialect : Dialect := dialect t.

Lemma honours_frozen {A} (m : ST world (res A)) post fail contents :
  keeps_cache m -> honours db_ok view m post fail -> honours (frozen db_ok mock_contents contents) view m post fail.
Proof using.
  intros Hk Hm w [Hw Ht]. eapply wp_mono.
  { refine (wp_and _ _ (fun _ w' => w_cache w' = w_cache w) _ (Hm w Hw) _). apply Hk. }
  intros r w' [[Hw' Ha] Hc]. split; [|done]. split; [done|]. unfold mock_contents in *. by rewrite Hc.
Qed.

(** A repository that honours its contract and whose methods keep the cache. *)
Ltac freeze := split; intros; (apply honours_frozen; [destruct t; cbn; keeps|]).

#[export] Instance frozen_chats contents :
  ChatRepositorySpec (frozen db_ok mock_contents contents) view (Chats (storage_of t)).
Proof using UL.
  freeze.
  - by apply (spec_CreateWithMembers (CR := Chats (storage_of t))).
  - apply (spec_GetByID (CR := Chats (storage_of t))).
  - apply (spec_Update (CR := Chats (storage_of t))).
  - apply (spec_Delete (CR := Chats (storage_of t))).
  - by apply (spec_AddMember (CR := Chats (storage_of t))).
  - apply (spec_RemoveMember (CR := Chats (storage_of t))).
  - apply (spec_GetMember (CR := Chats (storage_of t))).
  - apply (spec_GetMembers (CR := Chats (storage_of t))).
  - apply (spec_UpdateMemberRole (CR := Chats (storage_of t))).
  - apply (spec_GetUserChats (CR := Chats (storage_of t))).
  - apply (spec_GetDirectChat (CR := Chats (storage_of t))).
  - apply (spec_IsMember (CR := Chats (storage_of t))).
Qed.

#[export] Instance frozen_users contents :
  UserRepositorySpec (frozen db_ok mock_contents contents) view (Users (storage_of t)).
Proof using UL.
  freeze.
  - apply (spec_UserCreate (UR := Users (storage_of t))).
  - apply (spec_UserGetByID (UR := Users (storage_of t))).
  - apply (spec_UserGetByEmail (UR := Users (storage_of t))).
  - apply (spec_UserGetByUsername (UR := Users (storage_of t))).
  - apply (spec_UserUpdate (UR := Users (storage_of t))).
  - apply (spec_UserUpdateStatus (UR := Users (storage_of t))).
  - apply (spec_UserSearch (UR := Users (storage_of t))).
  - apply (spec_UserDelete (UR := Users (storage_of t))).
Qed.

#[export] Instance frozen_messages contents :
  MessageRepositorySpec (frozen db_ok mock_contents contents) view (Messages (storage_of t)).
Proof using UL.
  freeze.
  - apply (spec_MessageCreate (MR := Messages (storage_of t))).
  - apply (spec_MessageGetByID (MR := Messages (storage_of t))).
  - apply (spec_GetChatMessages (MR := Messages (storage_of t))).
  - apply (spec_MessageUpdate (MR := Messages (storage_of t))).
  - apply (spec_MessageDelete (MR := Messages (storage_of t))).
  - apply (spec_MarkRead (MR := Messages (storage_of t))).
  - apply (spec_GetUnreadCount (MR := Messages (storage_of t))).
  - apply (spec_AddReaction (MR := Messages (storage_of t))).
  - apply (spec_RemoveReaction (MR := Messages (storage_of t))).
  - apply (spec_GetReactions (MR := Messages (storage_of t))).
  - apply (spec_GetReactionsBatch (MR := Messages (storage_of t))).
Qed.
End frozen.

(** ** The wiring of [newApplication] with a cache *)

Section wiring.
Context `{E : Env, J : GoJWT, UT : UUIDText, B : Bcrypt}.
Context (s : Storage) (cfg : jwt_Config) (cost : Z) (ttl : TTLConfig).

Definition app_users (c : option (Cache (ST world))) : UserRepository (ST world) :=
  cached_NewUserRepository (Users s) c (ttl_User ttl).
Definition app_chats (c : option (Cache (ST world))) : ChatRepository (ST world) :=
  cached_NewChatRepository (Chats s) c (ttl_Chat ttl) (ttl_Member ttl).

(** Requests served one after the other; [c] is the cache, when there is one. *)
Definition run_application (c : option (Cache (ST world))) (cs : list api_call) (w : world) : world :=
  (serve_all (M := ST world) (Users s) (H3 := app_users c) (H4 := app_chats c)
     (H5 := Messages s) (H6 := JWTManager cfg) (H7 := Hasher cost) cs w).2.
End wiring.

Section cached_app.
Context `{E : Env, C : Collation, U : UnicodeCI, J : GoJWT, UT : UUIDText, B : Bcrypt}.
Context (t : Driver) (cfg : jwt_Config) (cost : Z) (ttl : TTLConfig).
Abbreviation s := (storage_of t).

Lemma run_application_uncached cs w : run_application s cfg cost ttl None cs w = run_server t cfg cost cs w.
Proof using. done. Qed.

Context {UL : UnicodeCILaws U} {L : UUIDTextLaws UT} (acked : ~ world_loss).
#[local] Instance app_dialect : Dialect := dialect t.

(** The tables are sound and the cache tells the truth about them. *)
Definition app_ok : world -> Prop := coh db_ok view mock_contents [].

Lemma initial_app_ok : app_ok initial_world.
Proof using. split; [apply initial_world_ok|]. intros k v Hk. done. Qed.

#[local] Instance app_env : EnvSpec app_ok view.
Proof using. split; by intros w [Hw Hc]. Qed.

#[local] Instance app_token_spec : TokenSpec app_ok view (JWTManager cfg) (Hasher cost).
Proof using. split; by intros ? w [Hw Hc]. Qed.

(** Messages, receipts and reactions are not cached. *)
Lemma stable_same d d' :
  st_users d' = st_users d -> st_chats d' = st_chats d -> st_members d' = st_members d -> stable [] d d'.
Proof using.
  intros Eu Ec Em k v _ [Hu Hc Hm Hi].
  split; unfold user_says, member_role_says, role_of in *; rewrite ?Eu, ?Ec, ?Em; [done..|].
  intros c u Hk. rewrite (Hi c u Hk). apply bool_decide_ext. unfold is_member. by rewrite Em.
Qed.

Ltac untouched := intros d a d';
  first [intros (_ & _ & ->)|intros (_ & x & ->)|intros (_ & ->)|intros [x ->]|intros ->
        |intros [-> | [e' ->]]%add_reaction_others];
  by apply stable_same.

#[local] Instance app_messages : MessageRepositorySpec app_ok view (Messages (storage_of t)).
Proof using acked UL.
  split; intros; first
    [apply (pass_reads _ _ _ acked)|apply (pass _ _ _ acked); [|untouched]]; intros contents.
  - apply (spec_MessageCreate (MR := (Messages (storage_of t)))).
  - apply (spec_MessageGetByID (MR := (Messages (storage_of t)))).
  - apply (spec_GetChatMessages (MR := (Messages (storage_of t)))).
  - apply (spec_MessageUpdate (MR := (Messages (storage_of t)))).
  - apply (spec_MessageDelete (MR := (Messages (storage_of t)))).
  - apply (spec_MarkRead (MR := (Messages (storage_of t)))).
  - apply (spec_GetUnreadCount (MR := (Messages (storage_of t)))).
  - apply (spec_AddReaction (MR := (Messages (storage_of t)))).
  - apply (spec_RemoveReaction (MR := (Messages (storage_of t)))).
  - apply (spec_GetReactions (MR := (Messages (storage_of t)))).
  - apply (spec_GetReactionsBatch (MR := (Messages (storage_of t)))).
Qed.

#[local] Instance app_chats_spec : ChatRepositorySpec app_ok view (app_chats s ttl (Some mock_New)).
Proof using acked UL L.
  apply (cached_chat_spec db_ok view mock_contents acked db_texts_ok (Chats (storage_of t))). apply _.
Qed.

#[local] Instance app_users_spec : UserRepositorySpec app_ok view (app_users s ttl (Some mock_New)).
Proof using acked UL L.
  apply (cached_user_spec db_ok view mock_contents acked db_texts_ok (Users (storage_of t))). apply _.
Qed.

#[local] Instance app_lookup : UserLookupSpec app_ok view (Users (storage_of t)).
Proof using acked UL.
  split. intros id. apply (pass_reads _ _ _ acked). intros contents. apply (spec_UserGetByID (UR := (Users (storage_of t)))).
Qed.

Lemma run_application_safe cs w :
  app_ok w -> system_wf (view w) ->
  let w' := run_application s cfg cost ttl (Some mock_New) cs w in
  app_ok w' /\ rtc api_step (view w) (view w') /\ system_wf (view w').
Proof using acked UL L.
  intros Hi Hwf. exact (serve_all_safe app_ok view (Users (storage_of t)) law_same_sym cs w Hi Hwf).
Qed.

End cached_app.
