(* ===== verification/CachedRequests.v ===== *)
(** * Requests side by side, with the cache

    The cached repositories turn an operation of the storage into several: calls of
    the cache around a statement.  Requests interleave at each of them.  A request
    is the request of [Concurrent] with every operation expanded into what the
    repositories of [newApplication] do for it. *)
From S2P Require Import Prelude Domain Config ChatUsecase MessageUsecase UserUsecase Json Store.
From S2P Require Import ChatContract ChatRefinement MessageRefinement UserRefinement World System.
From S2P Require Import Requests Concurrent Cache Cached.
Open Scope Z_scope.

(** ** Operations: of the storage, and of the cache *)
Inductive cop : Type -> Type :=
| CStore {B} (o : op B) : cop B
| CGet (key : string) : cop (res cval)
| CSet (key : string) (v : cval) (ttl : Duration) : cop (res unit)
| CDel (key : string) : cop (res unit)
| CPing : cop (res unit).

Abbreviation cproc := (tree cop).

Definition store_op {B} (o : op B) : cproc B := Act (CStore o) Ret.

(** The origins. *)
Definition cop_users : UserRepository cproc := {|
  users_Create u := store_op (Op_UserCreate u);
  users_GetByID id := store_op (Op_UserGetByID id);
  users_GetByEmail e := store_op (Op_UserGetByEmail e);
  users_GetByUsername n := store_op (Op_UserGetByUsername n);
  users_Update u := store_op (Op_UserUpdate u);
  users_UpdateStatus id s t := store_op (Op_UserUpdateStatus id s t);
  users_Search q l o := store_op (Op_UserSearch q l o);
  users_Delete id := store_op (Op_UserDelete id) |}.

Definition cop_chats : ChatRepository cproc := {|
  chats_CreateWithMembers c ms := store_op (Op_ChatCreate c ms);
  chats_GetByID id := store_op (Op_ChatGetByID id);
  chats_Update c := store_op (Op_ChatUpdate c);
  chats_Delete id := store_op (Op_ChatDelete id);
  chats_AddMember m := store_op (Op_AddMember m);
  chats_RemoveMember c u := store_op (Op_RemoveMember c u);
  chats_GetMember c u := store_op (Op_GetMember c u);
  chats_GetMembers c := store_op (Op_GetMembers c);
  chats_UpdateMemberRole c u r := store_op (Op_UpdateMemberRole c u r);
  chats_GetUserChats u := store_op (Op_GetUserChats u);
  chats_GetDirectChat a b := store_op (Op_GetDirectChat a b);
  chats_IsMember c u := store_op (Op_IsMember c u) |}.

Definition cop_messages : MessageRepository cproc := {|
  messages_Create m := store_op (Op_MessageCreate m);
  messages_GetByID id := store_op (Op_MessageGetByID id);
  messages_GetChatMessages c cursor l := store_op (Op_GetChatMessages c cursor l);
  messages_Update m := store_op (Op_MessageUpdate m);
  messages_Delete id := store_op (Op_MessageDelete id);
  messages_MarkRead c u := store_op (Op_MarkRead c u);
  messages_GetUnreadCount c u := store_op (Op_GetUnreadCount c u);
  messages_AddReaction r := store_op (Op_AddReaction r);
  messages_RemoveReaction m u e := store_op (Op_RemoveReaction m u e);
  messages_GetReactions m := store_op (Op_GetReactions m);
  messages_GetReactionsBatch ids := store_op (Op_GetReactionsBatch ids) |}.

Definition cop_tokens : tokenManager cproc := {|
  GenerateAccessToken id := store_op (Op_AccessToken id);
  GenerateRefreshToken id := store_op (Op_RefreshToken id);
  ValidateRefreshToken t := store_op (Op_ValidateRefresh t) |}.

Definition cop_hasher (check : string -> string -> bool) : passwordHasher cproc := {|
  Hash p := store_op (Op_Hash p); hasher_Check := check |}.

Definition cop_cache : Cache cproc := {|
  cache_Get k := Act (CGet k) Ret;
  cache_Set k v ttl := Act (CSet k v ttl) Ret;
  cache_Del k := Act (CDel k) Ret;
  cache_Ping := Act CPing Ret |}.

(** ** Requests *)

(** Every operation replaced by what implements it. *)
Fixpoint expand {A} (impl : forall B, op B -> cproc B) (p : proc A) : cproc A :=
  match p with
  | Ret a => Ret a
  | Act o k => mbind (fun b => expand impl (k b)) (impl _ o)
  end.

Section server.
Context {W : Type} `{UT : UUIDText, PH : passwordHasher (ST W)} (ttl : TTLConfig).

(** The wiring of [newApplication]: the user service over the cached users, the chat
    service over the users of the storage, both chat and message service over the
    cached chats. *)
Definition users_of (c : api_call) : UserRepository cproc :=
  match c with
  | ChatCall _ _ => cop_users
  | _ => cached_NewUserRepository cop_users (Some cop_cache) (ttl_User ttl)
  end.
Definition chats_of : ChatRepository cproc :=
  cached_NewChatRepository cop_chats (Some cop_cache) (ttl_Chat ttl) (ttl_Member ttl).

Definition implement (users : UserRepository cproc) {B} (o : op B) : cproc B :=
  perform_in (UR := users) (CR := chats_of) (MR := cop_messages) (TM := cop_tokens) (PH := cop_hasher hasher_Check)
    (CK := store_op Op_Now) (US := store_op Op_UUID) o.

Definition cached_request (c : api_call) : cproc (res unit) := expand (@implement (users_of c)) (request_of c).

#[export] Instance serves_cop : Server cop := cached_request.
End server.

(** ** Running them *)
Section running.
Context {W : Type} `{UR : UserRepository (ST W), CR : ChatRepository (ST W), MR : MessageRepository (ST W)}.
Context `{TM : tokenManager (ST W), PH : passwordHasher (ST W), CK : Clock (ST W), US : UUIDSource (ST W)}.
Context `{CA : Cache (ST W)}.

Definition cop_perform {B} (o : cop B) : ST W B :=
  match o with
  | CStore o => perform o
  | CGet k => cache_Get k
  | CSet k v ttl => cache_Set k v ttl
  | CDel k => cache_Del k
  | CPing => cache_Ping
  end.

#[export] Instance performs_cop : Performs cop W := @cop_perform.

(** ** A request on its own is the request of the sequential server *)

Lemma agrees_store {B} (o : op B) : agrees (store_op o) (perform o).
Proof using. intros w. unfold store_op. cbn. by destruct (perform o w). Qed.
Lemma agrees_Get k : agrees (cache_Get (Cache := cop_cache) k) (cache_Get k).
Proof using. intros w. cbn. by destruct (cache_Get (M := ST W) k w). Qed.
Lemma agrees_Set k v d : agrees (cache_Set (Cache := cop_cache) k v d) (cache_Set k v d).
Proof using. intros w. cbn. by destruct (cache_Set (M := ST W) k v d w). Qed.
Lemma agrees_Del k : agrees (cache_Del (Cache := cop_cache) k) (cache_Del k).
Proof using. intros w. cbn. by destruct (cache_Del (M := ST W) k w). Qed.

Context `{UT : UUIDText} (ttl : TTLConfig).

(** The cached repositories over those of the state. *)
Definition run_users (c : api_call) : UserRepository (ST W) :=
  match c with
  | ChatCall _ _ => UR
  | _ => cached_NewUserRepository UR (Some CA) (ttl_User ttl)
  end.
Definition run_chats : ChatRepository (ST W) :=
  cached_NewChatRepository CR (Some CA) (ttl_Chat ttl) (ttl_Member ttl).

Ltac cached_agree :=
  repeat first
    [ apply agrees_Get | apply agrees_Set | apply agrees_Del | exact (agrees_store _)
    | apply agrees_ret
    | apply agrees_try; [|intros ?]
    | apply agrees_bind; [|intros ?]
    | apply agrees_for_each; intros ?
    | match goal with |- agrees (match ?here with _ => _ end) (match ?there with _ => _ end) =>
        change here with there; destruct there end
    | match goal with |- agrees ?p _ => let h := head_of p in progress unfold h end ].

Lemma implement_agrees c {B} (o : op B) :
  agrees (implement ttl (users_of ttl c) o) (perform_in (UR := run_users c) (CR := run_chats) o).
Proof using. 
  destruct o, c; unfold implement, perform_in, users_of, run_users, chats_of, run_chats, cached_NewUserRepository,
    cached_NewChatRepository; cached_agree.
Qed.

Lemma expand_agrees {A} impl (m : forall B, op B -> ST W B) (p : proc A) :
  (forall B (o : op B), agrees (impl B o) (m B o)) -> agrees (expand impl p) (alone (H := m) p).
Proof using.
  intros Hm. induction p as [a|B o k IH]; [apply agrees_ret|]. intros w. cbn [expand alone].
  exact (agrees_bind (impl B o) (m B o) (fun b => expand impl (k b)) (fun b => alone (H := m) (k b)) (Hm B o) IH w).
Qed.

Lemma cached_request_agrees c :
  agrees (cached_request ttl c) (serve (H3 := cached_NewUserRepository UR (Some CA) (ttl_User ttl)) (H4 := run_chats) UR c).
Proof using.
  intros w. unfold cached_request. rewrite (expand_agrees _ _ _ (@implement_agrees c)).
  destruct c as [caller call|caller call|call]; [apply chat_agrees|apply message_agrees|apply user_agrees].
Qed.
End running.
