(* ===== verification/CachedInterleaving.v ===== *)
(** * Requests side by side with the cache, safely

    The rely and the guarantee of [Interleaving], with what may be remembered in
    the cache: an entry may be stale in any way but one. What a request relies on
    of it, the address of an account, the type of a chat and that a chat with an
    owner is a group, never changes. *)
From S2P Require Import Prelude Utf8 Domain Config ChatUsecase MessageUsecase UserUsecase Json Store.
From S2P Require Import ChatContract ChatRefinement MessageRefinement UserRefinement World System.
From S2P Require Import Writes Requests Rely Concurrent Permanence Interleaving.
From S2P Require Import Schema Sql SqlWf SqlRules Postgres Mysql MysqlSpec Storage Jwt App.
From S2P Require Import Cache Cached Coherence CachedApp CachedRequests.
Open Scope Z_scope.

Section guards.
Context {W : Type} (inv : W -> Prop) (view : W -> store) (contents : W -> gmap string cval).
Context (kind : W -> uuid -> option ChatType) (account : W -> uuid -> option (string * string)).
Context `{UR : UserRepository (ST W), CR : ChatRepository (ST W), MR : MessageRepository (ST W)}.
Context `{TM : tokenManager (ST W), PH : passwordHasher (ST W), CK : Clock (ST W), US : UUIDSource (ST W)}.
Context `{PR : Precision, TE : TextEq, LA : Latitude, LO : Loss} {HE : EnvSpec inv view}.
Context {HU : UserRepositorySpec inv view UR} {HC : ChatRepositorySpec inv view CR}.
Context {HM : MessageRepositorySpec inv view MR} {HT : TokenSpec inv view TM PH}.
Context {HP : Permanent inv view kind account UR CR MR TM PH CK US}.
Context `{CA : Cache (ST W)} {HCA : CacheSpec inv view contents CA}.
Context `{UT : UUIDText} {L : UUIDTextLaws UT} (Htexts : forall w, inv w -> texts_ok (view w)).

Abbreviation later := (later view kind account).
Abbreviation sound := (sound inv view kind).
Abbreviation knows_group := (knows_group kind).
Abbreviation allowed := (allowed view kind account).
Abbreviation learns := (learns view kind account).

(** The statements do not touch the cache, nor the cache the tables. *)
Class Apart : Prop := {
  statement_cache {B} (o : op B) w : contents (perform o w).2 = contents w;
  cache_rows {B} (o : cop B) w : match o with CStore _ => True | _ =>
    kind (cop_perform o w).2 = kind w /\ account (cop_perform o w).2 = account w end }.
Context {HA : Apart}.

(** ** What an entry may say *)
Record entry_says (w : W) (k : string) (v : cval) : Prop := {
  es_user id u : k = userKey id -> decode unmarshal_User v = Some u ->
    user_ID u = id /\ exists h, account w id = Some (user_Email u, h);
  es_chat id ch : k = chatKey id -> decode unmarshal_Chat v = Some ch ->
    chat_ID ch = id /\ kind w id = Some (chat_Type ch);
  es_member c u m : k = memberKey c u -> decode unmarshal_ChatMember v = Some m ->
    cm_Role m = MemberRoleOwner -> knows_group w c }.

Definition remembered (w : W) : Prop := forall k v, contents w !! k = Some v -> entry_says w k v.
Definition csound (w : W) : Prop := sound w /\ remembered w.

Lemma entry_later w w' k v : later w w' -> entry_says w k v -> entry_says w' k v.
Proof using.
  intros Hl [Hu Hc Hm]. split.
  - intros id u Hk Hv. destruct (Hu id u Hk Hv) as [Hid [h Hh]]. split; [done|]. exists h.
    by apply (later_account view kind account _ _ Hl).
  - intros id ch Hk Hv. destruct (Hc id ch Hk Hv) as [Hid Hkind]. split; [done|].
    by apply (later_kind view kind account _ _ Hl).
  - intros c u m Hk Hv Hr. by eapply group_later, Hm.
Qed.

Ltac apart := exfalso; by match goal with
  | H : userKey _ = _ |- _ => discriminate H
  | H : chatKey _ = _ |- _ => discriminate H
  | H : memberKey _ _ = _ |- _ => discriminate H
  | H : isMemberKey _ _ = _ |- _ => discriminate H end.

Lemma says_user w id u j :
  user_text u -> marshal_User u = Ok j -> user_ID u = id /\ (exists h, account w id = Some (user_Email u, h)) ->
  entry_says w (userKey id) (CJson j).
Proof using L.
  intros Ht Hj Hu. split; intros; try apart. apply userKey_inj in H as <-. cbn in H0.
  rewrite (User_roundtrip u j Ht Hj) in H0. by injection H0 as <-.
Qed.

Lemma says_chat w id ch j :
  chat_text ch -> marshal_Chat ch = Ok j -> chat_ID ch = id /\ kind w id = Some (chat_Type ch) ->
  entry_says w (chatKey id) (CJson j).
Proof using L.
  intros Ht Hj Hc. split; intros; try apart. apply chatKey_inj in H as <-. cbn in H0.
  rewrite (Chat_roundtrip ch j Ht Hj) in H0. by injection H0 as <-.
Qed.

Lemma says_member w c u m j :
  text_ok (cm_Role m) -> marshal_ChatMember m = Ok j -> (cm_Role m = MemberRoleOwner -> knows_group w c) ->
  entry_says w (memberKey c u) (CJson j).
Proof using L.
  intros Ht Hj Hm. split; intros; try apart. apply memberKey_inj in H as [<- <-]. cbn in H0.
  destruct (unmarshal_ChatMember j) as [y|] eqn:Hy; [|done]. injection H0 as ->.
  destruct (ChatMember_keeps m m0 j Ht Hj Hy) as (_ & _ & E). apply Hm. congruence.
Qed.

Lemma says_is w c u t : entry_says w (isMemberKey c u) (CText t).
Proof using. split; intros; done. Qed.

(** ** The guarantee *)

(** What the texts of an answer are. *)
Definition told {B} (o : op B) : B -> Prop :=
  match o in op B return B -> Prop with
  | Op_UserGetByID _ => fun r => forall u, r = Ok u -> user_text u
  | Op_ChatGetByID _ => fun r => forall c, r = Ok c -> chat_text c
  | Op_GetMember _ _ => fun r => forall m, r = Ok m -> text_ok (cm_Role m)
  | _ => fun _ => True
  end.

Definition callowed {B} (c : api_call) (w : W) (o : cop B) : Prop :=
  match o with
  | CStore o => allowed c w o
  | CSet k v _ => entry_says w k v
  | _ => True
  end.

Definition clearns {B} (o : cop B) : B -> W -> Prop :=
  match o in cop B return B -> W -> Prop with
  | CStore o => fun b w => learns o b w /\ told o b
  | CGet k => fun r w => forall v, r = Ok v -> entry_says w k v
  | _ => fun _ _ => True
  end.

Abbreviation guards := (Rely.guards later csound (@callowed) (@clearns)).

Lemma perform_told {B} (o : op B) w : inv w -> told o (perform o w).1.
Proof using HU HC Htexts.
  intros Hw. destruct o; try done; cbn [told].
  - intros u Hr. destruct (reads_answer _ _ _ _ _ _ _ (spec_UserGetByID id) Hw Hr) as [Hid (u' & Hu' & Hp)].
    destruct (spec_UserGetByID id w Hw) as [Hi _]. destruct (Htexts _ Hi) as (Ht & _). specialize (Ht id u' Hu').
    unfold user_text, public in *. injection Hp as ? ? ? ? ? ? ? ? ?. congruence.
  - intros c Hr. destruct (reads_answer _ _ _ _ _ _ _ (spec_GetByID id) Hw Hr) as [Hc _].
    destruct (spec_GetByID id w Hw) as [Hi _]. destruct (Htexts _ Hi) as (_ & Ht & _). exact (Ht id c Hc).
  - intros m Hr. destruct (reads_answer _ _ _ _ _ _ _ (spec_GetMember c u) Hw Hr) as (_ & _ & Hm).
    destruct (spec_GetMember c u w Hw) as [Hi _]. destruct (Htexts _ Hi) as (_ & _ & Ht). exact (Ht c u _ Hm).
Qed.

Lemma remembered_sub w w' t : later w w' -> remembered w -> contents w' ⊆ t ->
  (forall k v, t !! k = Some v -> contents w !! k = Some v \/ entry_says w' k v) -> remembered w'.
Proof using.
  intros Hl Hr Hsub Ht k v Hk. apply (lookup_weaken _ _ _ _ Hk) in Hsub.
  destruct (Ht k v Hsub) as [Hold|?]; [|done]. by eapply entry_later, Hr.
Qed.

(** A call of the cache moves nothing else. *)
Lemma cache_call {A} (m : ST W A) c t w :
  csound w -> kind (m w).2 = kind w /\ account (m w).2 = account w ->
  inv (m w).2 -> view (m w).2 = view w -> contents (m w).2 ⊆ t ->
  (forall k v, t !! k = Some v -> contents w !! k = Some v \/ entry_says w k v) ->
  csound (m w).2 /\ later w (m w).2 /\ granted (live_direct (view w)) c (view w) (view (m w).2).
Proof using.
  intros [[Hw Hd] Hr] [Hk Ha] Hi Hv Hsub Ht.
  assert (later w (m w).2) as Hl.
  { split; intros; rewrite ?Hk, ?Ha, ?Hv in *; auto. eexists. split; [done|]. auto with vibe. }
  split_and!; [|done|rewrite Hv; apply granted_nothing]. split.
  - split; [done|]. intros ch Hch. rewrite Hv. apply Hd. unfold was_direct in *. by rewrite <- Hk.
  - eapply remembered_sub; [done..|]. intros k v [?|?]%Ht; [by left|right]. by eapply entry_later.
Qed.

Lemma cop_performed {B} (o : cop B) c w :
  csound w -> callowed c w o ->
  let '(b, w') := perform_op o w in
  csound w' /\ later w w' /\ clearns o b w' /\ granted (live_direct (view w)) c (view w) (view w').
Proof using All.
  intros Hcs Ha. pose proof Hcs as [Hs Hr]. change (perform_op o w) with (cop_perform o w).
  pose proof (cache_rows o w) as Hrows. destruct o as [B o|k|k v ttl|k|].
  - pose proof (performed later sound (@Interleaving.allowed _ view kind account)
      (@Interleaving.learns _ view kind account) view o c w Hs Ha) as Hp.
    pose proof (perform_told o w (proj1 Hs)) as Ht. pose proof (statement_cache o w) as Hc.
    change (perform_op o w) with (perform o w) in Hp. cbn [cop_perform]. destruct (perform o w) as [b w'].
    destruct Hp as (Hs' & Hl & Hlearn & Hg). split_and!; try done. split; [done|].
    eapply (remembered_sub w w' (contents w)); [done..|by rewrite <- Hc|auto].
  - destruct (spec_Get inv view contents k w (proj1 Hs)) as (Hi & Hv & Hsub & Hres).
    destruct (cache_call (cache_Get k) c (contents w) w Hcs Hrows Hi Hv Hsub ltac:(auto)) as (Hs' & Hl & Hg).
    cbn [cop_perform] in *. destruct (cache_Get (M := ST W) k w) as [r w']; cbn in *. split_and!; [done..| |done].
    intros v ->. eapply entry_later; [done|]. by apply Hr.
  - destruct (spec_Set inv view contents k v ttl w (proj1 Hs)) as (Hi & Hv & Hsub).
    destruct (cache_call (cache_Set k v ttl) c (<[k := v]> (contents w)) w Hcs Hrows Hi Hv Hsub) as (Hs' & Hl & Hg).
    { intros k' v' [[<- <-]|[_ Hk']]%lookup_insert_Some; auto. }
    cbn [cop_perform] in *. by destruct (cache_Set (M := ST W) k v ttl w).
  - destruct (spec_Del inv view contents k w (proj1 Hs)) as (Hi & Hv & Hsub).
    destruct (cache_call (cache_Del k) c (delete k (contents w)) w Hcs Hrows Hi Hv Hsub) as (Hs' & Hl & Hg).
    { intros k' v' [_ Hk']%lookup_delete_Some; auto. }
    cbn [cop_perform] in *. by destruct (cache_Del (M := ST W) k w).
  - destruct (spec_Ping inv view contents w (proj1 Hs)) as (Hi & Hv & Hsub).
    destruct (cache_call cache_Ping c (contents w) w Hcs Hrows Hi Hv Hsub ltac:(auto)) as (Hs' & Hl & Hg).
    cbn [cop_perform] in *. by destruct (cache_Ping (M := ST W) w).
Qed.

(** ** What the cached repositories do for an operation *)
Abbreviation on_cache := cop_cache.

Lemma store_guards {B} c (o : op B) (Q : B -> W -> Prop) w :
  (forall w1, later w w1 -> sound w1 -> allowed c w1 o) ->
  (forall b w2, later w w2 -> learns o b w2 -> told o b -> Q b w2) -> guards c (store_op o) Q w.
Proof using.
  intros Ha HQ. refine (guards_op later csound (@callowed) (@clearns) _ (CStore o) _ _ _ _).
  - intros w1 Hl [Hs _]. by apply Ha.
  - intros b w2 Hl _ [Hb Ht]. by apply HQ.
Qed.

Lemma get_guards c k (Q : res cval -> W -> Prop) w :
  (forall r w2, later w w2 -> (forall v, r = Ok v -> entry_says w2 k v) -> Q r w2) ->
  guards c (cache_Get (Cache := on_cache) k) Q w.
Proof using.
  intros HQ. refine (guards_op later csound (@callowed) (@clearns) _ (CGet k) _ _ _ _); [done|].
  intros b w2 Hl _. by apply HQ.
Qed.

Lemma set_guards c k v d (Q : res unit -> W -> Prop) w :
  entry_says w k v -> (forall r w2, later w w2 -> Q r w2) -> guards c (cache_Set (Cache := on_cache) k v d) Q w.
Proof using.
  intros Hv HQ. refine (guards_op later csound (@callowed) (@clearns) _ (CSet k v d) _ _ _ _).
  - intros w1 Hl _. by eapply entry_later.
  - intros b w2 Hl _ _. by apply HQ.
Qed.

Lemma del_guards c k (Q : res unit -> W -> Prop) w :
  (forall r w2, later w w2 -> Q r w2) -> guards c (cache_Del (Cache := on_cache) k) Q w.
Proof using.
  intros HQ. refine (guards_op later csound (@callowed) (@clearns) _ (CDel k) _ _ _ _); [done|].
  intros b w2 Hl _ _. by apply HQ.
Qed.

Lemma learns_later {B} (o : op B) b w w' : later w w' -> learns o b w -> learns o b w'.
Proof using.
  intros Hl. destruct o; cbn [Interleaving.learns]; try done.
  - intros Hu x Hx. by eapply (later_account view kind account _ _ Hl), Hu.
  - intros Hu u Hr. destruct (Hu u Hr) as [? [h ?]]. split; [done|]. exists h.
    by apply (later_account view kind account _ _ Hl).
  - intros Hc x Hx. by eapply (later_kind view kind account _ _ Hl), Hc.
  - intros Hc ch Hr. destruct (Hc ch Hr) as [? ?]. split; [done|]. by apply (later_kind view kind account _ _ Hl).
  - intros Hm m Hr Hrole. by eapply group_later, Hm.
  - intros Hm m Hr. destruct (Hm m Hr) as [? ?]. split; [done|]. by eapply knows_later.
Qed.

(** A lookup through the cache teaches what the lookup teaches. *)
Lemma read_through_guards {A} c key d unmarshal marshal (o : op (res A)) w :
  (forall w1, allowed c w1 o) ->
  (forall w1 v a, entry_says w1 key v -> decode unmarshal v = Some a -> learns o (Ok a) w1) ->
  (forall w1 a j, learns o (Ok a) w1 -> told o (Ok a) -> marshal a = Ok j -> entry_says w1 key (CJson j)) ->
  guards c (read_through (H2 := on_cache) key d unmarshal marshal (store_op o)) (learns o) w.
Proof using.
  intros Ha Hhit Hfill. unfold read_through. apply guards_bind, get_guards. intros r w1 _ Hr.
  assert (guards c (let? a := store_op o in
      match marshal a with
      | Ok j => let* _ := cache_Set (Cache := on_cache) key (CJson j) d in mret (Ok a)
      | Err _ => mret (Ok a)
      end) (learns o) w1) as Hmiss.
  { apply guards_try, store_guards; [auto|]. intros [a|e] w2 _ Hlearn Ht; [|done].
    destruct (marshal a) as [j|e] eqn:Hj; [|by apply guards_ret].
    apply guards_bind, set_guards; [by eapply Hfill|]. intros _ w3 Hl. apply guards_ret. by eapply learns_later. }
  destruct r as [v|e]; [|exact Hmiss]. destruct (decode unmarshal v) as [a|] eqn:Hd; [|exact Hmiss].
  apply guards_ret. by eapply Hhit; [apply Hr|].
Qed.

(** Members put into the cache. *)
Lemma seed_guards c ch m d (P : W -> Prop) w :
  text_ok (cm_Role m) -> (forall w1, P w1 -> cm_Role m = MemberRoleOwner -> knows_group w1 ch) ->
  (forall w1 w2, later w1 w2 -> P w1 -> P w2) -> P w ->
  guards c (seed (H2 := on_cache) d ch m) (fun _ w' => P w') w.
Proof using L.
  intros Ht Hg Hmono Hw. unfold seed. apply guards_bind, set_guards; [apply says_is|]. intros _ w1 Hl1.
  assert (P w1) as Hw1 by eauto. destruct (marshal_ChatMember m) as [j|e] eqn:Hj; [|by apply guards_ret].
  apply guards_bind, set_guards.
  - apply (says_member _ _ _ m); auto.
  - intros _ w2 Hl2. apply guards_ret. eauto.
Qed.

Lemma drop_guards c ch u (Q : res unit -> W -> Prop) w :
  (forall r w', Q r w') -> guards c (drop_member (H2 := on_cache) ch u) Q w.
Proof using.
  intros HQ. unfold drop_member. apply guards_bind, del_guards. intros _ w1 _. apply guards_bind, del_guards.
  intros _ w2 _. by apply guards_ret.
Qed.

Context `{TTL : TTLConfig}.

(** An operation passed on to the storage. *)
Lemma pass_guards {B} c (o : op B) w :
  (forall w1, later w w1 -> sound w1 -> allowed c w1 o) -> guards c (store_op o) (learns o) w.
Proof using. intros Ha. by apply store_guards. Qed.

(** A write that has nothing to teach, and what follows it. *)
Lemma write_guards {A B} c (o : op (res A)) (k : A -> cproc (res B)) w :
  (forall w1, later w w1 -> sound w1 -> allowed c w1 o) ->
  (forall a w1, guards c (k a) (fun _ _ => True) w1) -> guards c (try (store_op o) k) (fun _ _ => True) w.
Proof using. intros Ha Hk. apply guards_try, store_guards; [done|]. intros [a|e] w1 _ _ _; [apply Hk|done]. Qed.

Lemma forget_user c id w :
  guards c (let* _ := cache_Del (Cache := on_cache) (userKey id) in mret (Ok tt) : cproc (res unit)) (fun _ _ => True) w.
Proof using. apply guards_bind, del_guards. intros _ w1 _. by apply guards_ret. Qed.

(** The members a chat is created with: an owner only in a group. *)
Lemma allowed_roles c w ch ms m :
  allowed c w (Op_ChatCreate ch ms) -> m ∈ ms ->
  text_ok (cm_Role m) /\ (cm_Role m = MemberRoleOwner -> chat_Type ch <> ChatTypeDirect).
Proof using.
  assert (text_ok MemberRoleOwner /\ text_ok MemberRoleMember) as [Ho Hm] by (vm_compute; split; reflexivity).
  intros [(v & i & id & now & -> & Hne & -> & ->)|(v & i & id & now & -> & Hv & -> & ->)] Hin.
  - unfold direct_members in Hin. rewrite !elem_of_cons in Hin. destruct Hin as [->|[->|[]%elem_of_nil]]; cbn; by split.
  - split; [|done]. apply elem_of_cons in Hin as [->|Hin]; [done|].
    pose proof (dedup_members_all id now {[v]} (cgi_MemberIDs i)) as Hall. rewrite Forall_forall in Hall.
    destruct (Hall m Hin) as [_ ->]. exact Hm.
Qed.

Lemma create_guards c ch ms d w :
  sound w -> (forall w1, later w w1 -> sound w1 -> allowed c w1 (Op_ChatCreate ch ms)) ->
  guards c (cached_chat_CreateWithMembers (H2 := on_cache) cop_chats d ch ms) (learns (Op_ChatCreate ch ms)) w.
Proof using L.
  intros Hs Ha. unfold cached_chat_CreateWithMembers. apply guards_try, store_guards; [done|].
  intros [[]|e] w1 Hl1 Hlearn _; [|done].
  apply (guards_for_each _ _ _ _ _ _ _ (fun w' => kind w' (chat_ID ch) = Some (chat_Type ch))).
  - by eapply Hlearn.
  - intros m w2 Hin Hk. pose proof (allowed_roles c w ch ms m (Ha w ltac:(reflexivity) Hs) Hin) as [Ht Hr].
    apply seed_guards; [done| | |done].
    + intros w3 Hk3 Ho. exists (chat_Type ch). auto.
    + intros w3 w4 Hl. by apply (later_kind view kind account _ _ Hl).
  - intros r w2 Hk x _. exact Hk.
Qed.

Lemma add_guards c m d w :
  (forall w1, later w w1 -> sound w1 -> allowed c w1 (Op_AddMember m)) -> sound w ->
  guards c (cached_chat_AddMember (H2 := on_cache) cop_chats d m) (fun _ _ => True) w.
Proof using L.
  intros Ha Hs. unfold cached_chat_AddMember. apply write_guards; [done|]. intros _ w1.
  destruct (Ha w ltac:(reflexivity) Hs) as (v & id & i & now & _ & -> & _).
  apply (seed_guards _ _ _ _ (fun _ => True)); by vm_compute.
Qed.

(** Every operation, as the cached repositories do it, keeps the guarantee of the
    operation and teaches what it teaches. *)
Lemma implement_guards c cc {B} (o : op B) w :
  sound w -> (forall w1, later w w1 -> sound w1 -> allowed c w1 o) ->
  guards c (implement TTL (users_of TTL cc) o) (learns o) w.
Proof using L.
  intros Hs Ha. destruct o; unfold implement, perform_in, chats_of, users_of, cached_NewChatRepository,
    cached_NewUserRepository; try exact (pass_guards c _ w Ha).
  all: try (destruct cc; exact (pass_guards c _ w Ha)).
  - assert (guards c (cached_user_GetByID (H2 := on_cache) cop_users (ttl_User TTL) id) (learns (Op_UserGetByID id)) w) as Hread.
    { apply read_through_guards; [done| |].
      - intros w1 v u Hv Hd u' [= <-]. by eapply es_user.
      - intros w1 u j Hu Ht Hj. destruct (Hu u eq_refl) as [Hid Hacc]. by apply (says_user _ _ u); [apply Ht|..]. }
    destruct cc; [exact (pass_guards c _ w Ha)|exact Hread..].
  - destruct cc; [exact (pass_guards c _ w Ha)|apply write_guards; [done|]; intros _ w1; apply forget_user..].
  - destruct cc; [exact (pass_guards c _ w Ha)|apply write_guards; [done|]; intros _ w1; apply forget_user..].
  - destruct cc; [exact (pass_guards c _ w Ha)|apply write_guards; [done|]; intros _ w1; apply forget_user..].
  - by apply create_guards.
  - apply read_through_guards; [done| |].
    + intros w1 v ch Hv Hd ch' [= <-]. by eapply es_chat.
    + intros w1 ch j Hc Ht Hj. destruct (Hc ch eq_refl) as [Hid Hk]. by apply (says_chat _ _ ch); [apply Ht|..].
  - apply guards_bind, del_guards. intros _ w1 Hl. apply pass_guards. intros w2 Hl2. apply Ha. by etransitivity.
  - apply guards_bind, store_guards; [done|]. intros r w1 Hl1 _ _. apply write_guards.
    { intros w2 Hl2. apply Ha. by etransitivity. }
    intros _ w2. apply guards_bind, del_guards. intros _ w3 _.
    apply (guards_for_each _ _ _ _ _ _ _ (fun _ => True)); [done| |done]. intros m w4 _ _. by apply drop_guards.
  - by apply add_guards.
  - apply write_guards; [done|]. intros _ w1. by apply drop_guards.
  - apply read_through_guards; [done| |].
    + intros w1 v m Hv Hd m' [= <-]. by eapply es_member.
    + intros w1 m j Hm Ht Hj. apply (says_member _ _ _ m); [by apply Ht|done|by apply Hm].
  - apply write_guards; [done|]. intros _ w1. apply guards_bind, del_guards. intros _ w2 _. by apply guards_ret.
  - apply guards_bind, get_guards. intros [v|e] w1 _ _; [by apply guards_ret|].
    apply guards_try, store_guards; [done|]. intros [b|e'] w2 _ _ _; [|done].
    apply guards_bind, set_guards; [apply says_is|]. intros _ w3 _. by apply guards_ret.
Qed.

(** ** The requests *)
Lemma expand_guards {A} c cc (p : proc A) (Q : A -> W -> Prop) w :
  csound w -> Rely.guards later sound (@Interleaving.allowed _ view kind account) (@Interleaving.learns _ view kind account) c p Q w ->
  guards c (expand (@implement _ _ _ TTL (users_of TTL cc)) p) Q w.
Proof using L.
  revert w. induction p as [a|B o k IH]; intros w Hw Hp; [exact Hp|]. cbn [expand].
  apply guards_bind. eapply guards_mono.
  - apply guards_since; [apply _|done|]. apply implement_guards; [apply Hw|].
    intros w1 Hl Hs. by destruct (Hp w1 Hl Hs).
  - intros b w' (Hl & Hs' & Hb). apply IH; [done|].
    destruct (Hp w ltac:(reflexivity) (proj1 Hw)) as [_ Hk]. apply Hk; [done|apply Hs'|done].
Qed.

#[export] Instance cop_guarantee : Guarantee later csound (@callowed) (@clearns) view (H0 := serves_cop TTL).
Proof using All.
  split; [intros B o c w; apply cop_performed|]. intros c w Hw. apply expand_guards; [done|].
  apply (started_sound later sound (@Interleaving.allowed _ view kind account) (@Interleaving.learns _ view kind account) view c w).
  apply Hw.
Qed.
End guards.

(** ** The tables of either storage and the in-memory cache *)
Section tables.
Context `{E : Env, C : Collation, U : UnicodeCI, J : GoJWT, UT : UUIDText, B : Bcrypt}.
Context (t : Driver) (cfg : jwt_Config) (cost : Z).
#[local] Instance apart_dialect : Dialect := dialect t.
#[local] Instance apart_users : UserRepository (ST world) := Users (storage_of t).
#[local] Instance apart_chats : ChatRepository (ST world) := Chats (storage_of t).
#[local] Instance apart_messages : MessageRepository (ST world) := Messages (storage_of t).
#[local] Instance apart_tokens : tokenManager (ST world) := JWTManager cfg.
#[local] Instance apart_hasher : passwordHasher (ST world) := Hasher cost.

Lemma statement_keeps {A} (o : op A) : keeps_cache (perform o).
Proof using.
  unfold perform, apart_users, apart_chats, apart_messages, apart_tokens, apart_hasher.
  destruct o, t; cbn; try (by intros w); keeps.
Qed.

#[export] Instance tables_apart : Apart mock_contents kind_of account_of (CA := mock_New).
Proof using.
  split.
  - intros A o w. unfold mock_contents. by rewrite statement_keeps.
  - intros A o w. destruct o as [A o|k|k v d|k|]; try done; cbn.
    + unfold mock_Get. destruct (w_cache w !! k) as [e|]; [|done]. destruct (no_expiry e); [done|]. cbn.
      by destruct (expired e _).
    + unfold mock_Set. by destruct (0 <? d).
Qed.
End tables.
