(* ===== verification/HttpApp.v ===== *)
(** * The deployed server

    [newApplication] of [cmd/app/main.go]: the storage, the cache, the services,
    the handlers and the health check, as the configuration asks for them. *)
From S2P Require Import Prelude Utf8 Domain Config ConfigSpec GoStd Json ChatUsecase MessageUsecase.
From S2P Require Import UserUsecase Store Schema World Sql SqlWf Mysql MysqlSpec Storage ChatContract.
From S2P Require Import ChatRefinement MessageRefinement UserRefinement Jwt System App Cache Cached.
From S2P Require Import Coherence CachedContract CachedApp Redis.
From S2P Require Import Http Handlers Middleware Router HttpRefinement Ws WsInvariant.
Open Scope Z_scope.

Section wiring.
Context `{E : Env, J : GoJWT, UT : UUIDText, B : Bcrypt, UP : UUIDParse, UG : Upgrader}.
Context (store : Storage) (jwt : jwt_Config) (cost : Z) (ttl : TTLConfig) (http : http_Config).

(** [healthCheck]: the storage, then the cache when there is one. *)
Definition healthCheck (c : option (Cache (ST world))) : ST world (res unit) :=
  let* s := storage_Ping store in
  let? _ := mret (named "storage" s) in
  match c with
  | None => mret (Ok tt)
  | Some c => let* r := cache_Ping in mret (named "cache" r)
  end.

Definition validator : TokenValidator (ST world) := ValidateAccessToken jwt.

(** The handler [newApplication] hands to [http.Server]. *)
Definition app_server (c : option (Cache (ST world))) : Handler (ST (clients * world)) :=
  server (UR := app_users store ttl c) (CR := app_chats store ttl c) (MR := Messages store)
    (TM := JWTManager jwt) (PH := Hasher cost) (Users store) validator (healthCheck c) http.

(** Requests served one after the other. *)
Definition run_http (c : option (Cache (ST world))) (rs : list (ResponseWriter * request)) (st : clients * world) :
    clients * world :=
  serve_requests (UR := app_users store ttl c) (CR := app_chats store ttl c) (MR := Messages store)
    (TM := JWTManager jwt) (PH := Hasher cost) (Users store) validator (healthCheck c) http rs st.

(** The API over the same services. *)
Definition app_api (c : option (Cache (ST world))) : request -> clients * world -> verdict * (clients * world) :=
  api_spec (UR := app_users store ttl c) (CR := app_chats store ttl c) (MR := Messages store)
    (TM := JWTManager jwt) (PH := Hasher cost) (Users store) validator (healthCheck c) http.

(** Whatever the storage, the server implements the API. *)
Lemma app_server_implements {UGL : UpgraderLaws UG} c w r st :
  let '(a, st') := app_server c w r st in
  let '(v, st2) := app_api c r st in
  st' = st2 /\ exists rs, a = Ok rs /\ fits v (rs_Status rs).
Proof using.
  exact (server_implements (UR := app_users store ttl c) (CR := app_chats store ttl c) (MR := Messages store)
    (TM := JWTManager jwt) (PH := Hasher cost) (Users store) validator (healthCheck c) http w r st).
Qed.

(** ** The connections of the deployed application *)
Section connections.
Context (c : option (Cache (ST world))).
#[local] Instance ws_chats : chat_UseCase (ST world) := app_chat (Users store) (CR := app_chats store ttl c).
#[local] Instance ws_users : user_UseCase (ST world) :=
  app_user (UR := app_users store ttl c) (TM := JWTManager jwt) (PH := Hasher cost).

(** A request of the API between two events. *)
Definition app_call (call : api_call) : ST world (res unit) :=
  serve (M := ST world) (Users store) (H3 := app_users store ttl c) (H4 := app_chats store ttl c)
    (H5 := Messages store) (H6 := JWTManager jwt) (H7 := Hasher cost) call.

Definition app_events (maxMessageSize : Z) (evs : list ws_event) (s : world) : ws_state world :=
  ws_run (hc_AllowedOrigins http) maxMessageSize app_call evs (mkWsState NewHub ∅ s).
End connections.
End wiring.

(** The in-memory cache, or none. *)
Definition cache_in `{Env} (in_memory : bool) : option (Cache (ST world)) :=
  if in_memory then Some mock_New else None.

(** ** newApplication *)
Section newApplication.
Context `{E : Env, C : Collation, U : UnicodeCI, J : GoJWT, UT : UUIDText, B : Bcrypt, UP : UUIDParse, UG : Upgrader}.
Context `{Strconv, Pools, GoRedis}.

(** [cache.New]. *)
Definition cache_New (cfg : CacheConfig) : ST world (res (Cache (ST world))) :=
  if bool_decide (cache_Type cfg = TypeRedis) then
    match cache_Redis cfg with
    | None => mret (Err (Other ("cache: redis config is required when type is " +:+ Quote TypeRedis)))
    | Some r => redis_New r
    end
  else if bool_decide (cache_Type cfg ∈ [TypeMock; ""]) then mret (Ok mock_New)
  else mret (Err (Other ("cache: unknown type " +:+ Quote (cache_Type cfg)))).

(** What the middleware and the routes read of [delivery.Config]. *)
Definition delivery_http (d : DeliveryConfig) : http_Config :=
  mkHttpConfig (IsEnabled "http" d) (IsEnabled "ws" d) (http_AllowedOrigins (delivery_HTTP d))
    (http_MaxBodyBytes (delivery_HTTP d)) (rl_MaxRequests (http_RateLimit (delivery_HTTP d)))
    (rl_Window (http_RateLimit (delivery_HTTP d))).

(** The zero [cache.TTLConfig] when there is no cache. *)
Definition config_ttl (cfg : AppConfig) : TTLConfig :=
  match app_Cache cfg with Some k => cache_TTL k | None => mkTTLConfig 0 0 0 end.

Definition newApplication (cfg : AppConfig) :
    ST world (res (Storage * option (Cache (ST world)) * Handler (ST (clients * world)))) :=
  let* s := storage_New (app_Storage cfg) in
  let? store := mret (named "storage" s) in
  let? c := match app_Cache cfg with
            | None => mret (Ok None)
            | Some k => let* r := cache_New k in let? c := mret (named "cache" r) in mret (Ok (Some c))
            end in
  mret (Ok (store, c,
    app_server store (app_JWT cfg) (hasher_Cost (app_Hasher cfg)) (config_ttl cfg) (delivery_http (app_Delivery cfg)) c)).

(** A storage that opened is the one of the type the configuration names. *)
Lemma storage_New_Ok cfg w s w' :
  storage_New cfg w = (Ok s, w') ->
  exists t, storage_driver cfg = Some t /\ s = storage_of t /\ w_db w' = w_db w /\ w_cache w' = w_cache w.
Proof using.
  unfold storage_New. intros Hn. destruct (storage_driver cfg) as [t|]; [|discriminate Hn]. exists t.
  split; [done|]. destruct t.
  - destruct (storage_Postgres cfg) as [p|]; [|discriminate Hn].
    unfold postgres_NewPool, try, mbind, ST_bind, mret, ST_ret, ping, run_stmt in Hn. cbn in Hn.
    repeat (case_match; cbn in *; try discriminate Hn); by simplify_eq/=.
  - destruct (storage_MySQL cfg) as [m|]; [|discriminate Hn].
    unfold mysql_NewDB, try, mbind, ST_bind, mret, ST_ret, ping, run_stmt in Hn. cbn in Hn.
    repeat (case_match; cbn in *; try discriminate Hn); by simplify_eq/=.
Qed.

(** An application that started holds what its configuration names, and starting it
    has written nothing. *)
Lemma newApplication_Ok cfg w store c h w' :
  newApplication cfg w = (Ok (store, c, h), w') ->
  (forall k, app_Cache cfg = Some k -> cache_Type k <> TypeRedis) ->
  exists t, storage_driver (app_Storage cfg) = Some t /\ store = storage_of t /\
    c = cache_in (bool_decide (is_Some (app_Cache cfg))) /\
    h = app_server store (app_JWT cfg) (hasher_Cost (app_Hasher cfg)) (config_ttl cfg)
          (delivery_http (app_Delivery cfg)) c /\
    w_db w' = w_db w /\ w_cache w' = w_cache w.
Proof using.
  intros Hn Hk. unfold newApplication, try, mbind, ST_bind, mret, ST_ret in Hn.
  destruct (storage_New (app_Storage cfg) w) as [s w1] eqn:Hs. cbn in Hn.
  destruct s as [s|e]; [|discriminate Hn]. cbn in Hn.
  destruct (storage_New_Ok _ _ _ _ Hs) as (t & Ht & -> & Hdb & Hc). exists t. split; [done|].
  destruct (app_Cache cfg) as [k|].
  - specialize (Hk k eq_refl). unfold cache_New in Hn. rewrite bool_decide_eq_false_2 in Hn by done.
    destruct (bool_decide _); [|discriminate Hn]. cbn in Hn. by injection Hn as <- <- <- <-.
  - cbn in Hn. by injection Hn as <- <- <- <-.
Qed.

(** ** A sound configuration starts *)

(** The driver takes the data source name this storage section makes. *)
Definition dsn_taken (cfg : StorageConfig) : Prop :=
  match storage_driver cfg with
  | Some TypePostgres =>
    forall p, storage_Postgres cfg = Some p ->
      pgxpool_ParseConfig (postgres_DSN p) = Ok tt /\ pgxpool_NewWithConfig (postgres_DSN p) = Ok tt
  | Some TypeMySQL => forall m, storage_MySQL cfg = Some m -> sql_Open (mysql_DSN m) = Ok tt
  | None => True
  end.

(** The Redis client of this cache section, if it is one, gets its ping answered. *)
Definition redis_answers (cfg : CacheConfig) : Prop :=
  forall r w, cache_Redis cfg = Some r -> is_ok (rc_Ping (goredis_NewClient r) w).1 = true.

(** The servers this configuration names: the data source name is taken, the storage
    and Redis, when it is the cache, answer a ping. *)
Definition reachable_servers (cfg : AppConfig) (w : world) : Prop :=
  dsn_taken (app_Storage cfg) /\ env_fault (w_tick w) = NoFault /\
  (forall k, app_Cache cfg = Some k -> redis_answers k).

Lemma storage_New_starts cfg w :
  storage_sound cfg -> dsn_taken cfg -> env_fault (w_tick w) = NoFault ->
  exists t, storage_driver cfg = Some t /\ storage_New cfg w = (Ok (storage_of t), next w).
Proof using.
  intros Hs Hopen Hping. unfold storage_sound, dsn_taken in *. unfold storage_New.
  destruct (storage_driver cfg) as [t|]; [|done]. exists t. split; [done|].
  destruct t; destruct Hs as (p & Hp & _); specialize (Hopen p Hp); rewrite Hp.
  - unfold postgres_NewPool, try, mbind, ST_bind, mret, ST_ret, ping, run_stmt. cbn.
    destruct Hopen as [-> ->]. cbn. by rewrite Hping.
  - unfold mysql_NewDB, try, mbind, ST_bind, mret, ST_ret, ping, run_stmt. cbn.
    rewrite Hopen. cbn. by rewrite Hping.
Qed.

Lemma cache_New_starts cfg w :
  cache_sound cfg -> redis_answers cfg -> exists c w', cache_New cfg w = (Ok c, w').
Proof using.
  intros Hs Hredis. unfold cache_New. destruct Hs as [->|(-> & r & Hr & Ha)]; [by eexists _, _|].
  rewrite bool_decide_eq_true_2 by done. rewrite Hr. unfold redis_New. rewrite bool_decide_eq_false_2 by done.
  unfold mbind, ST_bind, mret, ST_ret. specialize (Hredis r w Hr).
  destruct (rc_Ping (goredis_NewClient r) w) as [[u|e] w']; [by eexists _, _|discriminate Hredis].
Qed.

Lemma newApplication_starts cfg w :
  storage_sound (app_Storage cfg) -> (forall k, app_Cache cfg = Some k -> cache_sound k) -> reachable_servers cfg w ->
  exists t c h w', newApplication cfg w = (Ok (storage_of t, c, h), w') /\
    storage_driver (app_Storage cfg) = Some t /\ (is_Some c <-> is_Some (app_Cache cfg)).
Proof using.
  intros Hs Hc (Hdsn & Hping & Hredis). destruct (storage_New_starts _ w Hs Hdsn Hping) as (t & Ht & Hnew). exists t.
  unfold newApplication, try, mbind, ST_bind, mret, ST_ret. rewrite Hnew. cbn.
  destruct (app_Cache cfg) as [k|].
  - destruct (cache_New_starts k (next w) (Hc k eq_refl) (Hredis k eq_refl)) as (c & w' & ->). cbn.
    exists (Some c). by do 2 eexists.
  - cbn. exists None. do 2 eexists. split; [done|]. split; [done|]. by split; intros [? ?].
Qed.
End newApplication.

(** ** The server under every failure pattern, with the in-memory cache or none *)

Section deployment.
Context `{E : Env, C : Collation, U : UnicodeCI, J : GoJWT, UT : UUIDText, B : Bcrypt, UP : UUIDParse, UG : Upgrader}.
Context {UL : UnicodeCILaws U} {UGL : UpgraderLaws UG} {L : UUIDTextLaws UT}.
Context (t : Driver) (jwt : jwt_Config) (cost : Z) (ttl : TTLConfig) (http : http_Config).
Context (in_memory : bool).
#[local] Instance http_dialect : Dialect := dialect t.
Abbreviation store := (storage_of t).
Abbreviation c := (cache_in in_memory).

(** The tables are sound, and the cache, if any, tells the truth about them. *)
Definition app_inv : world -> Prop := if in_memory then app_ok t else db_ok.

Lemma initial_app_inv n : app_inv (mkWorld empty_db ∅ n).
Proof using.
  unfold app_inv. destruct in_memory; [|exact empty_db_wf]. split; [exact empty_db_wf|]. intros k v Hk. done.
Qed.

Lemma app_inv_db w : app_inv w -> db_ok w.
Proof using. unfold app_inv. destruct in_memory; [by intros [? _]|done]. Qed.

#[local] Instance inv_env : EnvSpec app_inv view.
Proof using. unfold app_inv. destruct in_memory; [apply app_env|apply _]. Qed.

#[local] Instance inv_tokens : TokenSpec app_inv view (JWTManager jwt) (Hasher cost).
Proof using. unfold app_inv. destruct in_memory; [apply app_token_spec|apply _]. Qed.

Lemma validator_keeps token : keeps_store app_inv view (validator jwt token).
Proof using. intros w Hw. split; [|done]. exact (proj1 (spec_now w Hw)). Qed.

Lemma storage_Ping_quiet w : (storage_Ping store w).2 = next w.
Proof using. destruct t; cbn; unfold ping, run_stmt; by destruct (env_fault (w_tick w)). Qed.

Lemma next_keeps w : app_inv w -> app_inv (next w) /\ view (next w) = view w.
Proof using E. intros Hw. split; [|done]. exact (proj1 (spec_now w Hw)). Qed.

Lemma healthCheck_keeps : keeps_store app_inv view (healthCheck store c).
Proof using.
  intros w Hw. unfold healthCheck, try, mbind, ST_bind, mret, ST_ret.
  pose proof (storage_Ping_quiet w) as Hp. destruct (storage_Ping store w) as [r w1]. cbn in Hp. subst w1.
  destruct r; cbn; [|by apply next_keeps]. by destruct in_memory; apply next_keeps.
Qed.

Context (acked : in_memory = true -> ~ world_loss).

#[local] Instance inv_users : UserRepositorySpec app_inv view (app_users store ttl c).
Proof using acked UL L.
  unfold app_inv. destruct in_memory; [apply app_users_spec; auto|]. exact (storage_users t).
Qed.

#[local] Instance inv_chats : ChatRepositorySpec app_inv view (app_chats store ttl c).
Proof using acked UL L.
  unfold app_inv. destruct in_memory; [apply app_chats_spec; auto|]. exact (storage_chats t).
Qed.

#[local] Instance inv_messages : MessageRepositorySpec app_inv view (Messages store).
Proof using acked UL L.
  unfold app_inv. destruct in_memory; [apply app_messages; auto|]. exact (storage_messages t).
Qed.

#[local] Instance inv_lookup : UserLookupSpec app_inv view (Users store).
Proof using acked UL L.
  unfold app_inv. destruct in_memory; [apply app_lookup; auto|]. apply _.
Qed.

Lemma app_refused w r cl s rs cl' s' :
  app_inv s -> app_server store jwt cost ttl http c w r (cl, s) = (Ok rs, (cl', s')) ->
  400 <= rs_Status rs < 500 -> view s' = view s.
Proof using acked UL UGL L.
  exact (refused_changes_nothing app_inv view (Users store) (UR := app_users store ttl c) (CR := app_chats store ttl c)
    (MR := Messages store) (TM := JWTManager jwt) (PH := Hasher cost) (validator jwt) (healthCheck store c) http
    validator_keeps healthCheck_keeps w r cl s rs cl' s').
Qed.

Lemma run_http_steps rs cl s :
  app_inv s -> let s' := (run_http store jwt cost ttl http c rs (cl, s)).2 in
  app_inv s' /\ rtc api_step (view s) (view s').
Proof using acked UL UGL L.
  exact (serve_requests_steps app_inv view (Users store) (UR := app_users store ttl c) (CR := app_chats store ttl c)
    (MR := Messages store) (TM := JWTManager jwt) (PH := Hasher cost) (validator jwt) (healthCheck store c) http
    validator_keeps healthCheck_keeps rs cl s).
Qed.

(** From any sound state, the invariants of the domain included. *)
Lemma run_http_safe rs cl s :
  app_inv s -> system_wf (view s) ->
  let s' := (run_http store jwt cost ttl http c rs (cl, s)).2 in
  app_inv s' /\ rtc api_step (view s) (view s') /\ system_wf (view s').
Proof using acked UL UGL L.
  intros Hs Hwf. destruct (run_http_steps rs cl s Hs) as [Hs' Hr]. split; [done|]. split; [done|].
  clear Hs Hs'. revert Hwf. induction Hr as [|d1 d2 d3 Hstep Hr IH]; [done|].
  intros Hwf. apply IH. by eapply (api_step_wf law_same_sym).
Qed.

(** ** What an open connection listed, its user was a member of *)
Lemma app_events_members maxSize evs s k cl :
  app_inv s -> hub_heap (ws_hub (app_events store jwt cost ttl http c maxSize evs s)) !! k = Some cl ->
  exists before w r after, evs = before ++ Connects w r :: after /\
    made_by view (CU := ws_chats store ttl c) (UU := ws_users store jwt cost ttl c)
      (hc_AllowedOrigins http) maxSize (app_call store jwt cost ttl c) before r w (mkWsState NewHub ∅ s) k cl.
Proof using acked UL L.
  intros Hs. eapply (run_members app_inv view (hc_AllowedOrigins http) maxSize (app_call store jwt cost ttl c)); [| | | |exact Hs].
  - intros u. eapply honours_weaken; [apply (spec_GetUserChats (CR := app_chats store ttl c))|].
    intros d ps d' [-> [Hps Hall]]. split; [done|]. intros ch. split; [|by intros [? ?]; apply Hall].
    intros (p & -> & Hp)%list_elem_of_fmap. rewrite Forall_forall in Hps. destruct (Hps p Hp) as [Hm Hc].
    split; [exact Hm|by eexists].
  - intros u w Hw. apply (run_user_call_outcome app_inv view (UR := app_users store ttl c) (TM := JWTManager jwt)
      (PH := Hasher cost) (CallSetOnline u) w Hw).
  - intros u w Hw. apply (run_user_call_outcome app_inv view (UR := app_users store ttl c) (TM := JWTManager jwt)
      (PH := Hasher cost) (CallSetOffline u) w Hw).
  - intros call w Hw. apply (serve_steps app_inv view (Users store) (UR := app_users store ttl c)
      (CR := app_chats store ttl c) (MR := Messages store) (TM := JWTManager jwt) (PH := Hasher cost) call w Hw).
Qed.
End deployment.
