(* ===== verification/Lifecycle.v ===== *)
(** * The life of the processes

    [cmd/app/main.go] and [cmd/migrate/main.go] around what the other files model:
    reading the configuration, setting up the log, building the application;
    then the goroutines of [main], [Run] and the profiler as a step relation, from
    the start of the servers to the exit. *)
From S2P Require Import Prelude Utf8 Domain Config ConfigSpec GoStd Json ChatUsecase MessageUsecase.
From S2P Require Import UserUsecase Store Schema World Sql SqlWf Mysql MysqlSpec Storage ChatContract.
From S2P Require Import ChatRefinement MessageRefinement UserRefinement Jwt System App Cache Cached.
From S2P Require Import Coherence CachedContract CachedApp Redis Http Handlers Middleware Router.
From S2P Require Import HttpRefinement Ws WsInvariant HttpApp Logging.
Open Scope Z_scope.

(** ** Reading the configuration: [Load] and [LoadMigrate] from the path on *)

(** [os.Open] with what the file holds, and the two decoders. *)
Class Files : Type := {
  os_Open : string -> res string;
  yaml_Decode : string -> res AppConfig;
  json_Decode : string -> res AppConfig;
  yaml_DecodeMigrate : string -> res MigrateConfig;
  json_DecodeMigrate : string -> res MigrateConfig }.

Fixpoint has_slash (s : string) : bool :=
  match s with "" => false | String c rest => Ascii.eqb c "/" || has_slash rest end.

(** [filepath.Ext]: from the last dot of the last element on. *)
Fixpoint filepath_Ext (s : string) : string :=
  match s with
  | "" => ""
  | String c rest =>
    match filepath_Ext rest with
    | "" => if Ascii.eqb c "." && negb (has_slash rest) then s else ""
    | ext => ext
    end
  end.

Section loading.
Context `{Strconv, Files}.

(** The document of a configuration file. *)
Definition read_config {A} (yaml json : string -> res A) (unsupported : string -> string) (path : string) : result string A :=
  match os_Open path with
  | Err e => Err ("config: open file `" +:+ path +:+ "`: " +:+ error_text e)
  | Ok f =>
    if bool_decide (filepath_Ext path ∈ [".yaml"; ".yml"]) then
      match yaml f with Ok cfg => Ok cfg | Err e => Err ("config: decode yaml: " +:+ error_text e) end
    else if bool_decide (filepath_Ext path = ".json") then
      match json f with Ok cfg => Ok cfg | Err e => Err ("config: decode json: " +:+ error_text e) end
    else Err (unsupported (filepath_Ext path))
  end.

Definition LoadFile (path : string) : result string AppConfig :=
  match read_config yaml_Decode json_Decode
          (fun ext => "config: unsupported extension `" +:+ Quote ext +:+ "`") path with
  | Err e => Err e
  | Ok cfg => match Load cfg with Ok cfg => Ok cfg | Err e => Err (config_error_Error e) end
  end.

Definition LoadMigrateFile (path : string) : result string MigrateConfig :=
  match read_config yaml_DecodeMigrate json_DecodeMigrate
          (fun ext => "config: unsupported extension " +:+ Quote ext) path with
  | Err e => Err e
  | Ok cfg => match LoadMigrate cfg with Ok cfg => Ok cfg | Err e => Err (config_error_Error e) end
  end.
End loading.

(** ** cmd/app/main.go *)

(** What [net/http] keeps of an [http.Server]. *)
Inductive server_state : Type :=
| Fresh       (** not listening yet *)
| Listening
| ShutDown.   (** [Shutdown] was called: it neither listens nor will *)

(** Where the goroutine of [api.Run] is: before it looks at the profiler, before
    [ListenAndServe], in it, and after it with the error it returned. *)
Inductive run_pc : Type := RunStart | RunListen | RunServing | RunDone (failed : bool).

(** Where [main] is: waiting for a signal, in the two [Shutdown]s of [api.Stop], in the
    two closes of the deferred [a.close], gone.  From the second [Shutdown] on it
    carries whether that one returned because the server was drained, or because
    the thirty seconds were over. *)
Inductive main_pc : Type :=
| MainWaiting
| MainStoppingPprof
| MainStoppingHttp
| MainClosingStore (drained : bool)
| MainClosingCache (drained : bool)
| MainExited (drained : bool).

Record process : Type := mkProcess {
  ps_main : main_pc;
  ps_run : run_pc;
  ps_http : server_state;
  ps_pprof : option server_state;   (** [pprofSrv], nil until [Run] sets it *)
  ps_signalled : bool;
  ps_active : nat;                  (** requests being served *)
  ps_querying : nat;                (** those of them with a query in progress *)
  ps_store_open : bool;
  ps_cache_open : bool }.

#[export] Instance server_state_eq_dec : EqDecision server_state.
Proof. solve_decision. Defined.
#[export] Instance main_pc_eq_dec : EqDecision main_pc.
Proof. solve_decision. Defined.

(** The process once [newApplication] has returned and [Run] was started. *)
Definition running (cached : bool) : process := mkProcess MainWaiting RunStart Fresh None false 0 0 true cached.

Definition set_run (r : run_pc) (p : process) : process :=
  mkProcess (ps_main p) r (ps_http p) (ps_pprof p) (ps_signalled p) (ps_active p) (ps_querying p) (ps_store_open p) (ps_cache_open p).
Definition set_http (h : server_state) (p : process) : process :=
  mkProcess (ps_main p) (ps_run p) h (ps_pprof p) (ps_signalled p) (ps_active p) (ps_querying p) (ps_store_open p) (ps_cache_open p).
Definition set_pprof (s : option server_state) (p : process) : process :=
  mkProcess (ps_main p) (ps_run p) (ps_http p) s (ps_signalled p) (ps_active p) (ps_querying p) (ps_store_open p) (ps_cache_open p).
Definition set_active (n : nat) (p : process) : process :=
  mkProcess (ps_main p) (ps_run p) (ps_http p) (ps_pprof p) (ps_signalled p) n (ps_querying p) (ps_store_open p) (ps_cache_open p).
Definition set_querying (n : nat) (p : process) : process :=
  mkProcess (ps_main p) (ps_run p) (ps_http p) (ps_pprof p) (ps_signalled p) (ps_active p) n (ps_store_open p) (ps_cache_open p).
Definition set_main (m : main_pc) (p : process) : process :=
  mkProcess m (ps_run p) (ps_http p) (ps_pprof p) (ps_signalled p) (ps_active p) (ps_querying p) (ps_store_open p) (ps_cache_open p).
Definition signal (p : process) : process :=
  mkProcess (ps_main p) (ps_run p) (ps_http p) (ps_pprof p) true (ps_active p) (ps_querying p) (ps_store_open p) (ps_cache_open p).

(** The second half of [Stop]: [httpSrv.Shutdown] is called. *)
Definition stop_http (p : process) : process := set_main MainStoppingHttp (set_http ShutDown p).
(** [Stop] up to its first [Shutdown]: of the profiler if there is one, else of the server. *)
Definition Stop (p : process) : process :=
  match ps_pprof p with
  | Some _ => set_main MainStoppingPprof (set_pprof (Some ShutDown) p)
  | None => stop_http p
  end.

(** The first half of [close]: the storage refuses queries from now on. *)
Definition close_store (drained : bool) (p : process) : process :=
  mkProcess (MainClosingStore drained) (ps_run p) (ps_http p) (ps_pprof p) (ps_signalled p) (ps_active p) (ps_querying p)
    false (ps_cache_open p).
(** The second half, once the storage is closed: the cache, when there is one. *)
Definition close_cache (drained : bool) (p : process) : process :=
  mkProcess (if ps_cache_open p then MainClosingCache drained else MainExited drained)
    (ps_run p) (ps_http p) (ps_pprof p) (ps_signalled p) (ps_active p) (ps_querying p) (ps_store_open p) false.

(** How far [main] has come. *)
Definition main_rank (m : main_pc) : nat :=
  match m with
  | MainWaiting => 0 | MainStoppingPprof => 1 | MainStoppingHttp => 2
  | MainClosingStore _ => 3 | MainClosingCache _ => 4 | MainExited _ => 5
  end.

(** Running: no goroutine moves once [main] has returned. *)
Definition alive (p : process) : Prop := (main_rank (ps_main p) < 5)%nat.

Section process.
(** Whether the profiler is enabled, and whether closing the storage waits for the
    queries in progress, which is up to the driver. *)
Context (pprofEnabled close_waits : bool).

(** One step of a goroutine, of the outside, or of a connection.  Connections, [Run] and
    the profiler go on while [main] is in [Stop] and in [close]. *)
Inductive process_step : process -> process -> Prop :=
(** [Run] *)
| run_profiler p : alive p -> ps_run p = RunStart ->
    process_step p (set_run RunListen (if pprofEnabled then set_pprof (Some Fresh) p else p))
| run_listen p : alive p -> ps_run p = RunListen -> ps_http p = Fresh ->
    process_step p (set_run RunServing (set_http Listening p))
| run_listen_fails p : alive p -> ps_run p = RunListen -> ps_http p = Fresh ->
    process_step p (set_run (RunDone true) p)
| run_serve_fails p : alive p -> ps_run p = RunServing -> ps_http p = Listening ->
    process_step p (set_run (RunDone true) (set_http Fresh p))
| run_closed p : alive p -> ps_run p = RunListen \/ ps_run p = RunServing -> ps_http p = ShutDown ->
    process_step p (set_run (RunDone false) p)
(** the profiler *)
| pprof_listen p : alive p -> ps_pprof p = Some Fresh -> process_step p (set_pprof (Some Listening) p)
(** connections; a query starts on an open storage only *)
| request_starts p : alive p -> ps_http p = Listening -> process_step p (set_active (S (ps_active p)) p)
| request_ends p n : alive p -> ps_active p = S n -> (ps_querying p <= n)%nat -> process_step p (set_active n p)
| query_starts p : alive p -> (ps_querying p < ps_active p)%nat -> ps_store_open p = true ->
    process_step p (set_querying (S (ps_querying p)) p)
| query_ends p n : alive p -> ps_querying p = S n -> process_step p (set_querying n p)
(** the outside *)
| interrupt p : alive p -> process_step p (signal p)
(** [main]: the signal, the two [Shutdown]s, the two closes *)
| main_stops p : ps_main p = MainWaiting -> ps_signalled p = true -> process_step p (Stop p)
| main_pprof_stopped p : ps_main p = MainStoppingPprof -> process_step p (stop_http p)
| main_drained p : ps_main p = MainStoppingHttp -> ps_active p = 0%nat -> process_step p (close_store true p)
| main_times_out p : ps_main p = MainStoppingHttp -> process_step p (close_store false p)
| main_store_closed p d : ps_main p = MainClosingStore d -> (close_waits = true -> ps_querying p = 0%nat) ->
    process_step p (close_cache d p)
| main_cache_closed p d : ps_main p = MainClosingCache d -> process_step p (set_main (MainExited d) p).

Definition reachable (cached : bool) : process -> Prop := rtc process_step (running cached).

(** *** Lemmas *)

(** What holds wherever [main] is. *)
Definition orderly (cached : bool) (p : process) : Prop :=
  (ps_querying p <= ps_active p)%nat /\
  match ps_main p with
  | MainWaiting => ps_http p <> ShutDown /\ ps_store_open p = true /\ ps_cache_open p = cached
  | MainStoppingPprof =>
    ps_signalled p = true /\ ps_http p <> ShutDown /\ ps_store_open p = true /\ ps_cache_open p = cached
  | MainStoppingHttp =>
    ps_signalled p = true /\ ps_http p = ShutDown /\ ps_store_open p = true /\ ps_cache_open p = cached
  | MainClosingStore d =>
    ps_signalled p = true /\ ps_http p = ShutDown /\ ps_store_open p = false /\ ps_cache_open p = cached /\
    (d = true -> ps_active p = 0%nat)
  | MainClosingCache d | MainExited d =>
    ps_signalled p = true /\ ps_http p = ShutDown /\ ps_store_open p = false /\ ps_cache_open p = false /\
    (d = true -> ps_active p = 0%nat) /\ (close_waits = true -> ps_querying p = 0%nat)
  end.

(** The cases of a step, with the fields of the process in view. *)
Ltac step_cases :=
  match goal with Hs : process_step _ _ |- _ => destruct Hs end; unfold alive in *;
  match goal with p : process |- _ => destruct p as [m r h pp sg ac qu st ca] end;
  unfold Stop, stop_http, close_cache in *; cbn in *; subst;
  try match goal with |- context [match ?o with Some _ => _ | None => _ end] => destruct o end;
  destruct pprofEnabled; cbn in *.

Lemma step_orderly cached p q : orderly cached p -> process_step p q -> orderly cached q.
Proof using.
  intros Hp Hs. unfold orderly in *. step_cases; try destruct m; try destruct ca; cbn in *;
    intuition (congruence || lia || done).
Qed.

Lemma reachable_orderly cached p : reachable cached p -> orderly cached p.
Proof using.
  intros Hr. unfold reachable in Hr.
  refine (rtc_ind_r (orderly cached) _ _ _ p Hr); [by repeat split|]. intros q q' _ Hs Hq. by eapply step_orderly.
Qed.

(** Only [ListenAndServe] listens, and a goroutine that has returned stays so. *)
Definition listens_in_run (p : process) : Prop := ps_http p = Listening -> ps_run p = RunServing.

Lemma step_listens p q : listens_in_run p -> process_step p q -> listens_in_run q.
Proof using. intros Hp Hs. unfold listens_in_run in *. step_cases; intuition congruence. Qed.

Lemma reachable_listens cached p : reachable cached p -> listens_in_run p.
Proof using.
  intros Hr. unfold reachable in Hr. refine (rtc_ind_r listens_in_run _ _ _ p Hr); [done|].
  intros q q' _ Hs Hq. by eapply step_listens.
Qed.

Lemma step_done b p q : ps_run p = RunDone b -> process_step p q -> ps_run q = RunDone b.
Proof using. intros Hp Hs. step_cases; try done; intuition congruence. Qed.

Lemma steps_done b p q : ps_run p = RunDone b -> rtc process_step p q -> ps_run q = RunDone b.
Proof using. intros Hp Hr. revert Hp. induction Hr as [|p p' q Hs _ IH]; [done|]. intros Hp. eapply IH, step_done; eauto. Qed.

(** [main] never goes back. *)
Lemma main_moves_on p q : process_step p q -> (main_rank (ps_main p) <= main_rank (ps_main q))%nat.
Proof using. intros Hs. step_cases; try destruct ca; cbn; lia. Qed.

(** The queries in progress can end, so closing the storage can return. *)
Lemma queries_can_end p : alive p -> rtc process_step p (set_querying 0 p).
Proof using.
  intros Ha. destruct (ps_querying p) as [|n] eqn:Hq; [by destruct p; cbn in *; subst|].
  revert p Ha Hq. induction n as [|n IH]; intros p Ha Hq; (eapply rtc_l; [by apply (query_ends _ _ Ha Hq)|]); [done|].
  by apply (IH (set_querying (S n) p)).
Qed.

Definition exited (p : process) : Prop := exists d, ps_main p = MainExited d.

Lemma closing_can_exit d p : ps_main p = MainClosingStore d -> exists q, rtc process_step p q /\ exited q.
Proof using.
  intros Hm. pose proof (queries_can_end p ltac:(unfold alive; rewrite Hm; cbn; lia)) as Hq.
  pose proof (main_store_closed (set_querying 0 p) d Hm (fun _ => eq_refl)) as Hc.
  destruct (ps_cache_open p) eqn:Hca.
  - eexists. split.
    + etrans; [exact Hq|]. eapply rtc_l; [exact Hc|].
      eapply rtc_once, (main_cache_closed _ d). cbn. by rewrite Hca.
    + by exists d.
  - eexists. split; [eapply rtc_r; [exact Hq|exact Hc]|]. exists d. cbn. by rewrite Hca.
Qed.

(** Once signalled, the process can always exit. *)
Lemma signalled_can_exit p : ps_signalled p = true -> exists q, rtc process_step p q /\ exited q.
Proof using.
  intros Hs.
  assert (forall p0, ps_main p0 = MainStoppingHttp -> exists q, rtc process_step p0 q /\ exited q) as Hhttp.
  { intros p0 Hm. destruct (closing_can_exit false (close_store false p0) eq_refl) as (q & Hq & He).
    exists q. split; [|done]. eapply rtc_l; [by apply main_times_out|done]. }
  assert (forall p0, ps_main p0 = MainStoppingPprof -> exists q, rtc process_step p0 q /\ exited q) as Hpprof.
  { intros p0 Hm. destruct (Hhttp (stop_http p0) eq_refl) as (q & Hq & He).
    exists q. split; [|done]. eapply rtc_l; [by apply main_pprof_stopped|done]. }
  destruct (ps_main p) as [| | |d|d|d] eqn:Hm; [|auto|auto|by eapply closing_can_exit| |].
  - pose proof (main_stops p Hm Hs) as Hstop.
    assert (exists q, rtc process_step (Stop p) q /\ exited q) as (q & Hq & He).
    { unfold Stop. destruct (ps_pprof p); [by apply Hpprof|by apply Hhttp]. }
    exists q. split; [by eapply rtc_l|done].
  - eexists. split; [by eapply rtc_once, main_cache_closed|]. by exists d.
  - exists p. split; [done|by exists d].
Qed.
End process.

(** ** From the start *)

(** What [main] has come to when it waits for a signal, or exits before. *)
Section start.
Context `{E : Env, C : Collation, U : UnicodeCI, J : GoJWT, UT : UUIDText, B : Bcrypt, UP : UUIDParse, UG : Upgrader}.
Context `{SQ : Strconv, P : Pools, G : GoRedis, F : Files, ZL : Zerolog, LO : Lowering, O : OS (ST world)}.

Inductive started : Type :=
| Exit (code : Z)
| Serving (cfg : AppConfig) (log : logger) (store : Storage) (c : option (Cache (ST world)))
    (h : Handler (ST (clients * world))) (p : process).

Definition app_main (path : string) : ST world started :=
  match LoadFile path with
  | Err _ => mret (Exit 1)
  | Ok cfg =>
    let* l := Setup (app_Logger cfg) in
    match l with
    | Err _ => mret (Exit 2)
    | Ok log =>
      let* a := newApplication cfg in
      mret match a with
           | Err _ => Exit 1
           | Ok (store, c, h) => Serving cfg log store c h (running (bool_decide (is_Some (app_Cache cfg))))
           end
    end
  end.

(** ** cmd/migrate/main.go *)
Inductive migrate_error : Type := ErrNoChange | OtherMigrateError.

Class Migrate : Type := {
  migrate_New : string -> string -> ST world (res unit);   (** source, then database *)
  mig_Up : ST world (result migrate_error unit) }.

(** The exit status. *)
Definition migrate_main `{Migrate} (path : string) : ST world Z :=
  match LoadMigrateFile path with
  | Err _ => mret 1
  | Ok cfg =>
    let* l := Setup (migrate_Logger cfg) in
    match l with
    | Err _ => mret 2
    | Ok _ =>
      match migrate_target cfg with
      | Err _ => mret 1
      | Ok (dsn, source) =>
        let* m := migrate_New source dsn in
        match m with
        | Err _ => mret 1
        | Ok _ =>
          let* u := mig_Up in
          mret match u with Ok _ | Err ErrNoChange => 0 | Err OtherMigrateError => 1 end
        end
      end
    end
  end.
End start.
