(* ===== verification/Example.v ===== *)
(** * A concrete deployment

    The instances the witnesses run on: a clock that advances by a second per
    effect, an infrastructure that never fails, a toy token library, and a server
    that has registered three users and opened a few chats. *)
From S2P Require Import Prelude Domain Config ChatUsecase MessageUsecase UserUsecase Store Schema.
From S2P Require Import World Sql SqlWf Postgres PostgresSpec Mysql MysqlSpec Storage.
From S2P Require Import ChatRefinement MessageRefinement UserRefinement Jwt System App Cache Cached.
From S2P Require Import Coherence Redis OnPostgres.
Open Scope Z_scope.

#[export] Instance demo_env : Env := {|
  env_now t := (1700000000 + Z.of_nat t) * 1000000000;
  env_db_now t := (1700000000 + Z.of_nat t) * 1000000000;
  env_uuid t := (1000 + N.of_nat t)%N;
  env_choice _ := 0%nat;
  env_fault _ := NoFault |}.

Lemma demo_reliable : reliable.
Proof. by intros t. Qed.

#[export] Instance demo_collation : Collation := {|
  ilike v pat := bool_decide (pat = "%" +:+ v +:+ "%");
  text_le a b := String.leb a b = true;
  text_le_dec a b := bool_eq_dec _ _ |}.

(** Texts compared byte by byte, a collation like any other. *)
#[export] Instance demo_ci : UnicodeCI := {| ci_same a b := bool_decide (a = b); adjusted s := s |}.

#[export] Instance demo_ci_laws : UnicodeCILaws demo_ci.
Proof.
  split; cbn.
  - intros a b. by apply bool_decide_ext.
  - intros a b c ?%bool_decide_eq_true ?%bool_decide_eq_true. apply bool_decide_eq_true_2. by subst.
  - intros a. by apply bool_decide_eq_true_2.
  - done.
Qed.

(** ** A token library: the key, a dot, and the claims in binary *)
Fixpoint bits (p : positive) : string :=
  match p with
  | xH => "1"
  | xO p => "0" +:+ bits p
  | xI p => "2" +:+ bits p
  end.

Fixpoint unbits (s : string) : option positive :=
  match s with
  | EmptyString => None
  | String a rest =>
    if Ascii.eqb a "1" then match rest with EmptyString => Some xH | _ => None end
    else if Ascii.eqb a "0" then xO <$> unbits rest
    else if Ascii.eqb a "2" then xI <$> unbits rest else None
  end.

Lemma unbits_bits p : unbits (bits p) = Some p.
Proof.
  induction p as [p IH|p IH|].
  - change ((xI <$> unbits (bits p)) = Some (xI p)). by rewrite IH.
  - change ((xO <$> unbits (bits p)) = Some (xO p)). by rewrite IH.
  - done.
Qed.

(** The text after a prefix. *)
Fixpoint strip (pre s : string) : option string :=
  match pre, s with
  | EmptyString, _ => Some s
  | String a pre, String b s => if Ascii.eqb a b then strip pre s else None
  | _, _ => None
  end.

Lemma strip_app pre s : strip pre (pre +:+ s) = Some s.
Proof.
  induction pre as [|a pre IH]; [by destruct s|].
  change ((if Ascii.eqb a a then strip pre (pre +:+ s) else None) = Some s).
  by rewrite Ascii.eqb_refl.
Qed.

Definition claims_code (c : claims) : positive :=
  encode (claims_UserID c, claims_ExpiresAt c, claims_IssuedAt c, claims_ID c).

Definition claims_decode (p : positive) : option claims :=
  (fun '(u, e, i, j) => mkClaims u e i j) <$>
    (countable.decode p : option (uuid * Z * Z * string)).

Lemma claims_decode_code c : claims_decode (claims_code c) = Some c.
Proof. unfold claims_decode, claims_code. rewrite decode_encode. by destruct c. Qed.

#[export] Instance demo_text : UUIDText := fun u => bits (encode u).

#[export] Instance demo_jwt : GoJWT := {|
  SignedString c key := Ok (bits (encode key) +:+ "." +:+ bits (claims_code c));
  ParseWithClaims t keyfunc now :=
    match keyfunc SigningMethodHMAC with
    | None => inl ErrTokenOther
    | Some key =>
      match strip (bits (encode key) +:+ ".") t with
      | None => inl ErrTokenOther
      | Some body =>
        match unbits body ≫= claims_decode with
        | None => inl ErrTokenOther
        | Some c => if now <? claims_ExpiresAt c then inr c else inl ErrTokenExpired
        end
      end
    end |}.

Lemma string_app_assoc (a b c : string) : (a +:+ b) +:+ c = a +:+ (b +:+ c).
Proof.
  induction a as [|x a IH]; [done|].
  change (String x ((a +:+ b) +:+ c) = String x (a +:+ (b +:+ c))). by rewrite IH.
Qed.

#[export] Instance demo_jwt_laws : GoJWTLaws demo_jwt.
Proof.
  split.
  - intros c key. by eexists.
  - intros c key t kf now [= <-] Hk Hlt. cbn. rewrite Hk, <- string_app_assoc, strip_app, unbits_bits.
    cbn. rewrite claims_decode_code. apply Z.ltb_lt in Hlt. by rewrite Hlt.
  - intros c key t kf now [= <-] Hk Hle. cbn. rewrite Hk, <- string_app_assoc, strip_app, unbits_bits.
    cbn. rewrite claims_decode_code. destruct (now <? claims_ExpiresAt c) eqn:E; [lia|done].
Qed.

(** ** A hasher that remembers the password *)
#[export] Instance demo_bcrypt : Bcrypt := {|
  GenerateFromPassword p _ :=
    if 72 <? Z.of_nat (String.length p) then Err (Other "bcrypt: password length exceeds 72 bytes")
    else Ok ("$2a$" +:+ p);
  CompareHashAndPassword h p := bool_decide (h = "$2a$" +:+ p) |}.

#[export] Instance demo_bcrypt_laws : BcryptLaws demo_bcrypt.
Proof.
  split; cbn; intros p cost.
  - intros H. destruct (72 <? _) eqn:E; [by eexists|lia].
  - intros h. destruct (72 <? _); [done|]. intros [= <-]. by apply bool_decide_eq_true_2.
Qed.

Definition demo_jwt_config : jwt_Config :=
  mkJwtConfig "access-secret-access-secret-access" "refresh-secret-refresh-secret-ref"
    (900 * second) (604800 * second).

#[export] Existing Instance app_tokens.
(** The server after the calls [cs], on either storage. *)
Definition demo_on (t : Driver) (cs : list api_call) : world :=
  run_server t demo_jwt_config 10 cs initial_world.

Lemma demo_on_ok t cs : over_db (@db_wf (dialect t)) (demo_on t cs).
Proof. exact (run_server_ok t demo_jwt_config 10 cs). Qed.
Lemma demo_on_wf t cs : system_wf (H := @dl_text_eq (dialect t)) (view (demo_on t cs)).
Proof. exact (run_server_wf t demo_jwt_config 10 cs). Qed.

Definition demo_run : list api_call -> world := demo_on TypePostgres.

Lemma demo_ok cs : db_ok (demo_run cs).
Proof. exact (demo_on_ok TypePostgres cs). Qed.
Lemma demo_wf cs : system_wf (view (demo_run cs)).
Proof. exact (demo_on_wf TypePostgres cs). Qed.

(** ** Three users, a group and a direct chat *)
Definition register (name : string) : api_call :=
  UserCall (CallRegister (mkRegisterInput name (name +:+ "@example.com") "correct horse")).

Definition alice : uuid := 1003%N.
Definition bob : uuid := 1014%N.
Definition carol : uuid := 1025%N.
Definition team : uuid := 1034%N.

Definition demo_users : list api_call := [register "alice"; register "bob"; register "carol"].
Definition demo_setup : list api_call :=
  demo_users ++ [ChatCall alice (CallCreateGroup (mkCreateGroupInput "team" "" [bob; carol]))].

Definition hello : SendInput := mkSendInput team "hello" "text" None.
Definition say (u : uuid) (text : string) : api_call :=
  MessageCall u (CallSend (mkSendInput team text "text" None)).
(** Four messages in the group; the first is [first_message]. *)
Definition demo_talk : list api_call :=
  demo_setup ++ [say alice "one"; say bob "two"; say carol "three"; say alice "four"].
Definition first_message : uuid := 1045%N.

Definition dave_form : RegisterInput := mkRegisterInput "dave" "dave@example.com" "correct horse".

(** ** Laws of the toy libraries *)
Lemma bits_no_colon p : forallb (fun a => negb (Ascii.eqb a ":")) (String.list_ascii_of_string (bits p)) = true.
Proof. induction p as [p IH|p IH|]; [exact IH|exact IH|reflexivity]. Defined.

#[export] Instance demo_text_laws : UUIDTextLaws demo_text.
Proof.
  split.
  - intros u v E. apply encode_inj. unfold uuid_String, demo_text in E.
    assert (unbits (bits (encode u)) = unbits (bits (encode v))) as E' by by rewrite E.
    rewrite !unbits_bits in E'. by injection E'.
  - intros u. apply bits_no_colon.
Defined.

Lemma demo_acked : ~ world_loss.
Proof. intros (t & e & H). discriminate H. Defined.

(** ** A configuration file as decoded, and the drivers it is opened with *)
#[export] Instance demo_quote : Strconv := fun s => dquote +:+ s +:+ dquote.
#[export] Instance demo_pools : Pools := {|
  pgxpool_ParseConfig _ := Ok tt; pgxpool_NewWithConfig _ := Ok tt; sql_Open _ := Ok tt |}.
#[export] Instance demo_redis : GoRedis := fun _ => {|
  rc_Get _ := mret (Err Redis_Nil); rc_Set _ _ _ := mret (Ok tt);
  rc_Del _ := mret (Ok tt); rc_Ping := mret (Ok tt) |}.

(** What is left out takes its default. *)
Definition demo_document (t : Driver) (cache : string) : AppConfig := {|
  app_Storage := mkStorageConfig (driver_text t)
    (Some (mkPostgresConfig "localhost" 0 "vibechat" "secret" "vibechat" "" 0 0 ""))
    (Some (mkMysqlConfig "localhost" 0 "vibechat" "secret" "vibechat" 0 0 ""));
  app_Cache := if bool_decide (cache = "none") then None
               else Some (mkCacheConfig cache (Some (mkRedisConfig "" "" 0)) (mkTTLConfig 0 0 0));
  app_JWT := mkJwtConfig "access-secret-access-secret-access" "refresh-secret-refresh-secret-ref" 0 0;
  app_Logger := mkLoggerConfig "" "" None;
  app_Hasher := mkHasherConfig 0;
  app_Delivery := mkDeliveryConfig [] (mkHttpServerConfig "" 0 0 0 0 [] (mkRateLimitConfig 0 0) 0 None) (mkWsConfig 0);
  app_Profile := mkProfileConfig false "" |}.
Definition demo_app (t : Driver) (cache : string) : AppConfig := AppConfig_SetDefaults (demo_document t cache).

(** A decidable fact of a concrete state, by evaluation. *)
Ltac demo_check :=
  match goal with |- ?P => refine (proj1 (bool_decide_eq_true P) _) end; vm_compute; reflexivity.
