(* ===== verification/ChatClaims.v ===== *)
(** * Theorems on the chat service

    What the chat service does on PostgreSQL, operation by operation: for every
    state the schema allows, every environment and every failure pattern. *)
From S2P Require Import Prelude Domain ChatUsecase Store Schema World Sql SqlWf SqlRules SqlReads.
From S2P Require Import Postgres PostgresSpec Mysql MysqlSpec Storage ChatContract ChatRefinement.
From S2P Require Import ChatPolicy UserRefinement Jwt System App OnPostgres Example.
Open Scope Z_scope.

Section postgres.
Context `{E : Env, C : Collation}.

(** Unless the infrastructure fails, the call does what [policy] says. *)
Abbreviation decided := (decides db_ok view).

(** C5 [RemoveMember] succeeds exactly when the chat is a live group in which the
    caller outranks the target (owner over admin over member), and then removes
    that membership and nothing else; a refusal changes nothing. *)
Theorem removal_needs_rank c caller t (w : world) (Hw : db_ok w)
    (Hcaller : is_Some (st_users (view w) !! caller)) (Ht : is_Some (st_users (view w) !! t)) :
  wp (RemoveMember c caller t)
    (decided (live_group (view w) c /\ outranks (view w) c caller t)
       (fun d' => d' = remove_member c t (view w)) (view w)) w.
Proof. by apply (RemoveMember_policy db_ok view). Qed.

(** [ChangeMemberRole] succeeds exactly when the input is valid and the caller
    owns the chat and the target is another of its members; it then sets that
    role, [admin] or [member], and nothing else. *)
Theorem roles_are_the_owners c caller i (w : world) (Hw : db_ok w)
    (Hcaller : is_Some (st_users (view w) !! caller))
    (Ht : is_Some (st_users (view w) !! cmri_UserID i)) :
  wp (ChangeMemberRole c caller i)
    (decided (ChangeMemberRoleInput_Validate i = None /\ cmri_UserID i <> caller /\
              role_of (view w) c caller = Some MemberRoleOwner /\ is_member (view w) c (cmri_UserID i))
       (fun d' => d' = set_role c (cmri_UserID i) (cmri_Role i) (view w)) (view w)) w.
Proof. by apply (ChangeMemberRole_policy db_ok view). Qed.

(** C6 [LeaveChat]: a member who is not the owner just leaves; the owner hands
    the group over to the senior admin, without admins to the senior member, and
    leaves; an owner with no other account in the group closes it. *)
Theorem succession c caller (w : world) (Hw : db_ok w)
    (Hcaller : is_Some (st_users (view w) !! caller)) :
  wp (LeaveChat c caller)
    (decided (live_group (view w) c /\ is_member (view w) c caller) (departs (view w) c caller) (view w)) w.
Proof. by apply (LeaveChat_policy db_ok view). Qed.

(** [AddMember] succeeds exactly when the caller manages the live group and
    the target is an account outside it; it adds a plain member. *)
Theorem managers_add c caller i (w : world) (Hw : db_ok w)
    (Hcaller : is_Some (st_users (view w) !! caller)) :
  wp (AddMember c caller i)
    (decided (AddMemberInput_Validate i = None /\ (live_group (view w) c /\ manages (view w) c caller) /\
              is_Some (st_users (view w) !! ami_UserID i) /\ ~ is_member (view w) c (ami_UserID i))
       (fun d' => exists now,
          d' = add_member (mkChatMember c (ami_UserID i) MemberRoleMember now None) (view w)) (view w)) w.
Proof. by apply (AddMember_policy db_ok view). Qed.

(** [UpdateGroup] succeeds exactly when the input is valid and the caller
    manages the live group; it replaces the fields that are given, keeps the
    others, and touches nothing else. *)
Theorem managers_update c caller i (w : world) (Hw : db_ok w)
    (Hcaller : is_Some (st_users (view w) !! caller)) :
  wp (UpdateGroup c caller i)
    (decided (UpdateGroupInput_Validate i = None /\ live_group (view w) c /\ manages (view w) c caller)
       (fun d' => exists now chat, st_chats (view w) !! c = Some chat /\
          d' = with_chats (<[c := apply_update i now chat]>) (view w)) (view w)) w.
Proof. by apply (UpdateGroup_policy db_ok view). Qed.

(** C18 A group created by [CreateGroup] is new, named and described as asked,
    owned by its creator; its members are exactly the creator and the listed
    accounts, each once, and no other chat changes. *)
Theorem group_is_as_asked caller i (w : world) (Hw : db_ok w) :
  wp (CreateGroup caller i) (fun r w' => match r with
    | Ok chat =>
      CreateGroupInput_Validate i = None /\
      (forall u, u ∈ cgi_MemberIDs i -> u <> caller -> is_Some (st_users (view w) !! u)) /\
      fresh_chat (view w) (chat_ID chat) /\
      st_chats (view w') !! chat_ID chat = Some (stamp_chat chat) /\
      chat_Type chat = ChatTypeGroup /\ chat_Name chat = cgi_Name i /\
      chat_Description chat = cgi_Description i /\ chat_CreatedBy chat = caller /\
      (forall u, role_of (view w') (chat_ID chat) u = group_role caller (cgi_MemberIDs i) u) /\
      only_chat (chat_ID chat) (view w) (view w')
    | Err e => infra e \/ view w' = view w end) w.
Proof. by apply (CreateGroup_creates db_ok view). Qed.

(** Two users have one direct chat: when [CreateDirect] has answered one of
    them, the same request from the other is answered with the same chat, not
    created anew. *)
Theorem direct_chat_is_shared a b (w : world) (Hw : db_ok w) (Hwf : chat_wf (view w)) :
  wp (let* r1 := CreateDirect a (mkCreateDirectInput b) in
      let* r2 := CreateDirect b (mkCreateDirectInput a) in mret (r1, r2))
    (fun rs _ => match rs with
       | (Ok (c1, _), Ok (c2, created)) => chat_ID c2 = chat_ID c1 /\ created = false
       | _ => True end) w.
Proof.
  apply wp_bind. eapply wp_mono.
  { refine (wp_and _ _ _ _ (CreateDirect_finds db_ok view a (mkCreateDirectInput b) w _ Hw eq_refl)
      (CreateDirect_refines db_ok view true a (mkCreateDirectInput b) w _ Hw eq_refl)). }
  intros r1 w1 [H1 (Hw1 & Hr1 & _)]. apply wp_bind.
  eapply wp_mono; [by apply (CreateDirect_finds db_ok view b (mkCreateDirectInput a) w1)|].
  intros r2 w2 H2. apply wp_ret. destruct r1 as [[c1 n1]|]; [|done]. destruct r2 as [[c2 n2]|]; [|done].
  destruct H1 as (Hne & Hs1 & _). destruct H2 as (_ & Hs2 & Hn2 & Hsame). cbn in *.
  assert (shares_direct (view w1) b a (chat_ID c1)) as Hs1'.
  { destruct Hs1 as (x & ? & ? & ? & ?). by exists x. }
  assert (n2 = false) as ->.
  { destruct n2; [|done]. by destruct (proj1 Hn2 eq_refl (chat_ID c1)). }
  split; [|done]. rewrite (Hsame eq_refl) in Hs2.
  destruct (chat_steps_wf true a (view w) (view w1) Hwf Hr1) as [_ Hu].
  by apply (Hu b a).
Qed.

(** C8 The owner of a group is unique and stays unique: only a call of
    [LeaveChat] that the infrastructure interrupts can end with a group that has
    not exactly one owner. *)
Theorem one_owner_kept caller call (w : world) (Hw : db_ok w) (Hone : one_owner (view w))
    (Hcaller : is_Some (st_users (view w) !! caller)) :
  wp (run_call caller call) (fun r w' => one_owner (view w') \/
    (exists c e, call = CallLeaveChat c /\ r = Err e /\ infra e)) w.
Proof. by apply (run_call_one_owner db_ok view). Qed.
End postgres.

(** ** The theorems at work on the demonstration server *)

Lemma removal_needs_rank_witness :
  let w := demo_run demo_setup in
  is_ok (RemoveMember team alice bob w).1 = true /\
  wp (RemoveMember team alice bob)
    (decides db_ok view (live_group (view w) team /\ outranks (view w) team alice bob)
       (fun d' => d' = remove_member team bob (view w)) (view w)) w.
Proof.
  split; [vm_compute; reflexivity|].
  apply (removal_needs_rank team alice bob); [apply demo_ok|demo_check..].
Defined.

Definition make_admin (u : uuid) : ChangeMemberRoleInput := mkChangeMemberRoleInput u "admin".

Lemma roles_are_the_owners_witness :
  let w := demo_run demo_setup in
  is_ok (ChangeMemberRole team alice (make_admin bob) w).1 = true /\
  wp (ChangeMemberRole team alice (make_admin bob))
    (decides db_ok view (ChangeMemberRoleInput_Validate (make_admin bob) = None /\ bob <> alice /\
        role_of (view w) team alice = Some MemberRoleOwner /\ is_member (view w) team bob)
       (fun d' => d' = set_role team bob "admin" (view w)) (view w)) w.
Proof.
  split; [vm_compute; reflexivity|].
  apply (roles_are_the_owners team alice (make_admin bob)); [apply demo_ok|demo_check..].
Defined.

Lemma succession_witness :
  let w := demo_run (demo_setup ++ [ChatCall alice (CallChangeMemberRole team (make_admin carol))]) in
  role_of (view (LeaveChat team alice w).2) team carol = Some MemberRoleOwner /\
  wp (LeaveChat team alice)
    (decides db_ok view (live_group (view w) team /\ is_member (view w) team alice)
       (departs (view w) team alice) (view w)) w.
Proof.
  split; [vm_compute; reflexivity|].
  apply (succession team alice); [apply demo_ok|demo_check].
Defined.

Definition dave : uuid := 1046%N.

Lemma managers_add_witness :
  let w := demo_run (demo_setup ++ [register "dave"]) in
  is_ok (AddMember team alice (mkAddMemberInput dave) w).1 = true /\
  wp (AddMember team alice (mkAddMemberInput dave))
    (decides db_ok view (AddMemberInput_Validate (mkAddMemberInput dave) = None /\
        (live_group (view w) team /\ manages (view w) team alice) /\
        is_Some (st_users (view w) !! dave) /\ ~ is_member (view w) team dave)
       (fun d' => exists now, d' = add_member (mkChatMember team dave MemberRoleMember now None) (view w))
       (view w)) w.
Proof.
  split; [vm_compute; reflexivity|].
  apply (managers_add team alice (mkAddMemberInput dave)); [apply demo_ok|demo_check].
Defined.

Definition new_name : UpdateGroupInput := mkUpdateGroupInput (Some "core team") None None.

Lemma managers_update_witness :
  let w := demo_run demo_setup in
  is_ok (UpdateGroup team alice new_name w).1 = true /\
  wp (UpdateGroup team alice new_name)
    (decides db_ok view (UpdateGroupInput_Validate new_name = None /\ live_group (view w) team /\
        manages (view w) team alice)
       (fun d' => exists now chat, st_chats (view w) !! team = Some chat /\
          d' = with_chats (<[team := apply_update new_name now chat]>) (view w)) (view w)) w.
Proof.
  split; [vm_compute; reflexivity|].
  apply (managers_update team alice new_name); [apply demo_ok|demo_check].
Defined.

Definition pair_group : CreateGroupInput := mkCreateGroupInput "pair" "" [bob; bob; alice].

Lemma group_is_as_asked_witness :
  let w := demo_run demo_setup in
  exists chat w', (CreateGroup alice pair_group : ST world (res Chat)) w = (Ok chat, w') /\
    role_of (view w') (chat_ID chat) bob = group_role alice [bob; bob; alice] bob.
Proof.
  cbv zeta. set (w := demo_run demo_setup).
  pose proof (group_is_as_asked alice pair_group w (demo_ok _)) as H. unfold wp in H.
  assert (is_ok ((CreateGroup alice pair_group : ST world (res Chat)) w).1 = true) as Hok by (vm_compute; reflexivity).
  destruct ((CreateGroup alice pair_group : ST world (res Chat)) w) as [[chat|e] w']; [|discriminate Hok].
  exists chat, w'. split; [reflexivity|]. destruct H as (_ & _ & _ & _ & _ & _ & _ & _ & H & _). apply H.
Defined.

Lemma direct_chat_is_shared_witness :
  let w := demo_run demo_users in
  wp (let* r1 := CreateDirect alice (mkCreateDirectInput bob) in
      let* r2 := CreateDirect bob (mkCreateDirectInput alice) in mret (r1, r2))
    (fun rs _ => match rs with
       | (Ok (c1, _), Ok (c2, created)) => chat_ID c2 = chat_ID c1 /\ created = false
       | _ => True end) w.
Proof. apply direct_chat_is_shared; [apply demo_ok|apply demo_wf]. Defined.

Lemma one_owner_kept_witness :
  let w := demo_run demo_users in
  wp (run_call alice (CallCreateGroup pair_group)) (fun r w' => one_owner (view w') \/
    (exists c e, CallCreateGroup pair_group = CallLeaveChat c /\ r = Err e /\ infra e)) w.
Proof.
  apply one_owner_kept; [apply demo_ok| |demo_check].
  assert (st_chats (view (demo_run demo_users)) = ∅) as Hnone by (vm_compute; reflexivity).
  intros c (chat & Hc & _). rewrite Hnone in Hc. discriminate Hc.
Defined.
