(* ===== verification/MessageClaims.v ===== *)
(** * Theorems on the message service *)
From S2P Require Import Prelude Domain ChatUsecase MessageUsecase Store Schema World Sql SqlWf.
From S2P Require Import SqlRules SqlReads Postgres PostgresSpec Mysql MysqlSpec Storage.
From S2P Require Import ChatContract ChatRefinement ChatPolicy MessageRefinement MessagePolicy.
From S2P Require Import Pagination UserRefinement Jwt System App OnPostgres Reliable Example.
Open Scope Z_scope.

(** ** Receipts *)
Section receipts.
Context `{E : Env, C : Collation}.

(** [MarkRead] stamps the receipt with the clock of the database. *)
Lemma MarkRead_stamps c u w :
  wp (message_MarkRead c u) (fun r w' => r = Ok tt ->
    w_db w' = set_receipts <[(c, u) := pg_stamp (env_db_now (w_tick w))]> (w_db w)) w.
Proof.
  unfold wp, message_MarkRead, db_Exec, run_stmt, try, mbind, ST_bind, q_message_MarkRead, checked.
  destruct (env_fault (w_tick w)); repeat case_match; simplify_eq/=; done.
Qed.

Lemma MarkRead_receipt c caller w :
  db_ok w ->
  wp (MarkRead c caller) (fun r w' => db_ok w' /\ (r = Ok tt -> exists t,
    view w' = with_receipts <[(c, caller) := pg_stamp (env_db_now t)]> (view w))) w.
Proof.
  intros Hw. unfold MarkRead. eapply (wp_member db_ok view); [done..| |done].
  intros w1 Hw1 Hv1 _. apply wp_try. eapply wp_mono.
  { refine (wp_and _ _ _ _ (MarkRead_stamps c caller w1) _).
    apply (spec_MarkRead (MR := NewMessageRepository) c caller w1 Hw1). }
  intros [[]|e] w2 [Hs [Hw2 _]]; [apply wp_ret|done]. split; [done|]. intros _. exists (w_tick w1).
  rewrite <- Hv1. unfold view. by rewrite (Hs eq_refl).
Qed.

Lemma unread_none d c u now :
  st_receipts d !! (c, u) = Some now ->
  (forall id m, st_messages d !! id = Some m -> msg_ChatID m = c -> msg_CreatedAt m <= now) ->
  unread_count d c u = 0%nat.
Proof.
  intros Hr Hold. unfold unread_count. rewrite filter_none; [done|]. apply Forall_forall.
  intros m Hm (Hc & _ & _ & Hlt). apply list_elem_of_fmap in Hm as ([id m'] & -> & Hin).
  apply elem_of_map_to_list in Hin. rewrite Hr in Hlt. cbn in *. specialize (Hold _ _ Hin Hc). lia.
Qed.
End receipts.

(** A reaction is kept once, with the instant of the first. *)
Definition react_once (id u : uuid) (emoji : string) (now : Time) (d : store) : store :=
  match st_reactions d !! (id, u, emoji) with
  | Some _ => d
  | None => with_reactions <[(id, u, emoji) := now]> d
  end.

Lemma add_reaction_exact id u emoji now d d' :
  add_reaction id u emoji now d d' -> d' = react_once id u emoji now d.
Proof.
  assert (reacted d id u emoji <-> is_Some (st_reactions d !! (id, u, emoji))) as Hiff.
  { split.
    - intros (e' & He & Hsame). unfold same_text in Hsame. cbn in Hsame. bool_prop. by subst.
    - intros He. exists emoji. split; [done|]. by apply bool_decide_eq_true_2. }
  unfold add_reaction, react_once. cbn. rewrite Hiff.
  destruct (st_reactions d !! (id, u, emoji)) as [t|]; intros [[H ->]|[[Hn ->]|[[] _]]]; try done.
  exfalso. apply Hn. by eexists.
Qed.

Section postgres.
Context `{E : Env, C : Collation}.

Abbreviation decided := (decides db_ok view).

(** C19 Under any failures, a [Send] that succeeds had a valid input, a sender in the chat
    and a reply target, if any, of that chat, and added one new message with the
    given text, type and target; one that fails was refused for want of one of these
    and changed nothing, or the infrastructure failed.  And on a PostgreSQL that does
    not fail, while the message numbers drawn are new, the outcome is decided: [Send]
    succeeds exactly when, besides, PostgreSQL can store the text (valid UTF-8 without
    a NUL byte); otherwise it changes nothing. *)
Theorem members_send caller i (w : world) (Hw : db_ok w) :
  let granted := SendInput_Validate i = None /\ is_member (view w) (si_ChatID i) caller /\ reply_ok (view w) i in
  let sends d' := exists id now, st_messages (view w) !! id = None /\
    d' = with_messages <[id := sent id caller i now]> (view w) in
  wp (Send caller i) (decided granted sends (view w)) w /\
  (reliable -> (forall t, (w_tick w <= t)%nat -> st_messages (view w) !! env_uuid t = None) ->
   wp (Send caller i) (exactly (granted /\ pg_text (si_Content i) = true) sends (view w)) w).
Proof.
  cbv zeta. split; [by apply (Send_policy db_ok view)|]. intros Hrel Hnew. eapply resolved_exactly.
  - by apply (Send_policy db_ok view).
  - eapply wp_mono; [by apply Send_resolved|]. intros [m|e] w1; cbn; tauto.
  - tauto.
Qed.

(** C20 Under any failures, an [Edit] that succeeds had a valid text and a caller who is the
    author of the message, not deleted, and still a member of its chat, and replaced
    the text and the two modification instants only; a [Delete] that succeeds had
    such a caller, marked the message deleted and kept everything else; one that
    fails was refused for want of this and changed nothing, or the infrastructure
    failed.  And on a PostgreSQL that does not fail the outcome is decided: [Edit]
    succeeds exactly when, besides, PostgreSQL can store the text (valid UTF-8 without
    a NUL byte), [Delete] exactly under its condition; otherwise they change nothing. *)
Theorem authors_change id caller i (w : world) (Hw : db_ok w) :
  let own := exists m, reachable (view w) id caller m /\ msg_SenderID m = caller in
  let edits d' := exists now, d' = with_messages (alter (edit_text (ei_Content i) now) id) (view w) in
  let deletes d' := exists now, d' = with_messages (alter (mark_deleted now) id) (view w) in
  wp (Edit id caller i) (decided (EditInput_Validate i = None /\ own) edits (view w)) w /\
  wp (Delete id caller) (decided own deletes (view w)) w /\
  (reliable ->
   wp (Edit id caller i) (exactly (EditInput_Validate i = None /\ pg_text (ei_Content i) = true /\ own) edits (view w)) w /\
   wp (Delete id caller) (exactly own deletes (view w)) w).
Proof.
  cbv zeta. split; [by apply (Edit_policy db_ok view)|]. split; [by apply (Delete_policy db_ok view)|].
  intros Hrel. split; eapply resolved_exactly.
  - by apply (Edit_policy db_ok view).
  - by apply Edit_resolved.
  - tauto.
  - by apply (Delete_policy db_ok view).
  - by apply Delete_resolved.
  - done.
Qed.

(** [AddReaction] succeeds exactly when the emoji is valid and the message is a
    live one of the caller's chats; it records the caller's reaction once, an
    earlier one of the same emoji keeping its instant. *)
Theorem members_react id caller i (w : world) (Hw : db_ok w) :
  wp (AddReaction id caller i)
    (decided (ReactInput_Validate i = None /\ exists m, reachable (view w) id caller m)
       (fun d' => exists now, d' = react_once id caller (ri_Emoji i) now (view w)) (view w)) w.
Proof.
  eapply wp_mono; [by apply (AddReaction_policy db_ok view)|]. intros r w1 [Hw1 Hr]. split; [done|].
  destruct r as [a|e]; [|done]. destruct Hr as [Hok [now Ha]]. split; [done|]. exists now.
  by apply add_reaction_exact.
Qed.

(** C21 A message that was sent on PostgreSQL had a new number and is read back as it was
    sent, with its instants at the precision of the database, unless the reading
    fails in the infrastructure. *)
Theorem sent_is_stored caller i m (w w1 : world) (Hw : db_ok w)
    (Hsent : (Send caller i : ST world (res Message)) w = (Ok m, w1)) :
  wp (messages_GetByID (msg_ID m)) (fun r _ => match r with
    | Ok m' => m = sent (msg_ID m) caller i (msg_CreatedAt m) /\
        m' = sent (msg_ID m) caller i (pg_stamp (msg_CreatedAt m)) /\
        st_messages (view w) !! msg_ID m = None
    | Err e => infra e end) w1.
Proof.
  destruct (wp_run _ _ _ _ _ (Send_outcome db_ok view caller i w _ Hw eq_refl) Hsent)
    as (Hw1 & _ & Hs & Hf & Hd).
  assert (st_messages (view w1) !! msg_ID m = Some (sent (msg_ID m) caller i (stamp (msg_CreatedAt m)))) as Hrow.
  { rewrite Hd. apply lookup_insert_eq. }
  eapply (wp_reads_raw db_ok view) with (d := view w1); [apply (spec_MessageGetByID (MR := NewMessageRepository))|done|done| |].
  - intros m' w2 _ _ [Hm' _]. split; [exact Hs|]. split; [|exact Hf]. pose proof (eq_trans (eq_sym Hm') Hrow) as [= ->]. done.
  - intros e w2 _ _ [[_ Hn]|Hinf]; [congruence|done].
Qed.

(** After [MarkRead] nothing in the chat is unread for the caller, as long as
    the database's clock is not behind the messages already there. *)
Theorem reading_clears_unread c caller (w w1 : world) (Hw : db_ok w)
    (Hclock : forall t id m, st_messages (view w) !! id = Some m -> msg_ChatID m = c ->
       msg_CreatedAt m <= pg_stamp (env_db_now t))
    (Hread : (MarkRead c caller : ST world (res unit)) w = (Ok tt, w1)) :
  wp (messages_GetUnreadCount c caller)
    (fun r _ => match r with Ok n => n = 0 | Err e => infra e end) w1.
Proof.
  destruct (wp_run _ _ _ _ _ (MarkRead_receipt c caller w Hw) Hread) as [Hw1 Hd].
  destruct (Hd eq_refl) as [t Hv].
  eapply (wp_reads_raw db_ok view) with (d := view w1); [apply (spec_GetUnreadCount (MR := NewMessageRepository))|done|done| |].
  - intros n w2 _ _ ->. rewrite (unread_none _ _ _ (pg_stamp (env_db_now t))); [done| |].
    + rewrite Hv. apply lookup_insert_eq.
    + intros id m Hm. rewrite Hv in Hm. by eapply Hclock.
  - by intros e w2 _ _ [[]|?].
Qed.

(** C7 While nothing fails, the member that follows the cursors of [GetHistory],
    whatever positive page size it asks for, reads the whole history: each live
    message of the chat exactly once, newest first.  And it comes to an end: after at
    most one request more than there are messages a page comes without a cursor,
    since a walk that runs out of requests is an error. *)
Theorem whole_history_is_read (Hrel : reliable) fuel caller c limit (w : world) (Hw : db_ok w)
    (Hwf : message_wf (view w)) (Hmem : is_member (view w) c caller) (Hlimit : 0 < limit)
    (Hfuel : (length (history (view w) c) < fuel)%nat) :
  wp (walk fuel caller c limit None) (fun r _ => exists ms, r = Ok ms /\
    NoDup (msg_ID <$> ms) /\ StronglySorted newer_message (bare <$> ms) /\
    forall m, m ∈ bare <$> ms <->
      st_messages (view w) !! msg_ID m = Some m /\ msg_ChatID m = c /\ IsDeleted m = false) w.
Proof.
  eapply wp_mono.
  { apply (walk_reads db_ok view) with (pre := []) (rest := history (view w) c) (d := view w); try done.
    - intros. by apply GetHistory_answers.
    - by apply db_ok_stamped. }
  intros r w' (_ & _ & ms & -> & Hms). exists ms. split; [done|]. rewrite Hms. split.
  - replace (msg_ID <$> ms) with (msg_ID <$> history (view w) c); [by apply history_ids|].
    rewrite <- Hms, <- list_fmap_compose. by apply list_fmap_ext.
  - split; [apply history_sorted|]. intros m. by apply elem_of_history.
Qed.
End postgres.

(** ** The theorems at work on the demonstration server *)

(** The numbers a server draws later are not those of the messages it has. *)
Definition ids_before (bound : uuid) (d : store) : bool := forallb (fun m => (m.1 <? bound)%N) (map_to_list (st_messages d)).

Lemma ids_before_spec bound d id : ids_before bound d = true -> (bound <= id)%N -> st_messages d !! id = None.
Proof.
  intros Hall Hid. destruct (st_messages d !! id) as [m|] eqn:Hm; [|done].
  unfold ids_before in Hall. rewrite forallb_forall in Hall. specialize (Hall (id, m)). cbn in Hall.
  rewrite N.ltb_lt in Hall. assert (id < bound)%N by (apply Hall, list_elem_of_In; by apply elem_of_map_to_list). lia.
Qed.

(** Bob sends a message and is answered with it; one with a NUL byte passes the
    validation and is refused by PostgreSQL. *)
Definition with_nul : SendInput := mkSendInput team (String "000" "hi") "text" None.

Lemma members_send_witness :
  let w := demo_run demo_talk in
  wp (Send bob hello) (exactly ((SendInput_Validate hello = None /\ is_member (view w) team bob /\ reply_ok (view w) hello) /\
      pg_text (si_Content hello) = true)
    (fun d' => exists id now, st_messages (view w) !! id = None /\
       d' = with_messages <[id := sent id bob hello now]> (view w)) (view w)) w /\
  is_ok (Send bob hello w).1 = true /\
  SendInput_Validate with_nul = None /\ is_ok (Send bob with_nul w).1 = false.
Proof.
  cbv zeta. split; [|split; [|split]; vm_compute; reflexivity].
  apply (proj2 (members_send bob hello (demo_run demo_talk) (demo_ok demo_talk))); [exact demo_reliable|].
  intros t Ht. apply (ids_before_spec (1000 + N.of_nat (w_tick (demo_run demo_talk)))%N); [vm_compute; reflexivity|].
  cbn [env_uuid demo_env]. lia.
Defined.

(** A member of the chat, a valid input, a storage that does not fail: an internal error. *)
Theorem nul_is_an_internal_error :
  let w := demo_run demo_talk in
  SendInput_Validate with_nul = None /\ is_member (view w) team bob /\
  exists text, (Send bob with_nul w : res Message * world).1 = Err (PgError "22021" "" text).
Proof. split; [vm_compute; reflexivity|]. split; [demo_check|]. eexists. vm_compute. reflexivity. Qed.

Lemma authors_change_witness :
  let w := demo_run demo_talk in
  is_ok (Edit first_message alice (mkEditInput "uno") w).1 = true /\
  is_ok (Delete first_message alice w).1 = true /\
  wp (Edit first_message alice (mkEditInput "uno"))
    (exactly (EditInput_Validate (mkEditInput "uno") = None /\ pg_text "uno" = true /\
        exists m, reachable (view w) first_message alice m /\ msg_SenderID m = alice)
       (fun d' => exists now, d' = with_messages (alter (edit_text "uno" now) first_message) (view w))
       (view w)) w.
Proof.
  split; [vm_compute; reflexivity|]. split; [vm_compute; reflexivity|].
  destruct (authors_change first_message alice (mkEditInput "uno") (demo_run demo_talk) (demo_ok demo_talk)) as (_ & _ & Hrel).
  exact (proj1 (Hrel demo_reliable)).
Defined.

Lemma members_react_witness :
  let w := demo_run demo_talk in
  is_ok (AddReaction first_message bob (mkReactInput "+1") w).1 = true /\
  wp (AddReaction first_message bob (mkReactInput "+1"))
    (decides db_ok view (ReactInput_Validate (mkReactInput "+1") = None /\
        exists m, reachable (view w) first_message bob m)
       (fun d' => exists now, d' = react_once first_message bob "+1" now (view w)) (view w)) w.
Proof.
  split; [vm_compute; reflexivity|].
  apply (members_react first_message bob (mkReactInput "+1")). apply demo_ok.
Defined.

Lemma sent_is_stored_witness :
  let w := demo_run demo_setup in
  exists m w1, (Send bob hello : ST world (res Message)) w = (Ok m, w1) /\
    wp (messages_GetByID (msg_ID m)) (fun r _ => match r with
      | Ok m' => m = sent (msg_ID m) bob hello (msg_CreatedAt m) /\
          m' = sent (msg_ID m) bob hello (pg_stamp (msg_CreatedAt m)) /\
          st_messages (view w) !! msg_ID m = None
      | Err e => infra e end) w1.
Proof.
  cbv zeta. set (w := demo_run demo_setup).
  destruct ((Send bob hello : ST world (res Message)) w) as [[m|e] w1] eqn:Hrun.
  - exists m, w1. split; [reflexivity|]. exact (sent_is_stored bob hello m w w1 (demo_ok _) Hrun).
  - assert (is_ok ((Send bob hello : ST world (res Message)) w).1 = true) as Hok by (vm_compute; reflexivity).
    rewrite Hrun in Hok. discriminate Hok.
Defined.

Lemma whole_history_is_read_witness :
  let w := demo_run demo_talk in
  wp (walk 10 bob team 2 None) (fun r _ => exists ms, r = Ok ms /\
    NoDup (msg_ID <$> ms) /\ StronglySorted newer_message (bare <$> ms) /\
    forall m, m ∈ bare <$> ms <->
      st_messages (view w) !! msg_ID m = Some m /\ msg_ChatID m = team /\ IsDeleted m = false) w.
Proof.
  apply whole_history_is_read; [exact demo_reliable|apply demo_ok|apply demo_wf|demo_check|reflexivity|].
  apply Nat.ltb_lt. vm_compute. reflexivity.
Defined.

(** The demonstration's clocks are never behind its instants. *)
Definition oldest (c : uuid) (t : Time) (d : store) : bool :=
  forallb (fun m => implb (bool_decide (msg_ChatID m = c)) (msg_CreatedAt m <=? t)) (map_to_list (st_messages d)).*2.

Lemma oldest_spec c t d id m :
  oldest c t d = true -> st_messages d !! id = Some m -> msg_ChatID m = c -> msg_CreatedAt m <= t.
Proof.
  intros Ho Hm Hc. apply forallb_forall with (x := m) in Ho.
  - rewrite bool_decide_eq_true_2 in Ho by done. by apply Z.leb_le.
  - apply list_elem_of_In, list_elem_of_fmap. exists (id, m). split; [done|]. by apply elem_of_map_to_list.
Qed.

(** The same server later: its database clock has passed the messages. *)
#[local] Instance later_env : Env := {|
  env_now := env_now (Env := demo_env);
  env_db_now t := (1800000000 + Z.of_nat t) * 1000000000;
  env_uuid := env_uuid (Env := demo_env);
  env_choice _ := 0%nat;
  env_fault _ := NoFault |}.

Lemma reading_clears_unread_witness :
  let w := demo_run demo_talk in
  exists w1, (MarkRead team bob : ST world (res unit)) w = (Ok tt, w1) /\
    wp (messages_GetUnreadCount team bob)
      (fun r _ => match r with Ok n => n = 0 | Err e => infra e end) w1.
Proof.
  cbv zeta. set (w := demo_run demo_talk).
  exists ((MarkRead team bob : ST world (res unit)) w).2.
  assert ((MarkRead team bob : ST world (res unit)) w =
    (Ok tt, ((MarkRead team bob : ST world (res unit)) w).2)) as Hrun by (vm_compute; reflexivity).
  split; [exact Hrun|]. apply (reading_clears_unread team bob w _ (demo_ok _)); [|exact Hrun].
  intros t id m Hm Hc. assert (msg_CreatedAt m <= 1800000000000000000) as Hle.
  { apply (oldest_spec team _ (view w) id); [vm_compute; reflexivity|exact Hm|exact Hc]. }
  cbn. unfold pg_stamp. pose proof (Z.div_mod ((1800000000 + Z.of_nat t) * 1000000000) 1000).
  pose proof (Z.mod_pos_bound ((1800000000 + Z.of_nat t) * 1000000000) 1000).
  assert ((1800000000 + Z.of_nat t) * 1000000000 mod 1000 = 0).
  { replace ((1800000000 + Z.of_nat t) * 1000000000) with (((1800000000 + Z.of_nat t) * 1000000) * 1000) by lia.
    apply Z_mod_mult. }
  lia.
Defined.
