(* ===== verification/UserClaims.v ===== *)
(** * Theorems on the user service, the token manager and the hasher *)
From S2P Require Import Prelude Utf8 Domain Config Validate UserUsecase Store Schema World Sql SqlWf.
From S2P Require Import SqlRules SqlReads Postgres PostgresSpec Mysql MysqlSpec Storage ChatPolicy.
From S2P Require Import UserRefinement UserPolicy Jwt System App OnPostgres Example.
Open Scope Z_scope.

Section postgres.
Context `{E : Env, C : Collation, J : GoJWT, UT : UUIDText, B : Bcrypt} (cfg : jwt_Config) (cost : Z).

#[local] Instance tokens : tokenManager (ST world) := JWTManager cfg.
#[local] Instance hasher : passwordHasher (ST world) := Hasher cost.

Lemma issueTokens_answers {L : GoJWTLaws J} id (w : world) :
  wp (issueTokens id) (fun r _ => is_ok r = true) w.
Proof.
  destruct (issueTokens_run cfg id w) as (tk & H & _). eapply wp_mono; [exact H|]. by intros r w' ->.
Qed.

(** C27 Who has registered can log in, unless the login form itself refuses the address
    or the password (a blank password): with the same address and password, [Login]
    answers the registered account, or the infrastructure fails. *)
Theorem registered_can_log_in {LJ : GoJWTLaws J} {LB : BcryptLaws B} i u tk (w w1 : world) (Hw : db_ok w)
    (Hwf : accounts_wf (view w)) (Hreg : (Register i : ST world _) w = (Ok (u, tk), w1))
    (Hform : LoginInput_Validate (mkLoginInput (reg_Email i) (reg_Password i)) = None) :
  wp (Login (mkLoginInput (reg_Email i) (reg_Password i))) (fun r _ => match r with
    | Ok (u', _) => user_ID u' = user_ID u /\ user_Username u' = reg_Username i /\
        user_Email u' = reg_Email i
    | Err e => infra e end) w1.
Proof.
  destruct (wp_run _ _ _ _ _ (Register_outcome db_ok view i w _ Hw eq_refl) Hreg) as (Hw1 & Hstep & Hout).
  destruct Hout as (id & hash & now & Hu & [w0 Hhash] & Hf & He & Hn & Hd). cbn in Hu.
  set (u1 := registered id i hash (stamp now)).
  assert (accounts_wf (view w1)) as Hwf1.
  { rewrite Hd. by apply (accounts_write law_same_sym). }
  eapply wp_mono.
  { apply (Login_accepts db_ok view same_join _ u1 w1 (view w1)); [done|done|done|done| |done| | |].
    - rewrite Hd. apply lookup_insert_eq.
    - by apply bool_decide_eq_true_2.
    - cbn. cbn in Hhash. by eapply bcrypt_verifies.
    - intros w'. apply issueTokens_answers. }
  intros [[u' tk']|e] w2 H; [|done]. subst u'. by rewrite Hu.
Qed.

(** C28 A blank password, eight or more spaces, passes the validation of
    registration; but no account can log in with it: the login form refuses a
    blank password before the account is looked up. *)
Theorem blank_password_locks_out p email name (w : world)
    (Hblank : forallb IsSpace (runes p) = true) (Hlen : 8 <= RuneCountInString p <= 72)
    (Hname : RegisterInput_Validate (mkRegisterInput name email "correct horse") = None) :
  RegisterInput_Validate (mkRegisterInput name email p) = None /\
  wp (Login (mkLoginInput email p)) (fun r w' => w' = w /\
    exists e, r = Err e /\ errors_Is e ErrValidation = true) w.
Proof.
  split.
  - rewrite RegisterInput_checks in Hname |- *. rewrite first_failure_None, !Forall_cons in *.
    cbn [fst] in *. destruct Hname as (? & ? & ? & ? & _ & _ & _). repeat split; try done.
    + apply Z.leb_le. cbn. lia.
    + apply Z.leb_le. cbn. lia.
  - unfold Login. apply wp_check.
    + intros Hval. exfalso. rewrite LoginInput_checks, first_failure_None, !Forall_cons in Hval.
      cbn [fst] in Hval. destruct Hval as (_ & Hp & _). 
      apply NonEmpty_spec in Hp as (r & Hr & Hs). rewrite forallb_forall in Hblank.
      rewrite (Hblank r) in Hs; [done|by apply list_elem_of_In].
    + intros e He. split; [done|]. exists e. split; [done|].
      rewrite LoginInput_checks in He. by eapply first_failure_validation.
Qed.

(** A password of at most 72 characters that takes more than 72 bytes passes the
    validation, and then [Register] refuses with an internal error, not with a
    validation error; no account is made. *)
Theorem multibyte_password_fails {LB : BcryptLaws B} i (w : world) (Hw : db_ok w)
    (Hval : RegisterInput_Validate i = None) (Hlong : 72 < Z.of_nat (String.length (reg_Password i))) :
  wp (Register i) (fun r w' => view w' = view w /\ exists e, r = Err e /\
    (infra e \/ e = Sentinel ErrEmailTaken \/ e = Sentinel ErrUsernameTaken \/ e = Sentinel ErrInternal)) w.
Proof.
  destruct (bcrypt_too_long (reg_Password i) cost Hlong) as [e0 He0].
  unfold Register. apply wp_check; [intros _|congruence].
  eapply (wp_assert_free db_ok view) with (d := view w);
    [apply (spec_UserGetByEmail (UR := NewUserRepository))|done|done|by intros e []| |].
  2:{ intros e w1 _ Hv1 [?|?]; (split; [done|]); exists e; auto. }
  intros w1 Hw1 Hv1. eapply (wp_assert_free db_ok view) with (d := view w);
    [apply (spec_UserGetByUsername (UR := NewUserRepository))|done|done|by intros e []| |].
  2:{ intros e w2 _ Hv2 [?|?]; (split; [done|]); exists e; auto. }
  intros w2 Hw2 Hv2. apply wp_bind. cbn. unfold hasher_Hash. rewrite He0. apply wp_ret, wp_ret.
  split; [done|]. eexists. split; [done|]. auto.
Qed.

(** [UpdateProfile] succeeds exactly when the input is valid and the account
    exists and the name it asks for is nobody else's; it then replaces the given
    fields and keeps the password, the address and the presence. *)
Theorem profile_update id i (w : world) (Hw : db_ok w) (Hwf : accounts_wf (view w)) :
  wp (UpdateProfile id i)
    (decides db_ok view (UpdateProfileInput_Validate i = None /\
        exists old, st_users (view w) !! id = Some old /\ username_free (view w) id (wanted_name old i))
       (fun d' => exists old now, st_users (view w) !! id = Some old /\
          d' = with_users <[id := profile_row (wanted_name old i) i now old]> (view w)) (view w)) w.
Proof. by apply (UpdateProfile_policy db_ok view same_join). Qed.

(** C29 The tokens issued to an account name that account until the second they
    expire; from then on they are refused as expired. *)
Theorem issued_tokens_work {L : GoJWTLaws J} id tk (w w1 w2 : world)
    (Hissue : (issueTokens id : ST world _) w = (Ok tk, w1)) :
  wp (ValidateAccessToken cfg (AccessToken tk)) (fun r _ =>
    r = if env_now (w_tick w2) <? NewNumericDate (env_now (w_tick w) + jwt_AccessTokenTTL cfg)
        then Ok id else Fail ErrExpiredToken) w2 /\
  wp (ValidateRefreshToken (RefreshToken_ tk)) (fun r _ =>
    r = if env_now (w_tick w2) <? NewNumericDate (env_now (w_tick w + 3) + jwt_RefreshTokenTTL cfg)
        then Ok id else Fail ErrExpiredToken) w2.
Proof.
  destruct (issueTokens_run cfg id w) as (tk' & Hrun & Ha & w' & Htick & Hr).
  assert (tk' = tk) as -> by (pose proof (wp_run _ _ _ _ _ Hrun Hissue) as Heq; by injection Heq).
  rewrite <- Htick. split; eapply parse_signed; [exact Ha|exact Hr].
Qed.

End postgres.

(** ** The theorems at work on the demonstration server *)
#[local] Instance demo_tokens : tokenManager (ST world) := JWTManager demo_jwt_config.
#[local] Instance demo_hasher : passwordHasher (ST world) := Hasher 10.

Lemma registered_can_log_in_witness :
  let w := demo_run demo_users in
  exists u tk w1, (Register dave_form : ST world (res (User * TokenPair))) w = (Ok (u, tk), w1) /\
    wp (Login (mkLoginInput "dave@example.com" "correct horse")) (fun r _ => match r with
      | Ok (u', _) => user_ID u' = user_ID u /\ user_Username u' = "dave" /\ user_Email u' = "dave@example.com"
      | Err e => infra e end) w1.
Proof.
  cbv zeta. set (w := demo_run demo_users).
  destruct ((Register dave_form : ST world (res (User * TokenPair))) w) as [[[u tk]|e] w1] eqn:Hrun.
  - exists u, tk, w1. split; [reflexivity|].
    apply (registered_can_log_in demo_jwt_config 10 dave_form u tk w w1 (demo_ok _));
      [apply demo_wf|exact Hrun|vm_compute; reflexivity].
  - assert (is_ok ((Register dave_form : ST world (res (User * TokenPair))) w).1 = true) as Hok
      by (vm_compute; reflexivity).
    rewrite Hrun in Hok. discriminate Hok.
Defined.

Lemma blank_password_locks_out_witness :
  RegisterInput_Validate (mkRegisterInput "erin" "erin@example.com" "        ") = None /\
  wp (Login (mkLoginInput "erin@example.com" "        ")) (fun r w' => w' = demo_run demo_users /\
    exists e, r = Err e /\ errors_Is e ErrValidation = true) (demo_run demo_users).
Proof.
  apply (blank_password_locks_out demo_jwt_config 10 _ _ "erin"); vm_compute; repeat split; discriminate.
Defined.

(** Forty characters of two bytes each. *)
Definition long_password : string :=
  Nat.iter 40 (fun s => String "195"%char (String "169"%char s)) EmptyString.

Lemma multibyte_password_fails_witness :
  let i := mkRegisterInput "erin" "erin@example.com" long_password in
  (Register i (demo_run demo_users)).1 = Fail ErrInternal /\
  wp (Register i) (fun r w' => view w' = view (demo_run demo_users) /\ exists e, r = Err e /\
    (infra e \/ e = Sentinel ErrEmailTaken \/ e = Sentinel ErrUsernameTaken \/ e = Sentinel ErrInternal))
    (demo_run demo_users).
Proof.
  split; [vm_compute; reflexivity|].
  apply (multibyte_password_fails demo_jwt_config 10); [apply demo_ok|vm_compute; reflexivity..].
Defined.

Definition rename : UpdateProfileInput := mkUpdateProfileInput (Some "alicia") (Some "hi") None.

Lemma profile_update_witness :
  let w := demo_run demo_users in
  is_ok (UpdateProfile alice rename w).1 = true /\
  wp (UpdateProfile alice rename)
    (decides db_ok view (UpdateProfileInput_Validate rename = None /\
        exists old, st_users (view w) !! alice = Some old /\ username_free (view w) alice (wanted_name old rename))
       (fun d' => exists old now, st_users (view w) !! alice = Some old /\
          d' = with_users <[alice := profile_row (wanted_name old rename) rename now old]> (view w)) (view w)) w.
Proof.
  split; [vm_compute; reflexivity|]. apply (profile_update demo_jwt_config 10); [apply demo_ok|apply demo_wf].
Defined.

(** A login, the instants right after it, and much later. *)
Definition at_tick (t : nat) : world := mkWorld empty_db ∅ t.

Lemma demo_issue :
  exists tk w1, (issueTokens alice : ST world (res TokenPair)) (at_tick 0) = (Ok tk, w1).
Proof.
  destruct ((issueTokens alice : ST world (res TokenPair)) (at_tick 0)) as [[tk|e] w1] eqn:Hrun.
  - exists tk, w1. reflexivity.
  - assert (is_ok ((issueTokens alice : ST world (res TokenPair)) (at_tick 0)).1 = true) as Hok
      by (vm_compute; reflexivity).
    rewrite Hrun in Hok. discriminate Hok.
Defined.

(** Tokens that live a few seconds. *)
Definition brief_config : jwt_Config :=
  mkJwtConfig (jwt_AccessSecret demo_jwt_config) (jwt_RefreshSecret demo_jwt_config) (2 * second) (4 * second).
Definition brief_tokens : tokenManager (ST world) := JWTManager brief_config.

Lemma brief_issue :
  exists tk w1, (issueTokens (H4 := brief_tokens) alice : ST world (res TokenPair)) (at_tick 0) = (Ok tk, w1).
Proof.
  destruct ((issueTokens (H4 := brief_tokens) alice : ST world (res TokenPair)) (at_tick 0))
    as [[tk|e] w1] eqn:Hrun.
  - exists tk, w1. reflexivity.
  - assert (is_ok ((issueTokens (H4 := brief_tokens) alice : ST world (res TokenPair)) (at_tick 0)).1 = true)
      as Hok by (vm_compute; reflexivity).
    rewrite Hrun in Hok. discriminate Hok.
Defined.

Lemma issued_tokens_work_witness :
  (exists tk, wp (ValidateAccessToken demo_jwt_config (AccessToken tk)) (fun r _ => r = Ok alice) (at_tick 600)) /\
  (exists tk, wp (jwt_ValidateRefreshToken brief_config (RefreshToken_ tk)) (fun r _ => r = Fail ErrExpiredToken)
       (at_tick 20)).
Proof.
  split.
  - destruct demo_issue as (tk & w1 & Hrun). exists tk.
    exact (proj1 (issued_tokens_work demo_jwt_config alice tk (at_tick 0) w1 (at_tick 600) Hrun)).
  - destruct brief_issue as (tk & w1 & Hrun). exists tk.
    exact (proj2 (issued_tokens_work brief_config alice tk (at_tick 0) w1 (at_tick 20) Hrun)).
Defined.
