(* ===== verification/SystemClaims.v ===== *)
(** * Theorems on the whole application *)
From S2P Require Import Prelude Utf8 Domain Config ChatUsecase MessageUsecase UserUsecase Store Schema.
From S2P Require Import World Sql SqlWf SqlRules SqlReads Postgres PostgresSpec Mysql MysqlSpec.
From S2P Require Import Storage ChatContract ChatRefinement MessageRefinement UserRefinement Jwt.
From S2P Require Import System App OnPostgres Example.
Open Scope Z_scope.

(** ** What stays, whatever is called *)

Lemma api_step_message `{TextEq, Latitude} d d' id m :
  api_step d d' -> st_messages d !! id = Some m ->
  exists m', st_messages d' !! id = Some m' /\ same_identity m m' /\ (IsDeleted m = true -> m' = m).
Proof.
  intros [caller d2 Hs|caller d2 Hs|d2 Hs] Hm.
  - exists m. by rewrite (proj1 (proj2 (chat_step_frame _ _ _ _ Hs))).
  - destruct (message_step_kept _ _ _ Hs id m Hm) as (m' & ? & ? & ? & _). by exists m'.
  - exists m. by rewrite (proj1 (proj2 (proj2 (user_step_frame _ _ Hs)))).
Qed.

Lemma same_identity_trans m1 m2 m3 : same_identity m1 m2 -> same_identity m2 m3 -> same_identity m1 m3.
Proof. unfold same_identity. intuition congruence. Qed.

Lemma api_steps_message `{TextEq, Latitude} d d' id m :
  rtc api_step d d' -> st_messages d !! id = Some m ->
  exists m', st_messages d' !! id = Some m' /\ same_identity m m' /\ (IsDeleted m = true -> m' = m).
Proof.
  intros Hr. revert m. induction Hr as [|d1 d2 d3 Hs Hr IH]; intros m Hm; [exists m; by auto with vibe|].
  destruct (api_step_message _ _ _ _ Hs Hm) as (m2 & Hm2 & Hsame & Hdel).
  destruct (IH m2 Hm2) as (m3 & Hm3 & Hsame3 & Hdel3). exists m3. split; [done|].
  split; [by eapply same_identity_trans|]. intros Hd. specialize (Hdel Hd). subst m2. auto.
Qed.

Lemma api_step_account `{TextEq, Latitude} d d' id u :
  api_step d d' -> st_users d !! id = Some u ->
  exists u', st_users d' !! id = Some u' /\ user_PasswordHash u' = user_PasswordHash u /\
    user_Email u' = user_Email u.
Proof.
  intros [caller d2 Hs|caller d2 Hs|d2 Hs] Hu.
  - exists u. by rewrite (proj1 (chat_step_frame _ _ _ _ Hs)).
  - exists u. by rewrite (proj1 (message_step_frame _ _ _ Hs)).
  - by apply (user_step_kept d d2).
Qed.

Lemma api_steps_account `{TextEq, Latitude} d d' id u :
  rtc api_step d d' -> st_users d !! id = Some u ->
  exists u', st_users d' !! id = Some u' /\ user_PasswordHash u' = user_PasswordHash u /\
    user_Email u' = user_Email u.
Proof.
  intros Hr. revert u. induction Hr as [|d1 d2 d3 Hs Hr IH]; intros u Hu; [by exists u|].
  destruct (api_step_account _ _ _ _ Hs Hu) as (u2 & Hu2 & Hp & He).
  destruct (IH u2 Hu2) as (u3 & Hu3 & Hp3 & He3). exists u3. split; [done|]. split; congruence.
Qed.

(** ** What each call may do *)
Section calls.
Context `{E : Env, C : Collation, U : UnicodeCI} {UL : UnicodeCILaws U} (t : Driver).
#[local] Instance calls_dialect : Dialect := dialect t.
#[local] Instance calls_users : UserRepository (ST world) := Users (storage_of t).
#[local] Instance calls_chats : ChatRepository (ST world) := Chats (storage_of t).
#[local] Instance calls_messages : MessageRepository (ST world) := Messages (storage_of t).

(** C9 A call of the chat service ends along steps the membership protocol
    authorises for its caller, whatever fails underneath; and a call refused with
    a domain error has changed nothing. *)
Theorem chat_calls_authorised caller call (w : world) (Hw : db_ok w) :
  wp (run_call caller call) (authorised db_ok view true caller (view w)) w.
Proof. by apply (run_call_refines db_ok view). Qed.

(** C10 A call of the message service is at most one change authorised for its
    caller, whatever fails underneath; and a call that answers an error has,
    unless the infrastructure failed, changed nothing. *)
Theorem message_calls_authorised caller call (w : world) (Hw : db_ok w) :
  wp (run_message_call caller call) (outcome db_ok view caller done_ (view w)) w.
Proof. by apply (run_message_call_outcome db_ok view). Qed.

Context `{J : GoJWT, UT : UUIDText, B : Bcrypt} (cfg : jwt_Config) (cost : Z).
#[local] Instance calls_tokens : tokenManager (ST world) := JWTManager cfg.
#[local] Instance calls_hasher : passwordHasher (ST world) := Hasher cost.

(** C11 A call of the user service is at most one change: a registration of a free
    address and name, a profile update to a free name, or a presence mark, whatever
    fails underneath; and a call that answers an error changed nothing, unless the
    server is at fault. *)
Theorem user_calls_authorised call (w : world) (Hw : db_ok w) :
  wp (run_user_call call) (user_outcome db_ok view (fun _ _ => True) (view w)) w.
Proof. by apply (run_user_call_outcome db_ok view). Qed.

End calls.

Section storage.
Context `{E : Env, C : Collation, U : UnicodeCI, J : GoJWT, UT : UUIDText, B : Bcrypt} {UL : UnicodeCILaws U}.
Context (t : Driver) (cfg : jwt_Config) (cost : Z).
#[local] Instance the_dialect : Dialect := dialect t.

(** However many requests of whatever users the application has served, starting
    from an empty database, and whatever statements failed or were executed without
    an answer: it got there by authorised changes only; every live group has an
    owner, every role is one of the three; a live direct chat has exactly two
    members, plain ones, and no two users share two; a reply quotes a message of
    its own chat and a message has between 1 and 4096 characters; addresses and
    names of accounts are unique, as the server compares texts; and the tables
    satisfy their constraints. *)
Theorem application_is_safe cs :
  let w := run_server t cfg cost cs initial_world in
  let d := view w in
  db_ok w /\ rtc api_step empty_store d /\
  (forall c, live_group d c -> exists u, role_of d c u = Some MemberRoleOwner) /\
  (forall c u r, role_of d c u = Some r -> r ∈ [MemberRoleOwner; MemberRoleAdmin; MemberRoleMember]) /\
  (forall c chat, st_chats d !! c = Some chat -> chat_Type chat = ChatTypeDirect ->
     exists a b, a <> b /\ forall u,
       role_of d c u = if decide (u = a \/ u = b) then Some MemberRoleMember else None) /\
  (forall a b c1 c2, a <> b -> shares_direct d a b c1 -> shares_direct d a b c2 -> c1 = c2) /\
  (forall id m r, st_messages d !! id = Some m -> msg_ReplyToID m = Some r ->
     exists m', st_messages d !! r = Some m' /\ msg_ChatID m' = msg_ChatID m) /\
  (forall id m, st_messages d !! id = Some m -> 1 <= RuneCountInString (msg_Content m) <= 4096) /\
  (forall k1 k2 u1 u2, st_users d !! k1 = Some u1 -> st_users d !! k2 = Some u2 ->
     same_text (user_Email u1) (user_Email u2) = true \/
     same_text (user_Username u1) (user_Username u2) = true -> k1 = k2).
Proof.
  destruct (run_server_safe t cfg cost cs initial_world initial_world_ok empty_system_wf)
    as (Hok & Hr & [Hc Hu] & [_ Hlen Hrep _] & Ha).
  split; [done|]. split; [done|]. repeat split.
  - intros c. apply (ok_owner _ _ (Hc c)).
  - intros c u r. apply (ok_roles _ _ (Hc c)).
  - intros c chat. apply (ok_direct _ _ (Hc c)).
  - exact Hu.
  - exact Hrep.
  - by eapply Hlen.
  - by eapply Hlen.
  - by apply accounts_unique.
Qed.

(** No request makes a message disappear, moves it, or changes its author, type,
    reply target or creation instant; and a deleted message never changes again. *)
Theorem messages_persist cs (w : world) id m (Hw : db_ok w) (Hwf : system_wf (view w))
    (Hm : st_messages (view w) !! id = Some m) :
  exists m', st_messages (view (run_server t cfg cost cs w)) !! id = Some m' /\
    same_identity m m' /\ (IsDeleted m = true -> m' = m).
Proof.
  destruct (run_server_safe t cfg cost cs w Hw Hwf) as (_ & Hr & _). exact (api_steps_message _ _ _ _ Hr Hm).
Qed.

(** No request makes an account disappear or changes its password hash or its
    address. *)
Theorem accounts_persist cs (w : world) id u (Hw : db_ok w) (Hwf : system_wf (view w))
    (Hu : st_users (view w) !! id = Some u) :
  exists u', st_users (view (run_server t cfg cost cs w)) !! id = Some u' /\
    user_PasswordHash u' = user_PasswordHash u /\ user_Email u' = user_Email u.
Proof.
  destruct (run_server_safe t cfg cost cs w Hw Hwf) as (_ & Hr & _). exact (api_steps_account _ _ _ _ Hr Hu).
Qed.

(** C12 The repositories of either storage honour the contracts the services rely
    on: each method, under every failure pattern, keeps the tables within their
    constraints and has the promised effect, or none, or fails in the
    infrastructure; creating a chat with its members is all or nothing. *)
Theorem storages_honour :
  ChatRepositorySpec db_ok view (Chats (storage_of t)) /\
  UserRepositorySpec db_ok view (Users (storage_of t)) /\
  MessageRepositorySpec db_ok view (Messages (storage_of t)).
Proof. split; [apply storage_chats|]. split; [apply storage_users|apply storage_messages]. Qed.
End storage.

(** ** Leaving is not atomic *)

(** The demonstration's environment, one statement lost at tick [n]. *)
Definition failing_at (n : nat) : Env := {|
  env_now := env_now (Env := demo_env);
  env_db_now := env_db_now (Env := demo_env);
  env_uuid := env_uuid (Env := demo_env);
  env_choice _ := 0%nat;
  env_fault t := if (t =? n)%nat then Lost "connection reset" else NoFault |}.

Definition leave_team : api_call := ChatCall alice (CallLeaveChat team).

(** [LeaveChat] promotes the heir and removes the leaver in two statements without
    a transaction: when the second is lost, the group is left with two owners. *)
Theorem leaving_is_not_atomic :
  exists n, let d := view (run_server (E := failing_at n) TypePostgres demo_jwt_config 10
                             (demo_setup ++ [leave_team]) initial_world) in
    live_group d team /\ role_of d team alice = Some MemberRoleOwner /\
    role_of d team bob = Some MemberRoleOwner.
Proof.
  exists 47%nat. cbv zeta. split; [|split; vm_compute; reflexivity].
  unfold live_group. eexists. split; vm_compute; reflexivity.
Qed.

(** ** The theorems at work on the demonstration server, on MySQL *)
Section demo.
#[local] Instance demo_dialect : Dialect := dialect TypeMySQL.
#[local] Instance demo_mysql_users : UserRepository (ST world) := Users (storage_of TypeMySQL).
#[local] Instance demo_mysql_chats : ChatRepository (ST world) := Chats (storage_of TypeMySQL).
#[local] Instance demo_mysql_messages : MessageRepository (ST world) := Messages (storage_of TypeMySQL).
#[local] Instance demo_tokens : tokenManager (ST world) := JWTManager demo_jwt_config.
#[local] Instance demo_hasher : passwordHasher (ST world) := Hasher 10.

Lemma chat_calls_authorised_witness :
  let w := demo_on TypeMySQL demo_setup in
  wp (run_call alice (CallAddMember team (mkAddMemberInput bob)))
     (authorised db_ok view true alice (view w)) w.
Proof. apply (chat_calls_authorised TypeMySQL). apply demo_on_ok. Defined.

Lemma message_calls_authorised_witness :
  let w := demo_on TypeMySQL demo_setup in
  is_ok (run_message_call bob (CallSend hello) w).1 = true /\
  wp (run_message_call bob (CallSend hello)) (outcome db_ok view bob done_ (view w)) w.
Proof. split; [vm_compute; reflexivity|]. apply (message_calls_authorised TypeMySQL). apply demo_on_ok. Defined.

Lemma user_calls_authorised_witness :
  let w := demo_on TypeMySQL demo_users in
  is_ok (run_user_call (CallRegister dave_form) w).1 = true /\
  wp (run_user_call (CallRegister dave_form)) (user_outcome db_ok view (fun _ _ => True) (view w)) w.
Proof.
  split; [vm_compute; reflexivity|]. apply (user_calls_authorised TypeMySQL demo_jwt_config 10). apply demo_on_ok.
Defined.

Lemma storages_honour_witness :
  ChatRepositorySpec db_ok view (Chats (storage_of TypeMySQL)) /\
  UserRepositorySpec db_ok view (Users (storage_of TypeMySQL)) /\
  MessageRepositorySpec db_ok view (Messages (storage_of TypeMySQL)).
Proof. exact (storages_honour TypeMySQL). Defined.

Lemma messages_persist_witness :
  let w := demo_on TypeMySQL demo_talk in
  exists m m', st_messages (view w) !! first_message = Some m /\
    st_messages (view (run_server TypeMySQL demo_jwt_config 10
      [MessageCall alice (CallEdit first_message (mkEditInput "uno"))] w)) !! first_message = Some m' /\
    same_identity m m' /\ (IsDeleted m = true -> m' = m).
Proof.
  cbv zeta. set (w := demo_on _ _).
  destruct (st_messages (view w) !! first_message) as [m|] eqn:Hm; [|vm_compute in Hm; discriminate Hm].
  destruct (messages_persist TypeMySQL demo_jwt_config 10
    [MessageCall alice (CallEdit first_message (mkEditInput "uno"))]
    w first_message m (demo_on_ok _ _) (demo_on_wf _ _) Hm) as (m' & Hm' & Hsame). exists m, m'. split; [reflexivity|].
  split; [exact Hm'|exact Hsame].
Defined.

Lemma accounts_persist_witness :
  let w := demo_on TypeMySQL demo_users in
  exists u u', st_users (view w) !! alice = Some u /\
    st_users (view (run_server TypeMySQL demo_jwt_config 10 [UserCall (CallSetOnline alice)] w)) !! alice = Some u' /\
    user_PasswordHash u' = user_PasswordHash u /\ user_Email u' = user_Email u.
Proof.
  cbv zeta. set (w := demo_on _ _).
  destruct (st_users (view w) !! alice) as [u|] eqn:Hu; [|vm_compute in Hu; discriminate Hu].
  destruct (accounts_persist TypeMySQL demo_jwt_config 10 [UserCall (CallSetOnline alice)]
    w alice u (demo_on_ok _ _) (demo_on_wf _ _) Hu) as (u' & Hu' & Hsame). exists u, u'. split; [reflexivity|].
  split; [exact Hu'|exact Hsame].
Defined.
End demo.
