(* ===== verification/ConcurrencyClaims.v ===== *)
(** * Theorems on requests side by side *)
From S2P Require Import Prelude Utf8 Domain Config ChatUsecase MessageUsecase UserUsecase Store Schema.
From S2P Require Import World Sql SqlWf SqlRules Postgres PostgresSpec Mysql MysqlSpec Storage.
From S2P Require Import ChatContract ChatRefinement MessageRefinement UserRefinement Jwt System App.
From S2P Require Import Writes Requests Rely Concurrent Permanence Interleaving Json Cache Cached.
From S2P Require Import Coherence CachedContract CachedApp CachedRequests CachedInterleaving Example.
Open Scope Z_scope.

Section concurrency.
Context `{E : Env, C : Collation, U : UnicodeCI, J : GoJWT, UT : UUIDText, B : Bcrypt}.
Context (t : Driver) (cfg : jwt_Config) (cost : Z).
#[local] Instance side_dialect : Dialect := dialect t.
#[local] Instance side_users : UserRepository (ST world) := Users (storage_of t).
#[local] Instance side_chats : ChatRepository (ST world) := Chats (storage_of t).
#[local] Instance side_messages : MessageRepository (ST world) := Messages (storage_of t).
#[local] Instance side_tokens : tokenManager (ST world) := JWTManager cfg.
#[local] Instance side_hasher : passwordHasher (ST world) := Hasher cost.

#[local] Instance side_cache : Cache (ST world) := mock_New.

(** The server after the events [es], requests interleaving at every operation of the
    storage; with a cache, also at every operation of the cache. *)
Definition run_side_by_side (es : list event) (st : requests op * world) : requests op * world := interleave es st.
Definition run_cached_side_by_side (ttl : TTLConfig) (es : list event) (st : requests cop * world) : requests cop * world :=
  interleave (H0 := serves_cop ttl) es st.

(** The tables and the cache then. *)
Definition side_by_side (cache : option TTLConfig) (es : list event) (w : world) : world :=
  match cache with
  | None => (run_side_by_side es ([], w)).2
  | Some ttl => (run_cached_side_by_side ttl es ([], w)).2
  end.

Context {UL : UnicodeCILaws U} {L : UUIDTextLaws UT}.

Abbreviation steps := (Steps view kind_of account_of).

#[local] Instance side_steps :
  steps (serving (later view kind_of account_of) (sound db_ok view kind_of)
    (@allowed _ view kind_of account_of) (@learns _ view kind_of account_of)).
Proof using UL. apply guarantee_steps; [|intros w id u; exact (account_live w id u)]. exact (op_guarantee db_ok view kind_of account_of). Qed.

#[local] Instance cached_steps ttl :
  Steps (H0 := serves_cop ttl) view kind_of account_of (serving (later view kind_of account_of) (csound db_ok view mock_contents kind_of account_of)
    (@callowed _ view kind_of account_of _) (@clearns _ view kind_of account_of _)).
Proof using UL L.
  apply guarantee_steps; [|intros w id u; exact (account_live w id u)].
  exact (cop_guarantee db_ok view mock_contents kind_of account_of db_texts_ok).
Qed.

Lemma initial_sound : sound db_ok view kind_of initial_world.
Proof using. split; [apply initial_world_ok|]. by intros c Hc. Qed.

(** What a server that steps so has reached, and reaches from there. *)
Definition reached (es0 es : list event) (w0 w : world) : Prop :=
  sound db_ok view kind_of w /\
  rtc (written (omap arrival es0 ++ omap arrival es)) (view w0) (view w) /\
  forall id u, st_users (view w0) !! id = Some u ->
    account_lives view account_of id u (omap arrival es0 ++ omap arrival es) w.

Lemma steps_reach {O : Type -> Type} `{Performs O world, Server O} (serving : list api_call -> requests O * world -> Prop)
    {HS : steps serving} es0 es :
  serving [] ([], initial_world) -> (forall cs st, serving cs st -> sound db_ok view kind_of st.2) ->
  reached es0 es (interleave es0 ([], initial_world)).2 (interleave (es0 ++ es) ([], initial_world)).2.
Proof using.
  intros Hinit Hs. destruct (interleave_writes view kind_of account_of serving es0 [] _ Hinit) as [Hst0 _].
  rewrite interleave_app. destruct (interleave_writes view kind_of account_of serving es _ _ Hst0) as [Hst Hr].
  split_and!; [by eapply Hs|exact Hr|]. intros id u. by apply (interleave_account view kind_of account_of serving).
Qed.

Lemma side_reach cache es0 es :
  reached es0 es (side_by_side cache es0 initial_world) (side_by_side cache (es0 ++ es) initial_world).
Proof using UL L.
  destruct cache as [ttl|].
  - eapply (steps_reach (H0 := serves_cop ttl) _ es0 es).
    + apply start_serving. split; [apply initial_sound|]. intros k v Hk. done.
    + by intros cs st [[Hs _] _].
  - eapply (steps_reach _ es0 es).
    + apply start_serving, initial_sound.
    + by intros cs st [Hs _].
Qed.

(** The invariants that survive any interleaving, of any prefix of events. *)
Lemma side_wf cache es :
  let d := view (side_by_side cache es initial_world) in
  db_ok (side_by_side cache es initial_world) /\ rtc (written (omap arrival es)) empty_store d /\
  (forall c, live_direct d c -> pair_in d c) /\ message_wf d /\ accounts_wf d.
Proof using UL L.
  destruct (side_reach cache [] es) as ([Hok Hd] & Hr & _). cbn [app omap list_omap] in *.
  replace (side_by_side cache [] initial_world) with initial_world in Hr by by destruct cache.
  destruct empty_system_wf as (_ & Hm & Ha). split_and!; [done|exact Hr| | |].
  - intros c Hc. apply Hd. by apply (was_direct_live db_ok view kind_of account_of).
  - by eapply written_message_wf.
  - eapply written_accounts_wf; [apply law_same_sym|done|done].
Qed.

(** C3 However the operations of any number of requests interleave, those of the storage
    and, with the in-memory cache and whatever its times to live, those of the
    cache, from an empty database and under any failures, lost acknowledgements
    included: the store moves only by writes that a request was granted (its own
    rows, never the members of a direct chat); the tables satisfy their constraints;
    every role is one of the three; a live direct chat has exactly two members,
    plain ones; a reply quotes a message of its own chat and a message has between 1
    and 4096 characters; addresses and names of accounts are unique, as the server
    compares texts. *)
Theorem interleaved_requests_are_safe cache es :
  let w := side_by_side cache es initial_world in
  let d := view w in
  db_ok w /\ rtc (written (omap arrival es)) empty_store d /\
  (forall c u r, role_of d c u = Some r -> r ∈ [MemberRoleOwner; MemberRoleAdmin; MemberRoleMember]) /\
  (forall c chat, st_chats d !! c = Some chat -> chat_Type chat = ChatTypeDirect ->
     exists a b, a <> b /\ forall u,
       role_of d c u = if decide (u = a \/ u = b) then Some MemberRoleMember else None) /\
  (forall id m r, st_messages d !! id = Some m -> msg_ReplyToID m = Some r ->
     exists m', st_messages d !! r = Some m' /\ msg_ChatID m' = msg_ChatID m) /\
  (forall id m, st_messages d !! id = Some m -> 1 <= RuneCountInString (msg_Content m) <= 4096) /\
  (forall k1 k2 u1 u2, st_users d !! k1 = Some u1 -> st_users d !! k2 = Some u2 ->
     same_text (user_Email u1) (user_Email u2) = true \/
     same_text (user_Username u1) (user_Username u2) = true -> k1 = k2).
Proof.
  destruct (side_wf cache es) as (Hok & Hr & Hd & [_ Hlen Hrep _] & Ha).
  cbv zeta. split_and!; [done|done| | |exact Hrep|exact Hlen|by apply accounts_unique].
  - intros c u r (m & Hm & ->)%fmap_Some. destruct (wf_member _ Hok _ _ Hm) as [Hrole _].
    cbn. unfold one_of in Hrole. by bool_prop.
  - intros c chat Hc Ht. apply Hd. by exists chat.
Qed.

(** C4 However requests interleave, with the cache or without, and whichever were under
    way: a message never disappears, moves or changes its author, type, reply target
    or creation instant, a deleted one never changes, and it changes at all only if
    its author made a message request; a new message is its author's; reactions and
    read marks are changed by their user's message requests only; an account keeps
    its address and hash, is changed by its own profile and presence requests only,
    and goes away only where a registration of its address takes it back. *)
Theorem interleaved_rows_persist cache es0 es :
  let d0 := view (side_by_side cache es0 initial_world) in
  let d := view (side_by_side cache (es0 ++ es) initial_world) in
  let cs := omap arrival es0 ++ omap arrival es in
  (forall id m, st_messages d0 !! id = Some m ->
     exists m', st_messages d !! id = Some m' /\ same_identity m m' /\ (IsDeleted m = true -> m' = m) /\
       ((forall call, MessageCall (msg_SenderID m) call ∉ cs) -> m' = m)) /\
  (forall id m, st_messages d !! id = Some m -> st_messages d0 !! id = None ->
     exists call, MessageCall (msg_SenderID m) call ∈ cs) /\
  (forall u, (forall call, MessageCall u call ∉ cs) ->
     (forall c, st_receipts d !! (c, u) = st_receipts d0 !! (c, u)) /\
     (forall m e, st_reactions d !! (m, u, e) = st_reactions d0 !! (m, u, e))) /\
  (forall id u, st_users d0 !! id = Some u ->
     (exists u', st_users d !! id = Some u' /\ user_PasswordHash u' = user_PasswordHash u /\
        user_Email u' = user_Email u /\ ((forall c, c ∈ cs -> ~ account_call c id) -> u' = u)) \/
     (st_users d !! id = None /\ exists i, UserCall (CallRegister i) ∈ cs /\ reg_Email i = user_Email u)).
Proof.
  destruct (side_reach cache es0 es) as (_ & Hr & Hacc). cbv zeta. split_and!.
  - intros id m. by apply written_messages.
  - intros id m. by apply written_new.
  - intros u. by apply written_marks.
  - intros id u Hu. destruct (Hacc id u Hu) as [?|(? & _ & ?)]; [by left|by right].
Qed.

End concurrency.

(** ** Checks are not transactions

    What no interleaving breaks is above; this is what some interleavings do break.
    A request checks with one statement and writes with another, and no constraint
    of the schema backs the check. *)
Definition ask (caller : uuid) (c : chat_call) : event := Arrives (ChatCall caller c).

(** Two users open a direct chat with each other at the same time: both look for
    one before either creates it. *)
Definition both_open : list event :=
  in_turn 0 demo_users ++
  [ask alice (CallCreateDirect (mkCreateDirectInput bob)); ask bob (CallCreateDirect (mkCreateDirectInput alice))] ++
  [Turn 3; Turn 3; Turn 4; Turn 4] ++ replicate 3 (Turn 3) ++ replicate 3 (Turn 4).

(** The owner leaves while the heir does: the heir has been read as a plain member,
    is promoted, and goes. *)
Definition both_leave : list event :=
  in_turn 0 demo_setup ++
  [ask alice (CallLeaveChat team); ask bob (CallLeaveChat team)] ++
  [Turn 4; Turn 4; Turn 4; Turn 5; Turn 5; Turn 4; Turn 4; Turn 5].

(** A manager changes the name and another the description: each writes the row it
    has read. *)
Definition both_rename : list event :=
  in_turn 0 demo_setup ++
  [ask alice (CallUpdateGroup team (mkUpdateGroupInput (Some "squad") None None));
   ask alice (CallUpdateGroup team (mkUpdateGroupInput None (Some "ours") None))] ++
  [Turn 4; Turn 5; Turn 4; Turn 5; Turn 4; Turn 5; Turn 4; Turn 5].

Definition demo_side (t : Driver) (es : list event) : requests op * world :=
  run_side_by_side t demo_jwt_config 10 es ([], initial_world).

(** The request was answered, and not with an error. *)
Definition succeeded {O} (st : requests O * world) (i : nat) : Prop := (st.1 !! i) = Some (Ret (Ok tt)).

Ltac seen_direct :=
  unfold shares_direct; eexists; split_and!; [vm_compute; reflexivity|vm_compute; reflexivity|demo_check|demo_check].

Lemma no_owner d c :
  map_Forall (fun _ m => m.1 <> MemberRoleOwner) (st_members d) -> forall u, role_of d c u <> Some MemberRoleOwner.
Proof. intros Hall u (m & Hm & E)%fmap_Some. by apply (Hall _ _ Hm). Qed.

(** C33 On either storage, requests that all succeed can leave what no sequence of
    them leaves: two direct chats of the same pair; a live group with members and
    no owner; a new name overwritten by a change of the description. *)
Theorem checks_are_not_transactions t :
  (let st := demo_side t both_open in let d := view st.2 in
   succeeded st 3 /\ succeeded st 4 /\
   exists c1 c2, c1 <> c2 /\ shares_direct d alice bob c1 /\ shares_direct d alice bob c2) /\
  (let st := demo_side t both_leave in let d := view st.2 in
   succeeded st 4 /\ succeeded st 5 /\
   live_group d team /\ is_member d team carol /\ forall u, role_of d team u <> Some MemberRoleOwner) /\
  (let st := demo_side t both_rename in let d := view st.2 in
   succeeded st 4 /\ succeeded st 5 /\
   exists chat, st_chats d !! team = Some chat /\ chat_Name chat = "team" /\ chat_Description chat = "ours").
Proof.
  destruct t; cbv zeta; split_and!; try (vm_compute; reflexivity);
    try (apply no_owner; demo_check); try (vm_compute; by eexists);
    try (exists 1038%N, 1045%N; split_and!; [done|seen_direct|seen_direct]);
    eexists; split_and!; vm_compute; reflexivity.
Qed.

(** *** The cache

    A lookup through the cache reads the table and then sets the entry: between the
    two, another request may change the row and delete the entry. *)
Definition side_ttl : TTLConfig := mkTTLConfig (300 * second) (300 * second) (300 * second).
Definition demo_cached_side (t : Driver) (es : list event) : requests cop * world :=
  run_cached_side_by_side t demo_jwt_config 10 side_ttl es ([], initial_world).

Fixpoint one_by_one (k : nat) (cs : list api_call) : list event :=
  match cs with [] => [] | c :: rest => Arrives c :: replicate 60 (Turn k) ++ one_by_one (S k) rest end.

(** Bob, an admin, renames the group; while his membership has been read and not yet
    cached, Alice removes him. *)
Definition removed_while_reading : list event :=
  one_by_one 0 (demo_setup ++ [ChatCall alice (CallChangeMemberRole team (mkChangeMemberRoleInput bob "admin"))]) ++
  [ask bob (CallUpdateGroup team (mkUpdateGroupInput (Some "squad") None None))] ++ replicate 5 (Turn 5) ++
  [ask alice (CallRemoveMember team bob)] ++ replicate 60 (Turn 6) ++ replicate 60 (Turn 5).

(** C34 On either storage with the cache, a removed administrator can keep his rights:
    removed while one of his requests was reading his membership, he is no member of
    the group any more, and a later request of his removes another member. *)
Theorem cached_rights_survive_removal t :
  let st := demo_cached_side t removed_while_reading in
  let st' := demo_cached_side t (removed_while_reading ++ ask bob (CallRemoveMember team carol) :: replicate 60 (Turn 7)) in
  succeeded st 5 /\ succeeded st 6 /\ ~ is_member (view st.2) team bob /\ is_member (view st.2) team carol /\
  succeeded st' 7 /\ ~ is_member (view st'.2) team carol.
Proof.
  destruct t; cbv zeta; split_and!;
    lazymatch goal with
    | |- succeeded _ _ => vm_compute; reflexivity
    | |- ~ ?P => refine (proj1 (bool_decide_eq_false P) _); vm_compute; reflexivity
    | |- ?P => refine (proj1 (bool_decide_eq_true P) _); vm_compute; reflexivity
    end.
Qed.

(** ** The theorems at work on the demonstration server, on MySQL *)
Section demo.
#[local] Instance demo_side_dialect : Dialect := dialect TypeMySQL.

Lemma interleaved_requests_are_safe_witness :
  let d := view (side_by_side TypeMySQL demo_jwt_config 10 (Some side_ttl) removed_while_reading initial_world) in
  size (st_members d) = 2%nat /\
  rtc (written (omap arrival removed_while_reading)) empty_store d /\
  (forall c chat, st_chats d !! c = Some chat -> chat_Type chat = ChatTypeDirect ->
     exists a b, a <> b /\ forall u,
       role_of d c u = if decide (u = a \/ u = b) then Some MemberRoleMember else None).
Proof.
  destruct (interleaved_requests_are_safe TypeMySQL demo_jwt_config 10 (Some side_ttl) removed_while_reading) as (_ & Hr & _ & Hd & _).
  split; [vm_compute; reflexivity|]. split; [exact Hr|exact Hd].
Defined.

(** Alice edits a message while she deletes it. *)
Definition meanwhile : list event :=
  [Arrives (MessageCall alice (CallEdit first_message (mkEditInput "uno")));
   Arrives (MessageCall alice (CallDelete first_message));
   Turn 8; Turn 9; Turn 8; Turn 9; Turn 8; Turn 9; Turn 8; Turn 9].

Lemma interleaved_rows_persist_witness :
  let before := side_by_side TypeMySQL demo_jwt_config 10 None (in_turn 0 demo_talk) initial_world in
  let after := side_by_side TypeMySQL demo_jwt_config 10 None (in_turn 0 demo_talk ++ meanwhile) initial_world in
  bool_decide (is_Some (st_messages (view before) !! first_message)) = true /\
  forall m, st_messages (view before) !! first_message = Some m ->
  exists m', st_messages (view after) !! first_message = Some m' /\ same_identity m m'.
Proof.
  cbv zeta. split; [vm_compute; reflexivity|]. intros m Hm.
  destruct (interleaved_rows_persist TypeMySQL demo_jwt_config 10 None (in_turn 0 demo_talk) meanwhile) as [Hall _].
  destruct (Hall first_message m Hm) as (m' & Hm' & Hsame & _). exists m'. split; [exact Hm'|exact Hsame].
Defined.

End demo.
