(* ===== verification/MysqlClaims.v ===== *)
(** * Where MySQL differs

    The two storages honour the same contracts; these theorems show what the
    latitude of the contracts stands for on MySQL: an [UPDATE] that changes
    nothing is reported as a missing row, and emojis the collation does not tell
    apart are one reaction. *)
From S2P Require Import Prelude Utf8 Domain Config Validate ChatUsecase MessageUsecase UserUsecase Store.
From S2P Require Import Schema World ChatContract.
From S2P Require Import Sql SqlWf Postgres PostgresSpec Mysql MysqlSpec Storage ChatContract.
From S2P Require Import ChatRefinement MessageRefinement UserRefinement Jwt System App Example.
Open Scope Z_scope.

Section mysql.
Context `{E : Env, C : Collation, U : UnicodeCI} {UL : UnicodeCILaws U}.
#[local] Instance on_mysql : Dialect := dialect TypeMySQL.
#[local] Instance mysql_users : UserRepository (ST world) := Users (storage_of TypeMySQL).
#[local] Instance mysql_chats : ChatRepository (ST world) := Chats (storage_of TypeMySQL).
#[local] Instance mysql_messages : MessageRepository (ST world) := Messages (storage_of TypeMySQL).

Lemma same_role_reported_missing c u role (w : world) :
  role_of (view w) c u = Some role ->
  wp (my_chat_UpdateMemberRole c u role) (fun r w' => view w' = view w /\ r <> Ok tt) w.
Proof using.
  unfold role_of, view, view_db. cbn. intros Hrole.
  destruct (t_members (w_db w) !! (c, u)) as [[r t]|] eqn:Hm; simplify_eq/=.
  unfold wp, my_chat_UpdateMemberRole, db_Exec, try, mbind, ST_bind, run_stmt, q_my_chat_UpdateMemberRole.
  rewrite Hm. cbn. rewrite bool_decide_eq_true_2 by done.
  assert (set_members <[(c, u) := (role, t)]> (w_db w) = w_db w) as Hsame.
  { unfold set_members. rewrite insert_id by done. by destruct (w_db w). }
  rewrite ?Hsame. by destruct (env_fault (w_tick w)), (one_of member_role_enum role); cbn; rewrite ?Hsame.
Qed.

(** On MySQL, assigning a member the role it already has never succeeds: the
    server counts the rows an [UPDATE] changed, and the repository takes none for
    a missing member. *)
Theorem same_role_is_refused c caller i (w : world) (Hw : db_ok w)
    (Hrole : role_of (view w) c (cmri_UserID i) = Some (cmri_Role i)) :
  wp (ChangeMemberRole c caller i) (fun r w' => view w' = view w /\ r <> Ok tt) w.
Proof using UL.
  assert (forall e (w' : world), view w' = view w -> view w' = view w /\ (Err e : res unit) <> Ok tt) as Hend by done.
  unfold ChangeMemberRole. apply wp_check; [intros _|by intros e _].
  wp_case; [by apply wp_ret|].
  eapply (wp_reads db_ok view); [apply (spec_GetMember (CR := mysql_chats))|done|done| |by intros; apply Hend].
  intros m w1 Hw1 Hv1 _. wp_case; [by apply wp_ret, Hend|].
  eapply (wp_reads db_ok view); [apply (spec_GetMember (CR := mysql_chats))|done|done| |by intros; apply Hend].
  intros n w2 Hw2 Hv2 _. apply wp_try. eapply wp_mono.
  { apply (same_role_reported_missing c (cmri_UserID i) (cmri_Role i) w2). by rewrite Hv2. }
  intros [[]|e] w3 [Hv3 Hne]; [done|]. apply Hend; congruence.
Qed.

(** C31 On MySQL, emojis the collation does not tell apart are one reaction: a second
    one is accepted and ignored, and removing either removes the one recorded. *)
Theorem emojis_collide id caller e1 e2 (w : world) (Hw : db_ok w)
    (Hreacted : is_Some (st_reactions (view w) !! (id, caller, e1))) (Hsame : ci_same e1 e2 = true)
    (Hvalid : ValidString e2 = true) (Hlen : RuneCountInString e2 <= 10) :
  wp (AddReaction id caller (mkReactInput e2)) (fun r w' => r = Ok tt -> view w' = view w) w /\
  wp (RemoveReaction id caller (mkReactInput e2))
     (fun r w' => r = Ok tt -> st_reactions (view w') !! (id, caller, e1) = None) w.
Proof using UL.
  split.
  - eapply wp_mono; [by apply (AddReaction_outcome db_ok view)|]. intros r w1 (_ & _ & Hr) ->.
    destruct Hr as [now Ha]. unfold add_reaction in Ha. cbn in Ha. unfold my_emoji in Ha.
    rewrite adjusted_ok in Ha by done. destruct (InRange _ _ _); [|done].
    assert (reacted (view w) id caller e2) as Hre by by exists e1.
    destruct Ha as [[_ ?]|[[? _]|(_ & _ & ?)]]; done.
  - eapply wp_mono; [by apply (RemoveReaction_outcome db_ok view)|]. intros r w1 (_ & _ & Hr) ->.
    cbn in Hr. rewrite Hr. apply map_lookup_filter_None_2. right. intros x _ Hno. by apply Hno.
Qed.
End mysql.

(** ** The two servers side by side *)

(** What a call of one service answers, on either storage. *)
Section answers.
Context `{U : UnicodeCI} (t : Driver).
#[local] Instance answer_users : UserRepository (ST world) := Users (storage_of t).
#[local] Instance answer_chats : ChatRepository (ST world) := Chats (storage_of t).
#[local] Instance answer_messages : MessageRepository (ST world) := Messages (storage_of t).

Definition reassigned (w : world) : res unit :=
  (ChangeMemberRole team alice (mkChangeMemberRoleInput bob MemberRoleMember) w).1.
Definition reacts (emoji : string) : ST world (res unit) := AddReaction first_message bob (mkReactInput emoji).
Definition unreacts (emoji : string) : ST world (res unit) := RemoveReaction first_message bob (mkReactInput emoji).
End answers.

Lemma same_role_is_refused_witness :
  reassigned TypePostgres (demo_on TypePostgres demo_setup) = Ok tt /\
  reassigned TypeMySQL (demo_on TypeMySQL demo_setup) = Fail ErrNotChatMember /\
  reassigned TypeMySQL (demo_on TypeMySQL demo_setup) <> Ok tt.
Proof.
  split; [vm_compute; reflexivity|]. split; [vm_compute; reflexivity|].
  apply (same_role_is_refused team alice (mkChangeMemberRoleInput bob MemberRoleMember)
    (demo_on TypeMySQL demo_setup) (demo_on_ok _ _)). vm_compute. reflexivity.
Defined.

(** [utf8mb4_unicode_ci] gives every supplementary character, so nearly every
    emoji, one weight. *)
Definition one_weight : UnicodeCI := {|
  ci_same a b := bool_decide ((fun r => Z.min r 65536) <$> runes a = (fun r => Z.min r 65536) <$> runes b);
  adjusted s := s |}.

Lemma one_weight_laws : UnicodeCILaws one_weight.
Proof.
  split; cbn.
  - intros a b. by apply bool_decide_ext.
  - intros a b c ?%bool_decide_eq_true ?%bool_decide_eq_true. apply bool_decide_eq_true_2. congruence.
  - intros a. by apply bool_decide_eq_true_2.
  - done.
Defined.

Lemma emojis_collide_witness :
  let w := run_server (U := one_weight) TypeMySQL demo_jwt_config 10
    (demo_talk ++ [MessageCall bob (CallAddReaction first_message (mkReactInput "👍"))]) initial_world in
  (reacts (U := one_weight) TypeMySQL "🎉" w).1 = Ok tt /\
  view (reacts (U := one_weight) TypeMySQL "🎉" w).2 = view w /\
  st_reactions (view (unreacts (U := one_weight) TypeMySQL "🎉" w).2) !! (first_message, bob, "👍") = None.
Proof.
  cbv zeta. set (w := run_server _ _ _ _ _).
  assert ((reacts (U := one_weight) TypeMySQL "🎉" w).1 = Ok tt) as Hadd by (vm_compute; reflexivity).
  assert ((unreacts (U := one_weight) TypeMySQL "🎉" w).1 = Ok tt) as Hremove by (vm_compute; reflexivity).
  destruct (emojis_collide (U := one_weight) (UL := one_weight_laws) first_message bob "👍" "🎉" w) as [H1 H2].
  - exact (run_server_ok (UL := one_weight_laws) TypeMySQL demo_jwt_config 10 _).
  - vm_compute. by eexists.
  - vm_compute. reflexivity.
  - vm_compute. reflexivity.
  - vm_compute. intros ?; discriminate.
  - split; [exact Hadd|]. split; [exact (H1 Hadd)|exact (H2 Hremove)].
Defined.
