(* ===== verification/CodecClaims.v ===== *)
(** * Theorems on the validators and the JSON codecs *)
From S2P Require Import Prelude Utf8 Regex Domain Validate Json Store World UserUsecase Schema App.
From S2P Require Import OnPostgres Example.
Open Scope Z_scope.

(** C32 The regular expressions accept exactly these texts: [IsEmail] a local part, an
    at sign, a domain, a dot and an alphabetic suffix of two code points or more;
    [IsURL] the scheme [http://] or [https://] followed by at least one code point
    and no white space. *)
Theorem address_languages s :
  (IsEmail s = true <->
   exists local dom tld, runes s = local ++ [64] ++ dom ++ [46] ++ tld /\
     local <> [] /\ Forall (fun c => email_local c = true) local /\
     dom <> [] /\ Forall (fun c => email_domain c = true) dom /\
     (2 <= length tld)%nat /\ Forall (fun c => alpha_fold c = true) tld) /\
  (IsURL s = true <->
   exists rest, (runes s = runes "http://" ++ rest \/ runes s = runes "https://" ++ rest) /\
     rest <> [] /\ Forall (fun c => not_space c = true) rest).
Proof. split; [apply IsEmail_lang|apply IsURL_lang]. Qed.

(** A registration is accepted exactly when the name has 3 to 50 ASCII letters or
    digits, the address is one, and the password has 8 to 72 code points; whatever
    is refused is refused as a validation error. *)
Theorem registration_accepts i :
  (RegisterInput_Validate i = None <->
     3 <= RuneCountInString (reg_Username i) <= 50 /\
     Forall (fun c => alphanum c = true) (runes (reg_Username i)) /\
     IsEmail (reg_Email i) = true /\ 8 <= RuneCountInString (reg_Password i) <= 72) /\
  (forall e, RegisterInput_Validate i = Some e -> errors_Is e ErrValidation = true).
Proof.
  rewrite RegisterInput_checks. split; [|intros e; apply first_failure_validation].
  rewrite first_failure_None, !Forall_cons. cbn [fst]. unfold MinLen, MaxLen.
  rewrite IsAlphanumeric_spec, !Z.leb_le. split.
  - intros (? & ? & [_ ?] & ? & ? & ? & _). repeat split; done || lia.
  - intros (? & ? & ? & ?). repeat split; try done; try lia.
    intros E. rewrite E in *. assert (RuneCountInString "" = 0) by done. lia.
Qed.

(** What the cache stores is read back: a user without the password hash, which
    the JSON never holds, and otherwise unchanged; a chat unchanged. *)
Theorem json_roundtrips :
  (forall u j, user_text u -> marshal_User u = Ok j -> unmarshal_User j = Ok (public u)) /\
  (forall c j, chat_text c -> marshal_Chat c = Ok j -> unmarshal_Chat j = Ok c).
Proof. split; [intros u j; apply User_roundtrip|intros c j; apply Chat_roundtrip]. Qed.

Definition demo_user : User :=
  mkUser alice "alice" "alice@example.com" "hash" "" "hi" UserStatusOnline 1700000000000000000
    1700000000000000000 1700000000000000000.
Definition demo_chat : Chat :=
  mkChat team ChatTypeGroup "team" "" "" alice 1700000000000000000 1700000000000000000.

Lemma json_roundtrips_witness :
  (exists j, marshal_User demo_user = Ok j /\ unmarshal_User j = Ok (public demo_user)) /\
  (exists j, marshal_Chat demo_chat = Ok j /\ unmarshal_Chat j = Ok demo_chat).
Proof.
  split.
  - destruct (marshal_User demo_user) as [j|e] eqn:Hj; [|vm_compute in Hj; discriminate Hj].
    exists j. split; [reflexivity|]. apply (proj1 json_roundtrips demo_user j); [|exact Hj].
    vm_compute. repeat split.
  - destruct (marshal_Chat demo_chat) as [j|e] eqn:Hj; [|vm_compute in Hj; discriminate Hj].
    exists j. split; [reflexivity|]. apply (proj2 json_roundtrips demo_chat j); [|exact Hj].
    vm_compute. repeat split.
Defined.
