(* ===== verification/CacheClaims.v ===== *)
(** * Theorems on the cache *)
From S2P Require Import Prelude Domain Config ChatUsecase MessageUsecase UserUsecase Json Store Schema.
From S2P Require Import World Sql SqlWf SqlRules SqlReads Postgres PostgresSpec Mysql MysqlSpec.
From S2P Require Import Storage ChatContract ChatRefinement MessageRefinement UserRefinement Jwt.
From S2P Require Import System App Cache Cached Coherence CachedContract CachedApp OnPostgres.
From S2P Require Import Example.
Open Scope Z_scope.

Section application.
Context `{E : Env, C : Collation, U : UnicodeCI, J : GoJWT, UT : UUIDText, B : Bcrypt} {UL : UnicodeCILaws U}.
Context (t : Driver) (cfg : jwt_Config) (cost : Z) (ttl : TTLConfig).
#[local] Instance the_dialect : Dialect := dialect t.

(** With the cache in front of the storage, as long as no executed statement goes
    unacknowledged: after any requests whatsoever the cache agrees with the tables,
    the run is a path of authorised changes, and the invariants of chats, messages
    and accounts hold, exactly as without a cache. *)
Theorem cached_application_is_safe {L : UUIDTextLaws UT} (acked : ~ world_loss) cs :
  let w := run_application (storage_of t) cfg cost ttl (Some mock_New) cs initial_world in
  (db_ok w /\ coherent [] (view w) (mock_contents w)) /\ rtc api_step empty_store (view w) /\
  system_wf (view w).
Proof.
  apply (run_application_safe t cfg cost ttl acked cs initial_world); [apply initial_app_ok|apply empty_system_wf].
Qed.

(** C13 As long as executed statements are acknowledged, the repositories cached in
    memory honour the very contracts of the repositories they wrap, keeping the cache
    coherent; so the theorems on the services that rest on the contracts hold with
    that cache as well. *)
Theorem cached_repositories_honour {L : UUIDTextLaws UT} (acked : ~ world_loss) :
  ChatRepositorySpec (app_ok t) view (app_chats (storage_of t) ttl (Some mock_New)) /\
  UserRepositorySpec (app_ok t) view (app_users (storage_of t) ttl (Some mock_New)).
Proof. split; [by apply app_chats_spec|by apply app_users_spec]. Qed.
End application.

(** What [Set] stores is answered by [Get] until its lifetime has passed, and
    not afterwards; a lifetime of zero or less means for ever. *)
Theorem cache_lifetime `{Env} key v life w t :
  let w1 := (mock_Set key v life w).2 in
  let later := mkWorld (w_db w1) (w_cache w1) t in
  zero_Time < env_now (w_tick w) ->
  ((mock_Get key later).1 = Ok v <-> life <= 0 \/ env_now t <= env_now (w_tick w) + life).
Proof.
  cbv zeta. intros Hepoch. rewrite mock_Get_spec. unfold mock_Set. destruct (0 <? life) eqn:Hl; cbn.
  - rewrite lookup_insert_eq. unfold no_expiry, expired. cbn.
    destruct (_ =? zero_Time) eqn:Hz; [lia|]. destruct (_ <? env_now t) eqn:He; cbn.
    + split; [done|]. lia.
    + split; [lia|done].
  - rewrite lookup_insert_eq. cbn. split; [lia|done].
Qed.

(** ** Where the cache goes stale *)

Definition demo_ttl : TTLConfig := mkTTLConfig (300 * second) (300 * second) (300 * second).

(** The statement at tick [n] is executed and its answer lost. *)
Definition unacked_at (n : nat) : Env := {|
  env_now := env_now (Env := demo_env);
  env_db_now := env_db_now (Env := demo_env);
  env_uuid := env_uuid (Env := demo_env);
  env_choice _ := 0%nat;
  env_fault t := if (t =? n)%nat then Unacked "connection reset" else NoFault |}.

Definition removal : api_call := ChatCall alice (CallRemoveMember team bob).
Definition intrusion : api_call :=
  MessageCall bob (CallSend (mkSendInput team "still here" "text" None)).

(** C35 That executed statements are acknowledged is needed.  The cached repository
    invalidates only after a statement it knows to have succeeded: on either storage, when the answer to a removal is lost, the removed member keeps its
    cached membership and can still send messages to the chat. *)
Theorem unacknowledged_removal_keeps_access t :
  exists n, let run := fun cs => run_application (E := unacked_at n) (storage_of (E := unacked_at n) t) demo_jwt_config 10 demo_ttl
                                   (Some (mock_New (H := unacked_at n))) cs initial_world in
    role_of (view (run (demo_setup ++ [removal]))) team bob = None /\
    role_of (view (run (demo_setup ++ [removal; intrusion]))) team bob = None /\
    exists id m, st_messages (view (run (demo_setup ++ [removal; intrusion]))) !! id = Some m /\
      msg_SenderID m = bob /\ msg_ChatID m = team.
Proof.
  exists 53%nat. cbv zeta. split; [by destruct t; vm_compute|]. split; [by destruct t; vm_compute|].
  set (d := view _).
  assert (existsb (fun kv : uuid * Message => bool_decide (msg_SenderID kv.2 = bob) && bool_decide (msg_ChatID kv.2 = team))
    (map_to_list (st_messages d)) = true) as Hex by (subst d; destruct t; vm_compute; reflexivity).
  clearbody d. apply existsb_exists in Hex as ([id m] & Hin & Hb). bool_prop. exists id, m.
  apply list_elem_of_In, elem_of_map_to_list in Hin. done.
Qed.

(** ** The theorems at work on the demonstration server *)
Lemma cached_application_is_safe_witness :
  let w := run_application (storage_of TypePostgres) demo_jwt_config 10 demo_ttl (Some mock_New) (demo_setup ++ [removal]) initial_world in
  (db_ok w /\ coherent [] (view w) (mock_contents w)) /\ rtc api_step empty_store (view w) /\
  system_wf (view w).
Proof. apply (cached_application_is_safe TypePostgres demo_jwt_config 10 demo_ttl demo_acked). Defined.

Lemma cached_repositories_honour_witness :
  ChatRepositorySpec (app_ok TypePostgres) view (app_chats (storage_of TypePostgres) demo_ttl (Some mock_New)) /\
  UserRepositorySpec (app_ok TypePostgres) view (app_users (storage_of TypePostgres) demo_ttl (Some mock_New)).
Proof. apply (cached_repositories_honour TypePostgres demo_ttl demo_acked). Defined.

Lemma cache_lifetime_witness :
  let w1 := (mock_Set "k" (CText "1") (5 * second) initial_world).2 in
  (mock_Get "k" (mkWorld (w_db w1) (w_cache w1) 3)).1 = Ok (CText "1") <->
  5 * second <= 0 \/ env_now 3 <= env_now 0 + 5 * second.
Proof. apply (cache_lifetime "k" (CText "1") (5 * second) initial_world 3). reflexivity. Defined.
