(* ===== verification/HttpClaims.v ===== *)
(** * Theorems on the HTTP server *)
From S2P Require Import Prelude Utf8 Domain Config GoStd Json ChatUsecase MessageUsecase UserUsecase Store.
From S2P Require Import Schema World Sql SqlWf SqlRules SqlReads Postgres PostgresSpec Mysql.
From S2P Require Import MysqlSpec Storage ChatContract ChatRefinement MessageRefinement.
From S2P Require Import UserRefinement Jwt System App Cache Cached CachedApp Http Handlers.
From S2P Require Import Redis Middleware RateLimit Router Routing HttpRefinement Shapes HttpApp OnPostgres.
From S2P Require Import Example.
Open Scope Z_scope.

Section deployment.
Context `{E : Env, J : GoJWT, UT : UUIDText, B : Bcrypt, UP : UUIDParse, UG : Upgrader}.
Context (store : Storage) (jwt : jwt_Config) (cost : Z) (ttl : TTLConfig) (http : http_Config).

Abbreviation the_server := (app_server store jwt cost ttl http).
Abbreviation the_api := (app_api store jwt cost ttl http).

(** C2 The server, through all its middleware, mux and handlers, implements the
    API: whatever the request, it ends in the state the specification computes (at
    most one service call, the one the route, the path, the query, the body and
    the bearer of the token ask for), and it always answers, with a status that
    tells the outcome: 2xx for a success, the status of the error otherwise. *)
Theorem requests_are_api_calls {UGL : UpgraderLaws UG} c w r st :
  let '(a, st') := the_server c w r st in
  let '(v, st2) := the_api c r st in
  st' = st2 /\ exists rs, a = Ok rs /\ fits v (rs_Status rs).
Proof. by apply app_server_implements. Qed.

(** C36 What every request for a route other than [/ws] is answered with: a document of
    the type of its route, the envelope [{"data": ...}] around the route's object or
    list on success and [{"error": ...}] otherwise (the health check has its own),
    every required field there, every field declared (so no answer ever carries a
    password hash) and of its type; or no body at all, and then with a success.  A
    list is an array, or [null] when it is empty; the error of a 500 may be missing,
    when the text of the failure is empty, that of any other status is there.  A
    request for no route gets no document. *)
Theorem answers_are_typed c w r st :
  exists rs, (the_server c w r st).1 = Ok rs /\
    match best (rq_Method r) (rq_Path r) (table http) with
    | Some (_, R_WS, _) => True
    | Some (_, x, _) =>
      match rs_Body rs with
      | Doc j => conforms j (answer_shape x (rs_Status rs)) = true
      | NoBody => rs_Status rs < 300
      | Text _ => False
      end
    | None => forall j, rs_Body rs <> Doc j
    end.
Proof.
  assert (exists rs, (the_server c w r st).1 = Ok rs /\ well_typed http r rs) as (rs & Hrs & Ht) by apply server_answers.
  exists rs. split; [exact Hrs|]. unfold well_typed, typed in Ht.
  destruct (best _ _ _) as [[[p x] vs]|]; [|exact Ht].
  destruct x; try done; by destruct Ht as [[=]|Ht].
Qed.

(** Where docs/openapi.yaml declares an array, an empty list is [null]. *)
Theorem empty_lists_are_null {A} (f : A -> res json) status :
  rs_Body (JSON status (Body_data (marshal_slice f []))) = Doc (JObj [("data", JNull)]).
Proof. done. Qed.

(** The paths that docs/openapi.yaml leaves open. *)
Definition public_paths : list (list string) :=
  [["health"]; ["api"; "v1"; "auth"; "register"]; ["api"; "v1"; "auth"; "login"]; ["api"; "v1"; "auth"; "refresh"]].

Lemma match_path_literal l path vs : match_path (Lit <$> l) path = Some vs -> path = l.
Proof using.
  revert path vs. induction l as [|s l IH]; intros [|x path] vs; cbn; try done.
  case_bool_decide as Hs; [|done]. intros Hm. by rewrite Hs, (IH _ _ Hm).
Qed.

Lemma table_access p x :
  (p, x) ∈ table http -> route_access x = Protected \/ exists l, l ∈ public_paths /\ pt_Path p = Lit <$> l.
Proof using.
  assert (forallb (fun '(p, x) => match route_access x with
    | Protected => true
    | _ => existsb (fun l => bool_decide (pt_Path p = Lit <$> l)) public_paths end) (table http) = true) as Hall.
  { unfold table. destruct (hc_WS http), (hc_HTTP http); vm_compute; reflexivity. }
  intros Hin%list_elem_of_In. rewrite forallb_forall in Hall. specialize (Hall _ Hin). cbv beta iota in Hall.
  destruct (route_access x); [right|right|by left].
  all: apply existsb_exists in Hall as (l & Hl%list_elem_of_In & Hp%bool_decide_eq_true_1); by exists l.
Qed.

(** A route whose path is none of those is behind [Auth]. *)
Lemma routed_private m path p x vs :
  best m path (table http) = Some (p, x, vs) -> path ∉ public_paths -> route_access x = Protected.
Proof using.
  intros Hbest Hpath. apply best_Some in Hbest as (Hin & _ & Hmatch & _); [|apply table_unambiguous].
  destruct (table_access p x Hin) as [?|(l & Hl & Hp)]; [done|].
  rewrite Hp in Hmatch. apply match_path_literal in Hmatch. congruence.
Qed.

(** C15 A request whose path has a route and is not one of the four public paths (health,
    registration, login, refresh) is answered 401 and touches neither the storage nor
    the cache, unless it bears a token the validator accepts at that moment. *)
Theorem protected_routes_need_a_token {UGL : UpgraderLaws UG} c w r cl s p x vs
    (Hm : rq_Method r <> "OPTIONS")
    (Hbest : best (rq_Method r) (rq_Path r) (table http) = Some (p, x, vs))
    (Hpath : rq_Path r ∉ [["health"]; ["api"; "v1"; "auth"; "register"]; ["api"; "v1"; "auth"; "login"];
                          ["api"; "v1"; "auth"; "refresh"]])
    (Htok : forall token, bearer r = Some token -> is_ok (validator jwt token (started r s)).1 = false) :
  exists rs cl' s', the_server c w r (cl, s) = (Ok rs, (cl', s')) /\ rs_Status rs = 401 /\
    w_db s' = w_db s /\ w_cache s' = w_cache s.
Proof.
  pose proof (routed_private _ _ _ _ _ Hbest Hpath) as Hx.
  pose proof (app_server_implements store jwt cost ttl http c w r (cl, s)) as H.
  assert (w_db (started r s) = w_db s /\ w_cache (started r s) = w_cache s) as Hstart.
  { unfold started. by case_bool_decide. }
  unfold app_api, api_spec in H. rewrite (bool_decide_eq_false_2 (rq_Method r = _)), Hbest, Hx in H by done.
  destruct (the_server c w r (cl, s)) as [a [cl' s']].
  destruct (bearer r) as [token|].
  - specialize (Htok token eq_refl). unfold tv_ValidateAccessToken in H.
    assert (w_db (validator jwt token (started r s)).2 = w_db s /\ w_cache (validator jwt token (started r s)).2 = w_cache s)
      as Hval by exact Hstart.
    destruct (validator jwt token (started r s)) as [[u|e] s1]; [done|].
    destruct H as [[= -> ->] (rs & -> & Hf)]. by exists rs, cl, s1.
  - destruct H as [[= -> ->] (rs & -> & Hf)]. by exists rs, cl, (started r s).
Qed.

(** C26 No WebSocket ever opens in the deployed server: the logging middleware wraps
    the response writer in a type that hides [http.Hijacker], so every handshake,
    with a valid token or not, ends in an error response. *)
Theorem websocket_never_opens {UGL : UpgraderLaws UG} c w r st p vs
    (Hm : rq_Method r <> "OPTIONS")
    (Hbest : best (rq_Method r) (rq_Path r) (table http) = Some (p, R_WS, vs)) :
  exists rs, (the_server c w r st).1 = Ok rs /\ 400 <= rs_Status rs.
Proof.
  destruct st as [cl s]. pose proof (app_server_implements store jwt cost ttl http c w r (cl, s)) as H.
  unfold app_api, api_spec in H. rewrite (bool_decide_eq_false_2 (rq_Method r = _)), Hbest in H by done. cbn [route_access] in H.
  destruct (the_server c w r (cl, s)) as [a st'].
  destruct (bearer r) as [token|]; [|destruct H as [_ (rs & -> & Hf)]; exists rs; split; [done|cbn in Hf; lia]].
  unfold tv_ValidateAccessToken in H. destruct (validator jwt token (started r s)) as [[me|e] s1].
  - rewrite bool_decide_eq_true_2 in H by done. destruct (run_asked _ _ s1) as [v s2].
    destruct H as [_ (rs & -> & Hf)]. by exists rs.
  - destruct H as [_ (rs & -> & Hf)]. exists rs. split; [done|cbn in Hf; lia].
Qed.

End deployment.

Section storage.
Context `{E : Env, C : Collation, U : UnicodeCI, J : GoJWT, UT : UUIDText, B : Bcrypt, UP : UUIDParse, UG : Upgrader}.
Context {UL : UnicodeCILaws U} {UGL : UpgraderLaws UG} {L : UUIDTextLaws UT}.

(** C14 A request answered with a client error (4xx) changed nothing that is
    stored, whatever failed underneath; with the cache, as long as no executed
    statement goes unacknowledged. *)
Theorem refusals_change_nothing t jwt cost ttl http in_memory w r cl s rs cl' s'
    (Hacked : in_memory = true -> ~ world_loss) (Hs : app_inv t in_memory s)
    (Hrun : app_server (storage_of t) jwt cost ttl http (cache_in in_memory) w r (cl, s) = (Ok rs, (cl', s')))
    (Hst : 400 <= rs_Status rs < 500) :
  view s' = view s.
Proof. exact (app_refused t jwt cost ttl http in_memory Hacked w r cl s rs cl' s' Hs Hrun Hst). Qed.

(** C1 Whatever the configuration an application was started with, on either
    storage, without a cache or with the one in memory: whatever requests its
    handler is sent, starting from an empty database and under any failures (with a
    cache, as long as executed statements are acknowledged), its state is reached
    by authorised changes only, the invariants of chats, messages and accounts
    hold, and the tables satisfy their constraints. *)
Theorem http_application_is_safe `{Strconv, Pools, GoRedis} cfg t store c h w1 rs
    (Ht : storage_driver (app_Storage cfg) = Some t)
    (Hnew : newApplication cfg initial_world = (Ok (store, c, h), w1))
    (Hcache : forall k, app_Cache cfg = Some k -> cache_Type k <> TypeRedis /\ ~ world_loss) :
  let s := (drain h rs (∅, w1)).2 in
  over_db (@db_wf (dialect t)) s /\
  rtc (@api_step (@dl_text_eq (dialect t)) (@dl_latitude (dialect t))) empty_store (view s) /\
  @system_wf (@dl_text_eq (dialect t)) (view s).
Proof.
  destruct (newApplication_Ok _ _ _ _ _ _ Hnew) as (t' & Ht' & -> & -> & -> & Hdb & Hc).
  { intros k Hk. exact (proj1 (Hcache k Hk)). }
  assert (t' = t) as -> by congruence. destruct w1 as [d k n]. cbn in Hdb, Hc. subst d k.
  set (b := bool_decide (is_Some (app_Cache cfg))).
  assert (b = true -> ~ world_loss) as Hacked.
  { intros Hb. apply bool_decide_eq_true in Hb as [k Hk]. exact (proj2 (Hcache k Hk)). }
  destruct (run_http_safe t (app_JWT cfg) (hasher_Cost (app_Hasher cfg)) (config_ttl cfg)
    (delivery_http (app_Delivery cfg)) b Hacked rs ∅ _ (initial_app_inv t b n) empty_system_wf) as (Hi & Hr & Hwf).
  split; [exact (app_inv_db t b _ Hi)|]. split; [exact Hr|exact Hwf].
Qed.
End storage.

(** C25 The route table is free of conflicts: whatever the order the patterns are
    registered in, a request is routed alike, to a pattern that matches it and that
    every other matching pattern covers. *)
Theorem routing_is_unambiguous http routes method path (Hperm : table http ≡ₚ routes) :
  best method path routes = best method path (table http) /\
  (forall p x vs, best method path routes = Some (p, x, vs) ->
     match_path (pt_Path p) path = Some vs /\
     forall q y, (q, y) ∈ routes -> matching method path q -> (q, y) = (p, x) \/ covers (pt_Path q) (pt_Path p) = true).
Proof.
  split; [apply best_permutation; [apply table_unambiguous|done]|].
  intros p x vs Hb. apply best_Some in Hb as (_ & _ & Hp & Hall); [done|].
  intros p1 h1 p2 h2. rewrite <- Hperm. apply table_unambiguous.
Qed.

(** C17 The rate limiter: in any interval of the length of its window at most twice
    the allowance of an address gets through; and a request is refused only if at
    least the allowance got through from the same address within one window before
    it.  The sweep of old entries does not change that. *)
Theorem rate_limit_holds maxReqs window ip evs (Hchron : chronological evs) :
  (forall t, let_through ip (within window t) (rl_run maxReqs window evs).2 <= 2 * Z.max 1 maxReqs) /\
  (forall before now after, evs = before ++ Arrives now ip :: after ->
     (allow maxReqs window now ip (rl_run maxReqs window before).1).1 = false ->
     maxReqs <= let_through ip (fun at_ => now - window <=? at_) (rl_run maxReqs window before).2).
Proof.
  split; [intros t; by apply run_bounds|]. intros before now after -> Hno.
  apply refusal_earned; [|done].
  unfold chronological in *. rewrite fmap_app in *. cbn in *.
  change (now :: (event_time <$> after)) with ([now] ++ (event_time <$> after)) in Hchron.
  rewrite app_assoc in Hchron. by apply StronglySorted_app in Hchron as (_ & Hchron & _).
Qed.

(** ** The theorems at work on the demonstration server *)
#[export] Instance demo_parse : UUIDParse := fun s => unbits s ≫= (fun p => countable.decode p : option uuid).
#[export] Instance demo_parse_laws : UUIDParseLaws demo_parse demo_text.
Proof. split. intros u. unfold uuid_Parse, demo_parse, uuid_String, demo_text. rewrite unbits_bits. apply decode_encode. Defined.

#[export] Instance demo_upgrader : Upgrader := fun check w r =>
  if negb (check r) then Err (mkResponse 403 [] (Text "websocket: request origin not allowed by Upgrader.CheckOrigin"))
  else if is_Hijacker w then Ok tt
  else Err (mkResponse 500 [] (Text "websocket: response does not implement http.Hijacker")).
#[export] Instance demo_upgrader_laws : UpgraderLaws demo_upgrader.
Proof.
  split; intros check w r H; unfold Upgrade, demo_upgrader; rewrite H; cbn [negb].
  - destruct (check r); (eexists; split; [reflexivity|]); cbn; lia.
  - eexists. split; [reflexivity|]. cbn. lia.
Defined.

Definition demo_http : http_Config := mkHttpConfig true true ["https://chat.example.com"] 1048576 10 (60 * second).
Definition demo_cache_ttl : TTLConfig := mkTTLConfig (300 * second) (300 * second) (300 * second).
Definition demo_writer : ResponseWriter := mkWriter true.

Definition plain (method : string) (path : list string) (token : string) (fields : list (string * json)) : request :=
  mkRequest method path [] (match token with "" => [] | _ => [("Authorization", "Bearer " +:+ token)] end)
    "203.0.113.7:50000" (mkBody (Some (JObj fields)) 200) [] None None.

Definition http_register (name : string) : request :=
  plain "POST" ["api"; "v1"; "auth"; "register"] ""
    [("username", JStr name); ("email", JStr (name +:+ "@example.com")); ("password", JStr "correct horse")].

Definition demo_requests : list (ResponseWriter * request) :=
  [(demo_writer, http_register "alice"); (demo_writer, http_register "bob")].
Definition demo_clients : clients * world :=
  run_http (storage_of TypePostgres) demo_jwt_config 10 demo_cache_ttl demo_http None demo_requests (∅, initial_world).

Lemma demo_clients_ok : db_ok demo_clients.2.
Proof.
  exact (proj1 (run_http_steps TypePostgres demo_jwt_config 10 demo_cache_ttl demo_http false
    (fun e => False_ind _ (diff_false_true e)) demo_requests ∅ initial_world initial_world_ok)).
Qed.

Definition demo_serve (r : request) : served * (clients * world) :=
  app_server (storage_of TypePostgres) demo_jwt_config 10 demo_cache_ttl demo_http None demo_writer r demo_clients.
Definition status_of (a : served) : Z := match a with Ok rs => rs_Status rs | Err _ => 0 end.

Lemma requests_are_api_calls_witness :
  let '(a, st') := demo_serve (http_register "carol") in
  let '(v, st2) := app_api (storage_of TypePostgres) demo_jwt_config 10 demo_cache_ttl demo_http None (http_register "carol") demo_clients in
  st' = st2 /\ exists rs, a = Ok rs /\ fits v (rs_Status rs).
Proof. apply (requests_are_api_calls (storage_of TypePostgres) demo_jwt_config 10 demo_cache_ttl demo_http None). Defined.

(** Bob is registered already: 409. *)
Lemma refusals_change_nothing_witness :
  exists rs cl' s', demo_serve (http_register "bob") = (Ok rs, (cl', s')) /\ rs_Status rs = 409 /\
    view s' = view demo_clients.2.
Proof.
  assert (exists rs cl' s', demo_serve (http_register "bob") = (Ok rs, (cl', s')) /\ rs_Status rs = 409) as (rs & cl' & s' & Hrun & Hst).
  { assert (status_of (demo_serve (http_register "bob")).1 = 409) as Hst by (vm_compute; reflexivity).
    destruct (demo_serve (http_register "bob")) as [[rs|p] [cl' s']]; [|discriminate Hst].
    exists rs, cl', s'. split; [reflexivity|exact Hst]. }
  exists rs, cl', s'. split; [exact Hrun|]. split; [exact Hst|].
  apply (refusals_change_nothing TypePostgres demo_jwt_config 10 demo_cache_ttl demo_http false demo_writer (http_register "bob")
    demo_clients.1 demo_clients.2 rs cl' s').
  - discriminate.
  - exact demo_clients_ok.
  - rewrite <- surjective_pairing. exact Hrun.
  - clear Hrun. rewrite Hst. lia.
Defined.

(** Started from a configuration file, on MySQL with the in-memory cache. *)
Lemma http_application_is_safe_witness :
  exists store c h w1, newApplication (demo_app TypeMySQL TypeMock) initial_world = (Ok (store, c, h), w1) /\
    let st := drain h demo_requests (∅, w1) in
    status_of (h demo_writer (http_register "carol") st).1 = 201 /\ chat_wf (view st.2).
Proof.
  assert (is_ok (newApplication (demo_app TypeMySQL TypeMock) initial_world).1 = true) as Hok by (vm_compute; reflexivity).
  destruct (newApplication (demo_app TypeMySQL TypeMock) initial_world) as [[[[store c] h]|e] w1] eqn:Hnew; [|discriminate Hok].
  clear Hok.
  exists store, c, h, w1. split; [reflexivity|]. split.
  - pose proof (f_equal (fun x => match x with
      | (Ok (_, _, h), w1) => status_of (h demo_writer (http_register "carol") (drain h demo_requests (∅, w1))).1
      | _ => 0 end) Hnew) as Hs. cbv beta iota in Hs. rewrite <- Hs. vm_compute. reflexivity.
  - destruct (http_application_is_safe (demo_app TypeMySQL TypeMock) TypeMySQL store c h w1 demo_requests)
      as (_ & _ & Hwf & _); [reflexivity|exact Hnew| |exact Hwf].
    intros k [= <-]. split; [discriminate|exact demo_acked].
Defined.

Lemma protected_routes_need_a_token_witness :
  exists rs cl' s', demo_serve (plain "GET" ["api"; "v1"; "users"; "me"] "nonsense" []) = (Ok rs, (cl', s')) /\
    rs_Status rs = 401 /\ w_db s' = w_db demo_clients.2 /\ w_cache s' = w_cache demo_clients.2.
Proof.
  unfold demo_serve. destruct demo_clients as [cl s] eqn:Hd. clear Hd.
  apply (protected_routes_need_a_token (storage_of TypePostgres) demo_jwt_config 10 demo_cache_ttl demo_http None demo_writer
    (plain "GET" ["api"; "v1"; "users"; "me"] "nonsense" []) cl s
    (mkPattern "GET" (api [Lit "users"; Lit "me"])) R_GetMe []); [discriminate|vm_compute; reflexivity| |].
  { refine (proj1 (bool_decide_eq_false _) _). vm_compute. reflexivity. }
  intros token [= <-]. vm_compute. reflexivity.
Defined.

(** An access token of bob, from a login. *)
Definition bob_token : string :=
  match (demo_serve (plain "POST" ["api"; "v1"; "auth"; "login"] ""
           [("email", JStr "bob@example.com"); ("password", JStr "correct horse")])).1 with
  | Ok (mkResponse 200 _ (Doc (JObj [("data", JObj (("tokens", JObj (("access_token", JStr t) :: _)) :: _))]))) => t
  | _ => ""
  end.

Lemma websocket_never_opens_witness :
  status_of (demo_serve (plain "GET" ["api"; "v1"; "users"; "me"] bob_token [])).1 = 200 /\
  exists rs, (demo_serve (plain "GET" ["ws"] bob_token [])).1 = Ok rs /\ 400 <= rs_Status rs.
Proof.
  split; [vm_compute; reflexivity|]. unfold demo_serve. generalize bob_token, demo_clients. intros token st.
  apply (websocket_never_opens (storage_of TypePostgres) demo_jwt_config 10 demo_cache_ttl demo_http None demo_writer
    (plain "GET" ["ws"] token []) st (mkPattern "GET" [Lit "ws"]) []); [discriminate|vm_compute; reflexivity].
Defined.



Lemma routing_is_unambiguous_witness :
  best "DELETE" ["api"; "v1"; "chats"; "7"; "members"; "me"] (rev (table demo_http)) =
  best "DELETE" ["api"; "v1"; "chats"; "7"; "members"; "me"] (table demo_http).
Proof.
  apply (routing_is_unambiguous demo_http (rev (table demo_http)) "DELETE" ["api"; "v1"; "chats"; "7"; "members"; "me"]).
  apply Permutation_rev.
Defined.

Lemma rate_limit_holds_witness :
  let evs := [Arrives 0 "a"; Arrives 1 "b"; Arrives 2 "a"; Sweep 100; Arrives 101 "a"; Arrives 102 "a"] in
  let_through "a" (within 60 1) (rl_run 1 60 evs).2 <= 2 /\ (rl_run 1 60 evs).2 !! 2%nat = Some (mkDecision 2 "a" false).
Proof.
  split; [|vm_compute; reflexivity].
  apply (rate_limit_holds 1 60 "a" [Arrives 0 "a"; Arrives 1 "b"; Arrives 2 "a"; Sweep 100; Arrives 101 "a"; Arrives 102 "a"]).
  unfold chronological. cbn.
  repeat first [apply SSorted_nil|apply SSorted_cons|apply Forall_nil_2|apply Forall_cons_2]; lia.
Defined.
