(* ===== verification/ConfigClaims.v ===== *)
(** * Theorems on the configuration *)
From S2P Require Import Prelude Utf8 Domain Config ConfigSpec GoStd Json ChatUsecase MessageUsecase.
From S2P Require Import UserUsecase Store Schema World Sql SqlWf Postgres PostgresSpec Mysql MysqlSpec.
From S2P Require Import Storage Jwt App Cache Cached CachedApp Redis Http Handlers Middleware Router.
From S2P Require Import HttpRefinement HttpApp Example HttpClaims.
Open Scope Z_scope.

(** ** Defaults are filled in once *)
Lemma or_default_once s def : def <> "" -> or_default (or_default s def) def = or_default s def.
Proof.
  intros Hd. unfold or_default. destruct (is_empty s) eqn:E; [|by rewrite E].
  apply is_empty_false in Hd. by rewrite Hd.
Qed.

Lemma or_defaultZ_once n def : or_defaultZ (or_defaultZ n def) def = or_defaultZ n def.
Proof. unfold or_defaultZ. destruct (n =? 0) eqn:E; [by destruct (def =? 0)|by rewrite E]. Qed.

Lemma postgres_defaults_once c : PostgresConfig_SetDefaults (PostgresConfig_SetDefaults c) = PostgresConfig_SetDefaults c.
Proof. unfold PostgresConfig_SetDefaults. cbn. by rewrite !or_defaultZ_once, !or_default_once. Qed.

Lemma mysql_defaults_once c : MysqlConfig_SetDefaults (MysqlConfig_SetDefaults c) = MysqlConfig_SetDefaults c.
Proof. unfold MysqlConfig_SetDefaults. cbn. by rewrite !or_defaultZ_once, !or_default_once. Qed.

Lemma storage_defaults_once c : StorageConfig_SetDefaults (StorageConfig_SetDefaults c) = StorageConfig_SetDefaults c.
Proof.
  unfold StorageConfig_SetDefaults. cbn. rewrite or_default_once by done. f_equal.
  - destruct (storage_Postgres c); cbn; by rewrite ?postgres_defaults_once.
  - destruct (storage_MySQL c); cbn; by rewrite ?mysql_defaults_once.
Qed.

Lemma cache_defaults_once c : CacheConfig_SetDefaults (CacheConfig_SetDefaults c) = CacheConfig_SetDefaults c.
Proof.
  unfold CacheConfig_SetDefaults. cbn. rewrite or_default_once, !or_defaultZ_once by done. f_equal.
  destruct (cache_Redis c) as [r|]; [|done]. cbn. f_equal. destruct (is_empty (redis_Addr r)) eqn:E; [done|]. by rewrite E.
Qed.

Lemma jwt_defaults_once c : jwt_Config_SetDefaults (jwt_Config_SetDefaults c) = jwt_Config_SetDefaults c.
Proof. unfold jwt_Config_SetDefaults. cbn. by rewrite !or_defaultZ_once. Qed.

Lemma logger_defaults_once c : LoggerConfig_SetDefaults (LoggerConfig_SetDefaults c) = LoggerConfig_SetDefaults c.
Proof.
  unfold LoggerConfig_SetDefaults. cbn. rewrite !or_default_once by done. f_equal.
  destruct (logger_File c); [|done]. cbn. by rewrite !or_defaultZ_once.
Qed.

Lemma http_defaults_once c : HttpConfig_SetDefaults (HttpConfig_SetDefaults c) = HttpConfig_SetDefaults c.
Proof.
  unfold HttpConfig_SetDefaults. cbn [http_Host http_Port http_ReadTimeout http_WriteTimeout http_IdleTimeout
    http_AllowedOrigins http_RateLimit http_MaxBodyBytes http_TLS].
  rewrite !or_defaultZ_once, or_default_once by done. f_equal.
  destruct (rl_MaxRequests (http_RateLimit c) =? 0) eqn:E; [done|by rewrite E].
Qed.

Lemma delivery_defaults_once c : DeliveryConfig_SetDefaults (DeliveryConfig_SetDefaults c) = DeliveryConfig_SetDefaults c.
Proof.
  unfold DeliveryConfig_SetDefaults. cbn [delivery_Enabled delivery_HTTP delivery_WS]. rewrite http_defaults_once.
  f_equal; [by destruct (delivery_Enabled c)|]. unfold WsConfig_SetDefaults. cbn [ws_MaxMessageSize].
  by rewrite or_defaultZ_once.
Qed.

Lemma app_defaults_once c : AppConfig_SetDefaults (AppConfig_SetDefaults c) = AppConfig_SetDefaults c.
Proof.
  unfold AppConfig_SetDefaults. cbn [app_Storage app_Cache app_JWT app_Logger app_Hasher app_Delivery app_Profile].
  rewrite storage_defaults_once, jwt_defaults_once, logger_defaults_once, delivery_defaults_once. f_equal.
  - destruct (app_Cache c); [|done]. cbn. by rewrite cache_defaults_once.
  - unfold HasherConfig_SetDefaults. cbn. by rewrite or_defaultZ_once.
  - unfold ProfileConfig_SetDefaults. cbn. by rewrite or_default_once.
Qed.

Section configuration.
Context `{Strconv}.

(** C30 A decoded file is accepted exactly when, with its defaults filled in, it is
    sound: the named storage has its section; ports, pools and limits are in
    range; the secrets have at least 32 bytes and differ, and a refresh token
    outlives an access token; the cost is one bcrypt takes.  A file that is
    refused is refused with at least one field named; and what was accepted, would
    be accepted again unchanged. *)
Theorem loading_decides_soundness decoded :
  let cfg := AppConfig_SetDefaults decoded in
  (Load decoded = Ok cfg <-> app_sound cfg) /\
  (forall c, Load decoded = Ok c -> c = cfg /\ Load c = Ok c) /\
  (forall e, Load decoded = Err e -> exists errs, e = ValidationError errs /\ errs <> []).
Proof using.
  cbv zeta. split; [|split].
  - rewrite Load_Ok. split; [by intros [_ ?]|done].
  - intros c Hc. split; [by apply Load_Ok in Hc as [-> _]|]. apply Load_Ok in Hc as [-> Hs].
    apply Load_Ok. by rewrite app_defaults_once.
  - intros e He. unfold Load, AppConfig_Validate in He. destruct (ve_Err _) as [e'|] eqn:Hv; [|discriminate He].
    injection He as <-. apply ve_Err_Some in Hv. by eexists.
Qed.

(** An accepted configuration starts: if the driver takes the data source name made
    of it and the storage, and Redis when it is the cache, answer a ping, there is an
    application over the named storage with the cache asked for. *)
Theorem accepted_configuration_starts `{E : Env, C : Collation, U : UnicodeCI, J : GoJWT, UT : UUIDText, B : Bcrypt}
    `{UP : UUIDParse, UG : Upgrader, P : Pools, G : GoRedis} decoded cfg (w : world)
    (Hload : Load decoded = Ok cfg) (Hw : reachable_servers cfg w) :
  exists t c h w', newApplication cfg w = (Ok (storage_of t, c, h), w') /\
    storage_driver (app_Storage cfg) = Some t /\ (is_Some c <-> is_Some (app_Cache cfg)).
Proof using.
  apply Load_Ok in Hload as [-> (Hs & Hc & _)]. by apply newApplication_starts.
Qed.
End configuration.

(** ** The theorems at work *)
Lemma accepted_configuration_starts_witness :
  exists t c h w', newApplication (demo_app TypePostgres TypeRedis) initial_world = (Ok (storage_of t, c, h), w') /\
    storage_driver (app_Storage (demo_app TypePostgres TypeRedis)) = Some t /\
    (is_Some c <-> is_Some (app_Cache (demo_app TypePostgres TypeRedis))).
Proof.
  apply (accepted_configuration_starts (demo_document TypePostgres TypeRedis) (demo_app TypePostgres TypeRedis) initial_world).
  - vm_compute. reflexivity.
  - split; [intros p _; split; reflexivity|]. split; [reflexivity|]. intros k _ r w' _. reflexivity.
Defined.

(** When only the WebSocket API is enabled the HTTP section is not looked at,
    although the server is built from it: a negative port is accepted. *)
Definition ws_only : AppConfig :=
  let c := demo_document TypePostgres "none" in
  mkAppConfig (app_Storage c) None (app_JWT c) (app_Logger c) (app_Hasher c)
    (mkDeliveryConfig ["ws"] (mkHttpServerConfig "" (-1) 0 0 0 [] (mkRateLimitConfig 0 0) (-1) None) (mkWsConfig 0))
    (app_Profile c).

Theorem unused_section_is_not_checked :
  is_ok (Load ws_only) = true /\ http_Port (delivery_HTTP (app_Delivery (AppConfig_SetDefaults ws_only))) = -1 /\
  http_MaxBodyBytes (delivery_HTTP (app_Delivery (AppConfig_SetDefaults ws_only))) = -1.
Proof. split; [vm_compute; reflexivity|]. split; reflexivity. Qed.

(** A window given without an allowance is dropped with it. *)
Theorem window_alone_is_dropped c :
  rl_MaxRequests (http_RateLimit c) = 0 -> rl_Window (http_RateLimit (HttpConfig_SetDefaults c)) = 60 * second.
Proof. intros Hm. unfold HttpConfig_SetDefaults. cbn. by rewrite Hm. Qed.
