(* ===== verification/LifecycleClaims.v ===== *)
(** * Theorems on the processes, their log and their durations *)
From S2P Require Import Prelude Utf8 Domain Config ConfigSpec GoStd GoDuration Duration Json ChatUsecase MessageUsecase.
From S2P Require Import UserUsecase Store Schema World Sql SqlWf Postgres PostgresSpec Mysql MysqlSpec.
From S2P Require Import Storage Jwt App Cache Cached CachedApp Redis Http Handlers Middleware Router.
From S2P Require Import HttpRefinement HttpApp Logging Lifecycle Example HttpClaims.
Open Scope Z_scope.

(** C37 A duration of the configuration is read back from its text, in JSON and in YAML,
    whatever it is: the printer's units and decimals, and the parser's 64-bit and
    floating-point arithmetic, lose nothing.  And whatever JSON value is taken for
    a duration has 64 bits. *)
Theorem durations_roundtrip d (Hd : min_int <= d <= max_int) :
  Duration_UnmarshalJSON (Duration_MarshalJSON d) = Ok d /\
  (forall n, Duration_UnmarshalYAML (mkYamlNode (Duration_MarshalYAML d) n) = Ok d) /\
  (forall v d', Duration_UnmarshalJSON v = Ok d' -> min_int <= d' <= max_int).
Proof.
  split; [by apply UnmarshalJSON_text, ParseDuration_String|]. split; [|apply UnmarshalJSON_range].
  intros n. unfold Duration_UnmarshalYAML, Duration_MarshalYAML. cbn. by rewrite ParseDuration_String.
Qed.

(** [encoding/json] hands [null] to [UnmarshalJSON], which reads it as an empty text. *)
Theorem null_is_refused : Duration_UnmarshalJSON JsonNull = Err (ParseDurationError "" InvalidDuration).
Proof. done. Qed.

(** ** The log of the requests *)
Section logs.
Context {W : Type} `{ZL : Zerolog, US : UUIDSource (ST W), UT : UUIDText} {L : ZerologLaws ZL}.
Context (global : logger).

(** C38 The chain of [newApplication], with its log, is the chain of the other theorems
    but for the lines it writes; and for any request it writes only what the
    handlers below [RequestID] write: [RequestLogger] and [Recovery] stand outside
    [RequestID], find no logger in the context, and neither the access log nor a
    recovered panic leaves a line, although [RequestLogger] in a context with a
    logger writes one line whenever the level of the status is enabled. *)
Theorem requests_leave_no_log origins maxBytes (next : LHandler) (h : Handler (ST W)) w r out s
    (Hnext : erases_to next h) :
  let '(a, (out', s')) := l_httpHandler global origins maxBytes next None w r (out, s) in
  Recovery (RequestLogger (RequestID (CORS origins (LimitBody maxBytes h)))) w r s = (a, s') /\
  out' = inner_lines global origins maxBytes next w r (out, s) /\
  (forall l rs, (next (Some l) (statusWriter w) r (out, s)).1 = Ok rs ->
     exists lines, (l_RequestLogger next (Some l) w r (out, s)).2.1 =
         (next (Some l) (statusWriter w) r (out, s)).2.1 ++ lines /\
       length lines = if zl_Enabled l (logEvent (rs_Status rs)) then 1%nat else 0%nat).
Proof using L.
  pose proof (l_httpHandler_lines global origins maxBytes next w r (out, s)) as Hlines.
  destruct (l_httpHandler_erases global origins maxBytes next h Hnext None w r out s) as [out' E].
  rewrite E in *. cbn [fst snd] in *. split; [by rewrite <- surjective_pairing|]. split; [done|].
  intros l rs. apply l_RequestLogger_lines.
Qed.
End logs.

(** ** The processes *)

(** C39 However the goroutines of the process, its connections, their queries and the
    signal interleave: [main] moves, and the server is shut down, only after a
    signal, and [main] never goes back.  The storage is open until both [Shutdown]s
    have returned, and refuses queries from then on, while the process may still be
    serving; the cache is open until the storage is closed; both are closed at the
    exit.  If the server was drained no request is served any more when the storage
    is closed; if the driver's close waits for the queries in progress, none is cut.
    And a process that was signalled can always reach its exit. *)
Theorem shutdown_is_orderly pprofEnabled close_waits cached p (Hr : reachable pprofEnabled close_waits cached p) :
  (ps_main p <> MainWaiting \/ ps_http p = ShutDown -> ps_signalled p = true) /\
  (forall q, process_step pprofEnabled close_waits p q -> (main_rank (ps_main p) <= main_rank (ps_main q))%nat) /\
  (ps_http p = ShutDown <-> (2 <= main_rank (ps_main p))%nat) /\
  (ps_store_open p = false <-> (3 <= main_rank (ps_main p))%nat) /\
  (ps_cache_open p = true <-> cached = true /\ (main_rank (ps_main p) <= 3)%nat) /\
  (forall d, ps_main p = MainClosingStore d \/ ps_main p = MainClosingCache d \/ ps_main p = MainExited d ->
     d = true -> ps_active p = 0%nat) /\
  (close_waits = true -> (4 <= main_rank (ps_main p))%nat -> ps_querying p = 0%nat) /\
  (ps_signalled p = true -> exists q, rtc (process_step pprofEnabled close_waits) p q /\ exited q).
Proof.
  pose proof (reachable_orderly _ _ _ _ Hr) as [_ Ho].
  split; [destruct (ps_main p); intuition congruence|]. split; [intros q; apply main_moves_on|].
  split_and!; [| | | |by destruct (ps_main p); cbn in *; intuition lia|apply signalled_can_exit].
  1-3: destruct (ps_main p); cbn in *; destruct cached; intuition (congruence || lia).
  intros d Hd ->. destruct Hd as [E|[E|E]]; rewrite E in Ho; tauto.
Qed.

(** The side conditions of a step of a process that is known. *)
Ltac at_once := unfold alive; cbn; first [done|lia].

(** The thirty seconds over, the storage is closed under the requests still being
    served: they go on, the storage refuses their queries, and they are cut off when
    the process exits. *)
Theorem late_requests_lose_the_storage pprofEnabled close_waits cached :
  (exists p, reachable pprofEnabled close_waits cached p /\ alive p /\ ps_active p = 1%nat /\ ps_store_open p = false) /\
  (exists p, reachable pprofEnabled close_waits cached p /\ exited p /\ ps_active p = 1%nat) /\
  (forall p q, reachable pprofEnabled close_waits cached p -> ps_store_open p = false ->
     process_step pprofEnabled close_waits p q -> (ps_querying q <= ps_querying p)%nat).
Proof.
  set (p0 := set_run RunServing (set_http Listening
    (set_run RunListen (if pprofEnabled then set_pprof (Some Fresh) (running cached) else running cached)))).
  assert (reachable pprofEnabled close_waits cached (set_active (S (ps_active p0)) p0)) as H0.
  { eapply rtc_l; [apply run_profiler; at_once|]. eapply rtc_l; [apply run_listen; destruct pprofEnabled; at_once|].
    apply rtc_once, request_starts; subst p0; destruct pprofEnabled; at_once. }
  assert (exists p, reachable pprofEnabled close_waits cached p /\ ps_main p = MainClosingStore false /\
    ps_active p = 1%nat /\ ps_querying p = 0%nat) as (p & Hr & Hm & Ha & Hq).
  { exists (close_store false (stop_http (if pprofEnabled then Stop (signal (set_active (S (ps_active p0)) p0)) else signal (set_active (S (ps_active p0)) p0)))).
    split; [|by destruct pprofEnabled]. unfold reachable. etrans; [exact H0|].
    eapply rtc_l; [apply interrupt; destruct pprofEnabled; at_once|].
    eapply rtc_l; [by apply main_stops; destruct pprofEnabled|].
    destruct pprofEnabled; cbn.
    - eapply rtc_l; [by apply main_pprof_stopped|]. by eapply rtc_once, main_times_out.
    - by eapply rtc_once, main_times_out. }
  pose proof (reachable_orderly _ _ _ _ Hr) as [_ Ho]. rewrite Hm in Ho. split; [|split].
  - exists p. unfold alive. rewrite Hm. cbn. split_and!; try done; [lia|tauto].
  - pose proof (main_store_closed pprofEnabled close_waits p false Hm (fun _ => Hq)) as Hc.
    destruct (ps_cache_open p) eqn:Hca.
    + exists (set_main (MainExited false) (close_cache false p)). split; [|by split; [eexists|]].
      eapply rtc_r; [by eapply rtc_r|]. apply main_cache_closed. cbn. by rewrite Hca.
    + exists (close_cache false p). split; [by eapply rtc_r|]. split; [|done]. exists false. cbn. by rewrite Hca.
  - intros p1 q1 _ Hst Hs. destruct Hs; unfold Stop, stop_http in *; cbn in *; try lia; try congruence;
      try (destruct pprofEnabled; cbn; lia). destruct (ps_pprof _); cbn; lia.
Qed.

(** When [ListenAndServe] fails, as on a port in use, the process stays: nothing but
    a signal makes [main] move, no server ever listens again, and the storage stays
    open; this is reachable without any signal. *)
Theorem failed_server_waits pprofEnabled close_waits cached :
  (exists p, reachable pprofEnabled close_waits cached p /\ ps_run p = RunDone true /\ ps_signalled p = false) /\
  (forall p p', reachable pprofEnabled close_waits cached p -> ps_run p = RunDone true -> rtc (process_step pprofEnabled close_waits) p p' ->
     ps_http p' <> Listening /\
     (ps_signalled p' = false -> ps_main p' = MainWaiting /\ ps_store_open p' = true)).
Proof.
  split.
  - exists (set_run (RunDone true) (set_run RunListen (if pprofEnabled then set_pprof (Some Fresh) (running cached) else running cached))).
    split; [|by destruct pprofEnabled]. eapply rtc_l; [apply run_profiler; at_once|].
    eapply rtc_once, run_listen_fails; destruct pprofEnabled; at_once.
  - intros p p' Hr Hd Hs. assert (reachable pprofEnabled close_waits cached p') as Hr' by (unfold reachable in *; by etrans).
    pose proof (steps_done _ _ _ _ _ Hd Hs) as Hd'. split.
    + intros Hh. apply (reachable_listens _ _ _ _ Hr') in Hh. congruence.
    + intros Hsig. pose proof (reachable_orderly _ _ _ _ Hr') as [_ Ho].
      destruct (ps_main p'); intuition congruence.
Qed.

(** [Stop] may come before [Run] has set [pprofSrv]: the profiler then starts
    listening after the shutdown. *)
Theorem profiler_may_outlive_stop close_waits :
  exists p, reachable true close_waits false p /\ ps_http p = ShutDown /\ ps_pprof p = Some Listening.
Proof.
  exists (set_pprof (Some Listening) (set_run RunListen (set_pprof (Some Fresh) (Stop (signal (running false)))))).
  split; [|done]. eapply rtc_l; [apply interrupt; at_once|]. eapply rtc_l; [by apply main_stops|].
  eapply rtc_l; [apply run_profiler; at_once|]. eapply rtc_once, pprof_listen; at_once.
Qed.

Section start.
Context `{E : Env, C : Collation, U : UnicodeCI, J : GoJWT, UT : UUIDText, B : Bcrypt, UP : UUIDParse, UG : Upgrader}.
Context `{SQ : Strconv, P : Pools, G : GoRedis, F : Files, ZL : Zerolog, LO : Lowering, O : OS (ST world)}.
Context {L : ZerologLaws ZL} {LL : LoweringLaws LO}.

Lemma read_config_Ok {A} (yaml json : string -> res A) unsupported path cfg :
  read_config yaml json unsupported path = Ok cfg ->
  filepath_Ext path ∈ [".yaml"; ".yml"; ".json"].
Proof using.
  unfold read_config. destruct (os_Open path); [|done]. case_bool_decide as Hy.
  - intros _. rewrite !elem_of_cons in *. tauto.
  - case_bool_decide as Hj; [|done]. intros _. rewrite Hj. by repeat constructor.
Qed.

(** The log section of a loaded configuration is set up as it asks. *)
Lemma loaded_logger_is_set_up decoded cfg w :
  Load decoded = Ok cfg ->
  exists w', Setup (app_Logger cfg) w = (Ok (zl_New (asked_writer (app_Logger cfg)) (asked_level (app_Logger cfg))), w').
Proof using LL L.
  intros Hload. apply Load_Ok in Hload as [-> (_ & _ & _ & Hlog & _)]. apply Setup_sound; [done|].
  cbn. unfold or_default. by destruct (is_empty (logger_Level (app_Logger decoded))) eqn:Hl; [|apply is_empty_false in Hl].
Qed.

(** C40 The process starts from a configuration file exactly as far as the file allows:
    one that cannot be opened, has no known extension, is not decoded or not
    accepted ends it with status 1 before anything is touched; an accepted one sets
    the log up with the level and the writer it names, never failing on it
    whatever the operating system answers; and if the driver takes the data source
    name this configuration makes, and the storage and Redis, when it is the cache,
    answer a ping, the application serves over the named storage with the cache
    asked for. *)
Theorem process_starts path w :
  (forall e, LoadFile path = Err e -> app_main path w = (Exit 1, w)) /\
  (forall cfg, LoadFile path = Ok cfg ->
     filepath_Ext path ∈ [".yaml"; ".yml"; ".json"] /\
     exists w1, Setup (app_Logger cfg) w =
         (Ok (zl_New (asked_writer (app_Logger cfg)) (asked_level (app_Logger cfg))), w1) /\
       (reachable_servers cfg w1 ->
        exists t c h w2,
          app_main path w = (Serving cfg (zl_New (asked_writer (app_Logger cfg)) (asked_level (app_Logger cfg)))
            (storage_of t) c h (running (bool_decide (is_Some (app_Cache cfg)))), w2) /\
          storage_driver (app_Storage cfg) = Some t /\ (is_Some c <-> is_Some (app_Cache cfg)))).
Proof using LL L.
  split; [by intros e He; unfold app_main; rewrite He|]. intros cfg Hcfg.
  pose proof Hcfg as Hfile. unfold LoadFile in Hfile.
  destruct (read_config _ _ _ path) as [decoded|e] eqn:Hread; [|done]. apply read_config_Ok in Hread. split; [done|].
  destruct (Load decoded) as [cfg'|e] eqn:Hload; [|done]. injection Hfile as ->.
  destruct (loaded_logger_is_set_up decoded cfg w Hload) as [w1 Hsetup]. exists w1. split; [done|]. intros Hw.
  apply Load_Ok in Hload as [-> (Hs & Hc & _)]. destruct (newApplication_starts _ w1 Hs Hc Hw) as (t & c & h & w2 & Hnew & Ht & Hcache).
  exists t, c, h, w2. unfold app_main. rewrite Hcfg.
  rewrite (run_bind _ _ _ _ _ Hsetup). by rewrite (run_bind _ _ _ _ _ Hnew).
Qed.

(** The migration tool exits with 0 exactly when the file was accepted and the
    migrations of its storage were applied, or there was none to apply. *)
Theorem migrate_status `{MG : Migrate} path w :
  (migrate_main path w).1 = 0 <->
  exists cfg lg dsn source w1 w2 u w3, LoadMigrateFile path = Ok cfg /\ Setup (migrate_Logger cfg) w = (Ok lg, w1) /\
    migrate_target cfg = Ok (dsn, source) /\ migrate_New source dsn w1 = (Ok tt, w2) /\ mig_Up w2 = (u, w3) /\
    (u = Ok tt \/ u = Err ErrNoChange).
Proof using.
  unfold migrate_main. split.
  - destruct (LoadMigrateFile path) as [cfg|e]; [|done].
    destruct (Setup (M := ST world) (migrate_Logger cfg) w) as [[lg|pn] w1] eqn:Hs; rewrite (run_bind _ _ _ _ _ Hs); [|done].
    destruct (migrate_target cfg) as [[dsn source]|e] eqn:Ht; [|done].
    destruct (migrate_New source dsn w1) as [[[]|e] w2] eqn:Hn; rewrite (run_bind _ _ _ _ _ Hn); [|done].
    destruct (mig_Up w2) as [u w3] eqn:Hu. rewrite (run_bind _ _ _ _ _ Hu).
    intros H0. exists cfg, lg, dsn, source, w1, w2, u, w3. split_and!; try done.
    destruct u as [[]|[]]; [by left|by right|done].
  - intros (cfg & lg & dsn & source & w1 & w2 & u & w3 & -> & Hs & Ht & Hn & Hu & Hcase).
    rewrite (run_bind _ _ _ _ _ Hs), Ht, (run_bind _ _ _ _ _ Hn), (run_bind _ _ _ _ _ Hu).
    by destruct Hcase as [-> | ->].
Qed.
End start.

(** ** The theorems at work *)

(** A logger: none, or a level; a line is its message. *)
Definition demo_zerolog : Zerolog := {|
  logger := option Level;
  zl_ParseLevel s := snd <$> list_find (fun l => level_text l = s) levels;
  zl_New _ l := Some l;
  zl_Str _ _ l := l;
  zl_Ctx o := default None o;
  zl_Enabled l lvl := match l with Some l => level_rank l <=? level_rank lvl | None => false end;
  zl_Msg l lvl _ msg := match l with Some l => if level_rank l <=? level_rank lvl then [msg] else [] | None => [] end |}.
#[local] Existing Instance demo_zerolog.
Definition demo_log : logger := Some InfoLevel.

#[local] Instance demo_zerolog_laws : ZerologLaws demo_zerolog.
Proof.
  split; try reflexivity.
  - intros [l|] lvl fields msg; cbn; [|reflexivity]. destruct (level_rank l <=? level_rank lvl); reflexivity.
  - intros l. destruct l; reflexivity.
Defined.

#[local] Instance demo_lowering : Lowering := fun s =>
  default s (snd <$> list_find (fun w => lowers_to s w = true) validLevels).
Definition distinct_levels : bool :=
  forallb (fun a => forallb (fun b => bool_decide (runes a = runes b -> a = b)) validLevels) validLevels.

#[local] Instance demo_lowering_laws : LoweringLaws demo_lowering.
Proof.
  split. intros s w Hw Hl. unfold ToLower, demo_lowering.
  destruct (list_find (fun w => lowers_to s w = true) validLevels) as [[i v]|] eqn:Hf.
  - apply list_find_Some in Hf as (Hi & Hv & _). cbn. unfold lowers_to in *.
    apply bool_decide_eq_true in Hl, Hv. rewrite Hl in Hv. apply list_elem_of_lookup_2 in Hi.
    assert (distinct_levels = true) as Hd by (vm_compute; reflexivity). unfold distinct_levels in Hd.
    rewrite forallb_forall in Hd. specialize (Hd v (proj1 (list_elem_of_In _ _) Hi)).
    rewrite forallb_forall in Hd. specialize (Hd w (proj1 (list_elem_of_In _ _) Hw)).
    apply bool_decide_eq_true in Hd. apply Hd. symmetry. exact Hv.
  - apply list_find_None in Hf. rewrite Forall_forall in Hf. destruct (Hf w Hw Hl).
Defined.

(** An operating system that refuses everything. *)
#[local] Instance demo_os : OS (ST world) := {|
  filepath_Dir s := s;
  os_MkdirAll _ _ := mret (Err (Other "permission denied"));
  os_OpenFile _ _ := mret (Err (Other "permission denied"));
  os_Chmod _ _ := mret (Err (Other "permission denied"));
  os_Chown _ _ _ := mret (Err (Other "permission denied"));
  user_Lookup _ := mret (Err (Other "unknown user"));
  user_LookupGroup _ := mret (Err (Other "unknown group")) |}.

#[local] Instance demo_files : Files := {|
  os_Open path := if bool_decide (path = "configs/app.yaml") then Ok "" else Err (Other "no such file or directory");
  yaml_Decode _ := Ok (demo_document TypePostgres TypeRedis);
  json_Decode _ := Err (Other "invalid character");
  yaml_DecodeMigrate _ := Err (Other "EOF");
  json_DecodeMigrate _ := Err (Other "EOF") |}.

Lemma durations_roundtrip_witness :
  Duration_String (- (90 * minute) - 1500000) = "-1h30m0.0015s" /\
  Duration_UnmarshalJSON (Duration_MarshalJSON (- (90 * minute) - 1500000)) = Ok (- (90 * minute) - 1500000).
Proof.
  split; [vm_compute; reflexivity|].
  exact (proj1 (durations_roundtrip (- (90 * minute) - 1500000) ltac:(vm_compute; split; discriminate))).
Defined.

(** A handler that panics, and says so to the logger it is given. *)
Definition demo_panicking : LHandler (W := world) := fun ctx _ _ =>
  let* _ := write (zl_Msg (zl_Ctx ctx) InfoLevel [] "going down") in
  mret (Err (mkPanic "oops" [])).

Lemma requests_leave_no_log_witness :
  exists a s', l_httpHandler demo_log [] 1024 demo_panicking None (mkWriter true)
      (plain "GET" ["api"; "v1"; "chats"] "" []) ([], initial_world) = (a, (["going down"], s')) /\
    (Recovery (RequestLogger (RequestID (CORS [] (LimitBody 1024 (fun _ _ => mret (Err (mkPanic "oops" []))))))) (mkWriter true)
      (plain "GET" ["api"; "v1"; "chats"] "" []) initial_world : served * world) = (a, s').
Proof.
  pose proof (requests_leave_no_log demo_log [] 1024 demo_panicking (fun _ _ => mret (Err (mkPanic "oops" [])))
    (mkWriter true) (plain "GET" ["api"; "v1"; "chats"] "" []) [] initial_world) as H.
  destruct (l_httpHandler demo_log [] 1024 demo_panicking None (mkWriter true)
      (plain "GET" ["api"; "v1"; "chats"] "" []) ([], initial_world)) as [a [out s']] eqn:Hrun.
  destruct H as (Hr & Hout & _).
  - intros ctx w r out0 s0. eexists. reflexivity.
  - exists a, s'. split; [|exact Hr]. rewrite Hout. vm_compute. reflexivity.
Defined.

(** A signal, and the server drained at once. *)
Lemma shutdown_is_orderly_witness :
  let p := close_store true (stop_http (signal (running true))) in
  reachable false true true p /\ ps_active p = 0%nat /\ ps_cache_open p = true /\
  exists q, rtc (process_step false true) p q /\ exited q.
Proof.
  cbv zeta. assert (reachable false true true (close_store true (stop_http (signal (running true))))) as Hr.
  { eapply rtc_l; [apply interrupt; at_once|]. eapply rtc_l; [apply main_stops; reflexivity|].
    eapply rtc_once, main_drained; reflexivity. }
  destruct (shutdown_is_orderly false true true _ Hr) as (_ & _ & _ & _ & Hcache & Hdrained & _ & Hgo).
  split; [exact Hr|]. split; [exact (Hdrained true (or_introl eq_refl) eq_refl)|].
  split; [apply Hcache; split; [reflexivity|cbn; lia]|exact (Hgo eq_refl)].
Defined.

Lemma process_starts_witness :
  app_main "configs/app.toml" initial_world = (Exit 1, initial_world) /\
  exists t c h w2, app_main "configs/app.yaml" initial_world =
    (Serving (demo_app TypePostgres TypeRedis) demo_log (storage_of t) c h (running true), w2).
Proof.
  split.
  - destruct (LoadFile "configs/app.toml") as [cfg|e] eqn:He; [vm_compute in He; discriminate He|].
    exact (proj1 (process_starts "configs/app.toml" initial_world) e He).
  - destruct (proj2 (process_starts "configs/app.yaml" initial_world) (demo_app TypePostgres TypeRedis)) as (_ & w1 & Hs & Hgo).
    { vm_compute. reflexivity. }
    destruct Hgo as (t & c & h & w2 & Hrun & _).
    { split; [intros p _; split; reflexivity|].
      assert (w1 = initial_world) as -> by (pose proof (f_equal snd Hs) as E; exact (eq_sym E)).
      split; [reflexivity|]. intros k _ r w' _. reflexivity. }
    exists t, c, h, w2. exact Hrun.
Defined.
