(* ===== verification/WsClaims.v ===== *)
(** * Theorems on the WebSocket hub

    The connections behind a writer that can be hijacked, as the handler is meant
    to be mounted. *)
From S2P Require Import Prelude Utf8 Domain Config GoStd Json ChatUsecase MessageUsecase UserUsecase Store.
From S2P Require Import Schema World Sql SqlWf SqlRules SqlReads Postgres PostgresSpec Mysql.
From S2P Require Import MysqlSpec Storage ChatContract ChatRefinement MessageRefinement.
From S2P Require Import UserRefinement Jwt System App Cache Cached CachedApp Http Handlers.
From S2P Require Import Middleware Router HttpRefinement Ws WsInvariant HttpApp OnPostgres Example.
From S2P Require Import HttpClaims.
Open Scope Z_scope.

(** A broadcast offers the event to every client in the room of the chat except
    those of the excluded user: the frame is appended to the buffers that have
    room, dropped for the full ones, and every other client is left as it was,
    whatever the order the room is walked in. *)
Theorem broadcast_reaches_the_room chatID e exclude h k :
  hub_rooms (BroadcastToChat chatID e exclude h) = hub_rooms h /\
  hub_heap (BroadcastToChat chatID e exclude h) !! k =
  (fun c =>
     if bool_decide (k ∈ room (hub_rooms h) chatID) && negb (bool_decide (cl_userID c = exclude))
        && (length (cl_send c) <? sendBufferSize)%nat
     then mkClient (cl_userID c) (cl_chatIDs c) (cl_send c ++ [marshal_Event e]) else c) <$> hub_heap h !! k.
Proof.
  split; [apply BroadcastToChat_rooms|]. rewrite BroadcastToChat_heap. destruct (hub_heap h !! k) as [c|]; [|done].
  cbn [fmap option_fmap option_map]. f_equal.
  destruct (bool_decide (k ∈ _)); [|done]. unfold receives, offer.
  by destruct (bool_decide (cl_userID c = exclude)), (length (cl_send c) <? sendBufferSize)%nat.
Qed.

Section deployment.
Context `{E : Env, J : GoJWT, UT : UUIDText, B : Bcrypt, UP : UUIDParse, UG : Upgrader}.
Context (jwt : jwt_Config) (cost maxSize : Z) (ttl : TTLConfig) (http : http_Config).

(** C16 Whatever connections, frames, writes, disconnections, broadcasts and API
    requests the server has seen, over either storage without a cache, or with the
    in-memory cache as long as executed statements are acknowledged: a client is in
    the room of a chat exactly when its connection is open and the chat is in its
    list; no buffer holds more than 256 frames; and every client was made by one of
    the handshakes, asked for by its user, with an empty buffer and in its list
    exactly the chats that were there with its user as a member at that moment. *)
Theorem rooms_are_subscriptions `{C : Collation, U : UnicodeCI, UL : !UnicodeCILaws U, L : !UUIDTextLaws UT}
    t in_memory (Hacked : in_memory = true -> ~ world_loss) evs s (Hs : app_inv t in_memory s) :
  let events := fun evs => app_events (storage_of t) jwt cost ttl http (cache_in in_memory) maxSize evs s in
  let clients := fun evs => hub_heap (ws_hub (events evs)) in
  let db := fun evs => view (ws_services (events evs)) in
  (forall chat k, k ∈ room (hub_rooms (ws_hub (events evs))) chat <->
     k ∈ ws_open (events evs) /\ exists cl, clients evs !! k = Some cl /\ chat ∈ cl_chatIDs cl) /\
  (forall k cl, clients evs !! k = Some cl -> (length (cl_send cl) <= 256)%nat /\
     exists before w r after, evs = before ++ Connects w r :: after /\
       clients before !! k = None /\
       clients (before ++ [Connects w r]) !! k = Some (mkClient (cl_userID cl) (cl_chatIDs cl) []) /\
       rq_UserID r = Some (cl_userID cl) /\
       forall chat, chat ∈ cl_chatIDs cl <->
         is_member (db before) chat (cl_userID cl) /\ is_Some (st_chats (db before) !! chat)).
Proof.
  cbv zeta. assert (ws_ok (app_events (storage_of t) jwt cost ttl http (cache_in in_memory) maxSize evs s)) as [Hrooms _ Hbuf]
    by apply ok_run, ok_start.
  split; [exact Hrooms|]. intros k cl Hk. split; [exact (Hbuf k cl Hk)|].
  destruct (app_events_members t jwt cost ttl http in_memory Hacked maxSize evs s k cl Hs Hk)
    as (before & w & r & after & -> & Hnone & Hmade & Hu & Hm).
  exists before, w, r, after. split_and!; [done|exact Hnone| |exact Hu|exact Hm].
  unfold app_events, ws_run in *. rewrite foldl_app. exact Hmade.
Qed.

(** CORS takes ["*"] for any origin, the handshake for the one text ["*"]: with it in
    the configuration no browser connects. *)
Theorem star_is_no_wildcard_for_sockets (r : request) (Ho : header r "Origin" <> "*") :
  (forall origin, isAllowed ["*"] origin = true) /\ checkOrigin ["*"] r = false.
Proof using.
  split; [done|]. unfold checkOrigin. rewrite !bool_decide_eq_false_2; [done| |done].
  by intros [?|[]%elem_of_nil]%elem_of_cons.
Qed.

Context (store : Storage) (c : option (Cache (ST world))).
#[local] Instance here_chats : chat_UseCase (ST world) := ws_chats store ttl c.
#[local] Instance here_users : user_UseCase (ST world) := ws_users store jwt cost ttl c.
Abbreviation events := (app_events store jwt cost ttl http c maxSize).
Abbreviation the_call := (app_call store jwt cost ttl c).

(** C23 What a frame read from a client does to the others: a client [k] is changed by it
    exactly when both connections are open, the frame is within the size limit, if
    there is one, and is an event of a chat that both clients have in their lists,
    the users differ and the buffer of [k] has room; then that event, and nothing
    else, is appended to the buffer of [k]. *)
Theorem events_stay_in_the_chat evs s j f k ck (Hk : hub_heap (ws_hub (events evs s)) !! k = Some ck) :
  let st := events evs s in
  let st' := events (evs ++ [Sends j f]) s in
  let reached ce cj :=
    hub_heap (ws_hub st) !! j = Some cj /\ (0 < maxSize -> fr_size f <= maxSize) /\
    (exists doc, fr_doc f = Some doc /\ decode_clientEvent doc = Ok ce) /\
    ce_ChatID ce ∈ cl_chatIDs cj /\ ce_ChatID ce ∈ cl_chatIDs ck /\ cl_userID ck <> cl_userID cj /\
    (length (cl_send ck) < sendBufferSize)%nat in
  (hub_heap (ws_hub st') !! k = Some ck /\
   ~ (j ∈ ws_open st /\ k ∈ ws_open st /\ exists ce cj, reached ce cj)) \/
  (j ∈ ws_open st /\ k ∈ ws_open st /\ exists ce cj, reached ce cj /\
   hub_heap (ws_hub st') !! k =
     Some (mkClient (cl_userID ck) (cl_chatIDs ck)
             (cl_send ck ++ [JObj [("type", marshal_string (ce_Type ce)); ("payload", ce_Payload ce)]]))).
Proof.
  cbv zeta. assert (ws_ok (events evs s)) as Hok by apply ok_run, ok_start.
  pose proof (frame_heard (hc_AllowedOrigins http) maxSize the_call j f k ck _ Hok Hk) as H.
  unfold app_events, ws_run in *. rewrite foldl_app. exact H.
Qed.

(** C22 What is written to a client, with what still waits in its buffer, is a
    selection in order of the frames addressed to it: nothing is invented, repeated
    or reordered; and nothing is lost as long as 256 frames suffice. *)
Theorem frames_arrive_in_order evs st k cl (Hk : hub_heap (ws_hub st) !! k = Some cl) :
  let st' := ws_run (hc_AllowedOrigins http) maxSize the_call evs st in
  let sent := over_run (hc_AllowedOrigins http) maxSize the_call (wire k) evs st in
  let meant := over_run (hc_AllowedOrigins http) maxSize the_call (addressed maxSize k) evs st in
  exists cl', hub_heap (ws_hub st') !! k = Some cl' /\
    sent ++ cl_send cl' `sublist_of` cl_send cl ++ meant /\
    ((length (cl_send cl) + length meant <= sendBufferSize)%nat -> sent ++ cl_send cl' = cl_send cl ++ meant).
Proof.
  destruct (run_client (hc_AllowedOrigins http) maxSize the_call k evs st cl Hk) as (cl' & H1 & _ & _ & H2 & H3). by exists cl'.
Qed.
End deployment.

(** ** The demonstration: carol and bob listen, bob is removed from the group *)
#[local] Instance demo_ws_chats : chat_UseCase (ST world) := ws_chats (storage_of TypePostgres) demo_cache_ttl None.
#[local] Instance demo_ws_users : user_UseCase (ST world) := ws_users (storage_of TypePostgres) demo_jwt_config 10 demo_cache_ttl None.

Definition handshake (u : uuid) : ws_event :=
  Connects demo_writer (mkRequest "GET" ["ws"] [] [("Origin", "https://chat.example.com")] "" (mkBody None 0) [] (Some u) None).
Definition says (k : nat) (chat : uuid) (text : string) : ws_event :=
  Sends k (mkFrame 100 (Some (JObj [("type", JStr "typing"); ("chat_id", JStr (uuid_String chat)); ("payload", JStr text)]))).
Definition demo_events (evs : list ws_event) : ws_state world :=
  app_events (storage_of TypePostgres) demo_jwt_config 10 demo_cache_ttl demo_http None 4096 evs (demo_run demo_setup).
Definition queued (k : nat) (st : ws_state world) : list json :=
  match hub_heap (ws_hub st) !! k with Some c => cl_send c | None => [] end.
Definition presence (u : uuid) (st : ws_state world) : option UserStatus :=
  user_Status <$> st_users (view (ws_services st)) !! u.

(** Removing a member does not touch its open connections: the removed member
    keeps receiving the events of the chat, and can still send events to it. *)
Theorem removed_member_still_listens :
  let st := demo_events [handshake bob; handshake carol; Calls (ChatCall alice (CallRemoveMember team bob));
                         says 1 team "secret"; says 0 team "hello"] in
  role_of (view (ws_services st)) team bob = None /\
  queued 0 st = [JObj [("type", JStr "typing"); ("payload", JStr "secret")]] /\
  queued 1 st = [JObj [("type", JStr "typing"); ("payload", JStr "hello")]].
Proof. vm_compute. done. Qed.

(** Presence is not counted per connection: a user with two connections is shown
    offline as soon as one of them closes, while the other is still open. *)
Theorem closing_one_of_two_shows_offline :
  let st := demo_events [handshake bob; handshake bob; Closes 0] in
  1%nat ∈ ws_open st /\ presence bob st = Some UserStatusOffline /\
  presence bob (demo_events [handshake bob; handshake bob]) = Some UserStatusOnline.
Proof. cbv zeta. split; [demo_check|]. split; vm_compute; reflexivity. Qed.

(** Carol's list is what she was a member of at her handshake, the second event. *)
Lemma rooms_are_subscriptions_witness :
  let evs := [handshake bob; handshake carol; Closes 0] in
  room (hub_rooms (ws_hub (demo_events evs))) team = {[1%nat]} /\
  exists cl before w r after, hub_heap (ws_hub (demo_events evs)) !! 1%nat = Some cl /\
    evs = before ++ Connects w r :: after /\ team ∈ cl_chatIDs cl /\
    is_member (view (ws_services (demo_events before))) team (cl_userID cl).
Proof.
  cbv zeta. split; [vm_compute; reflexivity|].
  destruct (rooms_are_subscriptions demo_jwt_config 10 4096 demo_cache_ttl demo_http TypePostgres false
    (fun e => False_ind _ (diff_false_true e)) [handshake bob; handshake carol; Closes 0] (demo_run demo_setup)
    (demo_ok demo_setup)) as [Hrooms Hclients].
  destruct (proj1 (Hrooms team 1%nat)) as (_ & cl & Hcl & Hin).
  { refine (proj1 (bool_decide_eq_true _) _). vm_compute. reflexivity. }
  destruct (Hclients 1%nat cl Hcl) as (_ & before & w & r & after & Hevs & _ & _ & _ & Hm).
  exists cl, before, w, r, after. split; [exact Hcl|]. split; [exact Hevs|]. split; [exact Hin|].
  exact (proj1 (proj1 (Hm team) Hin)).
Defined.

(** Bob hears Carol's event in the group, and not one in a chat he is not in. *)
Lemma events_stay_in_the_chat_witness :
  let st := demo_events [handshake bob; handshake carol] in
  exists ck, hub_heap (ws_hub st) !! 0%nat = Some ck /\
  (0%nat ∈ ws_open st /\ exists ce, ce_ChatID ce ∈ cl_chatIDs ck /\
     hub_heap (ws_hub (demo_events [handshake bob; handshake carol; says 1 team "hi"])) !! 0%nat =
       Some (mkClient (cl_userID ck) (cl_chatIDs ck)
               (cl_send ck ++ [JObj [("type", marshal_string (ce_Type ce)); ("payload", ce_Payload ce)]]))) /\
  hub_heap (ws_hub (demo_events [handshake bob; handshake carol; says 1 1%N "hi"])) !! 0%nat = Some ck.
Proof.
  cbv zeta. destruct (hub_heap (ws_hub (demo_events [handshake bob; handshake carol])) !! 0%nat) as [ck|] eqn:Hk;
    [|vm_compute in Hk; discriminate Hk].
  exists ck. split; [reflexivity|]. split.
  - destruct (events_stay_in_the_chat demo_jwt_config 10 4096 demo_cache_ttl demo_http (storage_of TypePostgres) None
      [handshake bob; handshake carol] (demo_run demo_setup) 1
      (mkFrame 100 (Some (JObj [("type", JStr "typing"); ("chat_id", JStr (uuid_String team)); ("payload", JStr "hi")]))) 0 ck Hk)
      as [[Hsame _]|(_ & Ho & ce & cj & (_ & _ & _ & _ & Hin & _) & Happ)].
    + exfalso. assert (queued 0 (demo_events [handshake bob; handshake carol; says 1 team "hi"]) <> queued 0 (demo_events [handshake bob; handshake carol])) as Hne
        by (vm_compute; discriminate).
      apply Hne. unfold queued. etransitivity; [exact (f_equal (fun o => match o with Some c => cl_send c | None => [] end) Hsame)|].
      by rewrite Hk.
    + split; [exact Ho|]. exists ce. split; [exact Hin|exact Happ].
  - rewrite <- Hk. vm_compute. reflexivity.
Defined.

Lemma frames_arrive_in_order_witness :
  let st := demo_events [handshake bob; handshake carol] in
  exists cl', hub_heap (ws_hub (ws_run (hc_AllowedOrigins demo_http) 4096 (app_call (storage_of TypePostgres) demo_jwt_config 10 demo_cache_ttl None) [says 1 team "a"; Writes 0; says 1 team "b"] st)) !! 0%nat = Some cl' /\
    length (cl_send cl') = 1%nat.
Proof.
  cbv zeta. set (st := demo_events _).
  destruct (hub_heap (ws_hub st) !! 0%nat) as [cl|] eqn:Hk; [|vm_compute in Hk; discriminate Hk].
  destruct (frames_arrive_in_order demo_jwt_config 10 4096 demo_cache_ttl demo_http (storage_of TypePostgres) None [says 1 team "a"; Writes 0; says 1 team "b"] st 0 cl Hk)
    as (cl' & Hcl' & _). exists cl'. split; [exact Hcl'|].
  enough (length <$> (cl_send <$> Some cl') = Some 1%nat) as H by (injection H; auto).
  rewrite <- Hcl'. vm_compute. reflexivity.
Defined.
